(* ===== verification/_CoqProject ===== *)
-Q . S2P
Prelude.v
GoStd.v
Regex.v
Sha256.v
Primitives.v
Json.v
JsonParse.v
ToolCatalog.v
GoText.v
Ports.v
Discovery.v
CredentialBinding.v
CredentialCache.v
Database.v
Acquisition.v
Attempts.v
Outbox.v
Ledger.v
Http.v
Registry.v
CanonicalJson.v
JsonStruct.v
Authorization.v
GoTime.v
Cursors.v
HttpDiscovery.v
CatalogStore.v
Netip.v
DownstreamHttp.v
GoUrl.v
Oidc.v
Projection.v
Schema.v
ToolCalls.v
HttpCalls.v
Authn.v
AgClient.v
Github.v
Config.v
Providers.v
KubernetesProvider.v
DevelopmentProvider.v
MockConnector.v
Logging.v
ControlStore.v
Postgres.v
Migrations.v
Server.v
Startup.v
Fakes.v
OpenApi.v
InvocationState.v
