(* ===== verification/Prelude.v ===== *)
(** * ThinkPixelTG: verification development

    ThinkPixelTG is a gateway between AI agents and tools.  A caller asks over HTTP to
    run a tool; the gateway authenticates caller and workload, normalizes the arguments,
    acquires the logical call once, has it authorized by ThinkPixelAG, records the
    decision, obtains a short-lived credential, runs a connector against an allowed
    destination, and keeps evidence of all this in PostgreSQL.  This library models the
    Go sources under [src/internal] and [src/cmd] as executable definitions and proves
    what makes them correct.

    ** How the parts are modelled

    Pure Go functions are functions with the source's names and branches, errors
    included ([result], [goerror] below).  A stateful component is a record and one
    function per operation; operations that release a lock in the middle are split there
    and composed by a step relation, so that every interleaving is covered.  A call that
    crosses a boundary is an argument, and where the order of calls matters the
    definition returns the trace of its effects.

    Foundations
    - [Prelude]: results and errors, notations, tactics, hint databases, shared lemmas.
    - [GoStd], [GoText], [GoTime], [GoUrl], [Netip], [Regex], [Sha256]: what is used of
      Go's standard library (strings, Unicode space and case, UTF-8, hex and base64,
      RFC 3339 and durations, [url.Parse], addresses and CIDR, RE2 subset, SHA-256/HMAC).
    - [Json], [JsonParse], [JsonStruct]: JSON values, [encoding/json] reading, writing and
      decoding into structs (case-insensitive members, unknown members, last wins).

    Domain and application
    - [Primitives], [ToolCatalog], [CredentialBinding], [Registry]: [internal/domain] and
      [internal/connectors/registry.go], [internal/app/credential_selection.go].
    - [InvocationState]: [internal/invocationstate/state.go].
    - [CanonicalJson], [Projection], [Schema]: [internal/canonicaljson],
      [internal/resourceprojection], [internal/schema].
    - [Ports], [Authorization], [Discovery], [ToolCalls]: [internal/ports], [internal/app].
    - [CredentialCache]: [internal/credentials]; [Providers] is the interface the cache is
      proved against (a class), [KubernetesProvider] and [DevelopmentProvider] its
      instances ([internal/adapters/credentials]).

    Adapters
    - [Database], [Acquisition], [Attempts], [Outbox], [Ledger], [CatalogStore],
      [ControlStore]: the repositories of [internal/adapters/postgres] with the tables,
      constraints and triggers of the migrations; [Postgres]: error classes, transactions,
      tenant scope; [Migrations]: the pinned migration artifact.
    - [Http], [Cursors], [HttpDiscovery], [HttpCalls], [Server]: [internal/adapters/http];
      [OpenApi]: the bindings generated from the published contract, to which the
      handlers are compared.
    - [Oidc], [Authn]: [internal/authn].
    - [DownstreamHttp]: [internal/connectors/downstreamhttp]; [Github], [MockConnector]:
      [internal/adapters/connectors]; [AgClient]: [internal/adapters/thinkpixelag];
      [Fakes]: [internal/adapters/fakes] and [cmd/governance-fake].
    - [Config], [Logging], [Startup]: [internal/config], [internal/telemetry],
      [cmd/thinkpixeltg].

    ** What the theorems show

    - A call: a connector runs only after acquisition, a valid and recorded decision for
      exactly this request and a resolved credential; a replay never runs; the life cycle
      passes every control ([ToolCalls], [InvocationState]).
    - Ownership: one live owner per logical call, fenced attempts, final completions,
      outbox leases and delivery ([Acquisition], [Attempts], [Outbox]); these are about
      every history of operations.
    - Credentials: the cache owns every capability once and hands out live ones for the
      same key; whatever provider is plugged in, a load is served or released; projected
      tokens are sound; development secrets stay in development.
    - Authorization: narrowing never widens, fresh decisions are current, the client's
      decisions answer its request; evidence is stored once and only grows ([Authorization],
      [AgClient], [Ledger], [ControlStore]).
    - The edge: identities come from verified tokens, requests are admitted, contained and
      answered, administration is guarded, pages list everything once, cursors round-trip,
      logs hide secrets ([Authn], [Oidc], [HttpCalls], [Server], [HttpDiscovery],
      [Cursors], [Logging]); the routers and the documents of the service are those of
      the published contract ([OpenApi]).
    - The outside: only allowed destinations and checked addresses are contacted, bodies
      are bounded, GitHub requests are bound to the projection and classified by proof
      ([DownstreamHttp], [Github]).
    - Data: strict parsing refines [encoding/json], projections select, inspection equals
      its specification, released versions are immutable, version order is SemVer
      ([CanonicalJson], [Projection], [Schema], [CatalogStore], [ToolCatalog]).
    - The process: transactions are atomic, statements stay in their tenant, migrations
      are pinned, the last configured value wins, and start-up and shutdown are balanced
      on every path ([Postgres], [Migrations], [Config], [Startup]).

    ** Fuel

    Recursion that is not structural has fuel computed from the input: readers of text
    use its length, redirects the configured bound plus two ([do_fuel]), eviction,
    inspection and binary search the number of entries, number printing the digits a
    binary64 value can need.  [JsonParse.fuel_enough], [CanonicalJson.parse_fuel_enough],
    [GoTime.duration_fuel], [JsonStruct.raw_members_agree], [HttpDiscovery.bisect_threshold],
    [Schema.inspect_loop_spec] and [DownstreamHttp.http_Do_spec] show that it is enough; the
    readers of media parameters and IPv6 text consume a character with every step.
    Redaction of a log value may not end on a map that contains
    itself, as in the source: [Logging.redaction_terminates] gives the fuel that is enough
    when cycles pass through pointers.

    ** Parameters and conventions

    Code outside the repository is an argument: [jcs.Format], the JSON Schema compiler,
    signature primitives, HTTP exchanges, resolver, dialer and transport, the rendering of
    [jsonb] and of instants, numeric column input, the propagator, the Prometheus registry
    and the trace exporters, the runtime of the OpenAPI generator, goose and pgx.  What a theorem needs of one of them is a
    hypothesis, with a witness.  A nil and an empty slice are identified, a nil receiver
    is not represented, copies are the identity on values.  Instants are nanoseconds since
    year 1, durations keep the width of [int64] where they can overflow, and database
    instants have the resolution of [timestamptz].  A statement is atomic, a failed one
    leaves the tables as they were, a failed commit is a rolled-back one, and [uuid]
    columns hold canonical text.  Case mapping covers ASCII and the listed code points.
    Queries and headers arrive parsed and paths clean.  Where Go iterates over a map the
    order only decides which of several errors is reported.

    ** Not modelled

    The strict server of the generated OpenAPI bindings, which nothing in the repository
    uses; formatting methods that only redact; constructors that
    only check for nil; metric observations beyond their labels; connection handling of
    [net/http], pgx and goose; the parsing of command-line flags; the empty commands
    [cmd/migrate] and [cmd/thinkpixeltg-mcp].  Wall-clock behaviour of
    deadlines is represented by which of two events comes first. *)
From stdpp Require Export base gmap strings list numbers option.
From Stdlib Require Export ZArith Lia.

#[global] Open Scope Z_scope.

(** ** Go errors and fallible results *)

(** [domain.ErrorCode] is an open Go string type. *)
Abbreviation ErrorCode := string (only parsing).

(** A Go [error] value: [errors.New], [*domain.Error] and an error wrapped by
    [fmt.Errorf] with [%w]. *)
Inductive goerror :=
| ErrNew (msg : string)
| ErrDomain (code : ErrorCode) (msg : string) (cause : option goerror)
| ErrWrap (msg : string) (inner : goerror).

Inductive result (A : Type) :=
| Ok (a : A)
| Err (e : goerror).
Arguments Ok {A} a.
Arguments Err {A} e.

#[global] Instance result_ret : MRet result := fun A => Ok.
#[global] Instance result_bind : MBind result := fun A B f m =>
  match m with Ok a => f a | Err e => Err e end.
#[global] Instance result_fmap : FMap result := fun A B f m =>
  match m with Ok a => Ok (f a) | Err e => Err e end.

Definition is_ok {A} (r : result A) : bool :=
  match r with Ok _ => true | Err _ => false end.

Definition is_some {A} (o : option A) : bool :=
  match o with Some _ => true | None => false end.

(** ** Generic lemmas *)

Section Result.
Context {A B : Type}.

Lemma result_bind_Ok (m : result A) (f : A -> result B) b :
  (m ≫= f) = Ok b <-> exists a, m = Ok a /\ f a = Ok b.
Proof. destruct m; simpl; naive_solver. Qed.

Lemma result_bind_Err (m : result A) (f : A -> result B) e :
  (m ≫= f) = Err e <-> m = Err e \/ exists a, m = Ok a /\ f a = Err e.
Proof. destruct m; simpl; naive_solver. Qed.

Lemma is_ok_true (r : result A) : is_ok r = true <-> exists a, r = Ok a.
Proof. destruct r; simpl; naive_solver. Qed.

End Result.

(** ** Automation *)

Create Rewrite HintDb gobool.
#[export] Hint Rewrite orb_true_iff orb_false_iff andb_true_iff andb_false_iff
  negb_true_iff negb_false_iff bool_decide_eq_true bool_decide_eq_false
  Z.ltb_lt Z.ltb_ge Z.leb_le Z.leb_gt Z.eqb_eq Z.eqb_neq
  String.eqb_eq String.eqb_neq : gobool.

(** Turn the boolean tests of the code into the propositions they decide. *)
Ltac to_prop := autorewrite with gobool in *.

(** Follow every branch of the code in the hypotheses and the goal. *)
Ltac branches := repeat (case_match; simplify_eq).

(** ** Machine integers *)

Definition max_int64 : Z := 2 ^ 63 - 1.
Definition min_int64 : Z := - 2 ^ 63.

(** Two's complement wrap-around of an [int64] result. *)
Definition wrap_int64 (z : Z) : Z := (z + 2 ^ 63) mod 2 ^ 64 - 2 ^ 63.

Definition is_int64 (z : Z) : Prop := min_int64 <= z <= max_int64.

Lemma wrap_int64_id z : is_int64 z -> wrap_int64 z = z.
Proof.
  unfold is_int64, wrap_int64, min_int64, max_int64. intros.
  rewrite Z.mod_small; lia.
Qed.

Lemma wrap_int64_range z : is_int64 (wrap_int64 z).
Proof.
  unfold is_int64, wrap_int64, min_int64, max_int64.
  pose proof (Z.mod_pos_bound (z + 2 ^ 63) (2 ^ 64)). lia.
Qed.

(** ** Checking every number of an interval *)

Fixpoint all_from (p : Z -> bool) (n : nat) (z : Z) : bool :=
  match n with O => true | S n => p z && all_from p n (z + 1) end.

Lemma all_from_spec p n m z : all_from p n z = true -> Z.of_nat n = m -> forall k, z <= k < z + m -> p k = true.
Proof.
  intros H <-. revert z H. induction n as [|n IH]; intros z H k Hk; [lia|].
  cbn [all_from] in H. apply andb_true_iff in H as [Hz H].
  destruct (decide (k = z)) as [->|]; [done|]. apply (IH (z + 1) H). lia.
Qed.
