(* ===== verification/GoStd.v ===== *)
(** * Go's standard library, as far as the gateway uses it

    Strings and byte slices are Rocq [string]s (sequences of bytes), [time.Time]
    is a count of nanoseconds since the zero time, an [int64] is a [Z] in range.
    The functions of [strings], [bytes], [encoding/hex] and [time] the source
    calls are written out here, with the lemmas the components share. *)
From Stdlib Require Import Ascii String Floats.SpecFloat.
From S2P Require Import Prelude.

#[global] Arguments String.append : simpl nomatch.

(** ** Bytes *)

Definition byte_val (c : ascii) : Z := Z.of_N (N_of_ascii c).

(** Go's conversion [byte(z)]: the low eight bits. *)
Definition byte (z : Z) : ascii := ascii_of_N (Z.to_N (z mod 256)).

Definition byte_in (lo hi : Z) (c : ascii) : bool :=
  (lo <=? byte_val c) && (byte_val c <=? hi).

Definition is_digit : ascii -> bool := byte_in 48 57.
Definition is_lower : ascii -> bool := byte_in 97 122.
Definition is_upper : ascii -> bool := byte_in 65 90.

(** ** Strings *)

(** Go's [len]. *)
Definition slen (s : string) : Z := Z.of_nat (String.length s).

Definition str_of (l : list ascii) : string := string_of_list_ascii l.
Definition bytes_of (s : string) : list ascii := list_ascii_of_string s.

Fixpoint str_forallb (p : ascii -> bool) (s : string) : bool :=
  match s with
  | EmptyString => true
  | String c s => p c && str_forallb p s
  end.

Definition str_existsb (p : ascii -> bool) (s : string) : bool :=
  negb (str_forallb (fun c => negb (p c)) s).

(** [strings.Contains] and [strings.ContainsAny] for one-byte characters. *)
Definition contains_byte (c : ascii) (s : string) : bool := str_existsb (Ascii.eqb c) s.
Definition contains_any (s chars : string) : bool :=
  str_existsb (fun c => contains_byte c chars) s.

(** [strings.HasPrefix], and what remains after the prefix. *)
Fixpoint cut_prefix (p s : string) : option string :=
  match p, s with
  | EmptyString, _ => Some s
  | String a p, String b s => if Ascii.eqb a b then cut_prefix p s else None
  | _, _ => None
  end.
Definition has_prefix (s p : string) : bool := is_some (cut_prefix p s).

(** [strings.Cut] on a one-byte separator. *)
Fixpoint cut_on (sep : ascii) (s : string) : string * string * bool :=
  match s with
  | EmptyString => (EmptyString, EmptyString, false)
  | String c s =>
      if Ascii.eqb c sep then (EmptyString, s, true)
      else let '(before, after, found) := cut_on sep s in
           (String c before, after, found)
  end.

(** [strings.Split] on a one-byte separator. *)
Fixpoint split_on (sep : ascii) (s : string) : list string :=
  match s with
  | EmptyString => [EmptyString]
  | String c s =>
      if Ascii.eqb c sep then EmptyString :: split_on sep s
      else match split_on sep s with
           | [] => [String c EmptyString]
           | piece :: rest => String c piece :: rest
           end
  end.

(** [strings.ReplaceAll(s, c, "")] for a one-byte [c]. *)
Fixpoint remove_byte (c : ascii) (s : string) : string :=
  match s with
  | EmptyString => EmptyString
  | String d s => if Ascii.eqb d c then remove_byte c s else String d (remove_byte c s)
  end.

(** Go's [<] on strings: byte-wise lexicographic order. *)
Definition str_ltb (a b : string) : bool :=
  match String.compare a b with Lt => true | _ => false end.

(** ** [strings.TrimSpace] and [bytes.TrimSpace]

    [unicode.IsSpace] by the UTF-8 encodings of the White_Space code points. *)

Definition space1 (a : ascii) : bool := byte_in 9 13 a || (byte_val a =? 32).
Definition space2 (a b : ascii) : bool :=
  (byte_val a =? 194) && ((byte_val b =? 133) || (byte_val b =? 160)).
Definition space3 (a b c : ascii) : bool :=
  let a := byte_val a in let b := byte_val b in let c := byte_val c in
  ((a =? 225) && (b =? 154) && (c =? 128)) ||
  ((a =? 226) && (b =? 128) &&
     (((128 <=? c) && (c <=? 138)) || (c =? 168) || (c =? 169) || (c =? 175))) ||
  ((a =? 226) && (b =? 129) && (c =? 159)) ||
  ((a =? 227) && (b =? 128) && (c =? 128)).

Fixpoint strip (s2 : ascii -> ascii -> bool) (s3 : ascii -> ascii -> ascii -> bool)
    (l : list ascii) : list ascii :=
  match l with
  | [] => []
  | a :: l1 =>
      if space1 a then strip s2 s3 l1 else
      match l1 with
      | [] => l
      | b :: l2 =>
          if s2 a b then strip s2 s3 l2 else
          match l2 with
          | [] => l
          | c :: l3 => if s3 a b c then strip s2 s3 l3 else l
          end
      end
  end.

Definition TrimSpace (s : string) : string :=
  let left := strip space2 space3 (bytes_of s) in
  str_of (rev (strip (fun a b => space2 b a) (fun a b c => space3 c b a) (rev left))).

(** ** [encoding/hex] *)

Definition hex_digit (z : Z) : ascii := if z <? 10 then byte (48 + z) else byte (87 + z).

Definition hex_val (c : ascii) : option Z :=
  if is_digit c then Some (byte_val c - 48)
  else if byte_in 97 102 c then Some (byte_val c - 87)
  else if byte_in 65 70 c then Some (byte_val c - 55)
  else None.

(** [hex.EncodeToString] *)
Fixpoint hex_encode (s : string) : string :=
  match s with
  | EmptyString => EmptyString
  | String c s =>
      String (hex_digit (Z.shiftr (byte_val c) 4))
        (String (hex_digit (Z.land (byte_val c) 15)) (hex_encode s))
  end.

(** [hex.DecodeString]; [None] is [ErrLength] or [InvalidByteError]. *)
Fixpoint hex_decode (s : string) : option string :=
  match s with
  | EmptyString => Some EmptyString
  | String _ EmptyString => None
  | String a (String b s) =>
      match hex_val a, hex_val b, hex_decode s with
      | Some x, Some y, Some rest => Some (String (byte (Z.lor (Z.shiftl x 4) y)) rest)
      | _, _, _ => None
      end
  end.

(** [strings.ToLower] on ASCII text. *)
Definition lower_byte (c : ascii) : ascii :=
  if is_upper c then byte (byte_val c + 32) else c.
Fixpoint to_lower (s : string) : string :=
  match s with
  | EmptyString => EmptyString
  | String c s => String (lower_byte c) (to_lower s)
  end.

(** ** [time] *)

Definition Millisecond : Z := 1000000.
Definition Second : Z := 1000000000.
Definition Minute : Z := 60 * Second.
Definition Hour : Z := 60 * Minute.

(** 1970-01-01T00:00:00Z counted from 0001-01-01T00:00:00Z. *)
Definition unix_epoch : Z := 62135596800 * Second.

(** [time.Time.IsZero] *)
Definition IsZero (t : Z) : bool := t =? 0.

(** [time.Time.Sub] saturates at the bounds of [time.Duration]. *)
Definition time_Sub (t u : Z) : Z := Z.max min_int64 (Z.min max_int64 (t - u)).

(** [time.Time.UnixMilli] *)
Definition UnixMilli (t : Z) : Z := wrap_int64 ((t - unix_epoch) / Millisecond).

(** ** binary64 *)

Definition float64_add := SFadd 53 1024.
Definition float64_sub := SFsub 53 1024.
Definition float64_mul := SFmul 53 1024.
Definition float64_div := SFdiv 53 1024.
Definition float64_of_int64 (z : Z) : spec_float := binary_normalize 53 1024 z 0 false.
Definition float64_one : spec_float := float64_of_int64 1.
Definition float64_two : spec_float := float64_of_int64 2.

Definition int64_of_float64 (f : spec_float) : Z :=
  match f with
  | S754_zero _ => 0
  | S754_finite s m e =>
      let magnitude := if 0 <=? e then Z.pos m * 2 ^ e else Z.pos m / 2 ^ (- e) in
      let z := if s then - magnitude else magnitude in
      if (min_int64 <=? z) && (z <=? max_int64) then z else min_int64
  | _ => min_int64
  end.

(** ** Lemmas: bytes *)

Lemma byte_val_range c : 0 <= byte_val c < 256.
Proof. unfold byte_val. pose proof (N_ascii_bounded c). lia. Qed.

Lemma byte_val_byte z : byte_val (byte z) = z mod 256.
Proof.
  unfold byte_val, byte. pose proof (Z.mod_pos_bound z 256).
  rewrite N_ascii_embedding by lia. lia.
Qed.

Lemma byte_byte_val c : byte (byte_val c) = c.
Proof.
  unfold byte. rewrite Z.mod_small by apply byte_val_range.
  unfold byte_val. rewrite N2Z.id. apply ascii_N_embedding.
Qed.

(** A decidable property of one byte holds if it holds of all 256. *)
Lemma forall_byte (p : ascii -> bool) :
  forallb (fun n => p (ascii_of_nat n)) (seq 0 256) = true -> forall c, p c = true.
Proof.
  rewrite forallb_forall. intros H c.
  rewrite <- (ascii_nat_embedding c). apply H. rewrite in_seq.
  pose proof (nat_ascii_bounded c). lia.
Qed.

Lemma byte_val_inj a b : byte_val a = byte_val b -> a = b.
Proof. intros H. by rewrite <- (byte_byte_val a), H, byte_byte_val. Qed.

Lemma hex_val_digit_hi c : hex_val (hex_digit (Z.shiftr (byte_val c) 4)) = Some (Z.shiftr (byte_val c) 4).
Proof.
  apply (bool_decide_eq_true_1 (hex_val _ = Some _)).
  revert c. apply forall_byte. vm_compute. reflexivity.
Qed.

Lemma hex_val_digit_lo c : hex_val (hex_digit (Z.land (byte_val c) 15)) = Some (Z.land (byte_val c) 15).
Proof.
  apply (bool_decide_eq_true_1 (hex_val _ = Some _)).
  revert c. apply forall_byte. vm_compute. reflexivity.
Qed.

Lemma hex_join c :
  byte (Z.lor (Z.shiftl (Z.shiftr (byte_val c) 4) 4) (Z.land (byte_val c) 15)) = c.
Proof.
  apply (bool_decide_eq_true_1 (byte _ = c)).
  revert c. apply forall_byte. vm_compute. reflexivity.
Qed.

Lemma hex_val_range c z : hex_val c = Some z -> 0 <= z < 16.
Proof.
  unfold hex_val, is_digit, byte_in. intros. branches; to_prop; lia.
Qed.

Lemma hex_digit_val c z : hex_val c = Some z -> hex_digit z = lower_byte c.
Proof.
  intros H.
  assert (Hb : match hex_val c with
               | Some z => bool_decide (hex_digit z = lower_byte c)
               | None => true end = true).
  { revert c H. intros c _. revert c. apply forall_byte. vm_compute. reflexivity. }
  rewrite H in Hb. by apply bool_decide_eq_true in Hb.
Qed.

Lemma nibbles_join x y : 0 <= x < 16 -> 0 <= y < 16 ->
  Z.lor (Z.shiftl x 4) y = x * 16 + y.
Proof.
  intros Hx Hy. rewrite Z.shiftl_mul_pow2 by lia.
  assert (H : Z.land (x * 2 ^ 4) y = 0).
  { apply Z.bits_inj'. intros n Hn. rewrite Z.land_spec, Z.bits_0.
    destruct (Z.ltb_spec n 4).
    - by rewrite Z.mul_pow2_bits_low.
    - rewrite (Z.bits_above_log2 y n); [by rewrite andb_false_r|lia|].
      destruct (decide (y = 0)) as [->|]; [simpl; lia|].
      apply Z.log2_lt_pow2; [lia|].
      assert (2 ^ 4 <= 2 ^ n) by (apply Z.pow_le_mono_r; lia). lia. }
  rewrite <- (Z.add_0_r (Z.lor _ _)), <- H. rewrite Z.add_comm.
  pose proof (Z.add_lor_land (x * 2 ^ 4) y). lia.
Qed.

Lemma nibbles_split x y : 0 <= x < 16 -> 0 <= y < 16 ->
  byte_val (byte (Z.lor (Z.shiftl x 4) y)) = x * 16 + y.
Proof. intros. rewrite byte_val_byte, nibbles_join by lia. apply Z.mod_small. lia. Qed.

(** ** Lemmas: strings *)

Lemma slen_nonneg s : 0 <= slen s.
Proof. unfold slen. lia. Qed.

Lemma length_append a b : String.length (a +:+ b) = (String.length a + String.length b)%nat.
Proof. induction a as [|c a IH]; simpl; [done|by rewrite IH]. Qed.

Lemma slen_append a b : slen (a +:+ b) = slen a + slen b.
Proof. unfold slen. rewrite length_append. lia. Qed.

Lemma append_nil_r a : a +:+ EmptyString = a.
Proof. induction a as [|c a IH]; simpl; [done|by rewrite IH]. Qed.

Lemma cut_prefix_split p s rest : cut_prefix p s = Some rest -> s = p +:+ rest.
Proof.
  revert s. induction p as [|a p IH]; intros s; cbn [cut_prefix]; [by intros E%(inj Some)|]. destruct s as [|b s]; [done|].
  destruct (Ascii.eqb_spec a b) as [<-|]; [|done]. intros ->%IH. done.
Qed.

Lemma append_assoc a b c : a +:+ (b +:+ c) = (a +:+ b) +:+ c.
Proof. induction a as [|x a IH]; simpl; [done|by rewrite IH]. Qed.

Lemma append_inj_length a a' b b' :
  String.length a = String.length a' -> a +:+ b = a' +:+ b' -> a = a' /\ b = b'.
Proof.
  revert a'. induction a as [|c a IH]; intros [|c' a']; simpl; try done.
  intros [= Hl] [= -> H]. by destruct (IH _ Hl H) as [-> ->].
Qed.

Lemma string_split_at (n : nat) s : (n <= String.length s)%nat ->
  exists a b, s = a +:+ b /\ String.length a = n.
Proof.
  revert s. induction n as [|n IH]; intros s H.
  - by exists EmptyString, s.
  - destruct s as [|c s]; simpl in H; [lia|].
    destruct (IH s) as (a & b & -> & Hl); [lia|].
    exists (String c a), b. simpl. by rewrite Hl.
Qed.

Lemma get_append_l (n : nat) a b : (n < String.length a)%nat ->
  String.get n (a +:+ b) = String.get n a.
Proof. intros. symmetry. by apply append_correct1. Qed.

Lemma get_append_r (n : nat) a b : (String.length a <= n)%nat ->
  String.get n (a +:+ b) = String.get (n - String.length a) b.
Proof.
  intros. rewrite (append_correct2 a b). f_equal. lia.
Qed.

Lemma remove_byte_append c a b :
  remove_byte c (a +:+ b) = remove_byte c a +:+ remove_byte c b.
Proof.
  induction a as [|d a IH]; simpl; [done|]. case_match; by rewrite IH.
Qed.

Lemma remove_byte_length c s : (String.length (remove_byte c s) <= String.length s)%nat.
Proof. induction s; simpl; [done|]. case_match; simpl; lia. Qed.

Lemma remove_byte_same c s :
  String.length (remove_byte c s) = String.length s -> remove_byte c s = s.
Proof.
  induction s as [|d s IH]; simpl; [done|].
  pose proof (remove_byte_length c s). case_match; simpl; [lia|].
  intros [= H1]. by rewrite IH.
Qed.

Lemma remove_byte_absent c s : str_forallb (fun d => negb (Ascii.eqb d c)) s = true ->
  remove_byte c s = s.
Proof.
  induction s as [|d s IH]; simpl; [done|].
  rewrite andb_true_iff, negb_true_iff. intros [-> H]. by rewrite IH.
Qed.

Lemma str_forallb_append p a b :
  str_forallb p (a +:+ b) = str_forallb p a && str_forallb p b.
Proof. induction a; simpl; [done|]. rewrite IHa. by rewrite andb_assoc. Qed.

Lemma str_forallb_mono (p q : ascii -> bool) s :
  (forall c, p c = true -> q c = true) -> str_forallb p s = true -> str_forallb q s = true.
Proof.
  intros H. induction s; simpl; [done|]. rewrite !andb_true_iff. naive_solver.
Qed.

(** ** Lemmas: hexadecimal *)

Lemma hex_encode_append a b : hex_encode (a +:+ b) = hex_encode a +:+ hex_encode b.
Proof. induction a as [|c a IH]; simpl; [done|by rewrite IH]. Qed.

Lemma hex_encode_length s : String.length (hex_encode s) = (2 * String.length s)%nat.
Proof. induction s as [|c s IH]; simpl; [done|]. rewrite IH. lia. Qed.

Lemma hex_decode_encode s : hex_decode (hex_encode s) = Some s.
Proof.
  induction s as [|c s IH]; [done|]. simpl hex_encode. cbn [hex_decode].
  by rewrite hex_val_digit_hi, hex_val_digit_lo, IH, hex_join.
Qed.

(** Every decodable text is the lower-case encoding up to the case of its digits. *)
Lemma hex_encode_inj a b : hex_encode a = hex_encode b -> a = b.
Proof. intros E. apply (f_equal hex_decode) in E. rewrite !hex_decode_encode in E. congruence. Qed.

Lemma hex_encode_decode s d : hex_decode s = Some d -> hex_encode d = to_lower s.
Proof.
  revert d. induction s as [s IH] using (induction_ltof1 _ String.length).
  unfold ltof in IH. intros d. destruct s as [|a [|b s]]; simpl; try (intros; by simplify_eq).
  destruct (hex_val a) as [x|] eqn:Ha; [|done].
  destruct (hex_val b) as [y|] eqn:Hb; [|done].
  destruct (hex_decode s) as [r|] eqn:Hr; [|done].
  intros [= <-]. simpl.
  pose proof (hex_val_range _ _ Ha). pose proof (hex_val_range _ _ Hb).
  rewrite nibbles_split by lia.
  replace (Z.shiftr (x * 16 + y) 4) with x; cycle 1.
  { rewrite Z.shiftr_div_pow2 by lia. change (2 ^ 4) with 16.
    apply (Z.div_unique _ _ _ y); lia. }
  replace (Z.land (x * 16 + y) 15) with y; cycle 1.
  { change 15 with (Z.ones 4). rewrite Z.land_ones by lia. change (2 ^ 4) with 16.
    apply (Z.mod_unique _ _ x); lia. }
  rewrite (hex_digit_val a), (hex_digit_val b) by done.
  rewrite (IH s) by (done || simpl; lia). done.
Qed.

Lemma hex_encode_no_dash s :
  str_forallb (fun d => negb (Ascii.eqb d "-"%char)) (hex_encode s) = true.
Proof.
  induction s as [|c s IH]; [done|]. simpl. rewrite IH, andb_true_r.
  revert c. apply forall_byte. vm_compute. reflexivity.
Qed.

Lemma hex_decode_length s d : hex_decode s = Some d ->
  String.length s = (2 * String.length d)%nat.
Proof.
  revert d. induction s as [s IH] using (induction_ltof1 _ String.length).
  unfold ltof in IH. intros d. destruct s as [|a [|b s]]; simpl; try (intros; by simplify_eq).
  destruct (hex_val a), (hex_val b), (hex_decode s) as [r|] eqn:Hr; try done.
  intros [= <-]. simpl. rewrite (IH s ltac:(simpl; lia) r Hr). lia.
Qed.
