(* ===== verification/Regex.v ===== *)
(** * Regular expressions

    The patterns of the gateway are anchored at both ends and built from ASCII
    classes, so [regexp.MatchString] decides membership in a regular language.
    A pattern is a syntax tree, [matches] decides it by Brzozowski derivatives,
    and [matches_spec] states that the decision is the language's. *)
From Stdlib Require Import Ascii String.
From S2P Require Import Prelude GoStd.

Inductive regex :=
| RNone
| REps
| RClass (p : ascii -> bool)
| RSeq (r1 r2 : regex)
| RAlt (r1 r2 : regex)
| RStar (r : regex).

(** The language of an expression. *)
Inductive in_re : regex -> list ascii -> Prop :=
| in_eps : in_re REps []
| in_class p c : p c = true -> in_re (RClass p) [c]
| in_seq r1 r2 l1 l2 : in_re r1 l1 -> in_re r2 l2 -> in_re (RSeq r1 r2) (l1 ++ l2)
| in_alt_l r1 r2 l : in_re r1 l -> in_re (RAlt r1 r2) l
| in_alt_r r1 r2 l : in_re r2 l -> in_re (RAlt r1 r2) l
| in_star_nil r : in_re (RStar r) []
| in_star_app r l1 l2 : in_re r l1 -> in_re (RStar r) l2 -> in_re (RStar r) (l1 ++ l2).

Fixpoint nullable (r : regex) : bool :=
  match r with
  | RNone | RClass _ => false
  | REps | RStar _ => true
  | RSeq r1 r2 => nullable r1 && nullable r2
  | RAlt r1 r2 => nullable r1 || nullable r2
  end.

Definition mk_seq (r1 r2 : regex) : regex :=
  match r1, r2 with
  | RNone, _ | _, RNone => RNone
  | REps, _ => r2
  | _, _ => RSeq r1 r2
  end.

Definition mk_alt (r1 r2 : regex) : regex :=
  match r1, r2 with
  | RNone, _ => r2
  | _, RNone => r1
  | _, _ => RAlt r1 r2
  end.

Fixpoint deriv (c : ascii) (r : regex) : regex :=
  match r with
  | RNone | REps => RNone
  | RClass p => if p c then REps else RNone
  | RSeq r1 r2 =>
      if nullable r1 then mk_alt (mk_seq (deriv c r1) r2) (deriv c r2)
      else mk_seq (deriv c r1) r2
  | RAlt r1 r2 => mk_alt (deriv c r1) (deriv c r2)
  | RStar r => mk_seq (deriv c r) (RStar r)
  end.

Fixpoint matches_bytes (r : regex) (l : list ascii) : bool :=
  match l with
  | [] => nullable r
  | c :: l => matches_bytes (deriv c r) l
  end.

Definition matches (r : regex) (s : string) : bool := matches_bytes r (bytes_of s).

(** Notation of the source's patterns. *)
Definition RChar (c : ascii) : regex := RClass (Ascii.eqb c).
Definition RPlus (r : regex) : regex := RSeq r (RStar r).
Definition ROpt (r : regex) : regex := RAlt r REps.
Definition ROf (chars : string) : regex := RClass (fun c => contains_byte c chars).
Definition one_of (ps : list (ascii -> bool)) : regex :=
  RClass (fun c => existsb (fun p => p c) ps).

Lemma in_seq_inv r1 r2 l : in_re (RSeq r1 r2) l ->
  exists l1 l2, l = l1 ++ l2 /\ in_re r1 l1 /\ in_re r2 l2.
Proof. inversion 1; subst; eauto. Qed.

Lemma in_alt_inv r1 r2 l : in_re (RAlt r1 r2) l <-> in_re r1 l \/ in_re r2 l.
Proof. split; [inversion 1; subst; eauto | intros []; eauto using in_re]. Qed.

Lemma in_none l : in_re RNone l <-> False.
Proof. split; [inversion 1 | done]. Qed.

Lemma mk_seq_spec r1 r2 l : in_re (mk_seq r1 r2) l <-> in_re (RSeq r1 r2) l.
Proof.
  split.
  - intros H. assert (Heps : forall r, in_re r l -> in_re (RSeq REps r) l).
    { intros r Hr. change l with ([] ++ l). eauto using in_re. }
    destruct r1, r2; simpl in H; eauto; by apply in_none in H.
  - intros (l1 & l2 & -> & H1 & H2)%in_seq_inv.
    destruct r2; try (by apply in_none in H2);
      destruct r1; simpl; try (by apply in_none in H1); try (by constructor);
      inversion H1; subst; done.
Qed.

Lemma mk_alt_spec r1 r2 l : in_re (mk_alt r1 r2) l <-> in_re r1 l \/ in_re r2 l.
Proof.
  pose proof (in_none l).
  destruct r1, r2; simpl; rewrite ?in_alt_inv; tauto.
Qed.

Lemma nullable_spec r : nullable r = true <-> in_re r [].
Proof.
  induction r as [| | |r1 IH1 r2 IH2|r1 IH1 r2 IH2|r IH]; simpl.
  - by rewrite in_none.
  - split; eauto using in_re.
  - split; [done|inversion 1].
  - rewrite andb_true_iff, IH1, IH2. split.
    + intros []. change (@nil ascii) with (@nil ascii ++ []). by constructor.
    + intros (l1 & l2 & H & ? & ?)%in_seq_inv.
      symmetry in H. apply app_eq_nil in H as [-> ->]. done.
  - rewrite orb_true_iff, IH1, IH2, in_alt_inv. done.
  - split; eauto using in_re.
Qed.

Lemma in_star_cons r c l : in_re (RStar r) (c :: l) ->
  exists l1 l2, l = l1 ++ l2 /\ in_re r (c :: l1) /\ in_re (RStar r) l2.
Proof.
  intros H. remember (RStar r) as e eqn:He. remember (c :: l) as w eqn:Hw.
  revert c l Hw. induction H as [| | | | | |r' l1 l2 H1 _ H2 IH]; try done.
  intros c l Hw. simplify_eq. destruct l1 as [|d l1]; simpl in Hw; simplify_eq.
  - by apply IH.
  - eauto.
Qed.

Lemma deriv_spec c r l : in_re (deriv c r) l <-> in_re r (c :: l).
Proof.
  revert l. induction r as [| |p|r1 IH1 r2 IH2|r1 IH1 r2 IH2|r IH]; intros l; simpl.
  - by rewrite !in_none.
  - rewrite in_none. split; [done|inversion 1].
  - destruct (p c) eqn:Hp.
    + split; [inversion 1; subst; by constructor | inversion 1; subst; constructor].
    + rewrite in_none. split; [done|]. inversion 1; subst; congruence.
  - assert (Hd : in_re (mk_seq (deriv c r1) r2) l <->
                 exists l1 l2, l = l1 ++ l2 /\ in_re r1 (c :: l1) /\ in_re r2 l2).
    { rewrite mk_seq_spec. split.
      - intros (l1 & l2 & -> & H1%IH1 & H2)%in_seq_inv. eauto.
      - intros (l1 & l2 & -> & H1%IH1 & H2). by constructor. }
    assert (Hs : in_re (RSeq r1 r2) (c :: l) <->
                 (in_re r1 [] /\ in_re r2 (c :: l)) \/
                 exists l1 l2, l = l1 ++ l2 /\ in_re r1 (c :: l1) /\ in_re r2 l2).
    { split.
      - intros ([|d l1] & l2 & Hl & H1 & H2)%in_seq_inv; simpl in Hl; simplify_eq; eauto 10.
      - intros [[H1 H2]|(l1 & l2 & -> & H1 & H2)].
        + change (c :: l) with ([] ++ c :: l). by constructor.
        + change (c :: l1 ++ l2) with ((c :: l1) ++ l2). by constructor. }
    rewrite Hs. destruct (nullable r1) eqn:Hn.
    + rewrite mk_alt_spec, Hd, IH2. apply nullable_spec in Hn. tauto.
    + rewrite Hd. pose proof (proj2 (nullable_spec r1)). rewrite Hn in *.
      split; [tauto|]. intros [[]|]; [|done]. exfalso. by assert (false = true) by tauto.
  - rewrite mk_alt_spec, in_alt_inv. by rewrite IH1, IH2.
  - rewrite mk_seq_spec. split.
    + intros (l1 & l2 & -> & H1%IH & H2)%in_seq_inv.
      change (c :: l1 ++ l2) with ((c :: l1) ++ l2). by constructor.
    + intros (l1 & l2 & -> & H1%IH & H2)%in_star_cons. by constructor.
Qed.

Lemma matches_bytes_spec r l : matches_bytes r l = true <-> in_re r l.
Proof.
  revert r. induction l as [|c l IH]; intros r; simpl; [apply nullable_spec|].
  rewrite IH. apply deriv_spec.
Qed.

(** The matcher decides the language of the pattern. *)
Lemma matches_spec r s : matches r s = true <-> in_re r (bytes_of s).
Proof. apply matches_bytes_spec. Qed.

(** ** Consequences used by the components *)

(** Every byte of a matched text is accepted by some class of the pattern. *)
Fixpoint re_bytes (r : regex) (c : ascii) : bool :=
  match r with
  | RNone | REps => false
  | RClass p => p c
  | RSeq r1 r2 | RAlt r1 r2 => re_bytes r1 c || re_bytes r2 c
  | RStar r => re_bytes r c
  end.

Lemma in_re_bytes r l : in_re r l -> Forall (fun c => re_bytes r c = true) l.
Proof.
  induction 1; simpl; auto;
    rewrite ?Forall_app, ?Forall_singleton; repeat split; auto;
    eapply Forall_impl; eauto; intros c Hc; simpl in *; rewrite ?Hc, ?orb_true_r; auto.
Qed.

Lemma str_forallb_Forall p s :
  str_forallb p s = true <-> Forall (fun c => p c = true) (bytes_of s).
Proof.
  unfold bytes_of. induction s as [|c s IH]; simpl; [split; [constructor|done]|].
  rewrite andb_true_iff, IH. symmetry. apply Forall_cons_iff.
Qed.

Lemma matches_bytes_in r s (p : ascii -> bool) :
  (forall c, re_bytes r c = true -> p c = true) -> matches r s = true ->
  str_forallb p s = true.
Proof.
  rewrite matches_spec, str_forallb_Forall. intros Hp H%in_re_bytes.
  induction H; constructor; auto.
Qed.
