(* ===== verification/Sha256.v ===== *)
(** * SHA-256 and HMAC-SHA-256

    [crypto/sha256] and [crypto/hmac] after FIPS 180-4 and RFC 2104, executable,
    with the published test vectors as examples. *)
From Stdlib Require Import Ascii String.
From S2P Require Import Prelude GoStd.

Definition word (z : Z) : Z := z mod 2 ^ 32.
Definition wadd (a b : Z) : Z := word (a + b).
Definition rotr (n x : Z) : Z := Z.lor (Z.shiftr x n) (word (Z.shiftl x (32 - n))).
Definition wnot (x : Z) : Z := 2 ^ 32 - 1 - x.

Definition Ch (x y z : Z) : Z := Z.lxor (Z.land x y) (Z.land (wnot x) z).
Definition Maj (x y z : Z) : Z := Z.lxor (Z.lxor (Z.land x y) (Z.land x z)) (Z.land y z).
Definition Sigma0 (x : Z) : Z := Z.lxor (Z.lxor (rotr 2 x) (rotr 13 x)) (rotr 22 x).
Definition Sigma1 (x : Z) : Z := Z.lxor (Z.lxor (rotr 6 x) (rotr 11 x)) (rotr 25 x).
Definition sigma0 (x : Z) : Z := Z.lxor (Z.lxor (rotr 7 x) (rotr 18 x)) (Z.shiftr x 3).
Definition sigma1 (x : Z) : Z := Z.lxor (Z.lxor (rotr 17 x) (rotr 19 x)) (Z.shiftr x 10).

(** The constants are the first 32 fractional bits of the cube roots (rounds) and
    square roots (initial state) of the first primes. *)
Definition is_prime (n : Z) : bool :=
  forallb (fun d => negb (n mod Z.of_nat d =? 0)) (seq 2 (Z.to_nat n - 2)).

Definition primes : list Z :=
  Eval vm_compute in List.filter is_prime (map Z.of_nat (seq 2 310)).

(** The integer cube root, one bit at a time from the top. *)
Fixpoint cube_root (bits : nat) (n r : Z) : Z :=
  match bits with
  | O => r
  | S bits =>
      let r' := r + 2 ^ Z.of_nat bits in
      cube_root bits n (if r' ^ 3 <=? n then r' else r)
  end.

Definition round_constants : list Z :=
  Eval vm_compute in map (fun p => word (cube_root 36 (p * 2 ^ 96) 0)) (take 64 primes).

Record hash_state := HashState { ha : Z; hb : Z; hc : Z; hd : Z; he : Z; hf : Z; hg : Z; hh : Z }.

Definition initial_hash : hash_state :=
  Eval vm_compute in
  match map (fun p => word (Z.sqrt (p * 2 ^ 64))) (take 8 primes) with
  | [a; b; c; d; e; f; g; h] => HashState a b c d e f g h
  | _ => HashState 0 0 0 0 0 0 0 0
  end.

(** Big-endian words of a block; bytes are consumed four at a time. *)
Fixpoint be_words (l : list ascii) : list Z :=
  match l with
  | a :: b :: c :: d :: l =>
      (byte_val a * 2 ^ 24 + byte_val b * 2 ^ 16 + byte_val c * 2 ^ 8 + byte_val d)
        :: be_words l
  | _ => []
  end.

(** The message schedule, newest word first. *)
Fixpoint schedule (n : nat) (w : list Z) : list Z :=
  match n with
  | O => w
  | S n =>
      let next := wadd (wadd (sigma1 (nth 1 w 0)) (nth 6 w 0))
                       (wadd (sigma0 (nth 14 w 0)) (nth 15 w 0)) in
      schedule n (next :: w)
  end.

Definition round (s : hash_state) (kw : Z * Z) : hash_state :=
  let '(k, w) := kw in
  let t1 := wadd (wadd (wadd (hh s) (Sigma1 (he s))) (wadd (Ch (he s) (hf s) (hg s)) k)) w in
  let t2 := wadd (Sigma0 (ha s)) (Maj (ha s) (hb s) (hc s)) in
  HashState (wadd t1 t2) (ha s) (hb s) (hc s) (wadd (hd s) t1) (he s) (hf s) (hg s).

Definition compress (s : hash_state) (block : list ascii) : hash_state :=
  let w := rev (schedule 48 (rev (be_words block))) in
  let t := foldl round s (combine round_constants w) in
  HashState (wadd (ha s) (ha t)) (wadd (hb s) (hb t)) (wadd (hc s) (hc t)) (wadd (hd s) (hd t))
            (wadd (he s) (he t)) (wadd (hf s) (hf t)) (wadd (hg s) (hg t)) (wadd (hh s) (hh t)).

Fixpoint be_bytes (n : nat) (z : Z) : list ascii :=
  match n with
  | O => []
  | S n => byte (Z.shiftr z (8 * Z.of_nat n)) :: be_bytes n z
  end.

Definition sha_pad (l : list ascii) : list ascii :=
  let len := Z.of_nat (length l) in
  l ++ byte 128 :: replicate (Z.to_nat ((55 - len) mod 64)) (byte 0) ++ be_bytes 8 (8 * len).

(** One block of 64 bytes at a time; [n] bounds the number of blocks. *)
Fixpoint sha_blocks (n : nat) (s : hash_state) (l : list ascii) : hash_state :=
  match n, l with
  | O, _ | _, [] => s
  | S n, _ => sha_blocks n (compress s (take 64 l)) (drop 64 l)
  end.

Definition sha256_bytes (l : list ascii) : list ascii :=
  let m := sha_pad l in
  let s := sha_blocks (length m) initial_hash m in
  be_bytes 4 (ha s) ++ be_bytes 4 (hb s) ++ be_bytes 4 (hc s) ++ be_bytes 4 (hd s) ++
  be_bytes 4 (he s) ++ be_bytes 4 (hf s) ++ be_bytes 4 (hg s) ++ be_bytes 4 (hh s).

(** [sha256.Sum256] *)
Definition sha256 (s : string) : string := str_of (sha256_bytes (bytes_of s)).

(** [hmac.New(sha256.New, key)], one [Write] and [Sum(nil)]. *)
Definition hmac_sha256 (key message : string) : string :=
  let k := if 64 <? slen key then sha256_bytes (bytes_of key) else bytes_of key in
  let k := k ++ replicate (64 - length k) (byte 0) in
  let pad x := map (fun c => byte (Z.lxor (byte_val c) x)) k in
  str_of (sha256_bytes (pad 92 ++ sha256_bytes (pad 54 ++ bytes_of message))).

Lemma be_bytes_length n z : length (be_bytes n z) = n.
Proof. induction n; simpl; auto. Qed.

Lemma str_of_length l : String.length (str_of l) = length l.
Proof. unfold str_of. induction l; simpl; auto. Qed.

Lemma sha256_length s : String.length (sha256 s) = 32%nat.
Proof.
  unfold sha256, sha256_bytes. rewrite str_of_length, !length_app, !be_bytes_length. done.
Qed.

Lemma hmac_sha256_length k m : String.length (hmac_sha256 k m) = 32%nat.
Proof.
  unfold hmac_sha256, sha256_bytes at 1.
  rewrite str_of_length, !length_app, !be_bytes_length. done.
Qed.

(** FIPS 180-4 and RFC 4231 vectors. *)
Example sha256_abc : hex_encode (sha256 "abc") =
  "ba7816bf8f01cfea414140de5dae2223b00361a396177a9cb410ff61f20015ad".
Proof. vm_compute. reflexivity. Qed.

Example sha256_two_blocks :
  hex_encode (sha256 "abcdbcdecdefdefgefghfghighijhijkijkljklmklmnlmnomnopnopq") =
  "248d6a61d20638b8e5c026930c3e6039a33ce45964ff2167f6ecedd419db06c1".
Proof. vm_compute. reflexivity. Qed.

Example hmac_rfc4231 :
  hex_encode (hmac_sha256 "Jefe" "what do ya want for nothing?") =
  "5bdcc146bf60754e6a042426089575c75a003f089d2739839dec58b964ec3843".
Proof. vm_compute. reflexivity. Qed.
