(* ===== verification/Primitives.v ===== *)
(** * Domain primitives

    [internal/domain/primitives.go] (UUIDs, SHA-256 digests, exact quantities,
    checked addition) and [internal/domain/errors.go]. *)
From Stdlib Require Import Ascii String.
From S2P Require Import Prelude GoStd Sha256.

(** ** Errors *)

Definition CodeInvalidArgument : ErrorCode := "invalid_argument".
Definition CodeNotFound : ErrorCode := "not_found".
Definition CodeConflict : ErrorCode := "conflict".
Definition CodeForbidden : ErrorCode := "forbidden".
Definition CodeUnavailable : ErrorCode := "unavailable".
Definition CodeInternal : ErrorCode := "internal".
Definition CodeUnauthenticated : ErrorCode := "unauthenticated".
Definition CodeIdentityProviderUnavailable : ErrorCode := "identity_provider_unavailable".
Definition CodeNotReady : ErrorCode := "not_ready".
Definition CodeServiceUnavailable : ErrorCode := "service_unavailable".
Definition CodeInvalidContext : ErrorCode := "invalid_context".
Definition CodeToolNotFound : ErrorCode := "tool_not_found".
Definition CodeToolCallNotFound : ErrorCode := "tool_call_not_found".
Definition CodeInvalidArguments : ErrorCode := "invalid_arguments".
Definition CodeReplayConflict : ErrorCode := "replay_conflict".
Definition CodeAuthorizationDenied : ErrorCode := "authorization_denied".
Definition CodeApprovalRequired : ErrorCode := "approval_required".
Definition CodeApprovalInvalid : ErrorCode := "approval_invalid".
Definition CodeGuardrailBlocked : ErrorCode := "guardrail_blocked".
Definition CodeCredentialUnavailable : ErrorCode := "credential_unavailable".
Definition CodeConnectorError : ErrorCode := "connector_error".
Definition CodeDownstreamRejected : ErrorCode := "downstream_rejected".
Definition CodeAmbiguousOutcome : ErrorCode := "ambiguous_outcome".
Definition CodeResultBlocked : ErrorCode := "result_blocked".
Definition CodeRateLimited : ErrorCode := "rate_limited".
Definition CodeBudgetExhausted : ErrorCode := "budget_exhausted".

Definition NewError (code : ErrorCode) (message : string) (cause : option goerror) : goerror :=
  ErrDomain code message cause.

(** [errors.As] with a [*domain.Error] target: the first domain error of the
    chain of causes. *)
Fixpoint as_domain (e : goerror) : option (ErrorCode * string) :=
  match e with
  | ErrNew _ => None
  | ErrDomain code message _ => Some (code, message)
  | ErrWrap _ inner => as_domain inner
  end.

(** ** UUIDs *)

(** [type UUID [16]byte] *)
Definition UUID : Type := string.
Definition uuid_wf (id : UUID) : Prop := String.length id = 16%nat.
Definition zero_uuid : UUID := str_of (replicate 16 (byte 0)).

Definition byte_at (n : nat) (s : string) : Z :=
  match String.get n s with Some c => byte_val c | None => 0 end.

(** [now] is the clock's reading; [random n] is the outcome of reading [n]
    bytes with [io.ReadFull]. *)
Definition NewUUIDv7From (now : Z) (random : nat -> result string) : result UUID :=
  let milliseconds := UnixMilli now in
  if (milliseconds <? 0) || (2 ^ 48 - 1 <? milliseconds) then
    Err (ErrNew "UUIDv7 timestamp is out of range")
  else
    match random 10%nat with
    | Err err => Err (ErrWrap "read UUID entropy" err)
    | Ok entropy =>
        Ok (str_of
          [ byte (Z.shiftr milliseconds 40); byte (Z.shiftr milliseconds 32);
            byte (Z.shiftr milliseconds 24); byte (Z.shiftr milliseconds 16);
            byte (Z.shiftr milliseconds 8); byte milliseconds;
            byte (Z.lor 112 (Z.land (byte_at 0 entropy) 15));
            byte (byte_at 1 entropy);
            byte (Z.lor 128 (Z.land (byte_at 2 entropy) 63)) ]
          +:+ String.substring 3 7 entropy)
    end.

Definition is_dash (n : nat) (s : string) : bool := byte_at n s =? 45.

Definition ParseUUID (input : string) : result UUID :=
  if negb (slen input =? 36) || negb (is_dash 8 input) || negb (is_dash 13 input)
     || negb (is_dash 18 input) || negb (is_dash 23 input) then
    Err (ErrNew "invalid UUID format")
  else
    match hex_decode (remove_byte "-" input) with
    | Some decoded =>
        if slen decoded =? 16 then Ok decoded else Err (ErrNew "invalid UUID format")
    | None => Err (ErrNew "invalid UUID format")
    end.

Definition UUID_String (id : UUID) : string :=
  hex_encode (String.substring 0 4 id) +:+ "-" +:+
  hex_encode (String.substring 4 2 id) +:+ "-" +:+
  hex_encode (String.substring 6 2 id) +:+ "-" +:+
  hex_encode (String.substring 8 2 id) +:+ "-" +:+
  hex_encode (String.substring 10 6 id).

(** [binary.BigEndian.Uint64] over two zero bytes and the first six of the id. *)
Definition MillisecondsFromUUIDv7 (id : UUID) : result Z :=
  if negb (Z.shiftr (byte_at 6 id) 4 =? 7) || negb (Z.shiftr (byte_at 8 id) 6 =? 2) then
    Err (ErrNew "not an RFC 9562 UUIDv7")
  else
    Ok (foldl (fun acc n => acc * 256 + byte_at n id) 0 (seq 0 6)).

(** ** Digests *)

(** [type Digest [32]byte] *)
Definition Digest : Type := string.
Definition digest_wf (d : Digest) : Prop := String.length d = 32%nat.

Definition DigestBytes (input : string) : Digest := sha256 input.
Definition Digest_String (d : Digest) : string := hex_encode d.

Definition ParseDigest (input : string) : result Digest :=
  match hex_decode input with
  | Some decoded =>
      if slen decoded =? 32 then Ok decoded else Err (ErrNew "invalid SHA-256 digest")
  | None => Err (ErrNew "invalid SHA-256 digest")
  end.

(** ** Quantities and checked arithmetic; every sum, difference and product is
    the wrapped [int64] operation the code performs. *)

Record Quantity := mkQuantity { amount : Z; unit_ : string }.

Definition NewQuantity (amount : Z) (unit : string) : result Quantity :=
  if amount <? 0 then Err (ErrNew "quantity cannot be negative") else
  let unit := TrimSpace unit in
  if String.eqb unit "" || (32 <? slen unit) then Err (ErrNew "quantity unit is invalid")
  else Ok (mkQuantity amount unit).

Definition Quantity_Add (quantity other : Quantity) : result Quantity :=
  if negb (String.eqb (unit_ quantity) (unit_ other)) then Err (ErrNew "quantity units differ")
  else if wrap_int64 (max_int64 - amount quantity) <? amount other then
    Err (ErrNew "quantity overflow")
  else Ok (mkQuantity (wrap_int64 (amount quantity + amount other)) (unit_ quantity)).

Definition Quantity_Multiply (quantity : Quantity) (multiplier : Z) : result Quantity :=
  if multiplier <? 0 then Err (ErrNew "quantity multiplier cannot be negative")
  else if negb (amount quantity =? 0) && (Z.quot max_int64 (amount quantity) <? multiplier) then
    Err (ErrNew "quantity overflow")
  else Ok (mkQuantity (wrap_int64 (amount quantity * multiplier)) (unit_ quantity)).

Definition CheckedAdd (left right : Z) : result Z :=
  if ((0 <? right) && (wrap_int64 (max_int64 - right) <? left))
     || ((right <? 0) && (left <? wrap_int64 (min_int64 - right))) then
    Err (ErrNew "integer overflow")
  else Ok (wrap_int64 (left + right)).

(** The quantities the constructor can produce. *)
Definition quantity_wf (q : Quantity) : Prop := 0 <= amount q <= max_int64.

(** Big-endian value of a byte string. *)
Definition be_val (s : string) : Z :=
  foldl (fun acc c => acc * 256 + byte_val c) 0 (bytes_of s).

(** ** Lemmas *)

Lemma slen_eq s n : (slen s =? Z.of_nat n) = true <-> String.length s = n.
Proof. unfold slen. rewrite Z.eqb_eq. lia. Qed.

Lemma to_lower_append a b : to_lower (a +:+ b) = to_lower a +:+ to_lower b.
Proof. induction a as [|c a IH]; simpl; [done|by rewrite IH]. Qed.

Lemma to_lower_length s : String.length (to_lower s) = String.length s.
Proof. induction s as [|c s IH]; simpl; [done|by rewrite IH]. Qed.

Lemma hex_val_lower c : hex_val (lower_byte c) = hex_val c.
Proof.
  apply (bool_decide_eq_true_1 (hex_val _ = hex_val _)).
  revert c. apply forall_byte. vm_compute. reflexivity.
Qed.

Lemma lower_byte_dash c : Ascii.eqb (lower_byte c) "-" = Ascii.eqb c "-".
Proof.
  apply eqb_prop. revert c. apply forall_byte. vm_compute. reflexivity.
Qed.

Lemma hex_decode_lower s : hex_decode (to_lower s) = hex_decode s.
Proof.
  induction s as [s IH] using (induction_ltof1 _ String.length).
  unfold ltof in IH. destruct s as [|a [|b s]]; [done|done|]. simpl.
  rewrite !hex_val_lower, IH by (simpl; lia). done.
Qed.

Lemma remove_dash_lower s : remove_byte "-" (to_lower s) = to_lower (remove_byte "-" s).
Proof.
  induction s as [|c s IH]; simpl; [done|].
  rewrite lower_byte_dash. case_match; simpl; by rewrite IH.
Qed.

Lemma is_dash_spec n s : is_dash n s = true <-> String.get n s = Some "-"%char.
Proof.
  unfold is_dash, byte_at. destruct (String.get n s) as [c|]; [|by split].
  rewrite Z.eqb_eq. split; [|by intros [= ->]].
  intros H. f_equal. by apply byte_val_inj.
Qed.

Lemma is_dash_lower n s : is_dash n (to_lower s) = is_dash n s.
Proof.
  apply eq_true_iff_eq. rewrite !is_dash_spec.
  revert n. induction s as [|c s IH]; intros [|n]; simpl; try done.
  pose proof (lower_byte_dash c). split; intros [= Hc]; f_equal.
  - apply Ascii.eqb_eq. by rewrite <- lower_byte_dash, Hc.
  - by subst.
Qed.

Lemma ParseUUID_lower s : ParseUUID (to_lower s) = ParseUUID s.
Proof.
  unfold ParseUUID, slen. rewrite !is_dash_lower, to_lower_length.
  by rewrite remove_dash_lower, hex_decode_lower.
Qed.

Lemma get_dash_split n s : is_dash n s = true ->
  exists a b, s = a +:+ String "-" b /\ String.length a = n.
Proof.
  rewrite is_dash_spec. revert n. induction s as [|c s IH]; intros [|n]; simpl; try done.
  - intros [= ->]. by exists EmptyString, s.
  - intros (a & b & -> & <-)%IH. by exists (String c a), b.
Qed.

Lemma UUID_String_chunks a b c d e :
  String.length a = 4%nat -> String.length b = 2%nat -> String.length c = 2%nat ->
  String.length d = 2%nat -> String.length e = 6%nat ->
  UUID_String (a +:+ b +:+ c +:+ d +:+ e) =
  hex_encode a +:+ "-" +:+ hex_encode b +:+ "-" +:+ hex_encode c +:+ "-" +:+
  hex_encode d +:+ "-" +:+ hex_encode e.
Proof.
  intros. unfold UUID_String.
  do 5 (destruct a as [|? a]; try done). do 3 (destruct b as [|? b]; try done).
  do 3 (destruct c as [|? c]; try done). do 3 (destruct d as [|? d]; try done).
  do 7 (destruct e as [|? e]; try done).
Qed.

Lemma uuid_chunks id : uuid_wf id -> exists a b c d e,
  id = a +:+ b +:+ c +:+ d +:+ e /\ String.length a = 4%nat /\ String.length b = 2%nat /\
  String.length c = 2%nat /\ String.length d = 2%nat /\ String.length e = 6%nat.
Proof.
  unfold uuid_wf. intros H.
  destruct (string_split_at 4 id) as (a & r & -> & Ha); [lia|]. rewrite length_append in H.
  destruct (string_split_at 2 r) as (b & r' & -> & Hb); [lia|]. rewrite length_append in H.
  destruct (string_split_at 2 r') as (c & r'' & -> & Hc); [lia|]. rewrite length_append in H.
  destruct (string_split_at 2 r'') as (d & e & -> & Hd); [lia|]. rewrite length_append in H.
  exists a, b, c, d, e. repeat split; auto. lia.
Qed.

Lemma ParseUUID_String id : uuid_wf id -> ParseUUID (UUID_String id) = Ok id.
Proof.
  intros (a & b & c & d & e & -> & Ha & Hb & Hc & Hd & He)%uuid_chunks.
  rewrite UUID_String_chunks by done.
  pose proof (hex_encode_length a). pose proof (hex_encode_length b).
  pose proof (hex_encode_length c). pose proof (hex_encode_length d).
  pose proof (hex_encode_length e).
  unfold ParseUUID.
  assert (Hr : remove_byte "-" (hex_encode a +:+ "-" +:+ hex_encode b +:+ "-" +:+
            hex_encode c +:+ "-" +:+ hex_encode d +:+ "-" +:+ hex_encode e)
          = hex_encode (a +:+ b +:+ c +:+ d +:+ e)).
  { rewrite !remove_byte_append, !hex_encode_append.
    rewrite !(remove_byte_absent "-" (hex_encode _)) by apply hex_encode_no_dash. done. }
  rewrite Hr, hex_decode_encode.
  assert (Hd' : forall n x y, String.length x = n -> is_dash n (x +:+ "-" +:+ y) = true).
  { intros n x y <-. apply is_dash_spec. rewrite get_append_r by lia.
    by rewrite Nat.sub_diag. }
  rewrite (Hd' 8%nat) by lia.
  rewrite !append_assoc. rewrite <- (append_assoc _ "-" (hex_encode e)), (Hd' 23%nat)
    by (rewrite !length_append; simpl; lia).
  rewrite <- (append_assoc _ (hex_encode d)), <- (append_assoc _ "-"), (Hd' 18%nat)
    by (rewrite !length_append; simpl; lia).
  rewrite <- (append_assoc _ (hex_encode c)), <- (append_assoc _ "-"), (Hd' 13%nat)
    by (rewrite !length_append; simpl; lia).
  rewrite !slen_append. unfold slen.
  replace (_ =? 36) with true by (symmetry; apply Z.eqb_eq; simpl; lia).
  simpl. by replace (_ =? 16) with true by (symmetry; apply Z.eqb_eq; lia).
Qed.

Lemma hex_decode_chunk a b d (n : nat) : String.length a = (2 * n)%nat ->
  hex_decode (a +:+ b) = Some d ->
  exists x y, d = x +:+ y /\ hex_decode a = Some x /\ hex_decode b = Some y.
Proof.
  revert a d. induction n as [|n IH]; intros a d Ha.
  - destruct a; [|done]. simpl. exists EmptyString, d. done.
  - destruct a as [|p [|q a]]; simpl in Ha; [lia|lia|]. simpl.
    destruct (hex_val p), (hex_val q), (hex_decode (a +:+ b)) eqn:H; try done.
    intros [= <-]. destruct (IH a _ ltac:(lia) H) as (x & y & -> & -> & ->).
    by exists (String (byte (Z.lor (Z.shiftl z 4) z0)) x), y.
Qed.

Lemma is_dash_after n m a r : String.length a = n ->
  is_dash (n + S m) (a +:+ String "-" r) = is_dash m r.
Proof.
  intros <-. apply eq_true_iff_eq. rewrite !is_dash_spec, get_append_r by lia.
  by replace (String.length a + S m - String.length a)%nat with (S m) by lia.
Qed.

Lemma dashed_shape s : String.length s = 36%nat ->
  is_dash 8 s = true -> is_dash 13 s = true -> is_dash 18 s = true -> is_dash 23 s = true ->
  exists a b c d e, s = a +:+ "-" +:+ b +:+ "-" +:+ c +:+ "-" +:+ d +:+ "-" +:+ e /\
    String.length a = 8%nat /\ String.length b = 4%nat /\ String.length c = 4%nat /\
    String.length d = 4%nat /\ String.length e = 12%nat.
Proof.
  intros Hl H8 H13 H18 H23.
  apply get_dash_split in H8 as (a & r & -> & Ha).
  rewrite (is_dash_after 8 4) in H13 by done. rewrite (is_dash_after 8 9) in H18 by done.
  rewrite (is_dash_after 8 14) in H23 by done.
  apply get_dash_split in H13 as (b & r' & -> & Hb).
  rewrite (is_dash_after 4 4) in H18 by done. rewrite (is_dash_after 4 9) in H23 by done.
  apply get_dash_split in H18 as (c & r'' & -> & Hc).
  rewrite (is_dash_after 4 4) in H23 by done.
  apply get_dash_split in H23 as (d & e & -> & Hd).
  exists a, b, c, d, e. repeat split; auto.
  repeat (rewrite length_append in Hl; simpl in Hl). lia.
Qed.

Lemma ParseUUID_inv s id : ParseUUID s = Ok id ->
  uuid_wf id /\ to_lower s = UUID_String id.
Proof.
  unfold ParseUUID. case_match eqn:Hc; [done|].
  rewrite !orb_false_iff, !negb_false_iff in Hc. destruct Hc as [[[[Hs H8] H13] H18] H23].
  destruct (hex_decode _) as [i|] eqn:Hi; [|done]. case_match eqn:Hl; [|done]. intros [= <-].
  apply (slen_eq _ 16) in Hl. apply (slen_eq _ 36) in Hs. split; [done|].
  destruct (dashed_shape s) as (a & b & c & d & e & -> & Ha & Hb & Hc & Hd & He); auto.
  pose proof (hex_decode_length _ _ Hi) as Hlen. rewrite Hl, !remove_byte_append in *.
  change (remove_byte "-" "-") with EmptyString in *. simpl in Hi, Hlen.
  rewrite !length_append in Hlen.
  pose proof (remove_byte_length "-" a). pose proof (remove_byte_length "-" b).
  pose proof (remove_byte_length "-" c). pose proof (remove_byte_length "-" d).
  pose proof (remove_byte_length "-" e).
  rewrite !remove_byte_same in Hi by lia.
  apply (hex_decode_chunk _ _ _ 4) in Hi as (i1 & r1 & -> & D1 & Hi); [|done].
  apply (hex_decode_chunk _ _ _ 2) in Hi as (i2 & r2 & -> & D2 & Hi); [|done].
  apply (hex_decode_chunk _ _ _ 2) in Hi as (i3 & r3 & -> & D3 & Hi); [|done].
  apply (hex_decode_chunk _ _ _ 2) in Hi as (i4 & i5 & -> & D4 & D5); [|done].
  pose proof (hex_decode_length _ _ D1). pose proof (hex_decode_length _ _ D2).
  pose proof (hex_decode_length _ _ D3). pose proof (hex_decode_length _ _ D4).
  pose proof (hex_decode_length _ _ D5).
  rewrite UUID_String_chunks by lia. rewrite !to_lower_append.
  by rewrite (hex_encode_decode _ _ D1), (hex_encode_decode _ _ D2),
    (hex_encode_decode _ _ D3), (hex_encode_decode _ _ D4), (hex_encode_decode _ _ D5).
Qed.

Lemma be_val_foldl (l : list ascii) acc :
  foldl (fun acc c => acc * 256 + byte_val c) acc l =
  acc * 256 ^ Z.of_nat (length l) + foldl (fun acc c => acc * 256 + byte_val c) 0 l.
Proof.
  revert acc. induction l as [|c l IH]; intros acc; [simpl; lia|].
  cbn [foldl length]. rewrite IH, (IH (0 * 256 + byte_val c)).
  rewrite Nat2Z.inj_succ, Z.pow_succ_r by lia. lia.
Qed.

Lemma be_val_cons c s :
  be_val (String c s) = byte_val c * 256 ^ slen s + be_val s.
Proof.
  unfold be_val, bytes_of. cbn [list_ascii_of_string foldl].
  rewrite be_val_foldl. f_equal. unfold slen. do 2 f_equal.
  induction s; simpl; [done|lia].
Qed.

Lemma be_val_range s : 0 <= be_val s < 256 ^ slen s.
Proof.
  induction s as [|c s IH]; [done|]. rewrite be_val_cons.
  pose proof (byte_val_range c). unfold slen in *. cbn [String.length].
  rewrite Nat2Z.inj_succ, Z.pow_succ_r by lia. nia.
Qed.

Lemma compare_be a b x y : String.length a = String.length b -> be_val a < be_val b ->
  String.compare (a +:+ x) (b +:+ y) = Lt.
Proof.
  revert b. induction a as [|c a IH]; intros [|d b]; try done. intros [= Hl].
  rewrite !be_val_cons. unfold slen. rewrite Hl. intros H. simpl. unfold Ascii.compare.
  pose proof (be_val_range a). pose proof (be_val_range b). unfold slen in *.
  rewrite Hl in *. unfold byte_val in *.
  destruct (N.compare_spec (N_of_ascii c) (N_of_ascii d)) as [E|E|E]; [|done|].
  - apply IH; [done|]. rewrite E in *. lia.
  - exfalso. nia.
Qed.

Lemma uuid_version_bits c :
  Z.shiftr (byte_val (byte (Z.lor 112 (Z.land (byte_val c) 15)))) 4 = 7.
Proof.
  apply (bool_decide_eq_true_1 (_ = _)). revert c. apply forall_byte. vm_compute. reflexivity.
Qed.

Lemma uuid_variant_bits c :
  Z.shiftr (byte_val (byte (Z.lor 128 (Z.land (byte_val c) 63)))) 6 = 2.
Proof.
  apply (bool_decide_eq_true_1 (_ = _)). revert c. apply forall_byte. vm_compute. reflexivity.
Qed.

Lemma byte_at_byte n s : exists c, byte_at n s = byte_val c.
Proof.
  unfold byte_at. destruct (String.get n s) as [c|]; [by exists c|]. by exists (byte 0).
Qed.

Lemma shifted_bytes ms : 0 <= ms < 2 ^ 48 ->
  be_val (str_of [ byte (Z.shiftr ms 40); byte (Z.shiftr ms 32); byte (Z.shiftr ms 24);
                   byte (Z.shiftr ms 16); byte (Z.shiftr ms 8); byte ms ]) = ms.
Proof.
  intros H. unfold be_val, str_of, bytes_of. cbn [string_of_list_ascii list_ascii_of_string foldl].
  rewrite !byte_val_byte, !Z.shiftr_div_pow2 by lia.
  rewrite (Z.mod_small (ms / 2 ^ 40)) by (split; [apply Z.div_pos|apply Z.div_lt_upper_bound]; lia).
  assert (E : forall k, 0 <= k -> ms / 2 ^ k = ms / 2 ^ (k + 8) * 256 + (ms / 2 ^ k) mod 256).
  { intros k Hk. rewrite Z.pow_add_r by lia. rewrite <- Z.div_div by lia.
    pose proof (Z.div_mod (ms / 2 ^ k) 256). change (2 ^ 8) with 256. lia. }
  pose proof (E 32 ltac:(lia)). pose proof (E 24 ltac:(lia)).
  pose proof (E 16 ltac:(lia)). pose proof (E 8 ltac:(lia)).
  pose proof (E 0 ltac:(lia)) as E0. change (2 ^ 0) with 1 in E0. rewrite Z.div_1_r in E0.
  change (32 + 8) with 40 in *. change (24 + 8) with 32 in *. change (16 + 8) with 24 in *.
  change (8 + 8) with 16 in *. change (0 + 8) with 8 in *. lia.
Qed.

Lemma NewUUIDv7From_inv now random id : NewUUIDv7From now random = Ok id ->
  exists e r, random 10%nat = Ok e /\ 0 <= UnixMilli now < 2 ^ 48 /\
  let ms := UnixMilli now in
  id = str_of [ byte (Z.shiftr ms 40); byte (Z.shiftr ms 32); byte (Z.shiftr ms 24);
                   byte (Z.shiftr ms 16); byte (Z.shiftr ms 8); byte ms ] +:+ r /\
  r = str_of [ byte (Z.lor 112 (Z.land (byte_at 0 e) 15)); byte (byte_at 1 e);
               byte (Z.lor 128 (Z.land (byte_at 2 e) 63)) ] +:+ String.substring 3 7 e.
Proof.
  unfold NewUUIDv7From. case_match eqn:Hr; [done|]. to_prop.
  destruct (random 10%nat) as [e|] eqn:He; [|done]. intros [= <-].
  eexists e, _. repeat split; try lia.
Qed.

(** ** Properties *)

(** [ParseUUID] accepts exactly the 36-byte dashed hexadecimal texts (in either case)
    of 16-byte ids, and [String] is its inverse: a text parses to [id] iff its
    lower-case form is the canonical text of the 16-byte id. *)
Theorem parse_uuid_spec (input : string) (id : UUID) :
  ParseUUID input = Ok id <-> uuid_wf id /\ to_lower input = UUID_String id.
Proof.
  split; [apply ParseUUID_inv|]. intros [Hw Hs].
  rewrite <- ParseUUID_lower, Hs. by apply ParseUUID_String.
Qed.

(** [ParseDigest] accepts exactly the hexadecimal texts of 32-byte digests, is the
    inverse of [String], and every computed digest survives the round trip; in
    particular a text with a ["sha256:"] prefix never parses. *)
Theorem parse_digest_spec (input : string) (d : Digest) :
  (ParseDigest input = Ok d <-> digest_wf d /\ to_lower input = Digest_String d) /\
  ParseDigest (Digest_String (DigestBytes input)) = Ok (DigestBytes input) /\
  is_ok (ParseDigest ("sha256:" +:+ input)) = false.
Proof.
  assert (Hrt : forall d, digest_wf d -> ParseDigest (Digest_String d) = Ok d).
  { intros e He. unfold ParseDigest, Digest_String. rewrite hex_decode_encode.
    by rewrite (proj2 (slen_eq e 32) He : (slen e =? 32) = true). }
  repeat split.
  - unfold ParseDigest in *. destruct (hex_decode input) as [e|]; [|done].
    case_match eqn:Hl; [|done]. simplify_eq. by apply (slen_eq _ 32).
  - unfold ParseDigest in *. destruct (hex_decode input) as [e|] eqn:He; [|done].
    case_match; [|done]. simplify_eq. symmetry. by apply hex_encode_decode.
  - intros [Hw Hs]. rewrite <- (Hrt d Hw), <- Hs. unfold ParseDigest.
    by rewrite hex_decode_lower.
  - apply Hrt. apply sha256_length.
Qed.

(** a generated UUIDv7 is a 16-byte id that carries the RFC 9562 version and variant and
    exactly the millisecond timestamp of the clock, and ids of different
    milliseconds sort by time as byte strings. *)
Theorem uuid_v7_time (now1 now2 : Z) (random : nat -> result string) (id1 id2 : UUID)
    (Hfull : forall n e, random n = Ok e -> String.length e = n)
    (H1 : NewUUIDv7From now1 random = Ok id1) (H2 : NewUUIDv7From now2 random = Ok id2) :
  uuid_wf id1 /\ MillisecondsFromUUIDv7 id1 = Ok (UnixMilli now1) /\
  (UnixMilli now1 < UnixMilli now2 -> str_ltb id1 id2 = true).
Proof.
  apply NewUUIDv7From_inv in H1 as (e & r & He & Hm & -> & ->).
  apply NewUUIDv7From_inv in H2 as (e2 & r2 & _ & Hm2 & -> & ->).
  specialize (Hfull _ _ He). repeat split.
  - unfold uuid_wf. rewrite !length_append. do 11 (destruct e as [|? e]; try done).
  - pose proof (shifted_bytes (UnixMilli now1) Hm) as Hv.
    destruct (byte_at_byte 0 e) as [c0 Hc0], (byte_at_byte 2 e) as [c2 Hc2].
    rewrite Hc0, Hc2. unfold MillisecondsFromUUIDv7.
    change (byte_at 6 _) with (byte_val (byte (Z.lor 112 (Z.land (byte_val c0) 15)))).
    change (byte_at 8 _) with (byte_val (byte (Z.lor 128 (Z.land (byte_val c2) 63)))).
    rewrite uuid_version_bits, uuid_variant_bits. simpl negb. cbv iota. f_equal.
    etransitivity; [|exact Hv]. reflexivity.
  - intros Hlt. unfold str_ltb. by rewrite compare_be by (done || by rewrite !shifted_bytes).
Qed.

Lemma uuid_v7_time_witness : exists id1 id2,
  uuid_wf id1 /\ MillisecondsFromUUIDv7 id1 = Ok 1700000000000 /\ str_ltb id1 id2 = true.
Proof.
  pose (random := fun n => Ok (str_of (replicate n "z"%char)) : result string).
  destruct (NewUUIDv7From (unix_epoch + 1700000000000 * Millisecond) random) as [id1|] eqn:H1;
    [|by vm_compute in H1].
  destruct (NewUUIDv7From (unix_epoch + 1700000000001 * Millisecond) random) as [id2|] eqn:H2;
    [|by vm_compute in H2].
  exists id1, id2.
  assert (Hfull : forall n e, random n = Ok e -> String.length e = n)
    by (intros n e [= <-]; rewrite str_of_length; apply length_replicate).
  destruct (uuid_v7_time _ _ random id1 id2 Hfull H1 H2) as (Hw & Hm & Hlt).
  rewrite Hm. repeat split; [exact Hw|]. apply Hlt. vm_compute. reflexivity.
Defined.

(** Quantity arithmetic is exact or an error, and never wraps: on well-formed
    quantities [Add] and [Multiply] return the mathematical result with the unit
    kept, and fail exactly when the units differ, the multiplier is negative or
    the result exceeds the int64 range; [CheckedAdd] likewise. *)
Theorem quantity_exact (q r : Quantity) (m left right : Z)
    (Hq : quantity_wf q) (Hr : quantity_wf r) (Hm : is_int64 m)
    (Hl : is_int64 left) (Hrt : is_int64 right) :
  (forall s, Quantity_Add q r = Ok s <->
     unit_ q = unit_ r /\ amount q + amount r <= max_int64 /\
     s = mkQuantity (amount q + amount r) (unit_ q)) /\
  (forall s, Quantity_Multiply q m = Ok s <->
     0 <= m /\ amount q * m <= max_int64 /\ s = mkQuantity (amount q * m) (unit_ q)) /\
  (forall z, CheckedAdd left right = Ok z <-> is_int64 (left + right) /\ z = left + right).
Proof.
  unfold quantity_wf, is_int64 in *.
  assert (Hw : forall z, min_int64 <= z <= max_int64 -> wrap_int64 z = z)
    by (intros; by apply wrap_int64_id).
  assert (0 < max_int64) by (unfold max_int64; lia).
  assert (min_int64 = - max_int64 - 1) by (unfold min_int64, max_int64; lia).
  repeat apply conj; intros s.
  - unfold Quantity_Add. rewrite (Hw (max_int64 - _)) by lia.
    destruct (String.eqb_spec (unit_ q) (unit_ r)); simpl; [|naive_solver].
    case_match eqn:Ho; to_prop; [split; [done|lia]|]. rewrite Hw by lia. naive_solver lia.
  - unfold Quantity_Multiply. destruct (Z.ltb_spec m 0); [split; [done|lia]|].
    destruct (Z.eqb_spec (amount q) 0) as [->|Hz]; simpl.
    { rewrite Hw by lia. naive_solver lia. }
    assert (Hd : Z.quot max_int64 (amount q) < m <-> max_int64 < amount q * m).
    { rewrite Z.quot_div_nonneg by lia.
      pose proof (Z.mul_div_le max_int64 (amount q)).
      pose proof (Z.mul_succ_div_gt max_int64 (amount q)). split; intros; nia. }
    case_match eqn:Ho; to_prop; [split; [done|lia]|]. rewrite Hw by nia. naive_solver lia.
  - unfold CheckedAdd.
    destruct (Z.ltb_spec 0 right); simpl.
    + rewrite (Hw (max_int64 - _)) by lia. replace (right <? 0) with false by lia.
      simpl. rewrite orb_false_r.
      case_match; to_prop; [split; [done|lia]|]. rewrite Hw by lia. naive_solver lia.
    + destruct (Z.ltb_spec right 0); simpl.
      * rewrite (Hw (min_int64 - _)) by lia.
        case_match; to_prop; [split; [done|lia]|]. rewrite Hw by lia. naive_solver lia.
      * rewrite Hw by lia. naive_solver lia.
Qed.

Lemma quantity_exact_witness :
  Quantity_Add (mkQuantity 2 "GB") (mkQuantity 3 "GB") = Ok (mkQuantity 5 "GB").
Proof.
  apply (quantity_exact (mkQuantity 2 "GB") (mkQuantity 3 "GB") 0 0 0);
    try (unfold quantity_wf, is_int64, max_int64, min_int64; simpl; lia).
  repeat split. vm_compute. discriminate.
Defined.
