(* ===== verification/Json.v ===== *)
(** * JSON values

    The [any] values [encoding/json] produces: [nil], [bool], a number (kept as
    its text, the way [json.Number] keeps it), [string], [[]any] and
    [map[string]any] (as an association list). *)
From Stdlib Require Import Ascii String.
From stdpp Require Import pretty.
From S2P Require Import Prelude GoStd.

Inductive jvalue :=
| JNull
| JBool (b : bool)
| JNumber (text : string)
| JString (s : string)
| JArray (items : list jvalue)
| JObject (members : list (string * jvalue)).

(** [value == nil] for a value of type [any]. *)
Definition is_nil (v : jvalue) : bool := match v with JNull => true | _ => false end.

(** Induction with the hypothesis for every item and member. *)
Section JvalueInd.
Context (P : jvalue -> Prop) (Hnull : P JNull) (Hbool : forall b, P (JBool b))
  (Hnum : forall t, P (JNumber t)) (Hstr : forall s, P (JString s))
  (Harr : forall items, Forall P items -> P (JArray items))
  (Hobj : forall members, Forall (fun kv => P kv.2) members -> P (JObject members)).

Fixpoint jvalue_ind' (v : jvalue) : P v :=
  match v with
  | JNull => Hnull
  | JBool b => Hbool b
  | JNumber t => Hnum t
  | JString s => Hstr s
  | JArray items =>
      Harr items ((fix go (l : list jvalue) : Forall P l :=
        match l with
        | [] => Forall_nil P
        | x :: l => Forall_cons P x l (jvalue_ind' x) (go l)
        end) items)
  | JObject members =>
      Hobj members ((fix go (l : list (string * jvalue)) : Forall (fun kv => P kv.2) l :=
        match l with
        | [] => Forall_nil (fun kv => P kv.2)
        | kv :: l => Forall_cons (fun kv => P kv.2) kv l (jvalue_ind' kv.2) (go l)
        end) members)
  end.
End JvalueInd.

(** JSON text written with single quotes, for examples. *)
Fixpoint quoted (s : string) : string :=
  match s with
  | EmptyString => EmptyString
  | String c s => String (if byte_val c =? 39 then byte 34 else c) (quoted s)
  end.

(** ** UTF-8, as [unicode/utf8] decodes it *)

Definition cont (c : ascii) : bool := byte_in 128 191 c.
Definition utf8_2 (a b : ascii) : bool := byte_in 194 223 a && cont b.
Definition utf8_3 (a b c : ascii) : bool :=
  ((byte_val a =? 224) && byte_in 160 191 b && cont c) ||
  ((byte_in 225 236 a || byte_in 238 239 a) && cont b && cont c) ||
  ((byte_val a =? 237) && byte_in 128 159 b && cont c).
Definition utf8_4 (a b c d : ascii) : bool :=
  ((byte_val a =? 240) && byte_in 144 191 b && cont c && cont d) ||
  (byte_in 241 243 a && cont b && cont c && cont d) ||
  ((byte_val a =? 244) && byte_in 128 143 b && cont c && cont d).

(** ** [json.Marshal]: strings and integers *)

Definition quote_byte : ascii := byte 34.
Definition hex_byte (c : ascii) : string := hex_encode (String c EmptyString).

(** An ASCII byte inside a string: the short escapes, [\u00XX] for the other
    control characters and, since [Marshal] escapes HTML, for [<], [>] and [&]. *)
Definition escape_ascii (c : ascii) : string :=
  let z := byte_val c in
  if z =? 34 then String "\" (String quote_byte EmptyString)
  else if z =? 92 then "\\"
  else if z =? 8 then "\b"
  else if z =? 12 then "\f"
  else if z =? 10 then "\n"
  else if z =? 13 then "\r"
  else if z =? 9 then "\t"
  else if (z <? 32) || (z =? 60) || (z =? 62) || (z =? 38) then "\u00" +:+ hex_byte c
  else String c EmptyString.

(** Bytes that are not UTF-8 become [\ufffd]; U+2028 and U+2029 are escaped. *)
Fixpoint escape_string (s : string) : string :=
  match s with
  | EmptyString => EmptyString
  | String a s1 =>
      if byte_val a <? 128 then escape_ascii a +:+ escape_string s1 else
      match s1 with
      | EmptyString => "\ufffd"
      | String b s2 =>
          if utf8_2 a b then String a (String b (escape_string s2)) else
          match s2 with
          | EmptyString => "\ufffd" +:+ escape_string s1
          | String c s3 =>
              if utf8_3 a b c then
                (if (byte_val a =? 226) && (byte_val b =? 128) && byte_in 168 169 c
                 then "\u20" +:+ hex_byte (byte (byte_val c - 128))
                 else String a (String b (String c EmptyString)))
                +:+ escape_string s3
              else
                match s3 with
                | EmptyString => "\ufffd" +:+ escape_string s1
                | String d s4 =>
                    if utf8_4 a b c d
                    then String a (String b (String c (String d (escape_string s4))))
                    else "\ufffd" +:+ escape_string s1
                end
          end
      end
  end.

Definition json_string (s : string) : string :=
  String quote_byte (escape_string s +:+ String quote_byte EmptyString).

Definition json_int (z : Z) : string := pretty z.

Fixpoint join (sep : string) (l : list string) : string :=
  match l with
  | [] => EmptyString
  | [x] => x
  | x :: l => x +:+ sep +:+ join sep l
  end.

Definition json_array (items : list string) : string := "[" +:+ join "," items +:+ "]".

(** A [[N]byte] array is an array of numbers. *)
Definition json_bytes (s : string) : string :=
  json_array (map (fun c => json_int (byte_val c)) (bytes_of s)).

Definition json_object (members : list (string * string)) : string :=
  "{" +:+ join "," (map (fun kv => json_string kv.1 +:+ ":" +:+ kv.2) members) +:+ "}".

Example json_string_escapes : json_string ("a<b" +:+ str_of [byte 34; byte 10; byte 255]) =
  str_of [quote_byte] +:+ "a\u003cb\" +:+ str_of [quote_byte] +:+ "\n\ufffd" +:+ str_of [quote_byte].
Proof. vm_compute. reflexivity. Qed.

Example json_u2028 : escape_string (str_of [byte 226; byte 128; byte 168]) = "\u2028"%string.
Proof. vm_compute. reflexivity. Qed.
