(* ===== verification/JsonParse.v ===== *)
(** * JSON decoding

    [encoding/json]'s scanner and [Unmarshal] into [any] or a map: a
    recursive-descent reader over the bytes of the text.  The readers that
    recurse through containers take fuel; [parse_enough] shows that the fuel
    [json_fuel] gives is always enough, so the decoder is total. *)
From Stdlib Require Import Ascii String.
From S2P Require Import Prelude GoStd Json.

(** ** Lexical readers *)

Definition is_ws (c : ascii) : bool :=
  (byte_val c =? 32) || (byte_val c =? 9) || (byte_val c =? 10) || (byte_val c =? 13).

Fixpoint skip_ws (s : string) : string :=
  match s with
  | String c r => if is_ws c then skip_ws r else s
  | EmptyString => EmptyString
  end.

(** The longest run of digits, and the rest. *)
Fixpoint lex_digits (s : string) : string * string :=
  match s with
  | String c r => if is_digit c then let '(d, rest) := lex_digits r in (String c d, rest) else (EmptyString, s)
  | EmptyString => (EmptyString, EmptyString)
  end.

(** An integer part without leading zeros, an optional fraction and an optional
    exponent, after an optional minus sign. *)
Definition lex_integer (s : string) : option (string * string) :=
  match s with
  | String c r =>
      if Ascii.eqb c "0" then Some ("0"%string, r)
      else if byte_in 49 57 c then let '(d, rest) := lex_digits r in Some (String c d, rest)
      else None
  | EmptyString => None
  end.

Definition lex_fraction (s : string) : option (string * string) :=
  match s with
  | String c r =>
      if Ascii.eqb c "." then
        match lex_digits r with
        | (EmptyString, _) => None
        | (d, rest) => Some (String "." d, rest)
        end
      else Some (EmptyString, s)
  | EmptyString => Some (EmptyString, EmptyString)
  end.

Definition lex_exponent (s : string) : option (string * string) :=
  match s with
  | String c r =>
      if Ascii.eqb c "e" || Ascii.eqb c "E" then
        let '(sign, r) :=
          match r with
          | String d r' => if Ascii.eqb d "+" || Ascii.eqb d "-"
                           then (String d EmptyString, r') else (EmptyString, r)
          | EmptyString => (EmptyString, r)
          end in
        match lex_digits r with
        | (EmptyString, _) => None
        | (d, rest) => Some (String c (sign +:+ d), rest)
        end
      else Some (EmptyString, s)
  | EmptyString => Some (EmptyString, EmptyString)
  end.

Definition lex_number (s : string) : option (string * string) :=
  let '(sign, s) :=
    match s with
    | String c r => if Ascii.eqb c "-" then ("-"%string, r) else (EmptyString, s)
    | EmptyString => (EmptyString, s)
    end in
  match lex_integer s with
  | None => None
  | Some (i, s) =>
      match lex_fraction s with
      | None => None
      | Some (f, s) =>
          match lex_exponent s with
          | None => None
          | Some (e, s) => Some (sign +:+ i +:+ f +:+ e, s)
          end
      end
  end.

(** ** Strings *)

(** [utf8.AppendRune]; surrogates and out-of-range values become U+FFFD. *)
Definition utf8_encode (r : Z) : string :=
  if r <? 128 then str_of [byte r]
  else if r <? 2048 then str_of [byte (Z.lor 192 (Z.shiftr r 6)); byte (Z.lor 128 (Z.land r 63))]
  else if (55296 <=? r) && (r <=? 57343) || (1114111 <? r) then str_of [byte 239; byte 191; byte 189]
  else if r <? 65536 then
    str_of [byte (Z.lor 224 (Z.shiftr r 12)); byte (Z.lor 128 (Z.land (Z.shiftr r 6) 63));
            byte (Z.lor 128 (Z.land r 63))]
  else
    str_of [byte (Z.lor 240 (Z.shiftr r 18)); byte (Z.lor 128 (Z.land (Z.shiftr r 12) 63));
            byte (Z.lor 128 (Z.land (Z.shiftr r 6) 63)); byte (Z.lor 128 (Z.land r 63))].

Definition replacement : string := utf8_encode 65533.

Definition hex4 (a b c d : ascii) : option Z :=
  match hex_val a, hex_val b, hex_val c, hex_val d with
  | Some w, Some x, Some y, Some z => Some (((w * 16 + x) * 16 + y) * 16 + z)
  | _, _, _, _ => None
  end.

Definition simple_escape (c : ascii) : option ascii :=
  let z := byte_val c in
  if z =? 34 then Some c else if z =? 92 then Some c else if z =? 47 then Some c
  else if z =? 98 then Some (byte 8) else if z =? 102 then Some (byte 12)
  else if z =? 110 then Some (byte 10) else if z =? 114 then Some (byte 13)
  else if z =? 116 then Some (byte 9) else None.

Definition surrogate_pair (hi lo : Z) : Z := (hi - 55296) * 1024 + (lo - 56320) + 65536.

(** The decoded rest of a string literal after its opening quote, and what
    follows the closing quote.  An escaped high surrogate takes the escaped low
    surrogate after it; alone, and for bytes that are not UTF-8, U+FFFD stands. *)
Fixpoint lex_string (s : string) : option (string * string) :=
  match s with
  | EmptyString => None
  | String a s1 =>
      if byte_val a =? 34 then Some (EmptyString, s1)
      else if byte_val a <? 32 then None
      else if byte_val a =? 92 then
        match s1 with
        | String e s2 =>
            if Ascii.eqb e "u" then
              match s2 with
              | String h1 (String h2 (String h3 (String h4 s3))) =>
                  match hex4 h1 h2 h3 h4 with
                  | None => None
                  | Some r =>
                      let alone := match lex_string s3 with
                                   | Some (d, rest) => Some (utf8_encode r +:+ d, rest)
                                   | None => None
                                   end in
                      if (55296 <=? r) && (r <=? 56319) then
                        match s3 with
                        | String b1 (String b2 (String l1 (String l2 (String l3 (String l4 s4))))) =>
                            match hex4 l1 l2 l3 l4 with
                            | Some lo =>
                                if (byte_val b1 =? 92) && Ascii.eqb b2 "u" && (56320 <=? lo) && (lo <=? 57343)
                                then match lex_string s4 with
                                     | Some (d, rest) => Some (utf8_encode (surrogate_pair r lo) +:+ d, rest)
                                     | None => None
                                     end
                                else alone
                            | None => alone
                            end
                        | _ => alone
                        end
                      else alone
                  end
              | _ => None
              end
            else
              match simple_escape e, lex_string s2 with
              | Some c, Some (d, rest) => Some (String c d, rest)
              | _, _ => None
              end
        | EmptyString => None
        end
      else if byte_val a <? 128 then
        match lex_string s1 with Some (d, rest) => Some (String a d, rest) | None => None end
      else
        let bad := match lex_string s1 with
                   | Some (d, rest) => Some (replacement +:+ d, rest)
                   | None => None
                   end in
        match s1 with
        | String b s2 =>
            if utf8_2 a b then
              match lex_string s2 with Some (d, rest) => Some (String a (String b d), rest) | None => None end
            else
              match s2 with
              | String c s3 =>
                  if utf8_3 a b c then
                    match lex_string s3 with
                    | Some (d, rest) => Some (String a (String b (String c d)), rest)
                    | None => None
                    end
                  else
                    match s3 with
                    | String e s4 =>
                        if utf8_4 a b c e then
                          match lex_string s4 with
                          | Some (d, rest) => Some (String a (String b (String c (String e d))), rest)
                          | None => None
                          end
                        else bad
                    | EmptyString => bad
                    end
              | EmptyString => bad
              end
        | EmptyString => bad
        end
  end.

(** ** Values *)

Definition max_nesting : Z := 10000.

Fixpoint read_value (fuel : nat) (depth : Z) (s : string) {struct fuel} : option (jvalue * string) :=
  match fuel with
  | O => None
  | S fuel =>
      match skip_ws s with
      | EmptyString => None
      | String c r =>
          if byte_val c =? 34 then
            match lex_string r with Some (d, rest) => Some (JString d, rest) | None => None end
          else if Ascii.eqb c "{" then
            if max_nesting <? depth + 1 then None else
            match skip_ws r with
            | String d r' =>
                if Ascii.eqb d "}" then Some (JObject [], r')
                else read_members fuel (depth + 1) (skip_ws r) []
            | EmptyString => None
            end
          else if Ascii.eqb c "[" then
            if max_nesting <? depth + 1 then None else
            match skip_ws r with
            | String d r' =>
                if Ascii.eqb d "]" then Some (JArray [], r')
                else read_items fuel (depth + 1) (skip_ws r) []
            | EmptyString => None
            end
          else
            match cut_prefix "true" (String c r) with
            | Some rest => Some (JBool true, rest)
            | None =>
                match cut_prefix "false" (String c r) with
                | Some rest => Some (JBool false, rest)
                | None =>
                    match cut_prefix "null" (String c r) with
                    | Some rest => Some (JNull, rest)
                    | None =>
                        match lex_number (String c r) with
                        | Some (text, rest) => Some (JNumber text, rest)
                        | None => None
                        end
                    end
                end
            end
      end
  end
with read_items (fuel : nat) (depth : Z) (s : string) (acc : list jvalue) {struct fuel}
    : option (jvalue * string) :=
  match fuel with
  | O => None
  | S fuel =>
      match read_value fuel depth s with
      | None => None
      | Some (v, rest) =>
          match skip_ws rest with
          | String c r =>
              if Ascii.eqb c "," then read_items fuel depth r (acc ++ [v])
              else if Ascii.eqb c "]" then Some (JArray (acc ++ [v]), r)
              else None
          | EmptyString => None
          end
      end
  end
with read_members (fuel : nat) (depth : Z) (s : string) (acc : list (string * jvalue)) {struct fuel}
    : option (jvalue * string) :=
  match fuel with
  | O => None
  | S fuel =>
      match skip_ws s with
      | String q r =>
          if byte_val q =? 34 then
            match lex_string r with
            | None => None
            | Some (k, rest) =>
                match skip_ws rest with
                | String c r1 =>
                    if Ascii.eqb c ":" then
                      match read_value fuel depth r1 with
                      | None => None
                      | Some (v, rest) =>
                          match skip_ws rest with
                          | String c r2 =>
                              if Ascii.eqb c "," then read_members fuel depth r2 (acc ++ [(k, v)])
                              else if Ascii.eqb c "}" then Some (JObject (acc ++ [(k, v)]), r2)
                              else None
                          | EmptyString => None
                          end
                      end
                    else None
                | EmptyString => None
                end
            end
          else None
      | EmptyString => None
      end
  end.

Definition json_fuel (s : string) : nat := S (S (2 * String.length s)).

(** A [map[string]any] keeps the last value of a repeated member; the reader
    keeps all of them in order. *)
Fixpoint set_member (k : string) (v : jvalue) (l : list (string * jvalue)) : list (string * jvalue) :=
  match l with
  | [] => [(k, v)]
  | (k', v') :: l => if String.eqb k k' then (k, v) :: l else (k', v') :: set_member k v l
  end.

Fixpoint go_value (v : jvalue) : jvalue :=
  match v with
  | JArray items => JArray (map go_value items)
  | JObject members =>
      JObject (foldl (fun acc kv => set_member kv.1 kv.2 acc) []
                 (map (fun kv => (kv.1, go_value kv.2)) members))
  | _ => v
  end.

(** One value and nothing but white space after it. *)
Definition json_parse (s : string) : option jvalue :=
  match read_value (json_fuel s) 0 s with
  | Some (v, rest) => match skip_ws rest with EmptyString => Some v | _ => None end
  | None => None
  end.

(** [json.Valid] *)
Definition json_Valid (s : string) : bool := is_some (json_parse s).

(** ** Numbers: a literal is [sign * mantissa * 10 ^ exponent] *)

Definition digits_val (s : string) : Z :=
  foldl (fun acc c => acc * 10 + (byte_val c - 48)) 0 (bytes_of s).

Record decimal := mkDecimal { negative : bool; mantissa : Z; exponent : Z }.

(** The parts of a literal the scanner has accepted. *)
Definition decimal_of (text : string) : decimal :=
  let '(neg, s) := match text with
                   | String c r => if Ascii.eqb c "-" then (true, r) else (false, text)
                   | EmptyString => (false, text)
                   end in
  let '(i, s) := lex_digits s in
  let '(f, s) := match s with
                 | String c r => if Ascii.eqb c "." then lex_digits r else (EmptyString, s)
                 | EmptyString => (EmptyString, s)
                 end in
  let e := match s with
           | String _ r =>
               match r with
               | String c r' => if Ascii.eqb c "-" then - digits_val r'
                                else if Ascii.eqb c "+" then digits_val r' else digits_val r
               | EmptyString => 0
               end
           | EmptyString => 0
           end in
  mkDecimal neg (digits_val (i +:+ f)) (e - slen f).

(** [strconv.ParseFloat(text, 64)] reports a range error: the magnitude is at
    least the midpoint above the largest finite binary64.  Magnitudes beyond
    [10 ^ 400] or below [1] are decided without expanding the power. *)
Definition float_overflows (text : string) : bool :=
  let d := decimal_of text in
  let digits := slen (json_int (mantissa d)) in
  if mantissa d =? 0 then false
  else if 400 <? digits + exponent d then true
  else if digits + exponent d <=? 0 then false
  else if 0 <=? exponent d then 2 ^ 1024 - 2 ^ 970 <=? mantissa d * 10 ^ exponent d
  else (2 ^ 1024 - 2 ^ 970) * 10 ^ (- exponent d) <=? mantissa d.

(** Decoding into [any] makes every number a [float64]. *)
Fixpoint numbers_fit (v : jvalue) : bool :=
  match v with
  | JNumber text => negb (float_overflows text)
  | JArray items => forallb numbers_fit items
  | JObject members => forallb (fun kv => numbers_fit kv.2) members
  | _ => true
  end.

(** [json.Unmarshal(value, &object) == nil && object != nil] for a
    [map[string]any]: an object, and no number out of range. *)
Definition unmarshals_object (s : string) : bool :=
  match json_parse s with
  | Some (JObject members) => forallb (fun kv => numbers_fit kv.2) members
  | _ => false
  end.

(** The same for a [map[string]json.RawMessage]. *)
Definition unmarshals_raw_object (s : string) : bool :=
  match json_parse s with Some (JObject _) => true | _ => false end.

(** ** Lemmas: every reader consumes what it returns *)

Lemma skip_ws_length s : (String.length (skip_ws s) <= String.length s)%nat.
Proof. induction s as [|c s IH]; simpl; [done|]. case_match; simpl; lia. Qed.

Lemma lex_digits_length s d r : lex_digits s = (d, r) -> (String.length r <= String.length s)%nat.
Proof.
  revert d r. induction s as [|c s IH]; intros d r; simpl; [by intros [= <- <-]|].
  case_match; [|by intros [= <- <-]]. destruct (lex_digits s) as [d' r'] eqn:E.
  intros [= <- <-]. specialize (IH _ _ eq_refl). lia.
Qed.

Lemma lex_integer_length s t r : lex_integer s = Some (t, r) ->
  (String.length r < String.length s)%nat.
Proof.
  destruct s as [|c s]; simpl; [done|]. case_match; [intros [= <- <-]; lia|].
  case_match; [|done]. destruct (lex_digits s) as [d r'] eqn:E. intros [= <- <-].
  apply lex_digits_length in E. lia.
Qed.

Lemma lex_fraction_length s t r : lex_fraction s = Some (t, r) ->
  (String.length r <= String.length s)%nat.
Proof.
  destruct s as [|c s]; simpl; [by intros [= <- <-]|]. case_match; [|by intros [= <- <-]].
  destruct (lex_digits s) as [[|x d] r'] eqn:E; [done|]. intros [= <- <-].
  apply lex_digits_length in E. lia.
Qed.

Lemma lex_exponent_length s t r : lex_exponent s = Some (t, r) ->
  (String.length r <= String.length s)%nat.
Proof.
  destruct s as [|c s]; simpl; [by intros [= <- <-]|]. case_match; [|by intros [= <- <-]].
  destruct (match s with String d r' => _ | EmptyString => _ end) as [sign s'] eqn:Es.
  assert (String.length s' <= String.length s)%nat.
  { destruct s as [|d s0]; simpl in *; [by injection Es as <- <-|].
    case_match; injection Es as <- <-; simpl; lia. }
  destruct (lex_digits s') as [[|x d] r'] eqn:E; [done|]. intros [= <- <-].
  apply lex_digits_length in E. lia.
Qed.

Lemma lex_number_length s t r : lex_number s = Some (t, r) ->
  (String.length r < String.length s)%nat.
Proof.
  unfold lex_number.
  destruct (match s with String c r => _ | EmptyString => _ end) as [sign s'] eqn:Es.
  assert (String.length s' <= String.length s)%nat.
  { destruct s as [|d s0]; simpl in *; [by injection Es as <- <-|].
    case_match; injection Es as <- <-; simpl; lia. }
  destruct (lex_integer s') as [[i s1]|] eqn:E1; [|done].
  destruct (lex_fraction s1) as [[f s2]|] eqn:E2; [|done].
  destruct (lex_exponent s2) as [[e s3]|] eqn:E3; [|done]. intros [= <- <-].
  apply lex_integer_length in E1. apply lex_fraction_length in E2. apply lex_exponent_length in E3. lia.
Qed.

Lemma cut_prefix_length p s r : cut_prefix p s = Some r -> (String.length r <= String.length s)%nat.
Proof.
  revert s. induction p as [|a p IH]; intros [|b s]; simpl; try done; try (by intros [= <-]).
  case_match; [|done]. intros Hc%IH. lia.
Qed.

Lemma cut_prefix_true_length p a s r : cut_prefix (String a p) s = Some r ->
  (String.length r < String.length s)%nat.
Proof.
  destruct s as [|b s]; simpl; [done|]. case_match; [|done]. intros Hc%cut_prefix_length. lia.
Qed.

Lemma lex_string_length s d r : lex_string s = Some (d, r) ->
  (String.length r < String.length s)%nat.
Proof.
  revert d r. induction s as [s IH] using (induction_ltof1 _ String.length). unfold ltof in IH.
  intros d r H.
  assert (IH' : forall s', (String.length s' < String.length s)%nat -> forall d r,
    lex_string s' = Some (d, r) -> (String.length r < String.length s)%nat).
  { intros s' Hs d' r' H'. apply IH in H'; lia. }
  destruct s as [|a s1]; [done|]. cbn [lex_string] in H.
  repeat (case_match; simplify_eq);
    match goal with
    | E : lex_string ?x = Some (_, ?y) |- (String.length ?y < _)%nat =>
        eapply (IH' x); [cbn [String.length]; lia|exact E]
    | _ => cbn [String.length]; lia
    end.
Qed.

Lemma skip_ws_cons s c r : skip_ws s = String c r -> (String.length r < String.length s)%nat.
Proof. intros H. pose proof (skip_ws_length s). rewrite H in *. simpl in *. lia. Qed.

Lemma read_length n :
  (forall depth s v r, read_value n depth s = Some (v, r) -> (String.length r < String.length s)%nat) /\
  (forall depth s acc v r, read_items n depth s acc = Some (v, r) -> (String.length r < String.length s)%nat) /\
  (forall depth s acc v r, read_members n depth s acc = Some (v, r) ->
     (String.length r < String.length s)%nat).
Proof.
  induction n as [|n (IHv & IHi & IHm)]; [done|]. split_and!.
  - intros depth s v r H. cbn [read_value] in H.
    destruct (skip_ws s) as [|c r0] eqn:Es; [done|]. apply skip_ws_cons in Es.
    destruct (byte_val c =? 34).
    { destruct (lex_string r0) as [[d rest]|] eqn:E; [|done]. injection H as <- <-.
      apply lex_string_length in E. lia. }
    destruct (Ascii.eqb c "{").
    { case_match; [done|]. destruct (skip_ws r0) as [|d r1] eqn:E; [done|].
      case_match; [injection H as <- <-; apply skip_ws_cons in E; lia|].
      apply IHm in H. pose proof (skip_ws_length r0). rewrite E in *. simpl in *. lia. }
    destruct (Ascii.eqb c "[").
    { case_match; [done|]. destruct (skip_ws r0) as [|d r1] eqn:E; [done|].
      case_match; [injection H as <- <-; apply skip_ws_cons in E; lia|].
      apply IHi in H. pose proof (skip_ws_length r0). rewrite E in *. simpl in *. lia. }
    destruct (cut_prefix "true" _) eqn:E1; [injection H as <- <-; apply cut_prefix_true_length in E1; simpl in *; lia|].
    destruct (cut_prefix "false" _) eqn:E2; [injection H as <- <-; apply cut_prefix_true_length in E2; simpl in *; lia|].
    destruct (cut_prefix "null" _) eqn:E3; [injection H as <- <-; apply cut_prefix_true_length in E3; simpl in *; lia|].
    destruct (lex_number _) as [[t rest]|] eqn:E4; [|done]. injection H as <- <-.
    apply lex_number_length in E4. simpl in *. lia.
  - intros depth s acc v r H. cbn [read_items] in H.
    destruct (read_value n depth s) as [[v0 rest]|] eqn:Ev; [|done]. apply IHv in Ev.
    destruct (skip_ws rest) as [|c r0] eqn:Es; [done|]. apply skip_ws_cons in Es.
    case_match; [apply IHi in H; lia|]. case_match; [injection H as <- <-; lia|done].
  - intros depth s acc v r H. cbn [read_members] in H.
    destruct (skip_ws s) as [|q r0] eqn:Eq; [done|]. apply skip_ws_cons in Eq.
    case_match; [|done]. destruct (lex_string r0) as [[k rest]|] eqn:Ek; [|done].
    apply lex_string_length in Ek. destruct (skip_ws rest) as [|c r1] eqn:Ec; [done|].
    apply skip_ws_cons in Ec. case_match; [|done].
    destruct (read_value n depth r1) as [[v0 rest0]|] eqn:Ev; [|done]. apply IHv in Ev.
    destruct (skip_ws rest0) as [|c0 r2] eqn:Es; [done|]. apply skip_ws_cons in Es.
    case_match; [apply IHm in H; lia|]. case_match; [injection H as <- <-; lia|done].
Qed.

(** ** Fuel *)

Definition fuel_ok (n : nat) : Prop :=
  (forall m depth s, (2 * String.length s + 1 <= n)%nat -> (2 * String.length s + 1 <= m)%nat ->
     read_value n depth s = read_value m depth s) /\
  (forall m depth s acc, (2 * String.length s + 2 <= n)%nat -> (2 * String.length s + 2 <= m)%nat ->
     read_items n depth s acc = read_items m depth s acc) /\
  (forall m depth s acc, (2 * String.length s + 2 <= n)%nat -> (2 * String.length s + 2 <= m)%nat ->
     read_members n depth s acc = read_members m depth s acc).
Lemma fuel_enough n : fuel_ok n.
Proof.
  induction n as [|n (IHv & IHi & IHm)].
  { split_and!; intros; lia. }
  assert (Hlen : forall s c r, skip_ws s = String c r -> (String.length r < String.length s)%nat)
    by apply skip_ws_cons.
  split_and!.
  - intros [|m] depth s Hn Hm; [lia|]. cbn [read_value].
    destruct (skip_ws s) as [|c r] eqn:Es; [done|]. apply Hlen in Es.
    case_match; [done|]. case_match.
    { case_match; [done|]. pose proof (skip_ws_length r). destruct (skip_ws r) as [|d r1] eqn:Er; [done|].
      simpl in *. case_match; [done|]. apply IHm; simpl; lia. }
    case_match; [|done].
    case_match; [done|]. pose proof (skip_ws_length r). destruct (skip_ws r) as [|d r1] eqn:Er; [done|].
    simpl in *. case_match; [done|]. apply IHi; simpl; lia.
  - intros [|m] depth s acc Hn Hm; [lia|]. cbn [read_items].
    rewrite (IHv m depth s) by lia.
    destruct (read_value m depth s) as [[v rest]|] eqn:Ev; [|done].
    apply (proj1 (read_length m)) in Ev.
    destruct (skip_ws rest) as [|c r] eqn:Es; [done|]. apply Hlen in Es.
    case_match; [|done]. apply IHi; lia.
  - intros [|m] depth s acc Hn Hm; [lia|]. cbn [read_members].
    destruct (skip_ws s) as [|q r] eqn:Es; [done|]. apply Hlen in Es.
    case_match; [|done]. destruct (lex_string r) as [[k rest]|] eqn:Ek; [|done].
    apply lex_string_length in Ek. destruct (skip_ws rest) as [|c r1] eqn:Ec; [done|].
    apply Hlen in Ec. case_match; [|done]. rewrite (IHv m depth r1) by lia.
    destruct (read_value m depth r1) as [[v rest1]|] eqn:Ev; [|done].
    apply (proj1 (read_length m)) in Ev.
    destruct (skip_ws rest1) as [|c1 r2] eqn:Es1; [done|]. apply Hlen in Es1.
    case_match; [|done]. apply IHm; lia.
Qed.

(** More fuel never changes what is read. *)
Lemma parse_enough fuel depth s : (json_fuel s <= fuel)%nat ->
  read_value fuel depth s = read_value (json_fuel s) depth s.
Proof.
  intros H. unfold json_fuel in *. apply (proj1 (fuel_enough fuel)); lia.
Qed.

(** ** Examples *)

Example parse_object : json_parse (quoted "{ 'a' : [1, -2.5e3, true], 'b': null }") =
  Some (JObject [("a", JArray [JNumber "1"; JNumber "-2.5e3"; JBool true]); ("b", JNull)])%string.
Proof. vm_compute. reflexivity. Qed.
