(* ===== verification/ToolCatalog.v ===== *)
(** * Tool catalog

    [internal/domain/tool_catalog.go]: tool identifiers, semantic versions and
    their precedence, the definition of a tool version with its validation at
    construction and at publication, the draft/published/retired lifecycle and
    the exposure of published versions. *)
From Stdlib Require Import Ascii String.
From S2P Require Import Prelude GoStd Regex Json.

(** ** Patterns *)

Definition a_z := is_lower.
Definition a_z0_9 := one_of [is_lower; is_digit].
Definition number_re : regex :=
  RAlt (RChar "0") (RSeq (RClass (byte_in 49 57)) (RStar (RClass is_digit))).

(** Two or more dotted segments of lower-case letters, digits and underscores,
    each starting with a letter; no underscore in the first. *)
Definition toolIDPattern : regex :=
  RSeq (RClass a_z) (RSeq (RStar a_z0_9)
    (RPlus (RSeq (RChar ".") (RSeq (RClass a_z)
      (RStar (one_of [is_lower; is_digit; Ascii.eqb "_"])))))).
(** Three dotted decimal numbers without leading zeros. *)
Definition semverCorePattern : regex :=
  RSeq number_re (RSeq (RChar ".") (RSeq number_re (RSeq (RChar ".") number_re))).
(** [^[0-9A-Za-z-]+$] *)
Definition semverIDPattern : regex :=
  RPlus (one_of [is_digit; is_upper; is_lower; Ascii.eqb "-"]).
(** Lower-case alphanumeric words joined by single [.], [_] or [-]. *)
Definition registryKeyPattern : regex :=
  RSeq (RClass a_z) (RSeq (RStar a_z0_9) (RStar (RSeq (ROf "._-") (RPlus a_z0_9)))).
(** A decimal number without leading zeros and an optional fraction. *)
Definition exactQuantityPattern : regex :=
  RSeq number_re (ROpt (RSeq (RChar ".") (RPlus (RClass is_digit)))).

Definition ParseToolID (value : string) : result string :=
  if (255 <? slen value) || negb (matches toolIDPattern value) then
    Err (ErrNew "tool ID must be a lower-case dotted identifier")
  else Ok value.

(** ** Semantic versions *)

Record SemanticVersion := mkSemVer {
  raw : string;
  major : Z;
  minor : Z;
  patch : Z;
  prerelease : list string;
}.

Definition zero_version : SemanticVersion := mkSemVer "" 0 0 0 [].

Definition numericIdentifier (value : string) : bool :=
  str_forallb is_digit value && negb (String.eqb value "").

Definition validSemverIdentifiers (value : string) (rejectNumericLeadingZero : bool) : bool :=
  if String.eqb value "" then false else
  forallb (fun identifier =>
    if negb (matches semverIDPattern identifier) then false else
    negb (rejectNumericLeadingZero && (1 <? slen identifier) && has_prefix identifier "0"
          && numericIdentifier identifier)) (split_on "." value).

(** The decimal value of a digit string. *)
Definition dec_val (s : string) : Z :=
  foldl (fun acc c => acc * 10 + (byte_val c - 48)) 0 (bytes_of s).

(** [strconv.ParseUint(s, 10, 64)] on a text the pattern has accepted as digits;
    [None] is [ErrRange]. *)
Definition ParseUint (s : string) : option Z :=
  if dec_val s <=? 2 ^ 64 - 1 then Some (dec_val s) else None.

(** [semverCorePattern.FindStringSubmatch]: the three groups are the texts
    between the two dots. *)
Definition core_submatches (core : string) : option (list string) :=
  if matches semverCorePattern core then Some (split_on "." core) else None.

Definition errSemVer : goerror := ErrNew "version must be valid SemVer 2.0.0".

Definition ParseSemanticVersion (value : string) : result SemanticVersion :=
  if String.eqb value "" || (255 <? slen value) then Err errSemVer else
  let '(precedence, build, hasBuild) := cut_on "+" value in
  if (hasBuild && negb (validSemverIdentifiers build false)) || contains_byte "+" build then
    Err errSemVer else
  let '(core, prereleaseText, hasPrerelease) := cut_on "-" precedence in
  if hasPrerelease && negb (validSemverIdentifiers prereleaseText true) then Err errSemVer else
  match core_submatches core with
  | Some [m1; m2; m3] =>
      match ParseUint m1, ParseUint m2, ParseUint m3 with
      | Some v1, Some v2, Some v3 =>
          Ok (mkSemVer value v1 v2 v3
                (if hasPrerelease then split_on "." prereleaseText else []))
      | _, _, _ => Err (ErrNew "version component exceeds uint64")
      end
  | _ => Err errSemVer
  end.

(** The comparison of two different prerelease identifiers. *)
Definition compare_identifier (left right : string) : Z :=
  let leftNumeric := numericIdentifier left in
  let rightNumeric := numericIdentifier right in
  if leftNumeric && rightNumeric then
    if slen left <? slen right then -1
    else if slen right <? slen left then 1
    else if str_ltb left right then -1
    else 1
  else if leftNumeric then -1
  else if rightNumeric then 1
  else if str_ltb left right then -1
  else 1.

(** The loop over the common positions, then the comparison of the lengths. *)
Fixpoint compare_prerelease (left right : list string) : Z :=
  match left, right with
  | [], [] => 0
  | [], _ :: _ => -1
  | _ :: _, [] => 1
  | l :: ls, r :: rs =>
      if String.eqb l r then compare_prerelease ls rs else compare_identifier l r
  end.

Definition Compare (version other : SemanticVersion) : Z :=
  if major version <? major other then -1
  else if major other <? major version then 1
  else if minor version <? minor other then -1
  else if minor other <? minor version then 1
  else if patch version <? patch other then -1
  else if patch other <? patch version then 1
  else
    match prerelease version, prerelease other with
    | [], _ :: _ => 1
    | _ :: _, [] => -1
    | l, r => compare_prerelease l r
    end.

Definition RequireMonotonicVersion (previous next : SemanticVersion) : result unit :=
  if Compare next previous <=? 0 then
    Err (ErrNew ("version " +:+ raw next +:+ " must have greater SemVer precedence than "
                 +:+ raw previous))
  else Ok tt.

(** ** Tool version definitions; the string-typed enumerations are open, as in Go *)

Definition RiskRead : string := "read".
Definition RiskBoundedWrite : string := "bounded_write".
Definition RiskConsequentialWrite : string := "consequential_write".
Definition RiskPrivileged : string := "privileged".

Definition RetrySafe : string := "safe".
Definition RetryDownstreamIdempotency : string := "downstream_idempotency".
Definition RetryGatewayDeduplicated : string := "gateway_deduplicated".
Definition RetryReconcileBeforeRetry : string := "reconcile_before_retry".
Definition RetryAtLeastOnceAccepted : string := "at_least_once_accepted".
Definition RetryNonRetryable : string := "non_retryable".

Definition ApprovalNever : string := "never".
Definition ApprovalPolicy : string := "policy".
Definition ApprovalAlways : string := "always".

Definition ProjectionAny : string := "any".
Definition ProjectionString : string := "string".
Definition ProjectionNumber : string := "number".
Definition ProjectionBoolean : string := "boolean".
Definition ProjectionObject : string := "object".
Definition ProjectionArray : string := "array".
Definition ProjectionNull : string := "null".

Definition MeterAtAttempt : string := "attempt".
Definition MeterAtConfirmedSideEffect : string := "confirmed_side_effect".
Definition MeterAtResult : string := "result".
Definition MeterAtProviderUnit : string := "provider_unit".
Definition MeterAtToolSpecific : string := "tool_specific".
Definition MeterPerLogicalInvocation : string := "logical_invocation".
Definition MeterPerAttempt : string := "attempt".
Definition MeterPerProviderUnit : string := "provider_unit".

Record ResourceProjectionField := mkField {
  field_Name : string;
  field_Pointer : string;
  field_Literal : jvalue;
  field_LiteralSet : bool;
  field_Required : bool;
  field_Type : string;
}.

Record ResourceProjectionDefinition := mkProjection {
  Fields : list ResourceProjectionField;
  MaxFields : Z;
  MaxOutputBytes : Z;
}.

Record ToolLimits := mkLimits {
  RequestBytes : Z;
  ResultBytes : Z;
  Deadline : Z;
  Concurrency : Z;
  MaxAttempts : Z;
}.

Record ConnectorBinding := mkBinding {
  ConnectorType : string;
  Operation : string;
  InstanceSelector : string;
}.

Record ReviewedDescription := mkDescription {
  Title : string;
  Description_text : string;
  ReviewRef : string;
}.

Record MeteringRule := mkMetering {
  Dimension : string;
  Units : string;
  ChargePoint : string;
  DeduplicationScope : string;
}.

Record ToolVersionDefinition := mkDefinition {
  def_ToolID : string;
  def_Version : SemanticVersion;
  Risk : string;
  SideEffect : bool;
  Retry : string;
  Approval : string;
  OpenWorldResult : bool;
  Description : ReviewedDescription;
  InputSchema : string;
  OutputSchema : string;
  CanonicalProfile : string;
  Connector : ConnectorBinding;
  CredentialSelector : string;
  RetryQualification : string;
  ResourceProjection : ResourceProjectionDefinition;
  Metering : MeteringRule;
  Limits : ToolLimits;
}.

(** [SchemaCompiler], an interface implemented by the schema service; a nil
    interface is [None]. *)
Definition SchemaCompiler : Type := option (string -> result unit).

Definition one_of_str (value : string) (allowed : list string) : bool :=
  existsb (String.eqb value) allowed.

Definition validRisk (value : string) : bool :=
  one_of_str value [RiskRead; RiskBoundedWrite; RiskConsequentialWrite; RiskPrivileged].
Definition validRetry (value : string) : bool :=
  one_of_str value [RetrySafe; RetryDownstreamIdempotency; RetryGatewayDeduplicated;
    RetryReconcileBeforeRetry; RetryAtLeastOnceAccepted; RetryNonRetryable].
Definition validApproval (value : string) : bool :=
  one_of_str value [ApprovalNever; ApprovalPolicy; ApprovalAlways].
Definition validRegistryKey (value : string) : bool :=
  (slen value <=? 128) && matches registryKeyPattern value.

(** From position 1 on: every ["~"] is followed by ["0"] or ["1"], which is skipped. *)
Fixpoint valid_escapes (pointer : string) : bool :=
  match pointer with
  | EmptyString => true
  | String c rest =>
      if Ascii.eqb c "~" then
        match rest with
        | String d rest => (Ascii.eqb d "0" || Ascii.eqb d "1") && valid_escapes rest
        | EmptyString => false
        end
      else valid_escapes rest
  end.

Definition validJSONPointer (pointer : string) : bool :=
  match pointer with
  | EmptyString => false
  | String c _ => if Ascii.eqb c "/" then valid_escapes pointer else false
  end.

Definition NUL_CR : string := str_of [byte 0; byte 13].
Definition NUL_CR_LF : string := str_of [byte 0; byte 13; byte 10].

Fixpoint validate_fields (seen : gset string) (fields : list ResourceProjectionField)
    : result unit :=
  match fields with
  | [] => Ok tt
  | field :: fields =>
      if String.eqb (field_Name field) "" || (128 <? slen (field_Name field))
         || contains_any (field_Name field) NUL_CR_LF then
        Err (ErrNew "invalid resource projection field name")
      else if bool_decide (field_Name field ∈ seen) then
        Err (ErrNew "duplicate resource projection field")
      else
        let hasPointer := negb (String.eqb (field_Pointer field) "") in
        let hasLiteral := field_LiteralSet field || negb (is_nil (field_Literal field)) in
        if Bool.eqb hasPointer hasLiteral
           || (hasPointer && negb (validJSONPointer (field_Pointer field))) then
          Err (ErrNew "resource projection field must have exactly one valid source")
        else if negb (one_of_str (field_Type field)
                  [ProjectionAny; ProjectionString; ProjectionNumber; ProjectionBoolean;
                   ProjectionObject; ProjectionArray; ProjectionNull]) then
          Err (ErrNew "invalid resource projection value type")
        else validate_fields ({[ field_Name field ]} ∪ seen) fields
  end.

Definition llen {A} (l : list A) : Z := Z.of_nat (length l).

Definition validateProjection (definition : ResourceProjectionDefinition) : result unit :=
  let maxFields := if MaxFields definition =? 0 then 32 else MaxFields definition in
  let maxBytes := if MaxOutputBytes definition =? 0 then Z.shiftl 16 10
                  else MaxOutputBytes definition in
  if (llen (Fields definition) =? 0) || (maxFields <? 1)
     || (maxFields <? llen (Fields definition)) || (32 <? maxFields)
     || (maxBytes <? 2) || (Z.shiftl 16 10 <? maxBytes) then
    Err (ErrNew "invalid resource projection limits or field count")
  else validate_fields ∅ (Fields definition).

Definition ValidateToolVersionDefinition (definition : ToolVersionDefinition) : result unit :=
  ParseToolID (def_ToolID definition) ≫= fun _ =>
  ParseSemanticVersion (raw (def_Version definition)) ≫= fun _ =>
  if negb (validRisk (Risk definition)) then Err (ErrNew "invalid risk class")
  else if negb (validRetry (Retry definition)) then Err (ErrNew "invalid retry class")
  else if negb (validApproval (Approval definition)) then Err (ErrNew "invalid approval class")
  else if String.eqb (Risk definition) RiskRead && SideEffect definition then
    Err (ErrNew "read risk cannot declare a side effect")
  else if String.eqb (Retry definition) RetrySafe && SideEffect definition then
    Err (ErrNew "safe retry class requires a side-effect-free operation")
  else if negb (validRegistryKey (ConnectorType (Connector definition)))
          || negb (validRegistryKey (Operation (Connector definition)))
          || negb (validRegistryKey (InstanceSelector (Connector definition))) then
    Err (ErrNew "invalid connector-operation binding")
  else
    validateProjection (ResourceProjection definition) ≫= fun _ =>
    let limits := Limits definition in
    if (RequestBytes limits <? 1) || (Z.shiftl 1 20 <? RequestBytes limits)
       || (ResultBytes limits <? 1) || (Z.shiftl 4 20 <? ResultBytes limits)
       || (Deadline limits <=? 0) || (30 * Second <? Deadline limits)
       || (Concurrency limits <? 1) || (250 <? Concurrency limits)
       || (MaxAttempts limits <? 1) || (3 <? MaxAttempts limits) then
      Err (ErrNew "tool limits must be positive and within the platform capacity envelope")
    else Ok tt.

Definition validReviewedText (value : string) (maximum : Z) : bool :=
  negb (String.eqb value "") && (slen value <=? maximum)
  && String.eqb (TrimSpace value) value && negb (contains_any value NUL_CR).

Definition validReviewReference (value : string) : bool :=
  negb (String.eqb value "") && (slen value <=? 512)
  && String.eqb (TrimSpace value) value && negb (contains_any value NUL_CR_LF).

Definition validateReviewedDescription (description : ReviewedDescription) : result unit :=
  if negb (validReviewedText (Title description) 128)
     || negb (validReviewedText (Description_text description) 4096)
     || negb (validReviewReference (ReviewRef description)) then
    Err (ErrNew "reviewed title, description, and review reference are required")
  else Ok tt.

Definition validateMetering (rule : MeteringRule) : result unit :=
  if negb (validRegistryKey (Dimension rule)) || String.eqb (Units rule) ""
     || (64 <? slen (Units rule)) || negb (matches exactQuantityPattern (Units rule))
     || negb (one_of_str (ChargePoint rule)
          [MeterAtAttempt; MeterAtConfirmedSideEffect; MeterAtResult; MeterAtProviderUnit;
           MeterAtToolSpecific])
     || negb (one_of_str (DeduplicationScope rule)
          [MeterPerLogicalInvocation; MeterPerAttempt; MeterPerProviderUnit]) then
    Err (ErrNew "invalid metering semantics")
  else Ok tt.

Definition wrap_err {A} (message : string) (r : result A) : result A :=
  match r with Ok a => Ok a | Err e => Err (ErrWrap message e) end.

Definition ValidateToolPublication (definition : ToolVersionDefinition)
    (compiler : SchemaCompiler) : result unit :=
  ValidateToolVersionDefinition definition ≫= fun _ =>
  match compiler with
  | None => Err (ErrNew "schema validator is required for publication")
  | Some CompileSchema =>
      validateReviewedDescription (Description definition) ≫= fun _ =>
      if negb (String.eqb (CanonicalProfile definition) "jcs-v1") then
        Err (ErrNew "unsupported canonicalization profile")
      else if (slen (TrimSpace (InputSchema definition)) =? 0)
              || (slen (TrimSpace (OutputSchema definition)) =? 0) then
        Err (ErrNew "input and output schemas are required")
      else
        wrap_err "input schema is not publishable" (CompileSchema (InputSchema definition)) ≫= fun _ =>
        wrap_err "output schema is not publishable" (CompileSchema (OutputSchema definition)) ≫= fun _ =>
        if negb (validRegistryKey (CredentialSelector definition)) then
          Err (ErrNew "invalid credential-binding selector")
        else if negb (validReviewReference (RetryQualification definition)) then
          Err (ErrNew "retry semantics require a qualification reference")
        else if negb (existsb field_Required (Fields (ResourceProjection definition))) then
          Err (ErrNew "resource projection requires at least one required field")
        else validateMetering (Metering definition)
  end.

(** ** Cloning and the version lifecycle *)

(** A deep copy: maps and arrays are rebuilt member by member. *)
Fixpoint cloneJSONValue (value : jvalue) : jvalue :=
  match value with
  | JObject members => JObject (map (fun kv => (kv.1, cloneJSONValue kv.2)) members)
  | JArray items => JArray (map cloneJSONValue items)
  | _ => value
  end.

Definition clone_field (field : ResourceProjectionField) : ResourceProjectionField :=
  mkField (field_Name field) (field_Pointer field) (cloneJSONValue (field_Literal field))
    (field_LiteralSet field) (field_Required field) (field_Type field).

Definition cloneToolDefinition (d : ToolVersionDefinition) : ToolVersionDefinition :=
  mkDefinition (def_ToolID d) (def_Version d) (Risk d) (SideEffect d) (Retry d) (Approval d)
    (OpenWorldResult d) (Description d) (InputSchema d) (OutputSchema d) (CanonicalProfile d)
    (Connector d) (CredentialSelector d) (RetryQualification d)
    (mkProjection (map clone_field (Fields (ResourceProjection d)))
       (MaxFields (ResourceProjection d)) (MaxOutputBytes (ResourceProjection d)))
    (Metering d) (Limits d).

Definition ToolVersionDraft : string := "draft".
Definition ToolVersionPublished : string := "published".
Definition ToolVersionRetired : string := "retired".

Record ToolVersion := mkToolVersion {
  tv_definition : ToolVersionDefinition;
  tv_state : string;
}.

Definition NewToolVersion (definition : ToolVersionDefinition) : result ToolVersion :=
  ValidateToolVersionDefinition definition ≫= fun _ =>
  Ok (mkToolVersion (cloneToolDefinition definition) ToolVersionDraft).

Definition Publish (version : ToolVersion) (compiler : SchemaCompiler) : result ToolVersion :=
  if negb (String.eqb (tv_state version) ToolVersionDraft) then
    Err (ErrNew "only a draft tool version can be published")
  else
    ValidateToolPublication (tv_definition version) compiler ≫= fun _ =>
    Ok (mkToolVersion (tv_definition version) ToolVersionPublished).

Definition Retire (version : ToolVersion) : result ToolVersion :=
  if negb (String.eqb (tv_state version) ToolVersionPublished) then
    Err (ErrNew "only a published tool version can be retired")
  else Ok (mkToolVersion (tv_definition version) ToolVersionRetired).

Record ToolExposure := mkExposure { exposure_enabled : bool }.

Definition NewToolExposure (version : ToolVersion) (enabled : bool) : result ToolExposure :=
  if enabled && negb (String.eqb (tv_state version) ToolVersionPublished) then
    Err (ErrNew "only a published tool version can be enabled")
  else Ok (mkExposure enabled).

Definition SetEnabled (exposure : ToolExposure) (version : ToolVersion) (enabled : bool)
    : result ToolExposure :=
  NewToolExposure version enabled.

(** ** Specifications *)

(** SemVer 2.0.0 section 11: a prerelease identifier is a number or a word;
    numbers compare by value, words bytewise, a number precedes a word, a longer
    list follows its prefix, a release follows its prereleases. *)
Inductive identifier := INum (n : Z) | IWord (s : string).

Definition identifier_of (s : string) : identifier :=
  if numericIdentifier s then INum (dec_val s) else IWord s.

Definition spec_identifier (a b : identifier) : comparison :=
  match a, b with
  | INum n, INum m => Z.compare n m
  | INum _, IWord _ => Lt
  | IWord _, INum _ => Gt
  | IWord s, IWord t => String.compare s t
  end.

Fixpoint spec_identifiers (a b : list identifier) : comparison :=
  match a, b with
  | [], [] => Eq
  | [], _ => Lt
  | _, [] => Gt
  | x :: a, y :: b =>
      match spec_identifier x y with Eq => spec_identifiers a b | c => c end
  end.

Definition spec_precedence (v w : SemanticVersion) : comparison :=
  match Z.compare (major v) (major w) with
  | Eq =>
      match Z.compare (minor v) (minor w) with
      | Eq =>
          match Z.compare (patch v) (patch w) with
          | Eq =>
              match prerelease v, prerelease w with
              | [], _ :: _ => Gt
              | _ :: _, [] => Lt
              | p, q => spec_identifiers (map identifier_of p) (map identifier_of q)
              end
          | c => c
          end
      | c => c
      end
  | c => c
  end.

(** Go's three-way result of a comparison. *)
Definition sign_of (c : comparison) : Z := match c with Lt => -1 | Eq => 0 | Gt => 1 end.

(** A chain of versions each accepted after its predecessor. *)
Fixpoint monotonic_chain (previous : SemanticVersion) (l : list SemanticVersion) : Prop :=
  match l with
  | [] => True
  | next :: l => RequireMonotonicVersion previous next = Ok tt /\ monotonic_chain next l
  end.

(** Versions reachable through the constructor and the lifecycle operations,
    with the schema compiler each publication used. *)
Inductive lifecycle (d : ToolVersionDefinition) : ToolVersion -> Prop :=
| lifecycle_new v : NewToolVersion d = Ok v -> lifecycle d v
| lifecycle_publish v w compiler :
    lifecycle d v -> Publish v compiler = Ok w -> lifecycle d w
| lifecycle_retire v w : lifecycle d v -> Retire v = Ok w -> lifecycle d w.

(** ** Lemmas: comparisons *)

(** A three-way comparison that is a strict total order up to equality. *)
Record total_cmp {A} (f : A -> A -> comparison) : Prop := {
  cmp_antisym : forall a b, f a b = CompOpp (f b a);
  cmp_eq : forall a b, f a b = Eq -> a = b;
  cmp_trans : forall a b c, f a b = Lt -> f b c = Lt -> f a c = Lt;
}.
Arguments cmp_antisym {A f}.
Arguments cmp_eq {A f}.
Arguments cmp_trans {A f}.

Lemma cmp_refl {A} (f : A -> A -> comparison) : total_cmp f -> forall a, f a a = Eq.
Proof. intros H a. pose proof (cmp_antisym H a a). by destruct (f a a). Qed.

Definition lex {A B} (f : A -> A -> comparison) (g : B -> B -> comparison)
    (x y : A * B) : comparison :=
  match f x.1 y.1 with Eq => g x.2 y.2 | c => c end.

Lemma lex_total {A B} (f : A -> A -> comparison) (g : B -> B -> comparison) :
  total_cmp f -> total_cmp g -> total_cmp (lex f g).
Proof.
  intros Hf Hg. unfold lex. split.
  - intros [a b] [a' b']; simpl. rewrite (cmp_antisym Hf a' a).
    destruct (f a a'); simpl; auto. apply (cmp_antisym Hg).
  - intros [a b] [a' b']; simpl. destruct (f a a') eqn:E; [|done|done].
    intros E'. by rewrite (cmp_eq Hf _ _ E), (cmp_eq Hg _ _ E').
  - intros [a b] [a' b'] [a'' b'']; simpl.
    destruct (f a a') eqn:E1; [apply (cmp_eq Hf) in E1 as ->| |done];
      (destruct (f a' a'') eqn:E2; [apply (cmp_eq Hf) in E2 as <-| |done]); auto.
    + apply (cmp_trans Hg).
    + by rewrite E1.
    + by rewrite (cmp_trans Hf _ _ _ E1 E2).
Qed.

Lemma Z_total : total_cmp Z.compare.
Proof.
  split; [intros; apply Z.compare_antisym|intros; by apply Z.compare_eq|].
  intros a b c. rewrite !Z.compare_lt_iff. lia.
Qed.

Lemma ascii_total : total_cmp Ascii.compare.
Proof.
  split; [apply Ascii.compare_antisym|intros; by apply Ascii.compare_eq_iff|].
  intros a b c. unfold Ascii.compare. rewrite !N.compare_lt_iff. lia.
Qed.

Lemma string_total : total_cmp String.compare.
Proof.
  split; [apply String.compare_antisym|intros; by apply String.compare_eq_iff|].
  intros a. induction a as [|x a IH]; intros [|y b] [|z c]; simpl; try done.
  pose proof (cmp_trans ascii_total x y z).
  destruct (Ascii.compare x y) eqn:E1; [apply Ascii.compare_eq_iff in E1 as ->| |done];
    (destruct (Ascii.compare y z) eqn:E2; [apply Ascii.compare_eq_iff in E2 as <-| |done]); auto.
  - apply IH.
  - by rewrite E1.
  - by rewrite H.
Qed.

Lemma identifier_total : total_cmp spec_identifier.
Proof.
  split.
  - intros [n|s] [m|t]; simpl; auto; [apply Z.compare_antisym|apply String.compare_antisym].
  - intros [n|s] [m|t]; simpl; try done; intros H; f_equal;
      [by apply Z.compare_eq|by apply String.compare_eq_iff].
  - intros [n|s] [m|t] [k|u]; simpl; try done; [apply (cmp_trans Z_total)|apply (cmp_trans string_total)].
Qed.

Lemma identifiers_total : total_cmp spec_identifiers.
Proof.
  split.
  - intros a. induction a as [|x a IH]; intros [|y b]; simpl; auto.
    rewrite (cmp_antisym identifier_total y x). destruct (spec_identifier x y); simpl; auto.
  - intros a. induction a as [|x a IH]; intros [|y b]; simpl; try done.
    destruct (spec_identifier x y) eqn:E; try done. apply (cmp_eq identifier_total) in E as ->.
    intros ?. by rewrite (IH b).
  - intros a. induction a as [|x a IH]; intros [|y b] [|z c]; simpl; try done.
    destruct (spec_identifier x y) eqn:E1; [apply (cmp_eq identifier_total) in E1 as ->| |done];
      (destruct (spec_identifier y z) eqn:E2;
        [apply (cmp_eq identifier_total) in E2 as <-| |done]); auto.
    + apply IH.
    + by rewrite E1.
    + by rewrite (cmp_trans identifier_total _ _ _ E1 E2).
Qed.

(** ** Lemmas: numeric identifiers *)

Lemma dec_val_foldl (l : list ascii) acc :
  foldl (fun acc c => acc * 10 + (byte_val c - 48)) acc l =
  acc * 10 ^ llen l + foldl (fun acc c => acc * 10 + (byte_val c - 48)) 0 l.
Proof.
  unfold llen. revert acc. induction l as [|c l IH]; intros acc; [simpl; lia|].
  cbn [foldl length]. rewrite IH, (IH (0 * 10 + _)).
  rewrite Nat2Z.inj_succ, Z.pow_succ_r by lia. lia.
Qed.

Lemma dec_val_cons c s : dec_val (String c s) = (byte_val c - 48) * 10 ^ slen s + dec_val s.
Proof.
  unfold dec_val, bytes_of. cbn [list_ascii_of_string foldl].
  rewrite dec_val_foldl. f_equal. unfold slen, llen. do 2 f_equal.
  induction s; simpl; [done|lia].
Qed.

Lemma slen_cons c s : slen (String c s) = slen s + 1.
Proof. unfold slen. simpl. lia. Qed.

Lemma digit_range c : is_digit c = true <-> 48 <= byte_val c <= 57.
Proof. unfold is_digit, byte_in. rewrite andb_true_iff, !Z.leb_le. done. Qed.

Lemma dec_val_range s : str_forallb is_digit s = true -> 0 <= dec_val s < 10 ^ slen s.
Proof.
  induction s as [|c s IH]; [done|]. simpl. rewrite andb_true_iff, digit_range.
  intros [Hc Hs]. specialize (IH Hs). rewrite dec_val_cons, slen_cons.
  pose proof (slen_nonneg s). rewrite Z.pow_add_r by lia. nia.
Qed.

Lemma compare_digits a b : String.length a = String.length b ->
  str_forallb is_digit a = true -> str_forallb is_digit b = true ->
  String.compare a b = Z.compare (dec_val a) (dec_val b).
Proof.
  revert b. induction a as [|c a IH]; intros [|d b]; try done. simpl.
  intros [= Hl]. rewrite !andb_true_iff, !digit_range. intros [Hc Ha] [Hd Hb].
  rewrite !dec_val_cons. replace (slen b) with (slen a) by (unfold slen; lia).
  pose proof (dec_val_range a Ha). pose proof (dec_val_range b Hb).
  replace (slen b) with (slen a) in * by (unfold slen; lia).
  unfold Ascii.compare. unfold byte_val in *.
  destruct (N.compare_spec (N_of_ascii c) (N_of_ascii d)) as [E|E|E].
  - rewrite IH by done. rewrite E.
    destruct (Z.compare_spec (dec_val a) (dec_val b)); symmetry;
      [apply Z.compare_eq_iff|apply Z.compare_lt_iff|apply Z.compare_gt_iff]; lia.
  - symmetry. apply Z.compare_lt_iff. nia.
  - symmetry. apply Z.compare_gt_iff. nia.
Qed.

Definition no_leading_zero (s : string) : Prop :=
  numericIdentifier s = true -> 1 < slen s -> has_prefix s "0" = false.

Lemma dec_val_shorter a b :
  numericIdentifier a = true -> numericIdentifier b = true -> no_leading_zero b ->
  slen a < slen b -> dec_val a < dec_val b.
Proof.
  unfold no_leading_zero, numericIdentifier. rewrite !andb_true_iff, !negb_true_iff.
  intros [Ha Hae] [Hb Hbe] Hz Hl. destruct b as [|d b]; [done|].
  destruct a as [|c a]; [done|]. pose proof (dec_val_range _ Ha).
  rewrite !slen_cons in *. pose proof (slen_nonneg a). pose proof (slen_nonneg b).
  simpl in Hb. apply andb_true_iff in Hb as [Hd Hb].
  pose proof (dec_val_range _ Hb). rewrite (dec_val_cons d).
  assert (Hne : Ascii.eqb "0" d = false).
  { specialize (Hz (conj (andb_true_intro (conj Hd Hb)) eq_refl) ltac:(lia)).
    unfold has_prefix in Hz. cbn [cut_prefix] in Hz. by destruct (Ascii.eqb "0" d). }
  apply digit_range in Hd. assert (byte_val d <> 48).
  { intros E. apply Ascii.eqb_neq in Hne. apply Hne. by apply byte_val_inj. }
  assert (10 ^ (slen a + 1) <= 10 ^ slen b) by (apply Z.pow_le_mono_r; lia).
  assert (1 * 10 ^ slen b <= (byte_val d - 48) * 10 ^ slen b)  by (clear Hz; apply Z.mul_le_mono_nonneg_r; [lia|]; clear - Hd H3; lia). lia.
Qed.

Lemma str_ltb_spec a b : a <> b ->
  (if str_ltb a b then -1 else 1) = sign_of (String.compare a b).
Proof.
  unfold str_ltb. intros H. destruct (String.compare a b) eqn:E; try done.
  by apply String.compare_eq_iff in E.
Qed.

Lemma compare_identifier_spec a b : a <> b -> no_leading_zero a -> no_leading_zero b ->
  compare_identifier a b = sign_of (spec_identifier (identifier_of a) (identifier_of b)).
Proof.
  intros Hne Ha Hb. unfold compare_identifier, identifier_of.
  destruct (numericIdentifier a) eqn:Na, (numericIdentifier b) eqn:Nb; simpl; try done;
    [|by apply str_ltb_spec].
  destruct (Z.ltb_spec (slen a) (slen b)).
  { rewrite (proj2 (Z.compare_lt_iff _ _)); [done|]. by apply dec_val_shorter. }
  destruct (Z.ltb_spec (slen b) (slen a)).
  { rewrite (proj2 (Z.compare_gt_iff _ _)); [done|]. by apply dec_val_shorter. }
  unfold numericIdentifier in Na, Nb. apply andb_true_iff in Na as [Na _], Nb as [Nb _].
  rewrite str_ltb_spec by done. rewrite compare_digits by (done || unfold slen in *; lia). done.
Qed.

Lemma compare_prerelease_spec a b :
  Forall no_leading_zero a -> Forall no_leading_zero b ->
  compare_prerelease a b =
  sign_of (spec_identifiers (map identifier_of a) (map identifier_of b)).
Proof.
  revert b. induction a as [|x a IH]; intros [|y b]; simpl; try done.
  rewrite !Forall_cons_iff. intros [Hx Ha] [Hy Hb].
  destruct (String.eqb_spec x y) as [->|Hne].
  - rewrite (cmp_refl _ identifier_total). by apply IH.
  - pose proof (compare_identifier_spec _ _ Hne Hx Hy) as E.
    destruct (spec_identifier _ _) eqn:Hs; try done. exfalso.
    unfold compare_identifier in E. repeat case_match; done.
Qed.

Definition version_wf (v : SemanticVersion) : Prop := Forall no_leading_zero (prerelease v).

Lemma compare_refines v w : version_wf v -> version_wf w ->
  Compare v w = sign_of (spec_precedence v w).
Proof.
  unfold version_wf, Compare, spec_precedence. intros Hv Hw.
  assert (E : forall a b k, (if a <? b then -1 else if b <? a then 1 else sign_of k) =
                       sign_of (match Z.compare a b with Eq => k | c => c end)).
  { intros a b k. destruct (Z.compare_spec a b), (Z.ltb_spec a b), (Z.ltb_spec b a); try lia; done. }
  rewrite <- E, <- E, <- E. do 6 (case_match; [done|]).
  destruct (prerelease v), (prerelease w); try done. by apply compare_prerelease_spec.
Qed.

Lemma valid_identifiers_wf text : validSemverIdentifiers text true = true ->
  Forall no_leading_zero (split_on "." text).
Proof.
  unfold validSemverIdentifiers. case_match; [done|]. rewrite forallb_forall.
  rewrite List.Forall_forall. intros H' s Hs. specialize (H' s Hs).
  destruct (matches semverIDPattern s); [|done]. simpl in H'.
  intros Hn Hl. apply Z.ltb_lt in Hl. rewrite Hl, Hn, andb_true_r, negb_true_iff in H'. done.
Qed.

Lemma parsed_version_wf s v : ParseSemanticVersion s = Ok v -> version_wf v.
Proof.
  unfold ParseSemanticVersion, version_wf. intros H.
  destruct (cut_on "+" s) as [[p b] hb], (cut_on "-" p) as [[c q] hq] eqn:Hq.
  case_match; [done|]. case_match; [done|]. case_match eqn:Hv; [done|]. branches.
  - simpl. apply valid_identifiers_wf. destruct (validSemverIdentifiers q true); [done|].
    by simpl in Hv.
  - constructor.
Qed.

(** The part of a version its precedence depends on. *)
Definition version_key (v : SemanticVersion) : Z * (Z * (Z * list identifier)) :=
  (major v, (minor v, (patch v, map identifier_of (prerelease v)))).

Definition prerelease_cmp (a b : list identifier) : comparison :=
  match a, b with
  | [], _ :: _ => Gt
  | _ :: _, [] => Lt
  | _, _ => spec_identifiers a b
  end.

Definition key_cmp := lex Z.compare (lex Z.compare (lex Z.compare prerelease_cmp)).

Lemma prerelease_total : total_cmp prerelease_cmp.
Proof.
  pose proof identifiers_total as H. split.
  - intros [|x a] [|y b]; try done. apply (cmp_antisym H).
  - intros [|x a] [|y b]; try done. apply (cmp_eq H).
  - intros [|x a] [|y b] [|z c]; try done. apply (cmp_trans H).
Qed.

Lemma key_total : total_cmp key_cmp.
Proof. repeat apply lex_total; auto using Z_total, prerelease_total. Qed.

Lemma precedence_key v w : spec_precedence v w = key_cmp (version_key v) (version_key w).
Proof.
  unfold spec_precedence, key_cmp, lex, version_key. simpl.
  destruct (Z.compare (major v) (major w)), (Z.compare (minor v) (minor w)),
    (Z.compare (patch v) (patch w)); try done.
  by destruct (prerelease v), (prerelease w).
Qed.

Lemma compare_key v w : version_wf v -> version_wf w ->
  Compare v w = sign_of (key_cmp (version_key v) (version_key w)).
Proof. intros. rewrite <- precedence_key. by apply compare_refines. Qed.

Lemma monotonic_lt v w : version_wf v -> version_wf w ->
  RequireMonotonicVersion v w = Ok tt <-> key_cmp (version_key v) (version_key w) = Lt.
Proof.
  intros Hv Hw. unfold RequireMonotonicVersion. rewrite compare_key by done.
  rewrite (cmp_antisym key_total). destruct (key_cmp _ _); simpl; by split.
Qed.

Lemma chain_lt v l w : Forall version_wf (v :: l) -> monotonic_chain v l -> w ∈ l ->
  key_cmp (version_key v) (version_key w) = Lt.
Proof.
  revert v. induction l as [|n l IH]; intros v Hwf; [by intros _ ?%elem_of_nil|].
  inversion Hwf as [|? ? Hv Hl]; subst. inversion Hl; subst. simpl.
  intros [H Hc] Hw. apply monotonic_lt in H; auto.
  apply elem_of_cons in Hw as [->|Hw]; [done|].
  eapply (cmp_trans key_total); [done|]. by apply IH.
Qed.

(** ** Lemmas: validation and lifecycle *)

Lemma cloneJSONValue_id v : cloneJSONValue v = v.
Proof.
  induction v as [| | | |items IH|members IH] using jvalue_ind'; simpl; try done; f_equal.
  - induction IH as [|x l Hx _ IHl]; simpl; [done|]. by rewrite Hx, IHl.
  - induction IH as [|[k x] l Hx _ IHl]; simpl; [done|]. simpl in Hx. by rewrite Hx, IHl.
Qed.

Lemma cloneToolDefinition_id d : cloneToolDefinition d = d.
Proof.
  destruct d as [? ? ? ? ? ? ? ? ? ? ? ? ? ? [fs ? ?] ? ?]. unfold cloneToolDefinition. simpl.
  do 2 f_equal. induction fs as [|[] fs IH]; simpl; [done|].
  unfold clone_field at 1. simpl. by rewrite cloneJSONValue_id, IH.
Qed.

(** Exactly one source, and a well-formed pointer when that is the source. *)
Definition field_ok (f : ResourceProjectionField) : Prop :=
  field_Name f <> EmptyString /\
  (field_Pointer f <> EmptyString /\ validJSONPointer (field_Pointer f) = true /\
   field_LiteralSet f = false /\ field_Literal f = JNull \/
   field_Pointer f = EmptyString /\ (field_LiteralSet f = true \/ field_Literal f <> JNull)).

Lemma validate_fields_ok seen fs : validate_fields seen fs = Ok tt ->
  NoDup (map field_Name fs) /\ (forall n, n ∈ map field_Name fs -> n ∉ seen) /\
  Forall field_ok fs.
Proof.
  revert seen. induction fs as [|f fs IH]; intros seen; simpl.
  { intros _. repeat split; try constructor. by intros n ?%elem_of_nil. }
  case_match eqn:Hn; [done|]. case_match eqn:Hs; [done|]. case_match eqn:Hp; [done|].
  case_match; [done|]. intros (Hnd & Hd & Hf)%IH.
  apply bool_decide_eq_false in Hs. rewrite !orb_false_iff in Hn. destruct Hn as [[Hne _] _].
  apply String.eqb_neq in Hne. repeat split.
  - constructor; [|done]. intros Hin. apply (Hd _ Hin). set_solver.
  - intros n [->|Hn]%elem_of_cons; [done|]. specialize (Hd n Hn). set_solver.
  - constructor; [|done]. split; [done|]. apply orb_false_iff in Hp as [H1 H2].
    destruct (String.eqb_spec (field_Pointer f) ""); simpl in *.
    + right. split; [done|]. destruct (field_LiteralSet f); [by left|].
      right. intros E. by rewrite E in H1.
    + left. destruct (field_LiteralSet f), (field_Literal f) eqn:?; try done.
      destruct (validJSONPointer _); done.
Qed.

(** What a construction-time check establishes. *)
Definition definition_ok (d : ToolVersionDefinition) : Prop :=
  let l := Limits d in let fs := Fields (ResourceProjection d) in
  is_ok (ParseToolID (def_ToolID d)) = true /\
  is_ok (ParseSemanticVersion (raw (def_Version d))) = true /\
  (SideEffect d = true -> Risk d <> RiskRead /\ Retry d <> RetrySafe) /\
  (1 <= length fs <= 32)%nat /\ NoDup (map field_Name fs) /\ Forall field_ok fs /\
  1 <= RequestBytes l <= 2 ^ 20 /\ 1 <= ResultBytes l <= 2 ^ 22 /\
  0 < Deadline l <= 30 * Second /\ 1 <= Concurrency l <= 250 /\ 1 <= MaxAttempts l <= 3.

Lemma validate_definition_ok d : ValidateToolVersionDefinition d = Ok tt -> definition_ok d.
Proof.
  unfold ValidateToolVersionDefinition.
  rewrite result_bind_Ok. intros (id & Hid & H). rewrite result_bind_Ok in H.
  destruct H as (v & Hv & H).
  do 3 (case_match; [done|]). case_match eqn:Hread; [done|]. case_match eqn:Hsafe; [done|].
  case_match; [done|]. apply result_bind_Ok in H as ([] & Hp & H).
  case_match eqn:Hl; [done|]. to_prop. change (Z.shiftl 1 20) with (2 ^ 20) in *.
  change (Z.shiftl 4 20) with (2 ^ 22) in *.
  unfold validateProjection in Hp. case_match eqn:Hc; [done|]. to_prop.
  apply validate_fields_ok in Hp as (Hnd & _ & Hf). unfold llen in *.
  assert (Hm : (if MaxFields (ResourceProjection d) =? 0 then 32
                else MaxFields (ResourceProjection d)) <= 32) by lia.
  unfold definition_ok. rewrite Hid, Hv. repeat split; try done; try lia; destruct Hread, Hsafe; congruence.
Qed.

Lemma validate_publication_ok d compiler : ValidateToolPublication d compiler = Ok tt ->
  definition_ok d /\ CanonicalProfile d = "jcs-v1"%string /\
  existsb field_Required (Fields (ResourceProjection d)) = true /\
  validateMetering (Metering d) = Ok tt /\
  exists compile, compiler = Some compile /\
    is_ok (compile (InputSchema d)) = true /\ is_ok (compile (OutputSchema d)) = true.
Proof.
  unfold ValidateToolPublication. rewrite result_bind_Ok.
  intros ([] & Hd%validate_definition_ok & H). destruct compiler as [compile|]; [|done].
  apply result_bind_Ok in H as (? & _ & H). case_match eqn:Hprof; [done|].
  case_match; [done|]. apply result_bind_Ok in H as (? & Hi & H).
  apply result_bind_Ok in H as (? & Ho & H). do 2 (case_match; [done|]).
  case_match eqn:Hreq; [done|]. apply negb_false_iff in Hprof, Hreq.
  apply String.eqb_eq in Hprof. split_and!; try done. exists compile.
  unfold wrap_err in *. split_and!; try done; [by destruct (compile (InputSchema d))|].
  by destruct (compile (OutputSchema d)).
Qed.

(** ** Properties *)

(** [Compare] implements SemVer 2.0.0 precedence: on parsed versions its three-way
    result is the one of the specification, in which numeric identifiers are
    compared by value although the code compares lengths and then bytes. *)
Theorem compare_is_semver (s t : string) (v w : SemanticVersion)
    (Hv : ParseSemanticVersion s = Ok v) (Hw : ParseSemanticVersion t = Ok w) :
  Compare v w = sign_of (spec_precedence v w).
Proof. apply compare_refines; eapply parsed_version_wf; eassumption. Qed.

Lemma compare_is_semver_witness : exists v w,
  ParseSemanticVersion "1.0.0-rc.2" = Ok v /\ ParseSemanticVersion "1.0.0-rc.10+b7" = Ok w /\
  Compare v w = sign_of (spec_precedence v w) /\ Compare v w = -1.
Proof.
  eexists _, _. split; [vm_compute; reflexivity|]. split; [vm_compute; reflexivity|].
  split; [|vm_compute; reflexivity].
  apply (compare_is_semver "1.0.0-rc.2" "1.0.0-rc.10+b7"); vm_compute; reflexivity.
Defined.

(** Precedence is a total order on parsed versions that ignores build metadata
    (versions with the same text before the first ["+"] compare equal), and a chain of versions each
    accepted by [RequireMonotonicVersion] after its predecessor is strictly
    increasing, so no version of the chain is published twice. *)
Theorem semver_total_order (su sv sw : string) (u v w : SemanticVersion)
    (Hu : ParseSemanticVersion su = Ok u) (Hv : ParseSemanticVersion sv = Ok v)
    (Hw : ParseSemanticVersion sw = Ok w) :
  Compare v u = - Compare u v /\
  (Compare u v <= 0 -> Compare v w <= 0 -> Compare u w <= 0) /\
  ((cut_on "+" su).1.1 = (cut_on "+" sv).1.1 -> Compare u v = 0) /\
  (forall l x, Forall version_wf l -> monotonic_chain u l -> x ∈ l -> Compare u x = -1).
Proof.
  pose proof key_total as K.
  assert (Wu : version_wf u) by (eapply parsed_version_wf; eassumption).
  assert (Wv : version_wf v) by (eapply parsed_version_wf; eassumption).
  assert (Ww : version_wf w) by (eapply parsed_version_wf; eassumption).
  repeat split.
  - rewrite !compare_key by done. rewrite (cmp_antisym K). by destruct (key_cmp _ _).
  - rewrite !compare_key by done.
    destruct (key_cmp (version_key u) (version_key v)) eqn:E1; simpl; [|intros _|lia].
    + by rewrite (cmp_eq K _ _ E1).
    + destruct (key_cmp (version_key v) (version_key w)) eqn:E2; simpl; [intros _|intros _|lia].
      * by rewrite <- (cmp_eq K _ _ E2), E1.
      * by rewrite (cmp_trans K _ _ _ E1 E2).
  - intros Hcut. assert (Hkey : version_key u = version_key v).
    { unfold ParseSemanticVersion in Hu, Hv.
      destruct (cut_on "+" su) as [[p b] h], (cut_on "+" sv) as [[p' b'] h'].
      simpl in Hcut. subst p'. destruct (cut_on "-" p) as [[c q] hq].
      by branches. }
    rewrite compare_key, Hkey by done. by rewrite (cmp_refl _ K).
  - intros l x Hl Hc Hx. rewrite compare_key, (chain_lt u l x); auto.
    rewrite List.Forall_forall in Hl. apply Hl. by apply list_elem_of_In.
Qed.

Lemma semver_total_order_witness : exists u v,
  ParseSemanticVersion "1.2.3+x" = Ok u /\ ParseSemanticVersion "1.2.3+y" = Ok v /\
  Compare u v = 0.
Proof.
  eexists _, _. split; [vm_compute; reflexivity|]. split; [vm_compute; reflexivity|].
  refine (proj1 (proj2 (proj2 (semver_total_order "1.2.3+x" "1.2.3+y" "1.2.3" _ _ _ _ _ _))) _);
    vm_compute; reflexivity.
Defined.

(** the lifecycle keeps the definition immutable and moves only draft to published
    to retired: every reachable version holds exactly the definition it was
    created with, that definition passed the construction checks (capacity
    envelope, no side effect under a read or safe-retry class, distinct
    projection fields with exactly one source), a published or retired version
    passed the publication checks with both schemas compiled, only a published
    version can be exposed, and nothing leaves retired. *)
Theorem tool_lifecycle (d : ToolVersionDefinition) (v : ToolVersion) (H : lifecycle d v) :
  tv_definition v = d /\ definition_ok d /\
  tv_state v ∈ [ToolVersionDraft; ToolVersionPublished; ToolVersionRetired] /\
  (tv_state v <> ToolVersionDraft -> exists compile,
     is_ok (compile (InputSchema d)) = true /\ is_ok (compile (OutputSchema d)) = true /\
     ValidateToolPublication d (Some compile) = Ok tt) /\
  (is_ok (NewToolExposure v true) = true <-> tv_state v = ToolVersionPublished) /\
  (tv_state v = ToolVersionRetired ->
     is_ok (Retire v) = false /\ forall compiler, is_ok (Publish v compiler) = false).
Proof.
  assert (Hstate : tv_definition v = d /\ definition_ok d /\
    tv_state v ∈ [ToolVersionDraft; ToolVersionPublished; ToolVersionRetired] /\
    (tv_state v <> ToolVersionDraft -> exists compile,
       ValidateToolPublication d (Some compile) = Ok tt)).
  { induction H as [v H|v w compiler _ IH H|v w _ IH H].
    - unfold NewToolVersion in H. apply result_bind_Ok in H as ([] & Hd%validate_definition_ok & [= <-]).
      simpl. rewrite cloneToolDefinition_id. split_and!; auto; [apply list_elem_of_here|done].
    - destruct IH as (Hd & Hok & Hs & _). unfold Publish in H. case_match; [done|].
      apply result_bind_Ok in H as ([] & Hp & [= <-]). simpl. rewrite Hd in *.
      split_and!; auto; [by apply elem_of_cons; right; apply list_elem_of_here|].
      destruct (validate_publication_ok _ _ Hp) as (_ & _ & _ & _ & compile & -> & _). eauto.
    - destruct IH as (Hd & Hok & Hs & Hp). unfold Retire in H. case_match eqn:E; [done|].
      to_prop. simplify_eq. simpl. split_and!; auto; [|intros _; apply Hp; by rewrite E].
      do 2 (apply elem_of_cons; right). apply list_elem_of_here. }
  destruct Hstate as (Hd & Hok & Hs & Hp). split_and!; auto.
  - intros Hne. destruct (Hp Hne) as [compile Hc]. exists compile.
    destruct (validate_publication_ok _ _ Hc) as (_ & _ & _ & _ & c & [= <-] & ? & ?). done.
  - unfold NewToolExposure. simpl. destruct (String.eqb_spec (tv_state v) ToolVersionPublished);
      naive_solver.
  - intros E. unfold Retire, Publish. rewrite E. by split.
Qed.

(** A publishable definition. *)
Definition sample_definition : ToolVersionDefinition :=
  mkDefinition "github.issue.create" (mkSemVer "1.2.0" 1 2 0 []) RiskBoundedWrite true
    RetryReconcileBeforeRetry ApprovalPolicy false
    (mkDescription "Create issue" "Creates an issue." "REV-1") "{}" "{}" "jcs-v1"
    (mkBinding "github" "issue.create" "default") "github.app" "QUAL-7"
    (mkProjection [mkField "repository" "/repository" JNull false true ProjectionString;
                   mkField "kind" "" (JString "issue") true false ProjectionString] 0 0)
    (mkMetering "tool.calls" "1" MeterAtAttempt MeterPerLogicalInvocation)
    (mkLimits 65536 65536 (10 * Second) 10 3).

Lemma tool_lifecycle_witness : exists v,
  lifecycle sample_definition v /\ is_ok (NewToolExposure v true) = true.
Proof.
  assert (Hl : lifecycle sample_definition
                 (mkToolVersion sample_definition ToolVersionPublished)).
  { apply (lifecycle_publish _ (mkToolVersion sample_definition ToolVersionDraft) _
             (Some (fun _ => Ok tt))); [apply lifecycle_new|]; vm_compute; reflexivity. }
  eexists. split; [exact Hl|].
  refine (proj2 (proj1 (proj2 (proj2 (proj2 (proj2 (tool_lifecycle _ _ Hl)))))) _). reflexivity.
Defined.

(** An accepted tool ID has at most 255 bytes, all of them lower-case letters, digits,
    dots and underscores, and a registry key has at most 128 bytes, all of them
    lower-case letters, digits, dots, underscores and hyphens; both start with a letter,
    so neither can smuggle a separator, a space or a control character. *)
Theorem identifiers_are_plain (value : string) :
  (forall id, ParseToolID value = Ok id ->
     id = value /\ slen value <= 255 /\ str_existsb is_lower (String.substring 0 1 value) = true /\
     str_forallb (fun c => is_lower c || is_digit c || contains_byte c "._") value = true) /\
  (validRegistryKey value = true ->
     slen value <= 128 /\ str_existsb is_lower (String.substring 0 1 value) = true /\
     str_forallb (fun c => is_lower c || is_digit c || contains_byte c "._-") value = true).
Proof.
  assert (Hhead : forall p r, matches (RSeq (RClass p) r) value = true ->
            str_existsb p (String.substring 0 1 value) = true).
  { intros p r. rewrite matches_spec. intros (l1 & l2 & Hv & H1 & _)%in_seq_inv.
    inversion H1 as [|? c Hc| | | | |]; subst. destruct value as [|c' s]; [done|].
    simpl in Hv. injection Hv as -> _. unfold str_existsb. destruct s; simpl; by rewrite Hc. }
  assert (Hall : forall r p, (forall c, re_bytes r c = true -> p c = true) ->
            matches r value = true -> str_forallb p value = true)
    by (intros; by eapply matches_bytes_in).
  split.
  - unfold ParseToolID. intros id. case_match eqn:E; [done|]. intros [= <-]. to_prop.
    destruct E as [Hl Hm]. repeat split; [lia|by eapply Hhead|].
    revert Hm. apply Hall. intros c. apply implb_true_iff. revert c. apply forall_byte.
    vm_compute. reflexivity.
  - unfold validRegistryKey. intros [Hl Hm]%andb_true_iff. apply Z.leb_le in Hl.
    repeat split; [lia|by eapply Hhead|].
    revert Hm. apply Hall. intros c. apply implb_true_iff. revert c. apply forall_byte.
    vm_compute. reflexivity.
Qed.
