(* ===== verification/GoText.v ===== *)
(** * More of Go's standard library: text

    [strings.Contains], case mapping and folding, [strings.Fields],
    [strconv.ParseInt], and [base64.RawURLEncoding], as the transport and
    persistence adapters use them, with their round trips. *)
From Stdlib Require Import Ascii String.
From stdpp Require Import pretty.
From S2P Require Import Prelude GoStd Regex Json JsonParse Primitives ToolCatalog.

(** ** Substrings and suffixes *)

(** [strings.Contains] *)
Fixpoint str_contains (s sub : string) : bool :=
  has_prefix s sub || match s with EmptyString => false | String _ s => str_contains s sub end.

Definition str_rev (s : string) : string := str_of (rev (bytes_of s)).

(** [strings.TrimSuffix] and [strings.TrimPrefix] *)
Definition TrimSuffix (s suffix : string) : string :=
  match cut_prefix (str_rev suffix) (str_rev s) with Some rest => str_rev rest | None => s end.
Definition TrimPrefix (s prefix : string) : string :=
  match cut_prefix prefix s with Some rest => rest | None => s end.

(** ** Case

    The mappings of ASCII letters and of the two code points outside ASCII whose
    lower case is ASCII, U+0130 and U+212A; other code points keep their case. *)

(** [strings.ToLower] *)
Fixpoint ToLower (s : string) : string :=
  match s with
  | String a s1 =>
      match s1 with
      | String b s2 =>
          if (byte_val a =? 196) && (byte_val b =? 176) then String "i" (ToLower s2) else
          match s2 with
          | String c s3 =>
              if (byte_val a =? 226) && (byte_val b =? 132) && (byte_val c =? 170)
              then String "k" (ToLower s3) else String (lower_byte a) (ToLower s1)
          | EmptyString => String (lower_byte a) (ToLower s1)
          end
      | EmptyString => String (lower_byte a) EmptyString
      end
  | EmptyString => EmptyString
  end.

Definition upper_byte (c : ascii) : ascii := if is_lower c then byte (byte_val c - 32) else c.

(** [strings.ToUpper]: U+0131 and U+017F have ASCII upper cases. *)
Fixpoint ToUpper (s : string) : string :=
  match s with
  | String a s1 =>
      match s1 with
      | String b s2 =>
          if (byte_val a =? 196) && (byte_val b =? 177) then String "I" (ToUpper s2)
          else if (byte_val a =? 197) && (byte_val b =? 191) then String "S" (ToUpper s2)
          else String (upper_byte a) (ToUpper s1)
      | EmptyString => String (upper_byte a) EmptyString
      end
  | EmptyString => EmptyString
  end.

(** The folded form two texts share when [strings.EqualFold] (or the field
    matching of [encoding/json]) identifies them: U+017F folds to [s] and U+212A
    to [k]. *)
Fixpoint fold_text (s : string) : string :=
  match s with
  | String a s1 =>
      match s1 with
      | String b s2 =>
          if (byte_val a =? 197) && (byte_val b =? 191) then String "s" (fold_text s2) else
          match s2 with
          | String c s3 =>
              if (byte_val a =? 226) && (byte_val b =? 132) && (byte_val c =? 170)
              then String "k" (fold_text s3) else String (lower_byte a) (fold_text s1)
          | EmptyString => String (lower_byte a) (fold_text s1)
          end
      | EmptyString => String (lower_byte a) EmptyString
      end
  | EmptyString => EmptyString
  end.

Definition EqualFold (a b : string) : bool := String.eqb (fold_text a) (fold_text b).

(** ** [strings.Fields] *)

Fixpoint fields_from (word : string) (s : string) : list string :=
  let flush rest := if String.eqb word "" then rest else str_rev word :: rest in
  match s with
  | EmptyString => flush []
  | String a s1 =>
      if space1 a then flush (fields_from EmptyString s1) else
      match s1 with
      | String b s2 =>
          if space2 a b then flush (fields_from EmptyString s2) else
          match s2 with
          | String c s3 =>
              if space3 a b c then flush (fields_from EmptyString s3)
              else fields_from (String a word) s1
          | EmptyString => fields_from (String a word) s1
          end
      | EmptyString => fields_from (String a word) s1
      end
  end.
Definition Fields (s : string) : list string := fields_from EmptyString s.

(** ** [strconv] *)

Definition all_digits (s : string) : bool := negb (String.eqb s "") && str_forallb is_digit s.

(** [strconv.ParseUint(s, 10, bits)] *)
Definition ParseUintN (bits : Z) (s : string) : option Z :=
  if all_digits s && (dec_val s <=? 2 ^ bits - 1) then Some (dec_val s) else None.

(** [strconv.ParseInt(s, 10, bits)]; [strconv.Atoi] has 64 bits. *)
Definition ParseIntN (bits : Z) (s : string) : option Z :=
  let signed (neg : bool) (digits : string) :=
    if all_digits digits then
      let z := if neg then - dec_val digits else dec_val digits in
      if (- 2 ^ (bits - 1) <=? z) && (z <=? 2 ^ (bits - 1) - 1) then Some z else None
    else None in
  match s with
  | String c r =>
      if Ascii.eqb c "-" then signed true r
      else if Ascii.eqb c "+" then signed false r
      else signed false s
  | EmptyString => None
  end.

Definition Atoi : string -> option Z := ParseIntN 64.

(** ** [base64.RawURLEncoding] *)

Definition b64_char (n : Z) : ascii :=
  if n <? 26 then byte (65 + n)
  else if n <? 52 then byte (71 + n)
  else if n <? 62 then byte (n - 4)
  else if n =? 62 then "-"%char else "_"%char.

Definition b64_val (c : ascii) : option Z :=
  if is_upper c then Some (byte_val c - 65)
  else if is_lower c then Some (byte_val c - 71)
  else if is_digit c then Some (byte_val c + 4)
  else if Ascii.eqb c "-" then Some 62
  else if Ascii.eqb c "_" then Some 63
  else None.

(** [EncodeToString]: three bytes are four characters, the rest two or three. *)
Fixpoint b64_encode (s : string) : string :=
  match s with
  | String a (String b (String c rest)) =>
      let v := byte_val a * 65536 + byte_val b * 256 + byte_val c in
      String (b64_char (v / 262144)) (String (b64_char (v / 4096 mod 64))
        (String (b64_char (v / 64 mod 64)) (String (b64_char (v mod 64)) (b64_encode rest))))
  | String a (String b EmptyString) =>
      let v := byte_val a * 65536 + byte_val b * 256 in
      String (b64_char (v / 262144)) (String (b64_char (v / 4096 mod 64))
        (String (b64_char (v / 64 mod 64)) EmptyString))
  | String a EmptyString =>
      let v := byte_val a * 65536 in
      String (b64_char (v / 262144)) (String (b64_char (v / 4096 mod 64)) EmptyString)
  | EmptyString => EmptyString
  end.

(** The decoder skips line breaks, and does not look at the unused bits of the
    last character. *)
Definition is_newline (c : ascii) : bool := (byte_val c =? 10) || (byte_val c =? 13).

Fixpoint sextets (s : string) : option (list Z) :=
  match s with
  | EmptyString => Some []
  | String c s =>
      if is_newline c then sextets s else
      match b64_val c, sextets s with
      | Some v, Some l => Some (v :: l)
      | _, _ => None
      end
  end.

Fixpoint join_sextets (l : list Z) : option string :=
  match l with
  | [] => Some EmptyString
  | [a] => None
  | [a; b] => Some (String (byte ((a * 64 + b) / 16)) EmptyString)
  | [a; b; c] =>
      let v := (a * 64 + b) * 64 + c in
      Some (String (byte (v / 1024)) (String (byte (v / 4)) EmptyString))
  | a :: b :: c :: d :: rest =>
      let v := ((a * 64 + b) * 64 + c) * 64 + d in
      match join_sextets rest with
      | Some s => Some (String (byte (v / 65536)) (String (byte (v / 256)) (String (byte v) s)))
      | None => None
      end
  end.

(** [DecodeString] *)
Definition b64_decode (s : string) : option string := sextets s ≫= join_sextets.

(** ** Lemmas *)

Lemma b64_val_char n : 0 <= n < 64 -> b64_val (b64_char n) = Some n /\ is_newline (b64_char n) = false.
Proof.
  intros Hn. rewrite <- (Z2Nat.id n) by lia.
  assert (Hall : forallb (fun k => let n := Z.of_nat k in
    bool_decide (b64_val (b64_char n) = Some n) && negb (is_newline (b64_char n))) (seq 0 64) = true)
    by (vm_compute; reflexivity).
  rewrite forallb_forall in Hall.
  specialize (Hall (Z.to_nat n)). cbv zeta in Hall.
  rewrite andb_true_iff, bool_decide_eq_true, negb_true_iff in Hall.
  apply Hall, list_elem_of_In, elem_of_seq. lia.
Qed.

Lemma sextets_char n s : 0 <= n < 64 ->
  sextets (String (b64_char n) s) = match sextets s with Some l => Some (n :: l) | None => None end.
Proof. intros Hn. simpl. destruct (b64_val_char n Hn) as [-> ->]. done. Qed.

Lemma div_mod_bounds v : 0 <= v < 16777216 ->
  0 <= v / 262144 < 64 /\ 0 <= v / 4096 mod 64 < 64 /\ 0 <= v / 64 mod 64 < 64 /\ 0 <= v mod 64 < 64.
Proof. intros. repeat split; try apply Z.mod_pos_bound; try lia; Z.to_euclidean_division_equations; lia. Qed.

Lemma join4 v : 0 <= v < 16777216 ->
  ((v / 262144 * 64 + v / 4096 mod 64) * 64 + v / 64 mod 64) * 64 + v mod 64 = v.
Proof. intros. Z.to_euclidean_division_equations; lia. Qed.

Lemma byte_div k c z : byte_val c = z mod 256 -> z = k -> byte k = c.
Proof. intros H <-. apply byte_val_inj. by rewrite byte_val_byte. Qed.

(** Decoding inverts encoding. *)
Lemma b64_decode_encode s : b64_decode (b64_encode s) = Some s.
Proof.
  remember (String.length s) as n eqn:Hn. revert s Hn.
  induction (lt_wf n) as [n _ IH]. intros s ->.
  destruct s as [|a [|b [|c rest]]]; [done|..].
  all: pose proof (byte_val_range a); try pose proof (byte_val_range b); try pose proof (byte_val_range c).
  - set (v := byte_val a * 65536). unfold b64_decode. cbn [b64_encode]. fold v.
    destruct (div_mod_bounds v) as (? & ? & _); [lia|].
    rewrite !sextets_char by lia. cbn [sextets mbind option_bind join_sextets]. do 2 f_equal.
    apply (byte_div _ _ (byte_val a)); [rewrite Z.mod_small; lia|].
    subst v. Z.to_euclidean_division_equations; lia.
  - set (v := byte_val a * 65536 + byte_val b * 256). unfold b64_decode. cbn [b64_encode]. fold v.
    destruct (div_mod_bounds v) as (? & ? & ? & _); [lia|].
    rewrite !sextets_char by lia. cbn [sextets mbind option_bind join_sextets].
    assert (E : (v / 262144 * 64 + v / 4096 mod 64) * 64 + v / 64 mod 64 = v / 64)
      by (Z.to_euclidean_division_equations; lia).
    rewrite E. f_equal. f_equal; [|f_equal].
    + apply (byte_div _ _ (byte_val a)); [rewrite Z.mod_small; lia|].
      subst v. Z.to_euclidean_division_equations; lia.
    + apply (byte_div _ _ (v / 64 / 4)); [|done].
      subst v. Z.to_euclidean_division_equations; lia.
  - set (v := byte_val a * 65536 + byte_val b * 256 + byte_val c). unfold b64_decode. cbn [b64_encode].
    destruct (div_mod_bounds v) as (? & ? & ? & ?); [lia|]. fold v.
    rewrite !sextets_char by lia.
    specialize (IH (String.length rest) ltac:(simpl; lia) rest eq_refl).
    unfold b64_decode in IH. destruct (sextets (b64_encode rest)) as [l|]; [|done].
    cbn [mbind option_bind join_sextets] in *. rewrite join4 by lia. rewrite IH.
    do 2 f_equal; [|f_equal; [|f_equal]].
    + apply (byte_div _ _ (byte_val a)); [rewrite Z.mod_small; lia|].
      subst v. Z.to_euclidean_division_equations; lia.
    + apply (byte_div _ _ (v / 256)); [|done]. subst v. Z.to_euclidean_division_equations; lia.
    + apply (byte_div _ _ v); [|done]. subst v. Z.to_euclidean_division_equations; lia.
Qed.
