(* ===== verification/Ports.v ===== *)
(** * Ports: the data and contracts the application exchanges with its adapters

    [internal/ports/authorization.go], [internal/ports/discovery.go] and the data
    of [internal/ports/invocation.go]. *)
From Stdlib Require Import Ascii String Sorted.
From S2P Require Import Prelude GoStd Regex Json Primitives ToolCatalog.

(** ** Authorization data *)

Definition AuthorizationAllow : string := "allow".
Definition AuthorizationDeny : string := "deny".

Definition ReasonAllowed : string := "allowed".
Definition ReasonPolicyDenied : string := "policy_denied".
Definition ReasonRunInactive : string := "run_inactive".
Definition ReasonAgentVersionDenied : string := "agent_version_denied".
Definition ReasonToolDenied : string := "tool_denied".
Definition ReasonResourceDenied : string := "resource_denied".
Definition ReasonBudgetExhausted : string := "budget_exhausted".
Definition ReasonApprovalRequired : string := "approval_required".
Definition ReasonRevoked : string := "revoked".
Definition ReasonDecisionStale : string := "decision_stale".
Definition ReasonDependencyDown : string := "dependency_unavailable".
Definition ReasonMalformedDecision : string := "malformed_decision".

Record AuthorizationRequest := mkAuthRequest {
  req_RequestID : string; req_TenantID : string; req_Subject : string; req_Actor : string;
  req_AgentID : string; req_AgentVersion : string; req_RunID : string; req_WorkloadID : string;
  req_ToolID : string; req_ToolVersion : string; req_Risk : string; req_SideEffect : string;
  req_ApprovalMode : string; req_RetryMode : string;
  req_ArgumentProfile : string; req_ConnectorType : string; req_Operation : string;
  req_ArgumentDigest : Digest; req_ResourceDigest : Digest;
  req_Resources : list string; req_Actions : list string;
  req_RequestedDeadline : Z;
  req_PolicyProfile : string;
  req_PolicyVersion : string;
}.

Record AuthorizationConstraints := mkConstraints {
  Repositories : list string;
  Resources : list string;
  Actions : list string;
  ArgumentMax : gmap string Z;
  MaxResultBytes : Z;
  MaxDuration : Z;
}.

Definition no_constraints : AuthorizationConstraints := mkConstraints [] [] [] ∅ 0 0.

Record ApprovalRequirement := mkApproval { Required : bool; Mode : string }.

Record AuthorizationDecision := mkDecision {
  DecisionID : string; dec_RequestID : string; ContextDigest : string;
  PolicyID : string; dec_PolicyVersion : string;
  Outcome : string;
  Reasons : list string;
  IssuedAt : Z; NotBefore : Z; ExpiresAt : Z;
  RevocationEpoch : Z;
  RevocationCheckpoint : string;
  Constraints : AuthorizationConstraints;
  dec_Approval : ApprovalRequirement;
  EvidenceRef : string;
}.

(** ** Validation *)

Definition validAuthorizationText (value : string) : bool :=
  negb (String.eqb value "") && (slen value <=? 512) && String.eqb (TrimSpace value) value.

(** Go's [a <= b] on strings. *)
Definition str_leb (a b : string) : bool := negb (str_ltb b a).

Fixpoint valid_set_from (previous : string) (values : list string) : bool :=
  match values with
  | [] => true
  | value :: values =>
      if negb (validAuthorizationText value)
         || (negb (String.eqb previous "") && str_leb value previous) then false
      else valid_set_from value values
  end.

Definition validSet (values : list string) : bool := valid_set_from "" values.

Definition containsReason (reasons : list string) (wanted : string) : bool :=
  existsb (String.eqb wanted) reasons.

Definition Reason_Valid (reason : string) : bool :=
  one_of_str reason [ReasonAllowed; ReasonPolicyDenied; ReasonRunInactive;
    ReasonAgentVersionDenied; ReasonToolDenied; ReasonResourceDenied; ReasonBudgetExhausted;
    ReasonApprovalRequired; ReasonRevoked; ReasonDecisionStale; ReasonDependencyDown;
    ReasonMalformedDecision].

Definition Constraints_Validate (c : AuthorizationConstraints) : result unit :=
  if negb (validSet (Repositories c)) || negb (validSet (Resources c))
     || negb (validSet (Actions c)) || (MaxResultBytes c <? 0) || (MaxDuration c <? 0) then
    Err (ErrNew "authorization constraints are invalid")
  else if existsb (fun kv : string * Z => negb (validAuthorizationText kv.1) || (kv.2 <? 0))
            (map_to_list (ArgumentMax c)) then
    Err (ErrNew "authorization argument constraint is invalid")
  else Ok tt.

Definition Request_Validate (request : AuthorizationRequest) : result unit :=
  let required := [req_RequestID request; req_TenantID request; req_Subject request;
    req_AgentID request; req_AgentVersion request; req_RunID request; req_WorkloadID request;
    req_ToolID request; req_ToolVersion request; req_Risk request; req_SideEffect request;
    req_ApprovalMode request; req_RetryMode request; req_ArgumentProfile request;
    req_ConnectorType request; req_Operation request; req_PolicyProfile request;
    req_PolicyVersion request] in
  if negb (forallb validAuthorizationText required) then
    Err (ErrNew "authorization request has missing or invalid fields")
  else if (negb (String.eqb (req_Actor request) "")
           && negb (validAuthorizationText (req_Actor request)))
          || (req_RequestedDeadline request <=? 0) then
    Err (ErrNew "authorization request has invalid bounds")
  else if negb (validSet (req_Resources request)) || negb (validSet (req_Actions request)) then
    Err (ErrNew "authorization request sets must be normalized")
  else Ok tt.

Definition ValidateFor (decision : AuthorizationDecision) (request : AuthorizationRequest)
    : result unit :=
  Request_Validate request ≫= fun _ =>
  if negb (validAuthorizationText (DecisionID decision))
     || negb (String.eqb (dec_RequestID decision) (req_RequestID request))
     || negb (validAuthorizationText (ContextDigest decision))
     || negb (validAuthorizationText (PolicyID decision))
     || negb (String.eqb (dec_PolicyVersion decision) (req_PolicyVersion request))
     || negb (validAuthorizationText (EvidenceRef decision))
     || negb (validAuthorizationText (RevocationCheckpoint decision))
     || IsZero (IssuedAt decision) || IsZero (NotBefore decision) || IsZero (ExpiresAt decision)
     || (NotBefore decision <? IssuedAt decision)
     || negb (NotBefore decision <? ExpiresAt decision) then
    Err (ErrNew "authorization decision is incomplete or contradictory")
  else if (negb (String.eqb (Outcome decision) AuthorizationAllow)
           && negb (String.eqb (Outcome decision) AuthorizationDeny))
          || (llen (Reasons decision) =? 0) then
    Err (ErrNew "authorization decision outcome is invalid")
  else if negb (forallb Reason_Valid (Reasons decision)) then
    Err (ErrNew "authorization decision reason is unknown")
  else if (String.eqb (Outcome decision) AuthorizationAllow
           && negb (containsReason (Reasons decision) ReasonAllowed))
          || (String.eqb (Outcome decision) AuthorizationDeny
              && containsReason (Reasons decision) ReasonAllowed) then
    Err (ErrNew "authorization decision reasons contradict outcome")
  else Constraints_Validate (Constraints decision).

(** ** Discovery *)

Record CatalogToolVersion := mkCatalogTool {
  ct_ToolID : string; ct_Version : string; ct_Definition : string; ct_DefinitionDigest : string;
}.

Record ToolVersionKey := mkKey { key_ToolID : string; key_Version : string }.

#[global] Instance ToolVersionKey_eq_dec : EqDecision ToolVersionKey.
Proof. solve_decision. Defined.

#[global] Instance ToolVersionKey_countable : Countable ToolVersionKey.
Proof.
  apply (inj_countable' (fun k => (key_ToolID k, key_Version k)) (fun p => mkKey p.1 p.2)).
  by intros [].
Defined.

Record DiscoveryAuthorizationRequest := mkDiscoveryRequest {
  dr_TenantID : string; dr_Subject : string; dr_Actor : string; dr_AgentID : string;
  dr_AgentVersion : string; dr_RunID : string; dr_WorkloadID : string;
  dr_Candidates : list ToolVersionKey;
}.

Record DiscoveryAuthorizationDecision := mkDiscoveryDecision { Allowed : list ToolVersionKey }.

Fixpoint validate_keys_from (seen : gset ToolVersionKey) (keys : list ToolVersionKey)
    : result unit :=
  match keys with
  | [] => Ok tt
  | key :: keys =>
      if negb (is_ok (ParseToolID (key_ToolID key))) then
        Err (ErrNew "discovery tool key is invalid")
      else if negb (is_ok (ParseSemanticVersion (key_Version key))) then
        Err (ErrNew "discovery tool key is invalid")
      else if bool_decide (key ∈ seen) then
        Err (ErrNew "discovery tool keys contain a duplicate")
      else validate_keys_from ({[ key ]} ∪ seen) keys
  end.

Definition validateToolVersionKeys (keys : list ToolVersionKey) : result unit :=
  validate_keys_from ∅ keys.

Definition Discovery_Validate (request : DiscoveryAuthorizationRequest) : result unit :=
  let required := [dr_TenantID request; dr_Subject request; dr_AgentID request;
    dr_AgentVersion request; dr_RunID request; dr_WorkloadID request] in
  if negb (forallb validAuthorizationText required) then
    Err (ErrNew "discovery authorization request has missing or invalid identity")
  else if negb (String.eqb (dr_Actor request) "")
          && negb (validAuthorizationText (dr_Actor request)) then
    Err (ErrNew "discovery authorization request has invalid actor")
  else validateToolVersionKeys (dr_Candidates request).

Definition Discovery_ValidateFor (decision : DiscoveryAuthorizationDecision)
    (request : DiscoveryAuthorizationRequest) : result unit :=
  Discovery_Validate request ≫= fun _ =>
  match validateToolVersionKeys (Allowed decision) with
  | Err _ => Err (ErrNew "discovery authorization decision is invalid")
  | Ok _ =>
      let candidates : gset ToolVersionKey := list_to_set (dr_Candidates request) in
      if forallb (fun key => bool_decide (key ∈ candidates)) (Allowed decision) then Ok tt
      else Err (ErrNew "discovery authorization decision expands candidate visibility")
  end.

(** ** Invocation data *)

Record InvocationIdentity := mkIdentity {
  id_TenantID : string; id_Subject : string; id_Actor : string; id_AgentID : string;
  id_AgentVersion : string; id_RunID : string; id_WorkloadID : string;
}.

Record LogicalInvocation := mkInvocation {
  inv_ID : string; inv_RunID : string; inv_ToolCallID : string; inv_ToolID : string;
  inv_ToolVersion : string; inv_ArgumentProfile : string;
  inv_ArgumentDigest : Digest; inv_ResourceDigest : Digest;
  inv_ResourceProjection : string;
  inv_RetryClass : string; inv_State : string;
  inv_CreatedAt : Z; inv_UpdatedAt : Z;
}.

Definition InvocationOwned : string := "owned".
Definition InvocationExisting : string := "existing".
Definition InvocationConflict : string := "conflict".

Record InvocationAcquisition := mkAcquisition {
  acq_Kind : string;
  acq_Invocation : LogicalInvocation;
}.

Record ToolCallView := mkView {
  view_ToolCallID : string; view_ToolID : string; view_ToolVersion : string; view_State : string;
  view_Result : string;
  view_ErrorCode : option string;
  view_CreatedAt : Z; view_UpdatedAt : Z;
}.

Record CredentialCapabilityMetadata := mkMetadata {
  md_Kind : string;
  md_ProviderRef : string; md_Issuer : string;
  md_Audiences : list string; md_Resources : list string; md_Scopes : list string;
  md_IssuedAt : Z; md_ExpiresAt : Z;
  md_LeaseID : string; md_RefreshID : string; md_RevocationEpoch : string;
}.

Record CredentialProviderContext := mkProviderContext { ctx_Subject : string; ctx_RunID : string }.

Record ConnectorEvidence := mkEvidence {
  ProviderRequestID : string;
  ProviderResultID : string;
  ResourceVersion : string;
  SafeMetadata : string;
}.

Record ConnectorResult := mkConnectorResult {
  Classification : string;
  cr_Result : string;
  Evidence : ConnectorEvidence;
}.

(** ** Lemmas: normalized sets *)

Definition str_lt (a b : string) : Prop := String.compare a b = Lt.

Lemma str_ltb_lt a b : str_ltb a b = true <-> str_lt a b.
Proof. unfold str_ltb, str_lt. by destruct (String.compare a b). Qed.

Lemma str_lt_trans a b c : str_lt a b -> str_lt b c -> str_lt a c.
Proof. apply (cmp_trans string_total). Qed.

Lemma str_lt_irrefl a : ~ str_lt a a.
Proof. unfold str_lt. by rewrite (cmp_refl _ string_total). Qed.

Lemma valid_text_nonempty v : validAuthorizationText v = true -> v <> EmptyString.
Proof. intros H ->. done. Qed.

Lemma valid_set_from_spec previous l : valid_set_from previous l = true <->
  Forall (fun v => validAuthorizationText v = true) l /\ StronglySorted str_lt l /\
  (previous <> EmptyString -> Forall (str_lt previous) l).
Proof.
  revert previous. induction l as [|v l IH]; intros previous; simpl.
  { split; [|done]. intros _. repeat split; constructor. }
  assert (Hle : str_leb v previous = false <-> str_lt previous v).
  { unfold str_leb. by rewrite negb_false_iff, str_ltb_lt. }
  destruct (validAuthorizationText v) eqn:Hv; simpl; cycle 1.
  { split; [done|]. intros [Hf _]. inversion Hf. congruence. }
  pose proof (valid_text_nonempty v Hv) as Hne.
  destruct (String.eqb_spec previous "") as [->|Hp]; simpl.
  - rewrite IH, Forall_cons_iff. split.
    + intros (Hf & Hs & Hlt). repeat split; auto; [|done]. constructor; auto.
    + intros ((_ & Hf) & Hs & _). inversion Hs. repeat split; auto.
  - destruct (str_leb v previous) eqn:E.
    + split; [done|]. intros (_ & _ & Hlt). specialize (Hlt Hp). inversion Hlt; subst.
      by apply Hle in H1.
    + pose proof (proj1 Hle eq_refl). rewrite IH, Forall_cons_iff. split.
      * intros (Hf & Hs & Hlt). specialize (Hlt Hne). repeat split; auto.
        { constructor; auto. }
        intros _. constructor; [done|]. rewrite List.Forall_forall in *.
        intros w Hw. eapply str_lt_trans; eauto.
      * intros ((_ & Hf) & Hs & _). inversion Hs. repeat split; auto.
Qed.

Lemma validSet_spec l : validSet l = true <->
  Forall (fun v => validAuthorizationText v = true) l /\ StronglySorted str_lt l.
Proof. unfold validSet. rewrite valid_set_from_spec. naive_solver. Qed.

Lemma sorted_NoDup l : StronglySorted str_lt l -> NoDup l.
Proof.
  induction 1 as [|a l _ IH Ha]; constructor; [|done].
  rewrite list_elem_of_In. intros Hin. rewrite List.Forall_forall in Ha.
  by apply (str_lt_irrefl a), Ha.
Qed.

Lemma validSet_filter (p : string -> bool) l :
  validSet l = true -> validSet (List.filter p l) = true.
Proof.
  rewrite !validSet_spec. intros [Hf Hs]. split.
  - rewrite List.Forall_forall in *. intros v [Hv _]%filter_In. auto.
  - induction Hs as [|a l Hs IH Ha]; simpl; [constructor|].
    inversion Hf; subst. case_match; [|auto]. constructor; [auto|].
    rewrite List.Forall_forall in *. intros v [Hv _]%filter_In. auto.
Qed.
