(* ===== verification/Discovery.v ===== *)
(** * Tool discovery

    [internal/app/discovery.go]: the intersection of the tenant's exposed catalog
    with the visibility decision.  [catalog] is the reply of the tenant-bound
    repository, [authorizer] the visibility policy. *)
From Stdlib Require Import Ascii String.
From S2P Require Import Prelude GoStd Regex Json Primitives ToolCatalog Ports.

Definition tool_key (tool : CatalogToolVersion) : ToolVersionKey :=
  mkKey (ct_ToolID tool) (ct_Version tool).

Definition with_candidates (r : DiscoveryAuthorizationRequest) (keys : list ToolVersionKey) :=
  mkDiscoveryRequest (dr_TenantID r) (dr_Subject r) (dr_Actor r) (dr_AgentID r)
    (dr_AgentVersion r) (dr_RunID r) (dr_WorkloadID r) keys.

Section Discovery.
Context (catalog : result (list CatalogToolVersion)).
Context (authorizer : DiscoveryAuthorizationRequest -> result DiscoveryAuthorizationDecision).

Definition Discover (request : DiscoveryAuthorizationRequest)
    : result (list CatalogToolVersion) :=
  let request := with_candidates request [] in
  Discovery_Validate request ≫= fun _ =>
  catalog ≫= fun exposed =>
  let request := with_candidates request (map tool_key exposed) in
  match Discovery_Validate request with
  | Err _ => Err (ErrNew "tenant discovery catalog returned invalid candidates")
  | Ok _ =>
      authorizer request ≫= fun decision =>
      Discovery_ValidateFor decision request ≫= fun _ =>
      let allowed : gset ToolVersionKey := list_to_set (Allowed decision) in
      Ok (List.filter (fun tool => bool_decide (tool_key tool ∈ allowed)) exposed)
  end.

Definition errToolVersion : goerror :=
  NewError CodeNotFound "tool version is not available" None.

Definition Describe (request : DiscoveryAuthorizationRequest) (toolID version : string)
    : result CatalogToolVersion :=
  if negb (is_ok (ParseToolID toolID)) then Err errToolVersion
  else if negb (is_ok (ParseSemanticVersion version)) then Err errToolVersion
  else
    Discover request ≫= fun visible =>
    match List.find (fun candidate => String.eqb (ct_ToolID candidate) toolID
                                   && String.eqb (ct_Version candidate) version) visible with
    | Some candidate => Ok candidate
    | None => Err errToolVersion
    end.

(** ** Lemmas *)

Lemma validate_keys_ok seen keys : validate_keys_from seen keys = Ok tt ->
  NoDup keys /\ (forall k, k ∈ keys -> k ∉ seen) /\
  Forall (fun k => is_ok (ParseToolID (key_ToolID k)) = true /\
                   is_ok (ParseSemanticVersion (key_Version k)) = true) keys.
Proof.
  revert seen. induction keys as [|k keys IH]; intros seen; simpl.
  { intros _. split_and!; [constructor|by intros k ?%elem_of_nil|constructor]. }
  case_match eqn:E1; [done|]. case_match eqn:E2; [done|]. case_match eqn:E3; [done|].
  intros (Hnd & Hs & Hf)%IH. to_prop. split_and!.
  - constructor; [|done]. intros Hk. apply (Hs k Hk). set_solver.
  - intros j [->|Hj]%elem_of_cons; [done|]. specialize (Hs j Hj). set_solver.
  - constructor; auto.
Qed.

Lemma Discover_inv request visible : Discover request = Ok visible ->
  exists exposed decision,
    catalog = Ok exposed /\ NoDup (map tool_key exposed) /\
    authorizer (with_candidates request (map tool_key exposed)) = Ok decision /\
    (forall k, k ∈ Allowed decision -> k ∈ map tool_key exposed) /\
    Forall (fun k => is_ok (ParseToolID (key_ToolID k)) = true /\
                     is_ok (ParseSemanticVersion (key_Version k)) = true) (map tool_key exposed) /\
    visible = List.filter (fun tool => bool_decide
                (tool_key tool ∈ (list_to_set (Allowed decision) : gset ToolVersionKey))) exposed.
Proof.
  unfold Discover. rewrite result_bind_Ok. intros ([] & _ & H).
  apply result_bind_Ok in H as (exposed & Hc & H).
  destruct (Discovery_Validate _) as [[]|] eqn:Hv in H; [|done].
  apply result_bind_Ok in H as (decision & Ha & H).
  apply result_bind_Ok in H as ([] & Hd & [= <-]).
  exists exposed, decision. split_and!; auto.
  - unfold Discovery_Validate in Hv. do 2 (case_match; [done|]).
    by apply validate_keys_ok in Hv as [? _].
  - unfold Discovery_ValidateFor in Hd. apply result_bind_Ok in Hd as (_ & _ & Hd).
    case_match; [|done]. case_match eqn:Hall; [|done]. intros k Hk.
    rewrite forallb_forall in Hall. apply list_elem_of_In, Hall, bool_decide_eq_true in Hk.
    rewrite elem_of_list_to_set in Hk. done.
  - unfold Discovery_Validate in Hv. do 2 (case_match; [done|]).
    by apply validate_keys_ok in Hv as (_ & _ & ?).
Qed.

Lemma filter_sublist {A} (p : A -> bool) (l : list A) : List.filter p l `sublist_of` l.
Proof. induction l as [|t l IH]; simpl; [constructor|]. case_match; by constructor. Qed.

Lemma map_sublist {A B} (f : A -> B) (k l : list A) :
  k `sublist_of` l -> map f k `sublist_of` map f l.
Proof. induction 1; simpl; by constructor. Qed.

Lemma filter_keys_NoDup (p : CatalogToolVersion -> bool) l :
  NoDup (map tool_key l) -> NoDup (map tool_key (List.filter p l)).
Proof. intros H. eapply sublist_NoDup; [exact H|apply map_sublist, filter_sublist]. Qed.

Lemma key_unique l t u : NoDup (map tool_key l) -> t ∈ l -> u ∈ l ->
  tool_key t = tool_key u -> t = u.
Proof.
  intros Hnd Ht Hu E. induction l as [|x l IH]; [by apply elem_of_nil in Ht|].
  inversion Hnd as [|? ? Hx Hnd']; subst. specialize (IH Hnd').
  assert (Hin : forall y, y ∈ l -> tool_key y ∈ map tool_key l).
  { intros y Hy. apply list_elem_of_In, in_map, list_elem_of_In. done. }
  apply elem_of_cons in Ht as [->|Ht], Hu as [->|Hu]; auto.
  - exfalso. apply Hx. rewrite E. auto.
  - exfalso. apply Hx. rewrite <- E. auto.
Qed.
End Discovery.

(** ** Properties *)

(** Discovery returns exactly the exposed versions that the visibility decision allows,
    in catalog order: nothing outside the tenant's catalog, nothing the decision
    does not name, everything that is both; the candidates a caller puts into the
    request are ignored, and a failing catalog, policy or malformed or expanding
    decision yields an error and no tools. *)
Theorem discovery_is_intersection (catalog : result (list CatalogToolVersion))
    (authorizer : DiscoveryAuthorizationRequest -> result DiscoveryAuthorizationDecision)
    (request : DiscoveryAuthorizationRequest) (visible : list CatalogToolVersion)
    (H : Discover catalog authorizer request = Ok visible) :
  exists exposed decision,
    catalog = Ok exposed /\
    authorizer (with_candidates request (map tool_key exposed)) = Ok decision /\
    visible `sublist_of` exposed /\ NoDup (map tool_key visible) /\
    (forall tool, tool ∈ visible <-> tool ∈ exposed /\ tool_key tool ∈ Allowed decision) /\
    (forall key, key ∈ Allowed decision -> key ∈ map tool_key visible) /\
    (forall guessed, Discover catalog authorizer (with_candidates request guessed) = Ok visible).
Proof.
  assert (Hguess : forall g, Discover catalog authorizer (with_candidates request g) = Ok visible)
    by (intros; exact H).
  apply Discover_inv in H as (exposed & decision & Hc & Hnd & Ha & Hsub & _ & ->).
  exists exposed, decision.
  set (visible := List.filter _ exposed) in *.
  assert (Hiff : forall tool, tool ∈ visible <-> tool ∈ exposed /\ tool_key tool ∈ Allowed decision).
  { intros tool. subst visible. rewrite !list_elem_of_In, filter_In, bool_decide_eq_true.
    rewrite elem_of_list_to_set, list_elem_of_In. done. }
  split_and!; auto; [apply filter_sublist|by apply filter_keys_NoDup|].
  - intros key Hk. pose proof (Hsub key Hk) as Hin.
    apply list_elem_of_In, in_map_iff in Hin as (tool & <- & Hin).
    apply list_elem_of_In, in_map_iff. exists tool. split; [done|].
    apply list_elem_of_In, Hiff. by rewrite list_elem_of_In.
Qed.

Definition sample_tools : list CatalogToolVersion :=
  [mkCatalogTool "a.b" "1.0.0" "" ""; mkCatalogTool "c.d" "2.0.0" "" ""]%string.
Definition sample_discovery : DiscoveryAuthorizationRequest :=
  mkDiscoveryRequest "t" "s" "" "a" "v" "r" "w" [mkKey "x.y" "9.9.9"].
Definition allow_second : DiscoveryAuthorizationRequest -> result DiscoveryAuthorizationDecision :=
  fun _ => Ok (mkDiscoveryDecision [mkKey "c.d" "2.0.0"]).

Lemma discovery_is_intersection_witness : exists visible,
  Discover (Ok sample_tools) allow_second sample_discovery = Ok visible /\
  visible = [mkCatalogTool "c.d" "2.0.0" "" ""]%string /\
  Discover (Ok sample_tools) allow_second (with_candidates sample_discovery []) = Ok visible.
Proof.
  exists [mkCatalogTool "c.d" "2.0.0" "" ""]%string.
  assert (H : Discover (Ok sample_tools) allow_second sample_discovery =
    Ok [mkCatalogTool "c.d" "2.0.0" "" ""]%string) by (vm_compute; reflexivity).
  split; [exact H|]. split; [reflexivity|].
  destruct (discovery_is_intersection _ _ _ _ H) as (exposed & d & _ & _ & _ & _ & _ & _ & Hg).
  apply Hg.
Defined.

(** [Describe] reveals a version only if it is exposed and allowed: it returns a
    tool iff discovery shows one with exactly that ID and version, and when
    discovery succeeds every other pair (unknown, not exposed, not allowed or
    malformed) gets the same not-found error, so the caller cannot tell them apart. *)
Theorem describe_exact (catalog : result (list CatalogToolVersion))
    (authorizer : DiscoveryAuthorizationRequest -> result DiscoveryAuthorizationDecision)
    (request : DiscoveryAuthorizationRequest) (toolID version : string)
    (visible : list CatalogToolVersion)
    (H : Discover catalog authorizer request = Ok visible) :
  (forall tool, Describe catalog authorizer request toolID version = Ok tool <->
     tool ∈ visible /\ tool_key tool = mkKey toolID version) /\
  (mkKey toolID version ∉ map tool_key visible ->
     Describe catalog authorizer request toolID version = Err errToolVersion).
Proof.
  destruct (Discover_inv _ _ _ _ H) as (exposed & decision & Hc & Hnd & _ & _ & Hvalid & Hvis).
  assert (Hndv : NoDup (map tool_key visible)) by (rewrite Hvis; by apply filter_keys_NoDup).
  assert (Hparse : forall tool, tool ∈ visible -> tool_key tool = mkKey toolID version ->
            is_ok (ParseToolID toolID) = true /\ is_ok (ParseSemanticVersion version) = true).
  { intros tool Ht [= <- <-]. rewrite List.Forall_forall in Hvalid.
    apply (Hvalid (tool_key tool)). apply in_map. rewrite Hvis in Ht.
    apply list_elem_of_In, filter_In in Ht as []. done. }
  assert (Hmatch : forall t, String.eqb (ct_ToolID t) toolID && String.eqb (ct_Version t) version = true
            <-> tool_key t = mkKey toolID version).
  { intros t. rewrite andb_true_iff, !String.eqb_eq. unfold tool_key. naive_solver. }
  unfold Describe. split.
  - intros tool. split.
    + intros Hd. case_match; [done|]. case_match; [done|]. rewrite H in Hd. simpl in Hd.
      destruct (List.find _ visible) as [t|] eqn:Hf; [|done]. simplify_eq.
      apply find_some in Hf as [Hin Hm]. apply Hmatch in Hm. by rewrite list_elem_of_In.
    + intros [Hin Hk]. destruct (Hparse tool Hin Hk) as [-> ->]. simpl. rewrite H. simpl.
      destruct (List.find _ visible) as [t|] eqn:Hf.
      * apply find_some in Hf as [Hin' Hm%Hmatch]. f_equal.
        apply (key_unique visible); auto; [by apply list_elem_of_In|congruence].
      * apply list_elem_of_In in Hin. eapply find_none in Hin; [|exact Hf].
        apply Hmatch in Hk. simpl in Hin. congruence.
  - intros Hno. case_match; [done|]. case_match; [done|]. rewrite H. simpl.
    destruct (List.find _ visible) as [t|] eqn:Hf; [|done]. exfalso.
    apply find_some in Hf as [Hin Hm%Hmatch]. apply Hno. rewrite <- Hm.
    by apply list_elem_of_In, in_map.
Qed.

Lemma describe_exact_witness :
  Describe (Ok sample_tools) allow_second sample_discovery "a.b" "1.0.0" = Err errToolVersion.
Proof.
  apply (describe_exact _ _ _ _ _ [mkCatalogTool "c.d" "2.0.0" "" ""]%string);
    [vm_compute; reflexivity|].
  simpl. rewrite list_elem_of_singleton. discriminate.
Defined.
