(* ===== verification/CredentialBinding.v ===== *)
(** * Credential bindings and their selection

    [internal/domain/credential_binding.go] and
    [internal/app/credential_selection.go]. *)
From Stdlib Require Import Ascii String.
From S2P Require Import Prelude GoStd Regex Json Primitives ToolCatalog.

Definition CapabilityOAuthAccessToken : string := "oauth_access_token".
Definition CapabilityAPIToken : string := "api_token".
Definition CapabilityMTLS : string := "mtls".
Definition CapabilitySignedRequest : string := "signed_request".

Definition DelegationNone : string := "none".
Definition DelegationTokenExchange : string := "token_exchange".

Record CredentialToolSelector := mkSelector {
  sel_ToolID : string;
  sel_Version : SemanticVersion;
  sel_CredentialSelector : string;
}.

Record CredentialProviderBinding := mkProvider {
  ProviderType : string;
  ProviderRef : string;
  Capability_kind : string;
  Audiences : list string;
  prov_Resources : list string;
  Scopes : list string;
}.

Record SubjectDelegationPolicy := mkDelegation {
  dlg_Mode : string;
  TrustedIssuer : string;
}.

Record CredentialCachePolicy := mkCachePolicy {
  MaximumTTL : Z;
  ExpirySkew : Z;
}.

Record CredentialBindingDefinition := mkBindingDef {
  bind_ID : UUID;
  bind_TenantID : UUID;
  bind_ConnectorInstanceID : UUID;
  ToolSelectors : list CredentialToolSelector;
  Provider : CredentialProviderBinding;
  Delegation : SubjectDelegationPolicy;
  Cache : CredentialCachePolicy;
  bind_RevocationEpoch : string;
  PolicyTags : list string;
  bind_Enabled : bool;
}.

(** [CredentialBinding] hides the definition it was constructed with. *)
Record CredentialBinding := mkCredentialBinding { Definition_ : CredentialBindingDefinition }.

Definition validSafeReference (value : string) (maximum : Z) : bool :=
  negb (String.eqb value "") && (slen value <=? maximum)
  && String.eqb (TrimSpace value) value && negb (contains_any value NUL_CR_LF).

Definition optionalSafeReference (value : string) (maximum : Z) : bool :=
  String.eqb value "" || validSafeReference value maximum.

Definition validCapabilityKind (kind : string) : bool :=
  one_of_str kind [CapabilityOAuthAccessToken; CapabilityAPIToken; CapabilityMTLS;
    CapabilitySignedRequest].

Fixpoint validate_set_values (name : string) (maximumLength : Z) (seen : gset string)
    (values : list string) : result unit :=
  match values with
  | [] => Ok tt
  | value :: values =>
      if negb (validSafeReference value maximumLength) then
        Err (ErrNew (name +:+ " contain an invalid value"))
      else if bool_decide (value ∈ seen) then
        Err (ErrNew (name +:+ " contain a duplicate value"))
      else validate_set_values name maximumLength ({[ value ]} ∪ seen) values
  end.

Definition validateStringSet (name : string) (values : list string)
    (maximumCount maximumLength : Z) : result unit :=
  if maximumCount <? llen values then Err (ErrNew (name +:+ " exceed the configured bound"))
  else validate_set_values name maximumLength ∅ values.

Definition NUL : string := str_of [byte 0].

Definition selector_key (selector : CredentialToolSelector) : string :=
  sel_ToolID selector +:+ NUL +:+ raw (sel_Version selector) +:+ NUL
  +:+ sel_CredentialSelector selector.

Fixpoint validate_selectors (seen : gset string) (selectors : list CredentialToolSelector)
    : result unit :=
  match selectors with
  | [] => Ok tt
  | selector :: selectors =>
      if negb (is_ok (ParseToolID (sel_ToolID selector))) then
        Err (ErrNew "credential binding contains an invalid tool selector")
      else if negb (is_ok (ParseSemanticVersion (raw (sel_Version selector))))
              || negb (validRegistryKey (sel_CredentialSelector selector)) then
        Err (ErrNew "credential binding contains an invalid tool selector")
      else if bool_decide (selector_key selector ∈ seen) then
        Err (ErrNew "credential binding contains a duplicate tool selector")
      else validate_selectors ({[ selector_key selector ]} ∪ seen) selectors
  end.

Definition is_zero_uuid (id : UUID) : bool := String.eqb id zero_uuid.

Definition ValidateCredentialBindingDefinition (d : CredentialBindingDefinition) : result unit :=
  if is_zero_uuid (bind_ID d) || is_zero_uuid (bind_TenantID d)
     || is_zero_uuid (bind_ConnectorInstanceID d) then
    Err (ErrNew "credential binding, tenant, and connector instance IDs are required")
  else if (llen (ToolSelectors d) =? 0) || (64 <? llen (ToolSelectors d)) then
    Err (ErrNew "credential binding requires between 1 and 64 tool selectors")
  else
    validate_selectors ∅ (ToolSelectors d) ≫= fun _ =>
    let provider := Provider d in
    if negb (validRegistryKey (ProviderType provider))
       || negb (validSafeReference (ProviderRef provider) 512)
       || negb (validCapabilityKind (Capability_kind provider)) then
      Err (ErrNew "credential provider binding is invalid")
    else
      validateStringSet "audiences" (Audiences provider) 32 512 ≫= fun _ =>
      validateStringSet "resources" (prov_Resources provider) 32 512 ≫= fun _ =>
      validateStringSet "scopes" (Scopes provider) 64 256 ≫= fun _ =>
      if String.eqb (Capability_kind provider) CapabilityOAuthAccessToken
         && (llen (Audiences provider) =? 0) && (llen (prov_Resources provider) =? 0) then
        Err (ErrNew "OAuth capability requires an audience or resource")
      else if negb (String.eqb (dlg_Mode (Delegation d)) DelegationNone)
              && negb (String.eqb (dlg_Mode (Delegation d)) DelegationTokenExchange) then
        Err (ErrNew "subject delegation mode is invalid")
      else if String.eqb (dlg_Mode (Delegation d)) DelegationTokenExchange
              && negb (validSafeReference (TrustedIssuer (Delegation d)) 512) then
        Err (ErrNew "delegated credentials require a trusted subject issuer")
      else if String.eqb (dlg_Mode (Delegation d)) DelegationNone
              && negb (String.eqb (TrustedIssuer (Delegation d)) "") then
        Err (ErrNew "non-delegated credentials cannot declare a subject issuer")
      else if (MaximumTTL (Cache d) <? 0) || (24 * Hour <? MaximumTTL (Cache d))
              || (ExpirySkew (Cache d) <? 0)
              || (MaximumTTL (Cache d) <? ExpirySkew (Cache d)) then
        Err (ErrNew "credential cache policy is invalid")
      else if negb (optionalSafeReference (bind_RevocationEpoch d) 256) then
        Err (ErrNew "credential revocation epoch is invalid")
      else validateStringSet "policy tags" (PolicyTags d) 32 128.

(** Slices are values here, so the copy is the definition itself. *)
Definition cloneCredentialBindingDefinition (d : CredentialBindingDefinition) := d.

Definition NewCredentialBinding (d : CredentialBindingDefinition) : result CredentialBinding :=
  ValidateCredentialBindingDefinition d ≫= fun _ =>
  Ok (mkCredentialBinding (cloneCredentialBindingDefinition d)).

(** ** Selection *)

Record CredentialSelectionContext := mkSelection {
  sc_Tenant : UUID;
  sc_ConnectorInstance : UUID;
  sc_Tool : ToolVersionDefinition;
}.

Definition bindingSelectsTool (selectors : list CredentialToolSelector)
    (tool : ToolVersionDefinition) : bool :=
  existsb (fun selector =>
    String.eqb (sel_ToolID selector) (def_ToolID tool)
    && String.eqb (raw (sel_Version selector)) (raw (def_Version tool))
    && String.eqb (sel_CredentialSelector selector) (CredentialSelector tool)) selectors.

Definition candidate_matches (context : CredentialSelectionContext)
    (candidate : CredentialBinding) : bool :=
  let definition := Definition_ candidate in
  if negb (bind_Enabled definition)
     || negb (String.eqb (bind_TenantID definition) (sc_Tenant context))
     || negb (String.eqb (bind_ConnectorInstanceID definition) (sc_ConnectorInstance context))
  then false
  else bindingSelectsTool (ToolSelectors definition) (sc_Tool context).

(** The loop: the last match and the number of matches. *)
Fixpoint select_loop (context : CredentialSelectionContext) (candidates : list CredentialBinding)
    (selected : option CredentialBinding) (matches : Z) : option CredentialBinding * Z :=
  match candidates with
  | [] => (selected, matches)
  | candidate :: candidates =>
      if candidate_matches context candidate then
        select_loop context candidates (Some candidate) (matches + 1)
      else select_loop context candidates selected matches
  end.

Definition SelectCredentialBinding (context : CredentialSelectionContext)
    (candidates : list CredentialBinding) : result CredentialBinding :=
  if is_zero_uuid (sc_Tenant context) || is_zero_uuid (sc_ConnectorInstance context) then
    Err (ErrNew "trusted credential selection context is incomplete")
  else if negb (is_ok (ValidateToolVersionDefinition (sc_Tool context))) then
    Err (ErrNew "trusted credential selection tool is invalid")
  else
    match select_loop context candidates None 0 with
    | (_, 0) => Err (ErrNew "no enabled credential binding matches trusted context")
    | (Some selected, 1) => Ok selected
    | _ => Err (ErrNew "credential binding selection is ambiguous")
    end.

(** ** Lemmas *)

Lemma validate_set_values_ok name m seen l : validate_set_values name m seen l = Ok tt ->
  NoDup l /\ (forall v, v ∈ l -> v ∉ seen /\ validSafeReference v m = true).
Proof.
  revert seen. induction l as [|v l IH]; intros seen; simpl.
  { intros _. split; [constructor|]. by intros v ?%elem_of_nil. }
  case_match eqn:E1; [done|]. case_match eqn:E2; [done|]. intros (Hnd & Hs)%IH. to_prop. split.
  - constructor; [|done]. intros Hv. apply Hs in Hv as [Hv _]. set_solver.
  - intros w [->|Hw]%elem_of_cons; [done|]. apply Hs in Hw as [Hw ?]. set_solver.
Qed.

Lemma validateStringSet_ok name l c m : validateStringSet name l c m = Ok tt ->
  NoDup l /\ llen l <= c /\ Forall (fun v => validSafeReference v m = true) l.
Proof.
  unfold validateStringSet. case_match eqn:E; [done|].
  intros (Hnd & Hs)%validate_set_values_ok. to_prop. split_and!; auto.
  rewrite List.Forall_forall. intros v Hv%list_elem_of_In. by apply Hs.
Qed.

Lemma select_loop_spec context candidates selected n : 0 <= n ->
  let ms := List.filter (candidate_matches context) candidates in
  select_loop context candidates selected n =
  (match list.last ms with Some b => Some b | None => selected end, n + llen ms).
Proof.
  unfold llen. revert selected n. induction candidates as [|c l IH]; intros selected n Hn; simpl.
  { f_equal. lia. }
  destruct (candidate_matches context c) eqn:E; [|by apply IH].
  rewrite IH by lia. f_equal; [|simpl; lia].
  destruct (List.filter _ l) as [|x xs]; [done|].
  change (list.last (c :: x :: xs)) with (list.last (x :: xs)).
  destruct (list.last (x :: xs)) eqn:El; [done|]. by apply last_None in El.
Qed.

Lemma filter_nil_iff {A} (p : A -> bool) l :
  List.filter p l = [] <-> forall c, c ∈ l -> p c = false.
Proof.
  induction l as [|x l IH]; simpl; [split; [by intros _ c ?%elem_of_nil|done]|].
  destruct (p x) eqn:E; split.
  - done.
  - intros H. specialize (H x ltac:(apply list_elem_of_here)). congruence.
  - intros H c [->|Hc]%elem_of_cons; [done|]. by apply IH.
  - intros H. apply IH. intros c Hc. apply H. by apply elem_of_cons; right.
Qed.

Lemma filter_singleton_iff {A} (p : A -> bool) l b :
  List.filter p l = [b] <-> exists before after, l = before ++ b :: after /\ p b = true /\
    forall c, c ∈ before ++ after -> p c = false.
Proof.
  split.
  - induction l as [|x l IH]; simpl; [done|]. destruct (p x) eqn:E.
    + intros [= -> Hf]. exists [], l. split_and!; auto. by apply filter_nil_iff.
    + intros (before & after & -> & Hb & Hall)%IH. exists (x :: before), after.
      split_and!; auto. intros c [->|Hc]%elem_of_cons; auto.
  - intros (before & after & -> & Hb & Hall). rewrite List.filter_app.
    rewrite (proj2 (filter_nil_iff p before)) by (intros; apply Hall, elem_of_app; auto).
    simpl. rewrite Hb.
    by rewrite (proj2 (filter_nil_iff p after)) by (intros; apply Hall, elem_of_app; auto).
Qed.

Lemma candidate_matches_iff context c : candidate_matches context c = true <->
  bind_Enabled (Definition_ c) = true /\
  bind_TenantID (Definition_ c) = sc_Tenant context /\
  bind_ConnectorInstanceID (Definition_ c) = sc_ConnectorInstance context /\
  exists s, s ∈ ToolSelectors (Definition_ c) /\ sel_ToolID s = def_ToolID (sc_Tool context) /\
    raw (sel_Version s) = raw (def_Version (sc_Tool context)) /\
    sel_CredentialSelector s = CredentialSelector (sc_Tool context).
Proof.
  unfold candidate_matches, bindingSelectsTool.
  assert (Hs : existsb (fun selector =>
      String.eqb (sel_ToolID selector) (def_ToolID (sc_Tool context))
      && String.eqb (raw (sel_Version selector)) (raw (def_Version (sc_Tool context)))
      && String.eqb (sel_CredentialSelector selector) (CredentialSelector (sc_Tool context)))
      (ToolSelectors (Definition_ c)) = true <->
    exists s, s ∈ ToolSelectors (Definition_ c) /\ sel_ToolID s = def_ToolID (sc_Tool context) /\
      raw (sel_Version s) = raw (def_Version (sc_Tool context)) /\
      sel_CredentialSelector s = CredentialSelector (sc_Tool context)).
  { rewrite existsb_exists. split; intros (s & Hin & H); exists s;
      rewrite list_elem_of_In in *; to_prop; tauto. }
  destruct (bind_Enabled _); simpl; [|naive_solver].
  destruct (String.eqb_spec (bind_TenantID (Definition_ c)) (sc_Tenant context)); simpl;
    [|naive_solver].
  destruct (String.eqb_spec (bind_ConnectorInstanceID (Definition_ c))
    (sc_ConnectorInstance context)); simpl; [|naive_solver].
  rewrite Hs. naive_solver.
Qed.

(** ** Properties *)

(** a credential is selected only when it is the unique one: [SelectCredentialBinding]
    returns [b] iff the trusted context is complete and [b] is the only candidate
    (counting repetitions) that is enabled, belongs to the same tenant and
    connector instance and lists the exact tool, version and selector; with none
    or several it fails. *)
Theorem credential_selection_unique (context : CredentialSelectionContext)
    (candidates : list CredentialBinding) (b : CredentialBinding) :
  SelectCredentialBinding context candidates = Ok b <->
  sc_Tenant context <> zero_uuid /\ sc_ConnectorInstance context <> zero_uuid /\
  ValidateToolVersionDefinition (sc_Tool context) = Ok tt /\
  exists before after, candidates = before ++ b :: after /\
    (forall c, c ∈ before ++ after -> candidate_matches context c = false) /\
    bind_Enabled (Definition_ b) = true /\
    bind_TenantID (Definition_ b) = sc_Tenant context /\
    bind_ConnectorInstanceID (Definition_ b) = sc_ConnectorInstance context /\
    exists s, s ∈ ToolSelectors (Definition_ b) /\ sel_ToolID s = def_ToolID (sc_Tool context) /\
      raw (sel_Version s) = raw (def_Version (sc_Tool context)) /\
      sel_CredentialSelector s = CredentialSelector (sc_Tool context).
Proof.
  unfold SelectCredentialBinding, is_zero_uuid.
  destruct (String.eqb_spec (sc_Tenant context) zero_uuid); simpl; [naive_solver|].
  destruct (String.eqb_spec (sc_ConnectorInstance context) zero_uuid); simpl; [naive_solver|].
  destruct (ValidateToolVersionDefinition _) as [[]|]; simpl; [|naive_solver].
  rewrite select_loop_spec by lia. simpl.
  assert (Hm : match (match list.last (List.filter (candidate_matches context) candidates) with
                      | Some b => Some b | None => None end,
                      llen (List.filter (candidate_matches context) candidates)) with
               | (_, 0) => Err (ErrNew "no enabled credential binding matches trusted context")
               | (Some selected, 1) => Ok selected
               | _ => Err (ErrNew "credential binding selection is ambiguous")
               end = Ok b <-> List.filter (candidate_matches context) candidates = [b]).
  { destruct (List.filter _ candidates) as [|x [|y l]]; [by split| |].
    - simpl. naive_solver.
    - split; [|done]. assert (Hn : 2 <= llen (x :: y :: l)) by (unfold llen; simpl; lia).
      revert Hn. generalize (llen (x :: y :: l)). intros k Hk.
      destruct k as [|[p|p|]|p], (list.last (x :: y :: l)); done || lia. }
  rewrite Hm, filter_singleton_iff. setoid_rewrite candidate_matches_iff. naive_solver.
Qed.
