(* ===== verification/CredentialCache.v ===== *)
(** * Credential capabilities and the provider cache

    [internal/credentials/capability.go] and [internal/credentials/cache.go].

    Capabilities are mutable objects, so the cache state carries the heap of the
    capabilities providers have handed over, and [Release] updates the object in
    it.  [Resolve] runs two critical sections with the provider call between
    them: [resolve_begin] and [resolve_finish]; every other exported operation is
    one critical section.  An interleaving of goroutines is a sequence of these
    sections ([step]). *)
From Stdlib Require Import Ascii String.
From stdpp Require Import pretty.
From S2P Require Import Prelude GoStd Regex Sha256 Json Primitives ToolCatalog Ports CredentialBinding.

(** ** Capabilities *)

Record Capability := mkCapability {
  metadata : CredentialCapabilityMetadata;
  secret : string;
  released : bool;
}.

Definition safe (value : string) (maximum : Z) : bool :=
  negb (String.eqb value "") && (slen value <=? maximum)
  && String.eqb (TrimSpace value) value && negb (contains_any value NUL_CR_LF).

Definition optionalSafe (value : string) (maximum : Z) : bool :=
  String.eqb value "" || safe value maximum.

Fixpoint validate_values (maximumLength : Z) (seen : gset string) (values : list string)
    : result unit :=
  match values with
  | [] => Ok tt
  | value :: values =>
      if negb (safe value maximumLength) then
        Err (ErrNew "credential capability target metadata is invalid")
      else if bool_decide (value ∈ seen) then
        Err (ErrNew "credential capability target metadata contains duplicates")
      else validate_values maximumLength ({[ value ]} ∪ seen) values
  end.

Definition validateSet (values : list string) (maximumCount maximumLength : Z) : result unit :=
  if maximumCount <? llen values then
    Err (ErrNew "credential capability target metadata exceeds bounds")
  else validate_values maximumLength ∅ values.

Definition validateMetadata (md : CredentialCapabilityMetadata) (now : Z) : result unit :=
  if negb (String.eqb (md_Kind md) CapabilityOAuthAccessToken)
     && negb (String.eqb (md_Kind md) CapabilityAPIToken)
     && negb (String.eqb (md_Kind md) CapabilityMTLS)
     && negb (String.eqb (md_Kind md) CapabilitySignedRequest) then
    Err (ErrNew "credential capability kind is invalid")
  else if negb (safe (md_ProviderRef md) 512) || negb (optionalSafe (md_Issuer md) 512)
          || IsZero (md_IssuedAt md) || IsZero (md_ExpiresAt md)
          || negb (md_IssuedAt md <? md_ExpiresAt md) || negb (now <? md_ExpiresAt md) then
    Err (ErrNew "credential capability lifetime or provider metadata is invalid")
  else
    validateSet (md_Audiences md) 32 512 ≫= fun _ =>
    validateSet (md_Resources md) 32 512 ≫= fun _ =>
    validateSet (md_Scopes md) 64 256 ≫= fun _ =>
    if String.eqb (md_Kind md) CapabilityOAuthAccessToken
       && (llen (md_Audiences md) =? 0) && (llen (md_Resources md) =? 0) then
      Err (ErrNew "OAuth capability requires an audience or resource")
    else if negb (forallb (fun reference => optionalSafe reference 512)
                    [md_LeaseID md; md_RefreshID md; md_RevocationEpoch md]) then
      Err (ErrNew "credential capability lifecycle metadata is invalid")
    else Ok tt.

Definition NewCapability (md : CredentialCapabilityMetadata) (secret : string) (now : Z)
    : result Capability :=
  if (slen secret =? 0) || (Z.shiftl 64 10 <? slen secret) then
    Err (ErrNew "credential capability material is invalid")
  else validateMetadata md now ≫= fun _ => Ok (mkCapability md secret false).

Definition UseSecret {A} (c : Capability) (now : Z) (use : string -> result A) : result A :=
  if released c then Err (ErrNew "credential capability is released")
  else if negb (now <? md_ExpiresAt (metadata c)) then
    Err (ErrNew "credential capability is expired")
  else use (secret c).

(** The owned bytes are zeroed and dropped. *)
Definition Release (c : Capability) : Capability :=
  let md := metadata c in
  mkCapability
    (mkMetadata (md_Kind md) (md_ProviderRef md) (md_Issuer md) (md_Audiences md)
       (md_Resources md) (md_Scopes md) (md_IssuedAt md) (md_ExpiresAt md) "" ""
       (md_RevocationEpoch md))
    "" true.

(** Every formatting path: [String], [GoString], [Error], [MarshalText], [Format]. *)
Definition Capability_String (c : Capability) : string := "[REDACTED]".

Definition cloneCapability (source : option Capability) (now : Z) : result Capability :=
  match source with
  | None => Err (ErrNew "credential cache source is unavailable")
  | Some c =>
      match UseSecret c now (fun secret => NewCapability (metadata c) secret now) with
      | Ok clone => Ok clone
      | Err _ => Err (ErrNew "credential cache source is unusable")
      end
  end.

(** ** The cache *)

Record CacheConfig := mkCacheConfig {
  cfg_MaxEntries : Z;
  cfg_MaximumTTL : Z;
  cfg_ExpirySkew : Z;
}.

Definition NewProviderCache (c : CacheConfig) : result CacheConfig :=
  if (cfg_MaxEntries c <? 1) || (10000 <? cfg_MaxEntries c) || (cfg_MaximumTTL c <=? 0)
     || (24 * Hour <? cfg_MaximumTTL c) || (cfg_ExpirySkew c <? 0)
     || (cfg_MaximumTTL c <=? cfg_ExpirySkew c) then
    Err (ErrNew "credential cache configuration is invalid")
  else Ok c.

(** [source] is the heap location of the capability. *)
Record cachedCapability := mkEntry {
  source : nat;
  expiresAt : Z;
  tenantID : UUID;
  bindingID : UUID;
  runID : string;
  providerType : string;
  revocationEpoch : string;
  lastUsed : Z;
}.

(** [sequence] counts the uses of entries; the [uint64] of the source wraps only after
    2^64 of them. *)
Record cacheState := mkCacheState {
  entries : gmap string cachedCapability;
  inflight : gset string;
  providerEpochs : gmap string string;
  sequence : Z;
  closed : bool;
  heap : gmap nat Capability;
}.

Definition empty_cache : cacheState := mkCacheState ∅ ∅ ∅ 0 false ∅.

Definition validCacheText (value : string) : bool :=
  negb (String.eqb value "") && (slen value <=? 512)
  && String.eqb (TrimSpace value) value && negb (contains_any value NUL_CR_LF).
Definition optionalCacheText (value : string) : bool :=
  String.eqb value "" || validCacheText value.
Definition validCacheContext (governed : CredentialProviderContext) : bool :=
  validCacheText (ctx_Subject governed) && validCacheText (ctx_RunID governed).

(** [writeCachePart]: each value after its length as eight big-endian bytes. *)
Definition cache_part (value : string) : string := str_of (be_bytes 8 (slen value)) +:+ value.
Fixpoint writeCachePart (values : list string) : string :=
  match values with
  | [] => EmptyString
  | value :: values => cache_part value +:+ writeCachePart values
  end.

(** What is written to the hash for the fixed fields, then for the lists. *)
Definition key_fields (d : CredentialBindingDefinition) (governed : CredentialProviderContext)
    (providerEpoch : string) : list string :=
  [UUID_String (bind_ID d); UUID_String (bind_TenantID d);
   UUID_String (bind_ConnectorInstanceID d);
   ProviderType (Provider d); ProviderRef (Provider d); Capability_kind (Provider d);
   dlg_Mode (Delegation d); TrustedIssuer (Delegation d); bind_RevocationEpoch d;
   if bind_Enabled d then "true"%string else "false"%string;
   pretty (MaximumTTL (Cache d)); pretty (ExpirySkew (Cache d));
   ctx_Subject governed; ctx_RunID governed; providerEpoch].

Definition key_preimage (d : CredentialBindingDefinition) (governed : CredentialProviderContext)
    (providerEpoch : string) : string :=
  writeCachePart (key_fields d governed providerEpoch)
  +:+ foldr (fun selector rest =>
        writeCachePart [sel_ToolID selector; raw (sel_Version selector);
                        sel_CredentialSelector selector] +:+ rest) EmptyString (ToolSelectors d)
  +:+ writeCachePart (Audiences (Provider d))
  +:+ writeCachePart (prov_Resources (Provider d))
  +:+ writeCachePart (Scopes (Provider d))
  +:+ writeCachePart (PolicyTags d).

Definition credentialCacheKey (d : CredentialBindingDefinition)
    (governed : CredentialProviderContext) (providerEpoch : string) : string :=
  sha256 (key_preimage d governed providerEpoch).

(** ** Removal *)

Definition release_all (l : list nat) (h : gmap nat Capability) : gmap nat Capability :=
  foldr (fun n h => alter Release n h) h l.

Definition sources (m : gmap string cachedCapability) : list nat :=
  map (fun kv => source kv.2) (map_to_list m).

(** Every loop of the form "for each entry that satisfies [p]: release, delete". *)
Definition remove_where (p : cachedCapability -> bool) (st : cacheState) : cacheState :=
  let gone := filter (fun kv => p kv.2 = true) (entries st) in
  let kept := filter (fun kv => p kv.2 = false) (entries st) in
  mkCacheState kept (inflight st) (providerEpochs st) (sequence st) (closed st)
    (release_all (sources gone) (heap st)).

Definition removeExpiredLocked (now : Z) : cacheState -> cacheState :=
  remove_where (fun entry => negb (now <? expiresAt entry)).

Definition removeRevokedLocked (d : CredentialBindingDefinition) : cacheState -> cacheState :=
  remove_where (fun entry => String.eqb (tenantID entry) (bind_TenantID d)
    && String.eqb (bindingID entry) (bind_ID d)
    && negb (String.eqb (revocationEpoch entry) (bind_RevocationEpoch d))).

Definition EvictBinding (tenant binding : UUID) : cacheState -> cacheState :=
  remove_where (fun entry => String.eqb (tenantID entry) tenant
    && String.eqb (bindingID entry) binding).

Definition EvictRun (tenant : UUID) (run : string) : cacheState -> cacheState :=
  remove_where (fun entry => String.eqb (tenantID entry) tenant && String.eqb (runID entry) run).

Definition set_epochs (st : cacheState) (epochs : gmap string string) : cacheState :=
  mkCacheState (entries st) (inflight st) epochs (sequence st) (closed st) (heap st).

(** A missing key of a Go map reads as the empty string. *)
Definition ProviderEpoch (st : cacheState) (provider : string) : string :=
  default EmptyString (providerEpochs st !! provider).

Definition SetProviderEpoch (provider epoch : string) (st : cacheState)
    : cacheState * option goerror :=
  if negb (validCacheText provider) || negb (optionalCacheText epoch) then
    (st, Some (ErrNew "credential provider epoch is invalid"))
  else if closed st then (st, Some (ErrNew "credential cache is closed"))
  else if String.eqb (ProviderEpoch st provider) epoch then (st, None)
  else
    (remove_where (fun entry => String.eqb (providerType entry) provider)
       (set_epochs st (<[provider := epoch]> (providerEpochs st))), None).

Definition Close (st : cacheState) : cacheState :=
  remove_where (fun _ => true)
    (mkCacheState (entries st) (inflight st) (providerEpochs st) (sequence st) true (heap st)).

(** [removeEntry] compares the entry by identity; an entry is identified by the
    capability it owns. *)
Definition removeEntry (key : string) (expected : nat) (st : cacheState) : cacheState :=
  match entries st !! key with
  | Some entry =>
      if Nat.eqb (source entry) expected then
        mkCacheState (delete key (entries st)) (inflight st) (providerEpochs st) (sequence st)
          (closed st) (alter Release (source entry) (heap st))
      else st
  | None => st
  end.

(** The least recently used entry, scanning the map. *)
Definition oldest (m : gmap string cachedCapability) : option (string * cachedCapability) :=
  foldl (fun best kv =>
    match best with
    | None => Some kv
    | Some b => if lastUsed kv.2 <? lastUsed b.2 then Some kv else best
    end) None (map_to_list m).

(** Each round deletes one entry, so the initial size bounds the rounds. *)
Fixpoint evict_loop (fuel : nat) (maxEntries : Z) (st : cacheState) : cacheState :=
  match fuel with
  | O => st
  | S fuel =>
      if maxEntries <? Z.of_nat (size (entries st)) then
        match oldest (entries st) with
        | Some (key, entry) =>
            evict_loop fuel maxEntries
              (mkCacheState (delete key (entries st)) (inflight st) (providerEpochs st)
                 (sequence st) (closed st) (alter Release (source entry) (heap st)))
        | None => st
        end
      else st
  end.

Definition evictLRULocked (config : CacheConfig) (st : cacheState) : cacheState :=
  evict_loop (size (entries st)) (cfg_MaxEntries config) st.

(** ** Resolution *)

Definition prepareEntry (config : CacheConfig) (loaded : option Capability)
    (loadErr : option goerror) (d : CredentialBindingDefinition)
    (governed : CredentialProviderContext) (now : Z) (location : nat)
    : result cachedCapability :=
  match loadErr, loaded with
  | Some _, _ => Err (ErrNew "credential provider resolution failed")
  | None, None => Err (ErrNew "credential provider returned no capability")
  | None, Some c =>
      let md := metadata c in
      if negb (String.eqb (md_Kind md) (Capability_kind (Provider d)))
         || negb (String.eqb (md_ProviderRef md) (ProviderRef (Provider d)))
         || negb (String.eqb (md_RevocationEpoch md) (bind_RevocationEpoch d))
         || negb (bool_decide (md_Audiences md = Audiences (Provider d)))
         || negb (bool_decide (md_Resources md = prov_Resources (Provider d)))
         || negb (bool_decide (md_Scopes md = Scopes (Provider d))) then
        Err (ErrNew "credential provider returned mismatched capability metadata")
      else
        let ttl := if (0 <? MaximumTTL (Cache d)) && (MaximumTTL (Cache d) <? cfg_MaximumTTL config)
                   then MaximumTTL (Cache d) else cfg_MaximumTTL config in
        let skew := if cfg_ExpirySkew config <? ExpirySkew (Cache d)
                    then ExpirySkew (Cache d) else cfg_ExpirySkew config in
        let expires := md_ExpiresAt md - skew in
        let expires := if now + ttl <? expires then now + ttl else expires in
        if negb (now <? expires) then
          Err (ErrNew "credential provider capability cannot be cached safely")
        else
          Ok (mkEntry location expires (bind_TenantID d) (bind_ID d) (ctx_RunID governed)
                (ProviderType (Provider d)) (bind_RevocationEpoch d) 0)
  end.

Definition with_lastUsed (e : cachedCapability) (n : Z) : cachedCapability :=
  mkEntry (source e) (expiresAt e) (tenantID e) (bindingID e) (runID e) (providerType e)
    (revocationEpoch e) n.

(** What the first critical section tells its goroutine to do. *)
Inductive begin_outcome :=
| BFail (err : goerror)
| BHit (key : string) (location : nat)
| BWait (key : string)
| BLoad (key epoch : string).

Definition resolve_begin (st : cacheState) (binding : CredentialBinding)
    (governed : CredentialProviderContext) (now : Z) : cacheState * begin_outcome :=
  let d := Definition_ binding in
  if negb (validCacheContext governed) then
    (st, BFail (ErrNew "credential cache resolution context is invalid"))
  else if negb (is_ok (ValidateCredentialBindingDefinition d)) || negb (bind_Enabled d) then
    (st, BFail (ErrNew "credential cache binding is invalid"))
  else if closed st then (st, BFail (ErrNew "credential cache is closed"))
  else
    let epoch := ProviderEpoch st (ProviderType (Provider d)) in
    let key := credentialCacheKey d governed epoch in
    let st := removeExpiredLocked now (removeRevokedLocked d st) in
    let miss :=
      if bool_decide (key ∈ inflight st) then (st, BWait key)
      else (mkCacheState (entries st) ({[ key ]} ∪ inflight st) (providerEpochs st)
              (sequence st) (closed st) (heap st), BLoad key epoch) in
    match entries st !! key with
    | Some entry =>
        if now <? expiresAt entry then
          (mkCacheState (<[key := with_lastUsed entry (sequence st + 1)]> (entries st))
             (inflight st) (providerEpochs st) (sequence st + 1) (closed st) (heap st),
           BHit key (source entry))
        else miss
    | None => miss
    end.

Definition fresh_location (h : gmap nat Capability) : nat := fresh (dom h : gset nat).

(** The second critical section: [loaded] and [loadErr] are what the provider
    returned, [now] the clock after the call.  The provider hands over a
    capability of its own, so it is a new object. *)
Definition resolve_finish (config : CacheConfig) (st : cacheState)
    (d : CredentialBindingDefinition) (governed : CredentialProviderContext) (epoch : string)
    (now : Z) (loaded : option Capability) (loadErr : option goerror)
    : cacheState * result nat :=
  let key := credentialCacheKey d governed epoch in
  let location := fresh_location (heap st) in
  let heap1 := match loaded with Some c => <[location := c]> (heap st) | None => heap st end in
  let prepared := prepareEntry config loaded loadErr d governed now location in
  let pending := inflight st ∖ {[ key ]} in
  match prepared with
  | Ok entry =>
      if negb (closed st) && String.eqb (ProviderEpoch st (ProviderType (Provider d))) epoch then
        (evictLRULocked config
           (mkCacheState (<[key := with_lastUsed entry (sequence st + 1)]> (entries st)) pending
              (providerEpochs st) (sequence st + 1) (closed st) heap1),
         Ok location)
      else
        (mkCacheState (entries st) pending (providerEpochs st) (sequence st) (closed st)
           (alter Release location heap1),
         Err (ErrNew "credential cache changed during resolution"))
  | Err err =>
      (mkCacheState (entries st) pending (providerEpochs st) (sequence st) (closed st)
         (match loaded with Some _ => alter Release location heap1 | None => heap1 end),
       Err err)
  end.

(** After the lock is released the stored capability is copied for the caller, in the
    state other calls may have left; an entry that cannot be copied is removed. *)
Definition resolve_return (st : cacheState) (key : string) (location : nat) (now : Z)
    : cacheState * result Capability :=
  match cloneCapability (heap st !! location) now with
  | Ok c => (st, Ok c)
  | Err _ => (removeEntry key location st, Err (ErrNew "credential cache could not clone capability"))
  end.

(** ** Interleavings *)

(** What the Go types guarantee of the values in a key: ids are 16 bytes, and a
    string is shorter than 2^63 bytes. *)
Definition go_values (d : CredentialBindingDefinition) (governed : CredentialProviderContext)
    (epoch : string) : Prop :=
  uuid_wf (bind_ID d) /\ uuid_wf (bind_TenantID d) /\ uuid_wf (bind_ConnectorInstanceID d) /\
  Forall (fun s => slen s < 2 ^ 63) (key_fields d governed epoch).

Inductive step (config : CacheConfig) (st : cacheState) : cacheState -> Prop :=
| step_begin binding governed now :
    step config st (resolve_begin st binding governed now).1
| step_finish d governed epoch now loaded loadErr :
    credentialCacheKey d governed epoch ∈ inflight st -> go_values d governed epoch ->
    (forall c, loaded = Some c -> released c = false) ->
    step config st (resolve_finish config st d governed epoch now loaded loadErr).1
| step_remove key location : step config st (removeEntry key location st)
| step_evict_binding tenant binding : step config st (EvictBinding tenant binding st)
| step_evict_run tenant run : step config st (EvictRun tenant run st)
| step_set_epoch provider epoch : step config st (SetProviderEpoch provider epoch st).1
| step_close : step config st (Close st).

Inductive reachable (config : CacheConfig) : cacheState -> Prop :=
| reach_init : reachable config empty_cache
| reach_step st st' : reachable config st -> step config st st' -> reachable config st'.

(** ** Invariant *)

(** [entry] is stored under the key of a binding and context it was made for. *)
Definition keyed (st : cacheState) (k : string) (e : cachedCapability) : Prop :=
  exists d governed epoch, k = credentialCacheKey d governed epoch /\ go_values d governed epoch /\
    tenantID e = bind_TenantID d /\ bindingID e = bind_ID d /\ runID e = ctx_RunID governed /\
    providerType e = ProviderType (Provider d) /\ revocationEpoch e = bind_RevocationEpoch d /\
    epoch = ProviderEpoch st (providerType e).

Record core_inv (st : cacheState) : Prop := {
  inv_live : forall k e, entries st !! k = Some e -> exists c,
    heap st !! source e = Some c /\ released c = false /\ expiresAt e <= md_ExpiresAt (metadata c);
  inv_source : forall k1 k2 e1 e2, entries st !! k1 = Some e1 -> entries st !! k2 = Some e2 ->
    source e1 = source e2 -> k1 = k2;
  inv_used : forall k e, entries st !! k = Some e -> lastUsed e <= sequence st;
  inv_used_inj : forall k1 k2 e1 e2, entries st !! k1 = Some e1 -> entries st !! k2 = Some e2 ->
    lastUsed e1 = lastUsed e2 -> k1 = k2;
  inv_inflight : forall k, k ∈ inflight st -> entries st !! k = None;
  inv_closed : closed st = true -> entries st = ∅;
  inv_owned : forall n c, heap st !! n = Some c ->
    released c = true \/ exists k e, entries st !! k = Some e /\ source e = n;
  inv_keyed : forall k e, entries st !! k = Some e -> keyed st k e;
}.

Definition cache_inv (config : CacheConfig) (st : cacheState) : Prop :=
  core_inv st /\ Z.of_nat (size (entries st)) <= cfg_MaxEntries config.

(** ** Lemmas: releasing *)

Lemma release_all_spec l h n :
  release_all l h !! n = if bool_decide (n ∈ l) then Release <$> h !! n else h !! n.
Proof.
  induction l as [|m l IH]; [done|]. unfold release_all in *. simpl.
  destruct (decide (n = m)) as [->|Hne].
  - rewrite lookup_alter_eq, IH.
    rewrite (bool_decide_true (m ∈ m :: l)) by apply list_elem_of_here.
    case_match; [|done]. destruct (h !! m) as [c|]; [|done]. done.
  - rewrite lookup_alter_ne by done. rewrite IH.
    assert (n ∈ m :: l <-> n ∈ l) as Hiff by (rewrite elem_of_cons; naive_solver).
    by rewrite (bool_decide_ext _ _ Hiff).
Qed.

Lemma sources_spec m n : n ∈ sources m <-> exists k e, m !! k = Some e /\ source e = n.
Proof.
  unfold sources. rewrite list_elem_of_In, in_map_iff. split.
  - intros ([k e] & <- & Hin). apply list_elem_of_In, elem_of_map_to_list in Hin. eauto.
  - intros (k & e & Hk & <-). exists (k, e). split; [done|].
    by apply list_elem_of_In, elem_of_map_to_list.
Qed.

(** Dropping entries while releasing what they own keeps the invariant. *)
Lemma core_inv_drop st m h : core_inv st -> m ⊆ entries st ->
  (forall k e, m !! k = Some e -> h !! source e = heap st !! source e) ->
  (forall n c, h !! n = Some c -> released c = true \/
     (heap st !! n = Some c /\
      forall k e, entries st !! k = Some e -> source e = n -> m !! k = Some e)) ->
  core_inv (mkCacheState m (inflight st) (providerEpochs st) (sequence st) (closed st) h).
Proof.
  intros I Hsub Hkeep Hown.
  assert (Hin : forall k e, m !! k = Some e -> entries st !! k = Some e).
  { intros k e Hk. by eapply lookup_weaken. }
  constructor; simpl.
  - intros k e Hk. rewrite (Hkeep k e Hk). by eapply inv_live; eauto.
  - intros; eapply inv_source; eauto.
  - intros; eapply inv_used; eauto.
  - intros; eapply inv_used_inj; eauto.
  - intros k Hk. destruct (m !! k) eqn:E; [|done]. apply Hin in E.
    by rewrite (inv_inflight _ I k Hk) in E.
  - intros Hc. apply map_eq. intros k. rewrite lookup_empty.
    destruct (m !! k) eqn:E; [|done]. apply Hin in E. by rewrite (inv_closed _ I Hc) in E.
  - intros n c Hn. destruct (Hown n c Hn) as [|[Hh Hm]]; [by left|].
    destruct (inv_owned _ I n c Hh) as [|(k & e & Hk & He)]; [by left|]. right. eauto.
  - intros k e Hk. exact (inv_keyed _ I k e (Hin k e Hk)).
Qed.

Lemma remove_where_inv p st : core_inv st -> core_inv (remove_where p st).
Proof.
  intros I. apply core_inv_drop; auto.
  - apply map_filter_subseteq.
  - intros k e [Hk Hp]%map_lookup_filter_Some. rewrite release_all_spec, bool_decide_false; [done|].
    rewrite sources_spec. intros (k' & e' & [Hk' Hp']%map_lookup_filter_Some & Hs).
    assert (k' = k) as -> by (by eapply (inv_source _ I)). simpl in *. congruence.
  - intros n c. rewrite release_all_spec. case_bool_decide as Hin.
    + destruct (heap st !! n); intros [= <-]. by left.
    + intros Hn. right. split; [done|]. intros k e Hk Hs. apply map_lookup_filter_Some.
      split; [done|]. simpl. destruct (p e) eqn:Hp; [|done]. exfalso. apply Hin.
      apply sources_spec. exists k, e. split; [|done]. by apply map_lookup_filter_Some.
Qed.

Lemma remove_where_lookup p st k e : entries (remove_where p st) !! k = Some e <->
  entries st !! k = Some e /\ p e = false.
Proof. unfold remove_where. simpl. by rewrite map_lookup_filter_Some. Qed.

Lemma remove_where_size p st :
  (size (entries (remove_where p st)) <= size (entries st))%nat.
Proof. unfold remove_where. simpl. apply map_subseteq_size, map_filter_subseteq. Qed.

Lemma delete_entry_inv st k e : core_inv st -> entries st !! k = Some e ->
  core_inv (mkCacheState (delete k (entries st)) (inflight st) (providerEpochs st)
              (sequence st) (closed st) (alter Release (source e) (heap st))).
Proof.
  intros I Hk. apply core_inv_drop; auto.
  - apply delete_subseteq.
  - intros k' e' [Hne Hk']%lookup_delete_Some. apply lookup_alter_ne.
    intros E. apply Hne. by eapply (inv_source _ I).
  - intros n c. destruct (decide (n = source e)) as [->|Hn].
    + rewrite lookup_alter_eq. destruct (heap st !! source e); intros [= <-]. by left.
    + rewrite lookup_alter_ne by done. intros Hc. right. split; [done|].
      intros k' e' Hk' <-. apply lookup_delete_Some. split; [|done]. intros ->. congruence.
Qed.

Lemma oldest_spec m : m <> ∅ -> exists k e, oldest m = Some (k, e) /\ m !! k = Some e /\
  forall k' e', m !! k' = Some e' -> lastUsed e <= lastUsed e'.
Proof.
  intros Hne. unfold oldest.
  assert (Hfold : forall (l : list (string * cachedCapability)) best, exists r,
    foldl (fun best (kv : string * cachedCapability) => match best with
      | None => Some kv
      | Some b => if lastUsed kv.2 <? lastUsed b.2 then Some kv else best end) best l = r /\
    match r with
    | None => l = [] /\ best = None
    | Some (k, e) => ((k, e) ∈ l \/ best = Some (k, e)) /\
        (forall kv, kv ∈ l -> lastUsed e <= lastUsed kv.2) /\
        (forall b, best = Some b -> lastUsed e <= lastUsed b.2)
    end).
  { induction l as [|[k e] l IH]; intros best; simpl.
    { exists best. split; [done|]. destruct best as [[k e]|]; [|done].
      split_and!; [by right|by intros kv ?%elem_of_nil|]. intros b [= <-]. simpl. lia. }
    destruct (IH (match best with None => Some (k, e)
      | Some b => if lastUsed e <? lastUsed b.2 then Some (k, e) else best end)) as (r & -> & Hr).
    eexists. split; [done|]. destruct r as [[k1 e1]|].
    - destruct Hr as (H1 & H2 & H3). destruct best as [[kb eb]|]; simpl in *.
      + destruct (Z.ltb_spec (lastUsed e) (lastUsed eb)).
        * specialize (H3 _ eq_refl). simpl in H3. split_and!.
          -- destruct H1 as [|[= <- <-]]; left; apply elem_of_cons; auto.
          -- intros kv [->|Hkv]%elem_of_cons; [done|auto].
          -- intros b [= <-]. simpl. lia.
        * specialize (H3 _ eq_refl). simpl in H3. split_and!.
          -- destruct H1 as [|[= <- <-]]; [left; apply elem_of_cons; auto|by right].
          -- intros kv [->|Hkv]%elem_of_cons; [simpl; lia|auto].
          -- intros b [= <-]. done.
      + specialize (H3 _ eq_refl). split_and!; [|by intros kv [->|Hkv]%elem_of_cons; auto|done].
        destruct H1 as [|[= <- <-]]; left; apply elem_of_cons; auto.
    - destruct Hr as [_ Hr]. by destruct best as [[]|]; [destruct (_ <? _)|]. }
  destruct (Hfold (map_to_list m) None) as ([[k e]|] & -> & Hr).
  - destruct Hr as ([Hin|] & Hmin & _); [|done]. exists k, e. split; [done|].
    split; [by apply elem_of_map_to_list|]. intros k' e' Hk'.
    apply (Hmin (k', e')). by apply elem_of_map_to_list.
  - destruct Hr as [Hr _]. by apply map_to_list_empty_iff in Hr.
Qed.

(** When at most one entry is above the bound the loop removes exactly the
    least recently used one, if any. *)
Lemma evict_spec config st : core_inv st -> 1 <= cfg_MaxEntries config ->
  Z.of_nat (size (entries st)) <= cfg_MaxEntries config + 1 ->
  let st' := evictLRULocked config st in
  cache_inv config st' /\
  (forall k e, entries st !! k = Some e ->
     (forall k' e', entries st !! k' = Some e' -> lastUsed e' <= lastUsed e) ->
     entries st' !! k = Some e) /\
  (forall k e, entries st' !! k = Some e -> heap st' !! source e = heap st !! source e) /\
  entries st' ⊆ entries st /\ providerEpochs st' = providerEpochs st /\
  inflight st' = inflight st /\ closed st' = closed st /\ sequence st' = sequence st.
Proof.
  intros I Hmax Hsize. unfold evictLRULocked. cbv zeta.
  destruct (size (entries st)) as [|n] eqn:Hn; simpl.
  { split_and!; auto. split; [done|]. rewrite Hn. lia. }
  rewrite Hn. destruct (Z.ltb_spec (cfg_MaxEntries config) (Z.of_nat (S n))) as [Hlt|Hge].
  - assert (Hne : entries st <> ∅) by (intros E; by rewrite E, map_size_empty in Hn).
    destruct (oldest_spec _ Hne) as (k & e & -> & Hk & Hmin).
    assert (Hsz : size (delete k (entries st)) = n).
    { rewrite map_size_delete_Some by (by eexists). lia. }
    assert (Hstop : forall fuel st', Z.of_nat (size (entries st')) <= cfg_MaxEntries config ->
              evict_loop fuel (cfg_MaxEntries config) st' = st').
    { intros [|fuel] st' Hs; [done|]. simpl. by rewrite (proj2 (Z.ltb_ge _ _)). }
    rewrite Hstop by (simpl; rewrite Hsz; lia). split_and!; auto; simpl.
    + split; [by apply delete_entry_inv|simpl; rewrite Hsz; lia].
    + intros k' e' Hk' Hlast. rewrite lookup_delete_ne; [done|]. intros <-.
      rewrite Hk in Hk'. injection Hk' as <-.
      (* every entry has the same lastUsed, so there is only one *)
      assert (Hall : forall j f, entries st !! j = Some f -> j = k).
      { intros j f Hj. eapply (inv_used_inj _ I); eauto.
        pose proof (Hmin j f Hj). pose proof (Hlast j f Hj). lia. }
      assert (entries st = {[ k := e ]}) as E.
      { apply map_eq. intros j. destruct (decide (j = k)) as [->|Hj].
        - by rewrite lookup_singleton_eq.
        - rewrite lookup_singleton_ne by done. destruct (entries st !! j) eqn:Ej; [|done].
          by apply Hall in Ej. }
      rewrite E, map_size_singleton in Hn. lia.
    + intros j f [Hne' Hf]%lookup_delete_Some. apply lookup_alter_ne.
      intros E. apply Hne'. by eapply (inv_source _ I).
    + apply delete_subseteq.
  - split_and!; auto. split; [done|]. lia.
Qed.

Lemma touch_inv st key e : core_inv st -> entries st !! key = Some e ->
  core_inv (mkCacheState (<[key := with_lastUsed e (sequence st + 1)]> (entries st))
    (inflight st) (providerEpochs st) (sequence st + 1) (closed st) (heap st)).
Proof.
  intros I Hk.
  assert (Hl : forall k f, <[key := with_lastUsed e (sequence st + 1)]> (entries st) !! k = Some f ->
    k = key /\ f = with_lastUsed e (sequence st + 1) \/ k <> key /\ entries st !! k = Some f).
  { intros k f. rewrite lookup_insert_Some. naive_solver. }
  constructor; simpl.
  - intros k f [[-> ->]|[_ Hf]]%Hl; [exact (inv_live _ I key e Hk)|by eapply (inv_live _ I)].
  - intros k1 k2 e1 e2 [[-> ->]|[_ H1]]%Hl [[-> ->]|[_ H2]]%Hl; simpl; intros E; auto;
      eapply (inv_source _ I); eauto.
  - intros k f [[-> ->]|[_ Hf]]%Hl; simpl; [lia|]. apply (inv_used _ I) in Hf. lia.
  - intros k1 k2 e1 e2 [[-> ->]|[_ H1]]%Hl [[-> ->]|[_ H2]]%Hl; simpl; intros E; auto.
    + apply (inv_used _ I) in H2. lia.
    + apply (inv_used _ I) in H1. lia.
    + by eapply (inv_used_inj _ I).
  - intros k Hin. pose proof (inv_inflight _ I k Hin) as Hn.
    rewrite lookup_insert_ne; [done|]. intros ->. congruence.
  - intros Hc. rewrite (inv_closed _ I Hc) in Hk. done.
  - intros n c Hn. destruct (inv_owned _ I n c Hn) as [|(k & f & Hf & <-)]; [by left|]. right.
    destruct (decide (k = key)) as [->|Hne].
    + exists key, (with_lastUsed e (sequence st + 1)). rewrite lookup_insert_eq.
      split; [done|]. rewrite Hk in Hf. by injection Hf as <-.
    + exists k, f. by rewrite lookup_insert_ne.
  - intros k f [[-> ->]|[_ Hf]]%Hl; [exact (inv_keyed _ I key e Hk)|exact (inv_keyed _ I k f Hf)].
Qed.

Lemma pending_inv st pending : core_inv st ->
  (forall k, k ∈ pending -> k ∈ inflight st \/ entries st !! k = None) ->
  core_inv (mkCacheState (entries st) pending (providerEpochs st) (sequence st) (closed st) (heap st)).
Proof.
  intros I H. constructor; simpl; try apply I.
  intros k [Hk|Hk]%H; [by apply (inv_inflight _ I)|done].
Qed.

Lemma resolve_begin_inv config st binding governed now : cache_inv config st ->
  cache_inv config (resolve_begin st binding governed now).1.
Proof.
  intros [I Hs]. unfold resolve_begin.
  do 3 (case_match; [done|]).
  set (st1 := removeExpiredLocked now (removeRevokedLocked (Definition_ binding) st)).
  assert (I1 : core_inv st1) by (by repeat apply remove_where_inv).
  assert (Hs1 : Z.of_nat (size (entries st1)) <= cfg_MaxEntries config).
  { pose proof (remove_where_size (fun e => negb (now <? expiresAt e))
      (removeRevokedLocked (Definition_ binding) st)).
    pose proof (remove_where_size (fun entry =>
      String.eqb (tenantID entry) (bind_TenantID (Definition_ binding))
      && String.eqb (bindingID entry) (bind_ID (Definition_ binding))
      && negb (String.eqb (revocationEpoch entry) (bind_RevocationEpoch (Definition_ binding)))) st).
    unfold st1, removeExpiredLocked, removeRevokedLocked in *. lia. }
  assert (Hexp : forall k e, entries st1 !! k = Some e -> now <? expiresAt e = true).
  { intros k e [_ He]%remove_where_lookup. by apply negb_false_iff in He. }
  clearbody st1. set (key := credentialCacheKey _ _ _).
  destruct (entries st1 !! key) as [e|] eqn:Hk.
  - rewrite (Hexp _ _ Hk). split; [by apply touch_inv|]. simpl.
    by rewrite map_size_insert_Some by (by eexists).
  - case_match; [done|]. split; [|done]. simpl. apply pending_inv; [done|].
    intros k. rewrite elem_of_union, elem_of_singleton. naive_solver.
Qed.

Lemma prepareEntry_ok config loaded loadErr d governed now location e :
  0 <= cfg_ExpirySkew config ->
  prepareEntry config loaded loadErr d governed now location = Ok e ->
  exists c, loaded = Some c /\ loadErr = None /\ source e = location /\
    now < expiresAt e <= md_ExpiresAt (metadata c) - cfg_ExpirySkew config /\
    expiresAt e <= now + cfg_MaximumTTL config /\
    tenantID e = bind_TenantID d /\ bindingID e = bind_ID d /\ runID e = ctx_RunID governed /\
    providerType e = ProviderType (Provider d) /\ revocationEpoch e = bind_RevocationEpoch d /\
    md_RevocationEpoch (metadata c) = bind_RevocationEpoch d.
Proof.
  unfold prepareEntry. intros Hskew. destruct loadErr, loaded as [c|]; try done.
  case_match eqn:Em; [done|]. case_match eqn:Et; [done|]. intros [= <-].
  exists c. simpl. apply negb_false_iff, Z.ltb_lt in Et.
  rewrite !orb_false_iff, !negb_false_iff in Em. destruct Em as [[[[[_ _] Hr] _] _] _].
  apply String.eqb_eq in Hr. split_and!; auto.
  - clear Et. branches; to_prop; lia.
  - clear Et. branches; to_prop; lia.
Qed.

Lemma heap_add_inv st location c : core_inv st -> heap st !! location = None ->
  released c = true ->
  core_inv (mkCacheState (entries st) (inflight st) (providerEpochs st) (sequence st)
              (closed st) (<[location := c]> (heap st))).
Proof.
  intros I Hf Hc. constructor; simpl; try apply I.
  - intros k e Hk. destruct (inv_live _ I k e Hk) as (c' & H1 & H2).
    exists c'. rewrite lookup_insert_ne; [done|]. intros E. congruence.
  - intros n c'. rewrite lookup_insert_Some. intros [[<- <-]|[_ Hn]]; [by left|].
    by apply (inv_owned _ I).
Qed.

Lemma store_inv st key e location c :
  core_inv st -> entries st !! key = None -> key ∉ inflight st -> heap st !! location = None ->
  released c = false -> source e = location -> expiresAt e <= md_ExpiresAt (metadata c) ->
  closed st = false -> keyed st key e ->
  core_inv (mkCacheState (<[key := with_lastUsed e (sequence st + 1)]> (entries st))
    (inflight st) (providerEpochs st) (sequence st + 1) (closed st) (<[location := c]> (heap st))).
Proof.
  intros I Hnone Hpend Hfresh Hrel Hsrc Hexp Hclosed Hkey.
  assert (Hl : forall k f, <[key := with_lastUsed e (sequence st + 1)]> (entries st) !! k = Some f ->
    k = key /\ f = with_lastUsed e (sequence st + 1) \/ k <> key /\ entries st !! k = Some f).
  { intros k f. rewrite lookup_insert_Some. naive_solver. }
  assert (Hloc : forall k f, entries st !! k = Some f -> source f <> location).
  { intros k f Hf E. destruct (inv_live _ I k f Hf) as (? & Hx & _). congruence. }
  constructor; simpl.
  - intros k f [[-> ->]|[_ Hf]]%Hl; simpl.
    + rewrite Hsrc, lookup_insert_eq. eauto.
    + rewrite lookup_insert_ne by (intros E; by apply (Hloc k f Hf)). by eapply (inv_live _ I).
  - intros k1 k2 e1 e2 [[-> ->]|[_ H1]]%Hl [[-> ->]|[_ H2]]%Hl; simpl; intros E; auto.
    + exfalso. apply (Hloc k2 e2 H2). congruence.
    + exfalso. apply (Hloc k1 e1 H1). congruence.
    + by eapply (inv_source _ I).
  - intros k f [[-> ->]|[_ Hf]]%Hl; simpl; [lia|]. apply (inv_used _ I) in Hf. lia.
  - intros k1 k2 e1 e2 [[-> ->]|[_ H1]]%Hl [[-> ->]|[_ H2]]%Hl; simpl; intros E; auto.
    + apply (inv_used _ I) in H2. lia.
    + apply (inv_used _ I) in H1. lia.
    + by eapply (inv_used_inj _ I).
  - intros k Hin. rewrite lookup_insert_ne; [by apply (inv_inflight _ I)|]. by intros <-.
  - congruence.
  - intros n c'. rewrite lookup_insert_Some. intros [[<- <-]|[Hne Hn]].
    + right. exists key, (with_lastUsed e (sequence st + 1)). by rewrite lookup_insert_eq.
    + destruct (inv_owned _ I n c' Hn) as [|(k & f & Hf & <-)]; [by left|]. right.
      exists k, f. rewrite lookup_insert_ne; [done|]. intros ->. congruence.
  - intros k f [[-> ->]|[_ Hf]]%Hl; [exact Hkey|exact (inv_keyed _ I k f Hf)].
Qed.

Lemma fresh_location_spec h : h !! fresh_location h = None.
Proof.
  apply (not_elem_of_dom (D := gset nat)). unfold fresh_location. apply (is_fresh (dom h : gset nat)).
Qed.

Lemma alter_release_insert (h : gmap nat Capability) location c :
  alter Release location (<[location := c]> h) = <[location := Release c]> h.
Proof.
  apply map_eq. intros n. destruct (decide (n = location)) as [->|Hne].
  - by rewrite lookup_alter_eq, !lookup_insert_eq.
  - by rewrite lookup_alter_ne, !lookup_insert_ne.
Qed.

Lemma new_cache_ok c config : NewProviderCache c = Ok config ->
  1 <= cfg_MaxEntries config /\ 0 <= cfg_ExpirySkew config < cfg_MaximumTTL config.
Proof. unfold NewProviderCache. case_match eqn:E; [done|]. intros [= <-]. to_prop. lia. Qed.

Section Finish.
Context (config : CacheConfig) (Hmax : 1 <= cfg_MaxEntries config)
  (Hskew : 0 <= cfg_ExpirySkew config).
Context (st : cacheState) (d : CredentialBindingDefinition)
  (governed : CredentialProviderContext) (epoch : string) (now : Z)
  (loaded : option Capability) (loadErr : option goerror).
Context (Hinv : cache_inv config st)
  (Hpending : credentialCacheKey d governed epoch ∈ inflight st)
  (Hgo : go_values d governed epoch)
  (Hlive : forall c, loaded = Some c -> released c = false).

Lemma finish_drop_inv :
  core_inv (mkCacheState (entries st) (inflight st ∖ {[credentialCacheKey d governed epoch]})
    (providerEpochs st) (sequence st) (closed st)
    (match loaded with
     | Some c => alter Release (fresh_location (heap st)) (<[fresh_location (heap st) := c]> (heap st))
     | None => heap st end)).
Proof.
  destruct Hinv as [I _].
  pose proof (pending_inv st (inflight st ∖ {[credentialCacheKey d governed epoch]}) I) as I1.
  destruct loaded as [c|]; cycle 1.
  { apply I1. intros k. rewrite elem_of_difference. naive_solver. }
  rewrite alter_release_insert.
  apply (heap_add_inv (mkCacheState (entries st) _ (providerEpochs st) (sequence st)
    (closed st) (heap st))); [|apply fresh_location_spec|done].
  apply I1. intros k. rewrite elem_of_difference. naive_solver.
Qed.

(** A stored capability survives its own eviction round. *)
Lemma resolve_finish_spec :
  let '(st', r) := resolve_finish config st d governed epoch now loaded loadErr in
  cache_inv config st' /\ inflight st' = inflight st ∖ {[credentialCacheKey d governed epoch]} /\
  (forall location, r = Ok location ->
     exists e c, entries st' !! credentialCacheKey d governed epoch = Some e /\
       source e = location /\ loaded = Some c /\ heap st' !! location = Some c /\
       now < expiresAt e <= md_ExpiresAt (metadata c) - cfg_ExpirySkew config /\
       ProviderEpoch st (ProviderType (Provider d)) = epoch /\ closed st = false).
Proof.
  pose proof finish_drop_inv as Hdrop. destruct Hinv as [I Hs]. unfold resolve_finish.
  set (key := credentialCacheKey d governed epoch) in *.
  set (location := fresh_location (heap st)) in *.
  destruct (prepareEntry config loaded loadErr d governed now location) as [e|err] eqn:Hp; cycle 1.
  { split_and!; [|done|done]. split; [|done]. destruct loaded; exact Hdrop. }
  apply prepareEntry_ok in Hp as (c & -> & -> & Hsrc & Hexp & _ & Ht & Hb & Hr & Hpt & Hre & _);
    [|done].
  destruct (negb (closed st) && _) eqn:Hok; cycle 1.
  { split_and!; [|done|done]. split; [|done]. exact Hdrop. }
  apply andb_true_iff in Hok as [Hc Hep]. apply negb_true_iff in Hc. apply String.eqb_eq in Hep.
  pose proof (inv_inflight _ I key Hpending) as Hnone.
  assert (I2 : core_inv (mkCacheState (<[key := with_lastUsed e (sequence st + 1)]> (entries st))
      (inflight st ∖ {[key]}) (providerEpochs st) (sequence st + 1) (closed st)
      (<[location := c]> (heap st)))).
  { pose proof (store_inv (mkCacheState (entries st) (inflight st ∖ {[key]}) (providerEpochs st)
      (sequence st) (closed st) (heap st)) key e location c) as Hst.
    cbn [entries inflight providerEpochs sequence closed heap] in Hst.
    apply Hst; clear Hst; auto; try lia.
    - apply pending_inv; [done|]. intros k. rewrite elem_of_difference. naive_solver.
    - rewrite elem_of_difference, elem_of_singleton. naive_solver.
    - apply fresh_location_spec.
    - exists d, governed, epoch. rewrite Hpt. split_and!; auto. }
  edestruct (evict_spec config _ I2) as (Hinv' & Hkeep & Hheap & Hsub & _ & Hpend & _); [done| |].
  { simpl. rewrite map_size_insert_None by done. lia. }
  split_and!; [done|done|]. intros ? [= <-]. exists (with_lastUsed e (sequence st + 1)), c.
  assert (Hk : entries (evictLRULocked config (mkCacheState
      (<[key := with_lastUsed e (sequence st + 1)]> (entries st)) (inflight st ∖ {[key]})
      (providerEpochs st) (sequence st + 1) (closed st) (<[location := c]> (heap st)))) !! key
    = Some (with_lastUsed e (sequence st + 1))).
  { apply Hkeep; simpl; [by rewrite lookup_insert_eq|]. intros k' e'.
    rewrite lookup_insert_Some. intros [[<- <-]|[_ Hk']]; simpl; [lia|].
    apply (inv_used _ I) in Hk'. lia. }
  pose proof (Hheap _ _ Hk) as Hh. cbn [source with_lastUsed heap] in Hh.
  rewrite Hsrc, lookup_insert_eq in Hh. split_and!; auto; simpl; lia.
Qed.
End Finish.

Lemma removeEntry_inv config key location st : cache_inv config st ->
  cache_inv config (removeEntry key location st).
Proof.
  intros [I Hs]. unfold removeEntry. destruct (entries st !! key) as [e|] eqn:Hk; [|done].
  case_match; [|done]. split; [by apply delete_entry_inv|]. simpl.
  rewrite map_size_delete_Some by (by eexists). lia.
Qed.

Lemma remove_where_cache_inv config p st : cache_inv config st ->
  cache_inv config (remove_where p st).
Proof.
  intros [I Hs]. split; [by apply remove_where_inv|]. pose proof (remove_where_size p st). lia.
Qed.

Lemma SetProviderEpoch_inv config provider epoch st : cache_inv config st ->
  cache_inv config (SetProviderEpoch provider epoch st).1.
Proof.
  intros [I Hs]. unfold SetProviderEpoch. case_match; [done|]. case_match; [done|].
  case_match eqn:Eep; [done|]. simpl.
  set (p := fun entry => String.eqb (providerType entry) provider).
  pose proof (remove_where_inv p st I) as I1. pose proof (remove_where_size p st) as Hsz.
  split; [|unfold remove_where in *; simpl in *; lia].
  constructor; try apply I1. intros k e Hk. pose proof Hk as Hk'.
  apply remove_where_lookup in Hk' as [_ Hp]. unfold p in Hp. apply String.eqb_neq in Hp.
  destruct (inv_keyed _ I1 k e Hk) as (d & g & ep & ? & ? & ? & ? & ? & ? & ? & Hep).
  exists d, g, ep. split_and!; auto. rewrite Hep. unfold ProviderEpoch. simpl.
  by rewrite lookup_insert_ne.
Qed.

Lemma Close_inv config st : cache_inv config st -> cache_inv config (Close st).
Proof.
  intros [I Hs]. pose proof (remove_where_inv (fun _ => true) st I) as I1.
  pose proof (remove_where_size (fun _ => true) st).
  split; [|unfold Close, remove_where in *; simpl in *; lia].
  constructor; try apply I1. intros _. apply map_eq. intros k. rewrite lookup_empty.
  destruct (entries (Close st) !! k) eqn:E; [|done]. unfold Close in E.
  by apply remove_where_lookup in E as [_ ?].
Qed.

Lemma reachable_inv c config st : NewProviderCache c = Ok config ->
  reachable config st -> cache_inv config st.
Proof.
  intros (Hmax & Hskew)%new_cache_ok. induction 1 as [|st st' _ IH Hstep].
  { split; [|simpl; rewrite map_size_empty; lia]. constructor; simpl; done. }
  destruct Hstep.
  - by apply resolve_begin_inv.
  - pose proof (resolve_finish_spec config Hmax ltac:(lia) st d governed epoch now loaded loadErr IH)
      as Hf. destruct (resolve_finish _ _ _ _ _ _ _ _). by apply Hf.
  - by apply removeEntry_inv.
  - by apply remove_where_cache_inv.
  - by apply remove_where_cache_inv.
  - by apply SetProviderEpoch_inv.
  - by apply Close_inv.
Qed.


(** ** Lemmas: the cache key *)







(** A binding and context used by the witnesses. *)
Definition sample_id (c : ascii) : UUID := str_of (replicate 16 c).
Definition sample_binding_def (audiences resources : list string) : CredentialBindingDefinition :=
  mkBindingDef (sample_id "b") (sample_id "t") (sample_id "c")
    [mkSelector "github.issue.create" (mkSemVer "1.2.0" 1 2 0 []) "github.app"]
    (mkProvider "vault" "vault/github" CapabilityAPIToken audiences resources [])
    (mkDelegation DelegationNone "") (mkCachePolicy Hour Second) "1" [] true.
Definition sample_context : CredentialProviderContext := mkProviderContext "alice" "run-1".
Definition sample_cache_config : CacheConfig := mkCacheConfig 1 Hour Second.
Definition sample_capability (audiences resources : list string) : Capability :=
  mkCapability (mkMetadata CapabilityAPIToken "vault/github" "" audiences resources [] 1
    (2 * Hour) "lease" "" "1") "s3cret" false.
Definition sample_loaded : cacheState :=
  let st := (resolve_begin empty_cache (mkCredentialBinding (sample_binding_def [] []))
               sample_context 10).1 in
  (resolve_finish sample_cache_config st (sample_binding_def [] []) sample_context "" 10
     (Some (sample_capability [] [])) None).1.

Lemma in_set_decided (k : string) (s : gset string) : bool_decide (k ∈ s) = true -> k ∈ s.
Proof. apply bool_decide_eq_true. Qed.

Lemma sample_go_values : go_values (sample_binding_def [] []) sample_context "".
Proof. split_and!; try reflexivity. repeat constructor. Qed.

Lemma sample_loaded_reachable : reachable sample_cache_config sample_loaded.
Proof.
  eapply reach_step; [eapply reach_step; [apply reach_init|apply step_begin]|].
  apply step_finish; [|apply sample_go_values|by intros c [= <-]].
  apply in_set_decided. vm_compute. reflexivity.
Qed.

(** ** Properties *)

(** C6: in every state any interleaving of cache operations can reach, the cache holds at
    most the configured number of entries, every entry owns a capability that has
    not been released and does not outlive it, no capability is owned twice, and
    every capability a provider handed over is either owned by an entry or has
    been released and erased, so none leaks; a closed cache owns none. *)
Theorem cache_ownership (c config : CacheConfig) (st : cacheState)
    (Hconfig : NewProviderCache c = Ok config) (Hreach : reachable config st) :
  Z.of_nat (size (entries st)) <= cfg_MaxEntries config /\
  (forall k e, entries st !! k = Some e -> exists cap, heap st !! source e = Some cap /\
     released cap = false /\ expiresAt e <= md_ExpiresAt (metadata cap)) /\
  (forall k1 k2 e1 e2, entries st !! k1 = Some e1 -> entries st !! k2 = Some e2 ->
     source e1 = source e2 -> k1 = k2) /\
  (forall n cap, heap st !! n = Some cap -> released cap = false ->
     exists k e, entries st !! k = Some e /\ source e = n) /\
  (closed st = true -> entries st = ∅ /\
     forall n cap, heap st !! n = Some cap -> released cap = true).
Proof.
  destruct (reachable_inv _ _ _ Hconfig Hreach) as [I Hs].
  assert (Howned : forall n cap, heap st !! n = Some cap -> released cap = false ->
     exists k e, entries st !! k = Some e /\ source e = n).
  { intros n cap Hn Hr. destruct (inv_owned _ I n cap Hn) as [|]; [congruence|done]. }
  split_and!; auto.
  - apply (inv_live _ I).
  - apply (inv_source _ I).
  - intros Hc. pose proof (inv_closed _ I Hc) as He. split; [done|].
    intros n cap Hn. destruct (released cap) eqn:Hr; [done|].
    destruct (Howned n cap Hn Hr) as (k & e & Hk & _). by rewrite He in Hk.
Qed.

Lemma cache_ownership_witness : exists st,
  reachable sample_cache_config st /\ size (entries st) = 1%nat /\
  Z.of_nat (size (entries st)) <= cfg_MaxEntries sample_cache_config.
Proof.
  exists sample_loaded. split; [exact sample_loaded_reachable|].
  split; [vm_compute; reflexivity|].
  apply (cache_ownership sample_cache_config sample_cache_config sample_loaded);
    [reflexivity|exact sample_loaded_reachable].
Defined.



(** a load that completes is stored or released, never both and never neither: on
    success the new entry is in the cache (it is never the one the LRU bound
    evicts) with the provider's live capability, the cache is open and the
    provider epoch is still the one the load began under; in every other case the
    entries are unchanged and a capability the provider returned is released. *)
Theorem load_stored_or_released (c config : CacheConfig) (st : cacheState)
    (d : CredentialBindingDefinition) (governed : CredentialProviderContext) (epoch : string)
    (now : Z) (loaded : option Capability) (loadErr : option goerror)
    (Hconfig : NewProviderCache c = Ok config) (Hreach : reachable config st)
    (Hpending : credentialCacheKey d governed epoch ∈ inflight st)
    (Hgo : go_values d governed epoch)
    (Hlive : forall cap, loaded = Some cap -> released cap = false) :
  let '(st', r) := resolve_finish config st d governed epoch now loaded loadErr in
  credentialCacheKey d governed epoch ∉ inflight st' /\
  match r with
  | Ok location => exists e cap, loaded = Some cap /\ loadErr = None /\
      entries st' !! credentialCacheKey d governed epoch = Some e /\ source e = location /\
      heap st' !! location = Some cap /\ closed st = false /\
      ProviderEpoch st (ProviderType (Provider d)) = epoch /\
      now < expiresAt e <= md_ExpiresAt (metadata cap) - cfg_ExpirySkew config
  | Err _ => entries st' = entries st /\
      forall cap, loaded = Some cap -> exists n cap', heap st !! n = None /\
        heap st' !! n = Some cap' /\ released cap' = true /\ secret cap' = EmptyString
  end.
Proof.
  destruct (new_cache_ok _ _ Hconfig) as (Hmax & Hskew).
  pose proof (resolve_finish_spec config Hmax ltac:(lia) st d governed epoch now loaded loadErr
    (reachable_inv _ _ _ Hconfig Hreach) Hpending Hgo Hlive) as Hf.
  pose proof (reachable_inv _ _ _ Hconfig Hreach) as [I Hs].
  assert (Hreleased : forall cap, loaded = Some cap ->
    (alter Release (fresh_location (heap st)) (<[fresh_location (heap st) := cap]> (heap st)))
      !! fresh_location (heap st) = Some (Release cap)).
  { intros cap _. by rewrite alter_release_insert, lookup_insert_eq. }
  pose proof (fresh_location_spec (heap st)) as Hfresh.
  destruct (resolve_finish config st d governed epoch now loaded loadErr) as [st' r] eqn:Hrun.
  destruct Hf as (_ & Hin & Hf).
  split; [rewrite Hin, elem_of_difference, elem_of_singleton; naive_solver|].
  unfold resolve_finish in Hrun. pose proof Hrun as Hrun'.
  destruct (prepareEntry _ _ _ _ _ _ _) as [e|err] eqn:Hp; cycle 1.
  { injection Hrun as <- <-. split; [done|]. intros cap ->.
    exists (fresh_location (heap st)), (Release cap). eauto. }
  apply prepareEntry_ok in Hp as (cap & -> & -> & _); [|lia].
  destruct (negb (closed st) && _) eqn:Hok; injection Hrun as <- <-; cycle 1.
  { split; [done|]. intros ? [= <-]. exists (fresh_location (heap st)), (Release cap). eauto. }
  destruct (Hf _ eq_refl) as (e' & cap' & ? & ? & ? & ? & ? & ? & ?). exists e', cap'.
  simplify_eq. split_and!; auto; lia.
Qed.

Lemma load_stored_or_released_witness :
  let st := (resolve_begin empty_cache (mkCredentialBinding (sample_binding_def [] []))
               sample_context 10).1 in
  let '(st', r) := resolve_finish sample_cache_config st (sample_binding_def [] []) sample_context
                     "" 10 (Some (sample_capability [] [])) None in
  credentialCacheKey (sample_binding_def [] []) sample_context "" ∉ inflight st' /\
  is_ok r = true.
Proof.
  cbv zeta. set (st := (resolve_begin _ _ _ _).1).
  assert (Hr : is_ok (resolve_finish sample_cache_config st (sample_binding_def [] []) sample_context
     "" 10 (Some (sample_capability [] [])) None).2 = true) by (vm_compute; reflexivity).
  assert (Hin : credentialCacheKey (sample_binding_def [] []) sample_context "" ∈ inflight st)
    by (apply in_set_decided; vm_compute; reflexivity).
  pose proof (load_stored_or_released sample_cache_config sample_cache_config st
    (sample_binding_def [] []) sample_context "" 10 (Some (sample_capability [] [])) None
    eq_refl (reach_step _ _ _ (reach_init _) (step_begin _ _ _ _ _)) Hin sample_go_values
    ltac:(by intros cap [= <-])) as H.
  destruct (resolve_finish _ _ _ _ _ _ _ _) as [st' r]. destruct H as [H _].
  split; [exact H|exact Hr].
Defined.

(** changing a provider's epoch revokes everything obtained under the old one: no
    entry of that provider type remains, what they owned is released, and a load
    that began under the old epoch and finishes later is not stored. *)
Theorem provider_epoch_revokes (c config : CacheConfig) (st st' : cacheState)
    (provider epoch : string)
    (Hconfig : NewProviderCache c = Ok config) (Hreach : reachable config st)
    (H : SetProviderEpoch provider epoch st = (st', None)) :
  ProviderEpoch st' provider = epoch /\
  (ProviderEpoch st provider <> epoch ->
    (forall k e, entries st' !! k = Some e -> providerType e <> provider) /\
    (forall k e cap, entries st !! k = Some e -> providerType e = provider ->
       heap st' !! source e = Some cap -> released cap = true) /\
    (forall d governed old now loaded loadErr, ProviderType (Provider d) = provider ->
       old <> epoch ->
       is_ok (resolve_finish config st' d governed old now loaded loadErr).2 = false)).
Proof.
  destruct (reachable_inv _ _ _ Hconfig Hreach) as [I _].
  unfold SetProviderEpoch in H. do 2 (case_match; [done|]). case_match eqn:Eep.
  { injection H as <-. apply String.eqb_eq in Eep. by split. }
  injection H as <-. split; [unfold ProviderEpoch; simpl; by rewrite lookup_insert_eq|].
  intros _. split_and!.
  - intros k e [_ Hp]%remove_where_lookup. by apply String.eqb_neq.
  - intros k e cap Hk Hp. unfold remove_where. simpl. rewrite release_all_spec, bool_decide_true.
    + destruct (heap st !! source e); intros [= <-]. done.
    + apply sources_spec. exists k, e. split; [|done]. apply map_lookup_filter_Some.
      split; [done|]. simpl. by apply String.eqb_eq.
  - intros d governed old now loaded loadErr Hd Hold. unfold resolve_finish.
    case_match; [|done]. rewrite Hd. unfold ProviderEpoch. simpl. rewrite lookup_insert_eq. simpl.
    rewrite (proj2 (String.eqb_neq epoch old)) by congruence. by rewrite andb_false_r.
Qed.

Lemma provider_epoch_revokes_witness : exists st',
  SetProviderEpoch "vault" "2" sample_loaded = (st', None) /\ ProviderEpoch st' "vault" = "2"%string /\
  forall k e, entries st' !! k = Some e -> providerType e <> "vault"%string.
Proof.
  assert (Hn : (SetProviderEpoch "vault" "2" sample_loaded).2 = None) by (vm_compute; reflexivity).
  assert (Heq : SetProviderEpoch "vault" "2" sample_loaded =
    ((SetProviderEpoch "vault" "2" sample_loaded).1, None))
    by (rewrite <- Hn; apply surjective_pairing).
  exists (SetProviderEpoch "vault" "2" sample_loaded).1. split; [exact Heq|].
  destruct (provider_epoch_revokes sample_cache_config sample_cache_config sample_loaded
    _ "vault" "2" eq_refl sample_loaded_reachable Heq) as [He Hall].
  split; [exact He|]. apply Hall. vm_compute. discriminate.
Defined.

(** The cache key does not separate the lists of a binding: their values are hashed with
    their own lengths but without a count, so two valid bindings that differ only
    in whether the same value is an audience or a resource get the same key, and a cached
    capability for one is a hit for the other. *)
Theorem cache_key_conflates_targets (value : string) (governed : CredentialProviderContext)
    (epoch : string) :
  let as_audience := sample_binding_def [value] [] in
  let as_resource := sample_binding_def [] [value] in
  credentialCacheKey as_audience governed epoch = credentialCacheKey as_resource governed epoch /\
  Audiences (Provider as_audience) <> Audiences (Provider as_resource) /\
  (validSafeReference value 512 = true ->
     ValidateCredentialBindingDefinition as_audience = Ok tt /\
     ValidateCredentialBindingDefinition as_resource = Ok tt).
Proof.
  cbv zeta. split_and!.
  - unfold credentialCacheKey. reflexivity.
  - discriminate.
  - intros Hv. assert (Hset : forall name, validateStringSet name [value] 32 512 = Ok tt).
    { intros name. unfold validateStringSet, validate_set_values. simpl. by rewrite Hv. }
    assert (Hempty : forall name n m, 0 <= n -> validateStringSet name [] n m = Ok tt).
    { intros name n m Hn. unfold validateStringSet. by rewrite (proj2 (Z.ltb_ge _ _)). }
    unfold ValidateCredentialBindingDefinition, sample_binding_def. cbn [Provider Audiences prov_Resources
      Scopes ToolSelectors bind_ID bind_TenantID bind_ConnectorInstanceID Delegation Cache
      bind_RevocationEpoch PolicyTags ProviderType ProviderRef Capability_kind].
    rewrite !Hset, !Hempty by lia. split; vm_compute; reflexivity.
Qed.

Lemma cache_key_conflates_targets_witness :
  ValidateCredentialBindingDefinition (sample_binding_def ["api"%string] []) = Ok tt /\
  credentialCacheKey (sample_binding_def ["api"%string] []) sample_context "" =
  credentialCacheKey (sample_binding_def [] ["api"%string]) sample_context "".
Proof.
  destruct (cache_key_conflates_targets "api" sample_context "") as (Hk & _ & Hv).
  split; [apply Hv; vm_compute; reflexivity|exact Hk].
Defined.

(** A capability cannot be used outside its life: [UseSecret] reaches the secret exactly
    when the capability has not been released and has not expired, [Release]
    erases the secret and the lease, is idempotent and makes every later use
    fail, a new capability is unreleased, unexpired and bounded, and a clone
    carries the same metadata and secret. *)
Theorem capability_lifetime (md : CredentialCapabilityMetadata) (material : string) (now : Z)
    (cap : Capability) (H : NewCapability md material now = Ok cap) :
  metadata cap = md /\ secret cap = material /\ 0 < slen material <= 2 ^ 16 /\
  md_IssuedAt md < md_ExpiresAt md /\
  (forall (A : Type) (later : Z) (use : string -> result A),
     UseSecret cap later use =
       (if later <? md_ExpiresAt md then use material
        else Err (ErrNew "credential capability is expired")) /\
     UseSecret (Release cap) later use = Err (ErrNew "credential capability is released")) /\
  Release (Release cap) = Release cap /\ secret (Release cap) = EmptyString /\
  md_LeaseID (metadata (Release cap)) = EmptyString /\
  cloneCapability (Some cap) now = Ok cap.
Proof.
  unfold NewCapability in H. case_match eqn:Hs; [done|].
  apply result_bind_Ok in H as ([] & Hv & [= <-]). to_prop. change (Z.shiftl 64 10) with (2 ^ 16) in *.
  pose proof (slen_nonneg material).
  assert (Hlife : md_IssuedAt md < md_ExpiresAt md /\ now < md_ExpiresAt md).
  { unfold validateMetadata in Hv. case_match; [done|]. case_match eqn:E; [done|]. to_prop. lia. }
  split_and!; try done; try lia.
  - intros A later use. split; [|done]. unfold UseSecret. simpl.
    by destruct (later <? md_ExpiresAt md).
  - unfold cloneCapability, UseSecret. simpl. rewrite (proj2 (Z.ltb_lt _ _)) by lia. simpl.
    unfold NewCapability. rewrite Hv. simpl. change (Z.shiftl 64 10) with (2 ^ 16).
    destruct (Z.eqb_spec (slen material) 0), (Z.ltb_spec (2 ^ 16) (slen material)); try lia. done.
Qed.

Lemma capability_lifetime_witness : exists cap,
  NewCapability (metadata (sample_capability [] [])) "s3cret" 10 = Ok cap /\
  Release (Release cap) = Release cap.
Proof.
  exists (sample_capability [] []). split; [vm_compute; reflexivity|].
  apply (capability_lifetime (metadata (sample_capability [] [])) "s3cret" 10). vm_compute. reflexivity.
Defined.
