(* ===== verification/Database.v ===== *)
(** * The PostgreSQL tables and statements

    The rows of [internal/adapters/postgres] and the effect of its SQL, read from
    the statements and from the schema under [migrations/sql]: primary keys,
    unique and foreign keys and the CHECK constraints that decide whether a
    statement succeeds.  A table is a finite map from its primary key; a row holds
    what was written, and what a column gives back when it is read is what
    PostgreSQL makes of it ([Columns]).  A transaction is a function on the
    database; when its commit fails, it may have happened nonetheless
    ([WithinTransaction]).  Row locks serialize the transactions that touch one
    row, so transactions are the atomic steps of the model. *)
From Stdlib Require Import Ascii String.
From S2P Require Import Prelude GoStd Regex Sha256 Json JsonParse Primitives ToolCatalog Ports.

(** ** Columns *)

(** What is read of a value that was written: PostgreSQL keeps the value of a [jsonb]
    document, not its text, and the microseconds of an instant. *)
Class Columns := { jsonb : string -> string; timestamptz : Z -> Z }.

(** ** Rows *)

Record Invocation := mkRow {
  row_ID : string; row_RunID : string; row_ToolCallID : string; row_ToolID : string;
  row_ToolVersion : string; row_ArgumentProfile : string;
  row_ArgumentDigest : string; row_ResourceDigest : string;
  row_ResourceProjection : string;
  row_RetryClass : string; row_State : string;
  row_StateVersion : Z;
  row_TerminalCode : option string;
  row_TerminalAt : option Z;
  row_CreatedAt : Z; row_UpdatedAt : Z;
}.

Record idempotency_record := mkIdempotency {
  rec_invocation : option string;
  rec_digest : string;
  rec_state : string;
  rec_owner : option string;
  rec_claim_expires : option Z;
  rec_replay_code : option Z;
  rec_replay_digest : option string;
  rec_replay_payload : option string;
  rec_created : Z; rec_updated : Z; rec_expires : Z;
  rec_recoveries : Z; rec_max_recoveries : Z;
}.

Record Attempt := mkAttempt {
  att_No : Z; att_Fence : Z;
  att_Owner : option string;
  att_ClaimedAt : option Z; att_LeaseExpiresAt : option Z;
  att_RequestRef : option string; att_ResultRef : option string;
  att_Outcome : option string; att_Retry : option string; att_Ambiguity : option string;
  att_Evidence : string;
  att_StartedAt : Z;
  att_FinishedAt : option Z;
}.

Record DecisionRow := mkDecisionRow {
  drow_ContextDigest : string; drow_ArgumentDigest : string; drow_ResourceDigest : string;
  drow_Outcome : string; drow_PolicyRef : string; drow_Constraints : string;
  drow_IssuedAt : Z; drow_ExpiresAt : Z; drow_RecordedAt : Z;
  drow_Checkpoint : option string;
}.

Record AuditEvent := mkAudit {
  aud_EventID : string; aud_InvocationID : option string; aud_EventType : string;
  aud_EvidenceProfile : string; aud_ActorClass : string; aud_ActorRef : option string;
  aud_Outcome : string; aud_ReasonCode : option string; aud_Correlation : string;
  aud_SafePayload : string; aud_PayloadDigest : string; aud_OccurredAt : Z; aud_RecordedAt : Z;
}.

Record OutboxMessage := mkOutbox {
  out_ID : string; out_EventID : string; out_Topic : string; out_EventType : string;
  out_SafePayload : string; out_PayloadDigest : string; out_CreatedAt : Z; out_AvailableAt : Z;
}.

(** The stored message with the columns the publisher maintains. *)
Record outbox_row := mkOutboxRow {
  orow_message : OutboxMessage;
  orow_available : Z;
  orow_owner : option string; orow_until : option Z;
  orow_attempts : Z;
  orow_error_class : option string; orow_error_at : option Z;
  orow_published : option Z; orow_ref : option string;
  orow_dead : option Z; orow_reason : option string;
}.

(** The columns of an execution result that are read back. *)
Record ResultRow := mkResultRow {
  res_SafeResult : option string;
  res_Classification : string;
}.

Record database := mkDatabase {
  tool_versions : gset (string * string);
  invocations : gmap (string * string) Invocation;
  idempotency_records : gmap (string * string * string) idempotency_record;
  invocation_attempts : gmap (string * string) (list Attempt);
  authorization_decisions : gmap (string * string * string) DecisionRow;
  audit_events : gmap (string * string) AuditEvent;
  outbox_messages : gmap (string * string) outbox_row;
  execution_results : gmap (string * string) ResultRow;
}.

Definition empty_database (versions : gset (string * string)) : database :=
  mkDatabase versions ∅ ∅ ∅ ∅ ∅ ∅ ∅.

Definition set_invocations (db : database) t :=
  mkDatabase (tool_versions db) t (idempotency_records db) (invocation_attempts db)
    (authorization_decisions db) (audit_events db) (outbox_messages db)
    (execution_results db).
Definition set_idempotency (db : database) t :=
  mkDatabase (tool_versions db) (invocations db) t (invocation_attempts db)
    (authorization_decisions db) (audit_events db) (outbox_messages db)
    (execution_results db).
Definition set_attempts (db : database) t :=
  mkDatabase (tool_versions db) (invocations db) (idempotency_records db) t
    (authorization_decisions db) (audit_events db) (outbox_messages db)
    (execution_results db).
Definition set_decisions (db : database) t :=
  mkDatabase (tool_versions db) (invocations db) (idempotency_records db) (invocation_attempts db)
    t (audit_events db) (outbox_messages db)
    (execution_results db).
Definition set_audit (db : database) t :=
  mkDatabase (tool_versions db) (invocations db) (idempotency_records db) (invocation_attempts db)
    (authorization_decisions db) t (outbox_messages db) (execution_results db).
Definition set_outbox (db : database) t :=
  mkDatabase (tool_versions db) (invocations db) (idempotency_records db) (invocation_attempts db)
    (authorization_decisions db) (audit_events db) t (execution_results db).

(** ** Errors and transactions *)

Definition ErrNoRows : goerror := ErrNew "no rows in result set".
Definition constraint_violation (name : string) : goerror := ErrNew ("violates constraint " +:+ name).

Definition is_no_rows (e : goerror) : bool :=
  match e with ErrNew message => String.eqb message "no rows in result set" | _ => false end.

Definition repositoryError (operation : string) (e : goerror) : goerror :=
  if is_no_rows e then NewError CodeNotFound operation (Some e) else ErrWrap operation e.

Definition in_repository {A} (operation : string) (r : result A) : result A :=
  match r with Ok a => Ok a | Err e => Err (repositoryError operation e) end.

(** The reply of [Commit].  When it fails for a reason other than PostgreSQL's refusal,
    such as a deadline or a lost connection, the transaction may have been committed:
    [applied] says whether it was, which nobody is told. *)
Inductive commit_reply := Committed | CommitFailed (err : goerror) (applied : bool).

Definition takes_effect (commit : commit_reply) : bool :=
  match commit with Committed => true | CommitFailed _ applied => applied end.

(** [begin] and [commit] are the replies of [BeginTx] and [Commit]. *)
Definition WithinTransaction {A} (db : database) (begin : result unit) (commit : commit_reply)
    (fn : database -> result (database * A)) : database * result A :=
  match begin with
  | Err err => (db, Err (ErrWrap "begin postgres transaction" err))
  | Ok _ =>
      match fn db with
      | Err err => (db, Err err)
      | Ok (db', a) =>
          match commit with
          | CommitFailed err applied => (if applied then db' else db, Err (ErrWrap "commit postgres transaction" err))
          | Committed => (db', Ok a)
          end
      end
  end.

(** The answer of a transaction that took effect, whether or not it was reported. *)
Definition transacted {A} (db : database) (begin : result unit) (commit : commit_reply)
    (fn : database -> result (database * A)) : option A :=
  match begin, fn db with
  | Ok _, Ok (_, a) => if takes_effect commit then Some a else None
  | _, _ => None
  end.

(** ** Statements on invocations *)

Definition invocation_states : list string :=
  ["received"; "validated"; "authorized"; "pre_tool_passed"; "waiting_for_approval"; "ready";
   "executing"; "retry_wait"; "reconciling"; "ambiguous"; "manual_review"; "post_tool";
   "succeeded"; "failed"; "denied"; "blocked"; "cancelled"]%string.
Definition terminal_states : list string :=
  ["succeeded"; "failed"; "denied"; "blocked"; "cancelled"]%string.

(** The CHECK constraints of the table. *)
Definition invocation_check (v : Invocation) : bool :=
  negb (String.eqb (row_RunID v) "") && negb (String.eqb (row_ToolCallID v) "")
  && negb (String.eqb (row_ArgumentProfile v) "")
  && (slen (row_ArgumentDigest v) =? 32) && (slen (row_ResourceDigest v) =? 32)
  && unmarshals_raw_object (row_ResourceProjection v)
  && validRetry (row_RetryClass v) && one_of_str (row_State v) invocation_states
  && (0 <=? row_StateVersion v) && (row_CreatedAt v <=? row_UpdatedAt v)
  && (if one_of_str (row_State v) terminal_states then
        match row_TerminalCode v, row_TerminalAt v with
        | Some code, Some at_ => negb (String.eqb code "") && (row_CreatedAt v <=? at_)
        | _, _ => false
        end
      else match row_TerminalCode v, row_TerminalAt v with None, None => true | _, _ => false end).

Definition same_call (tenant : string) (v : Invocation) (kv : string * string * Invocation) : bool :=
  String.eqb kv.1.1 tenant && String.eqb (row_RunID kv.2) (row_RunID v)
  && String.eqb (row_ToolCallID kv.2) (row_ToolCallID v).

(** [InvocationRepository.Create] *)
Definition Invocations_Create (tenant : string) (v : Invocation) (db : database) : result database :=
  in_repository "create invocation" (
    if negb (invocation_check v) then Err (constraint_violation "invocations_check")
    else if is_some (invocations db !! (tenant, row_ID v)) then
      Err (constraint_violation "invocations_pkey")
    else if existsb (same_call tenant v) (map_to_list (invocations db)) then
      Err (constraint_violation "invocations_tenant_id_run_id_tool_call_id_key")
    else if negb (bool_decide ((row_ToolID v, row_ToolVersion v) ∈ tool_versions db)) then
      Err (constraint_violation "invocations_tool_id_tool_version_fkey")
    else Ok (set_invocations db (<[(tenant, row_ID v) := v]> (invocations db)))).

(** The columns of an invocation as they are read. *)
Definition read_invocation `{Columns} (v : Invocation) : Invocation :=
  mkRow (row_ID v) (row_RunID v) (row_ToolCallID v) (row_ToolID v) (row_ToolVersion v) (row_ArgumentProfile v)
    (row_ArgumentDigest v) (row_ResourceDigest v) (jsonb (row_ResourceProjection v)) (row_RetryClass v) (row_State v)
    (row_StateVersion v) (row_TerminalCode v) (timestamptz <$> row_TerminalAt v) (timestamptz (row_CreatedAt v))
    (timestamptz (row_UpdatedAt v)).

(** [InvocationRepository.Get] *)
Definition Invocations_Get `{Columns} (tenant id : string) (db : database) : result Invocation :=
  in_repository "get invocation"
    (match invocations db !! (tenant, id) with Some v => Ok (read_invocation v) | None => Err ErrNoRows end).

(** ** Transactions: what took effect, and what was reported *)

Lemma transaction_cases {A} db begin commit (fn : database -> result (database * A)) :
  let '(db', out) := WithinTransaction db begin commit fn in
  match transacted db begin commit fn with
  | Some a => fn db = Ok (db', a) /\ (forall a', out = Ok a' -> a' = a)
  | None => db' = db /\ is_ok out = false
  end.
Proof.
  unfold WithinTransaction, transacted. destruct begin; [|done]. destruct (fn db) as [[db' answer]|]; [|done].
  destruct commit as [|e []]; cbn; (split; [done|congruence]) || done.
Qed.
