(* ===== verification/Acquisition.v ===== *)
(** * Acquisition of logical invocations

    [internal/adapters/postgres/invocation_acquisition.go]: the claim on the
    (tenant, run, tool call) identity, its recovery after the lease of a crashed
    owner, the classification of a request that finds an existing claim, and the
    completion that publishes the replay envelope. *)
From Stdlib Require Import Ascii String.
From S2P Require Import Prelude GoStd Regex Sha256 Json JsonParse Primitives ToolCatalog Ports Database.

Definition AcquisitionOwned : string := "owned".
Definition AcquisitionRecovered : string := "recovered".
Definition AcquisitionPending : string := "pending".
Definition AcquisitionReplay : string := "replay".
Definition AcquisitionConflict : string := "conflict".
Definition AcquisitionExhausted : string := "recovery_exhausted".

Record Acquired := mkAcquired {
  acq_Kind_ : string;
  acq_Row : Invocation;
  ReplayStatusCode : option Z;
  ReplayResultDigest : option string;
  SafeReplayPayload : option string;
}.

Record AcquisitionRequest := mkAcquisitionRequest {
  ar_Invocation : Invocation;
  ar_OwnerID : string;
  ar_Now : Z;
  ar_LeaseDuration : Z;
  ar_MaxRecoveries : Z;
}.

Definition logicalRequestDigest (v : Invocation) : string :=
  let field f := str_of (be_bytes 8 (slen f)) +:+ f in
  sha256 (field (row_ToolID v) +:+ field (row_ToolVersion v) +:+ field (row_ArgumentDigest v)).

Definition validateAcquisitionRequest (request : AcquisitionRequest) : result unit :=
  let v := ar_Invocation request in
  if String.eqb (ar_OwnerID request) "" || String.eqb (row_RunID v) ""
     || String.eqb (row_ToolCallID v) "" || String.eqb (row_ToolID v) ""
     || String.eqb (row_ToolVersion v) "" || negb (slen (row_ArgumentDigest v) =? 32) then
    Err (NewError CodeInvalidArgument "logical invocation acquisition fields are invalid" None)
  else if IsZero (ar_Now request) || (ar_LeaseDuration request <=? 0)
          || (5 * Minute <? ar_LeaseDuration request) || (ar_MaxRecoveries request <? 0)
          || (10 <? ar_MaxRecoveries request) then
    Err (NewError CodeInvalidArgument "logical invocation acquisition bounds are invalid" None)
  else Ok tt.

Definition scope_of (runID : string) : string := "logical_invocation:" +:+ runID.

(** The primary key of the claim of a request. *)
Definition claim_key (tenant : string) (v : Invocation) : string * string * string :=
  (tenant, scope_of (row_RunID v), row_ToolCallID v).

(** The upsert: a new claim, or the recovery of a matching expired one that has
    recoveries left; otherwise no row is returned.  The result is
    [recovery_count, invocation_id]. *)
Definition claim_statement (tenant : string) (request : AcquisitionRequest) (db : database)
    : option (database * (Z * option string)) :=
  let v := ar_Invocation request in
  let now := ar_Now request in
  let key := claim_key tenant v in
  let expiresAt := now + ar_LeaseDuration request in
  match idempotency_records db !! key with
  | None =>
      let r := mkIdempotency None (logicalRequestDigest v) "claimed" (Some (ar_OwnerID request))
                 (Some expiresAt) None None None now now (now + 24 * Hour) 0
                 (ar_MaxRecoveries request) in
      Some (set_idempotency db (<[key := r]> (idempotency_records db)), (0, None))
  | Some r =>
      let expired := match rec_claim_expires r with Some e => e <=? now | None => false end in
      if String.eqb (rec_state r) "claimed" && String.eqb (rec_digest r) (logicalRequestDigest v)
         && expired && (rec_recoveries r <? rec_max_recoveries r) then
        let r' := mkIdempotency (rec_invocation r) (rec_digest r) (rec_state r)
                    (Some (ar_OwnerID request)) (Some expiresAt) (rec_replay_code r)
                    (rec_replay_digest r) (rec_replay_payload r) (rec_created r) now (rec_expires r)
                    (rec_recoveries r + 1) (rec_max_recoveries r) in
        Some (set_idempotency db (<[key := r']> (idempotency_records db)),
              (rec_recoveries r + 1, rec_invocation r))
      else None
  end.

(** [UPDATE ... SET invocation_id WHERE ... claim_owner = owner] *)
Definition link_statement (tenant : string) (request : AcquisitionRequest) (db : database) : database :=
  let key := claim_key tenant (ar_Invocation request) in
  match idempotency_records db !! key with
  | Some r =>
      if bool_decide (rec_owner r = Some (ar_OwnerID request)) then
        set_idempotency db (<[key :=
          mkIdempotency (Some (row_ID (ar_Invocation request))) (rec_digest r) (rec_state r)
            (rec_owner r) (rec_claim_expires r) (rec_replay_code r) (rec_replay_digest r)
            (rec_replay_payload r) (rec_created r) (ar_Now request) (rec_expires r)
            (rec_recoveries r) (rec_max_recoveries r)]> (idempotency_records db))
      else db
  | None => db
  end.

(** The join of the claim with its invocation; without one the scan of the NULL
    columns into strings fails. *)
Definition classifyExisting `{Columns} (tenant : string) (request : AcquisitionRequest) (db : database)
    : result Acquired :=
  let v := ar_Invocation request in
  match idempotency_records db !! claim_key tenant v with
  | None => Err (repositoryError "classify logical invocation" ErrNoRows)
  | Some r =>
      match rec_invocation r ≫= (fun id => invocations db !! (tenant, id)) with
      | None => Err (repositoryError "classify logical invocation" (ErrNew "cannot scan NULL"))
      | Some row =>
          let existing := read_invocation row in
          if negb (String.eqb (rec_digest r) (logicalRequestDigest v))
             || negb (String.eqb (row_ToolID existing) (row_ToolID v))
             || negb (String.eqb (row_ToolVersion existing) (row_ToolVersion v))
             || negb (String.eqb (row_ArgumentDigest existing) (row_ArgumentDigest v)) then
            Ok (mkAcquired AcquisitionConflict existing None None None)
          else if String.eqb (rec_state r) "completed" then
            Ok (mkAcquired AcquisitionReplay existing (rec_replay_code r) (rec_replay_digest r)
                  (jsonb <$> rec_replay_payload r))
          else
            let expired := match rec_claim_expires r with
                           | Some e => negb (ar_Now request <? e)
                           | None => false
                           end in
            if expired && (rec_max_recoveries r <=? rec_recoveries r) then
              Ok (mkAcquired AcquisitionExhausted existing None None None)
            else Ok (mkAcquired AcquisitionPending existing None None None)
      end
  end.

(** [acquire], inside the transaction. *)
Definition acquire `{Columns} (tenant : string) (request : AcquisitionRequest) (db : database)
    : result (database * Acquired) :=
  let v := ar_Invocation request in
  match claim_statement tenant request db with
  | Some (db1, (recoveryCount, existingInvocationID)) =>
      if 0 <? recoveryCount then
        match existingInvocationID with
        | None => Err (ErrNew "recovered logical invocation has no durable invocation")
        | Some id =>
            Invocations_Get tenant id db1 ≫= fun existing =>
            Ok (db1, mkAcquired AcquisitionRecovered existing None None None)
        end
      else
        Invocations_Create tenant v db1 ≫= fun db2 =>
        Ok (link_statement tenant request db2, mkAcquired AcquisitionOwned v None None None)
  | None =>
      classifyExisting tenant request db ≫= fun acquired => Ok (db, acquired)
  end.

Definition Acquire `{Columns} (tenant : string) (request : AcquisitionRequest) (begin : result unit)
    (commit : commit_reply) (db : database) : database * result Acquired :=
  match validateAcquisitionRequest request with
  | Err err => (db, Err err)
  | Ok _ => WithinTransaction db begin commit (acquire tenant request)
  end.

(** What the transaction of [Acquire] did, when it took effect. *)
Definition acquired_by `{Columns} (tenant : string) (request : AcquisitionRequest) (begin : result unit)
    (commit : commit_reply) (db : database) : option Acquired :=
  if is_ok (validateAcquisitionRequest request) then transacted db begin commit (acquire tenant request) else None.

(** [Complete]: the update applies to the claim the owner still holds. *)
Definition Complete (tenant runID toolCallID ownerID : string) (statusCode : Z)
    (resultDigest safePayload : string) (now : Z) (db : database) : database * result unit :=
  if String.eqb runID "" || String.eqb toolCallID "" || String.eqb ownerID ""
     || (statusCode <? 100) || (599 <? statusCode) || negb (slen resultDigest =? 32)
     || (slen safePayload =? 0) || IsZero now then
    (db, Err (NewError CodeInvalidArgument "logical invocation completion fields are invalid" None))
  else
    let key := (tenant, scope_of runID, toolCallID) in
    match idempotency_records db !! key with
    | Some r =>
        if String.eqb (rec_state r) "claimed" && bool_decide (rec_owner r = Some ownerID) then
          if negb (is_some (rec_invocation r)) || negb (unmarshals_raw_object safePayload)
             || (now <? rec_created r) then
            (db, Err (repositoryError "complete logical invocation acquisition"
                        (constraint_violation "idempotency_records_check")))
          else
            (set_idempotency db (<[key :=
               mkIdempotency (rec_invocation r) (rec_digest r) "completed" None None
                 (Some statusCode) (Some resultDigest) (Some safePayload) (rec_created r) now
                 (rec_expires r) (rec_recoveries r) (rec_max_recoveries r)]>
               (idempotency_records db)), Ok tt)
        else (db, Err (NewError CodeConflict "logical invocation ownership is no longer current" None))
    | None => (db, Err (NewError CodeConflict "logical invocation ownership is no longer current" None))
    end.

(** ** Histories *)

(** What a client of the tables did and what it got, with what took effect: an
    acquisition whose commit was not confirmed may own the call without knowing it. *)
Inductive event :=
| EvAcquire (tenant : string) (request : AcquisitionRequest) (outcome : result Acquired) (did : option Acquired)
| EvComplete (tenant runID toolCallID ownerID : string) (outcome : result unit).

Inductive step `{Columns} : database -> event -> database -> Prop :=
| step_acquire db tenant request begin commit :
    step db (EvAcquire tenant request (Acquire tenant request begin commit db).2
               (acquired_by tenant request begin commit db))
      (Acquire tenant request begin commit db).1
| step_complete db tenant runID toolCallID ownerID code digest payload now :
    step db (EvComplete tenant runID toolCallID ownerID
               (Complete tenant runID toolCallID ownerID code digest payload now db).2)
      (Complete tenant runID toolCallID ownerID code digest payload now db).1.

Inductive history `{Columns} : database -> list event -> database -> Prop :=
| history_nil db : history db [] db
| history_snoc db evs db' ev db'' :
    history db evs db' -> step db' ev db'' -> history db (evs ++ [ev]) db''.

(** The ownership an event granted on a claim, and the row it answered with. *)
Definition grants_ownership (a : Acquired) : bool :=
  one_of_str (acq_Kind_ a) [AcquisitionOwned; AcquisitionRecovered].

Definition grant (key : string * string * string) (ev : event) : option AcquisitionRequest :=
  match ev with
  | EvAcquire tenant request _ (Some a) =>
      if bool_decide (claim_key tenant (ar_Invocation request) = key) && grants_ownership a
      then Some request else None
  | _ => None
  end.

Definition answer (key : string * string * string) (ev : event) : option Invocation :=
  match ev with
  | EvAcquire tenant request _ (Some a) =>
      if bool_decide (claim_key tenant (ar_Invocation request) = key) then Some (acq_Row a) else None
  | _ => None
  end.

Definition grants key (evs : list event) : list AcquisitionRequest := omap (grant key) evs.
Definition answers key (evs : list event) : list Invocation := omap (answer key) evs.

Definition lease_end (request : AcquisitionRequest) : Z :=
  ar_Now request + ar_LeaseDuration request.

(** Each ownership in the list ends before the next one begins. *)
Definition successive (gs : list AcquisitionRequest) : Prop :=
  forall i j g1 g2, (i < j)%nat -> gs !! i = Some g1 -> gs !! j = Some g2 ->
    lease_end g1 <= ar_Now g2.

(** ** Invariant *)

Record record_ok (db : database) (key : string * string * string) (r : idempotency_record) : Prop := {
  ok_linked : exists id v, rec_invocation r = Some id /\ invocations db !! (key.1.1, id) = Some v /\
    row_ID v = id /\ claim_key key.1.1 v = key /\ rec_digest r = logicalRequestDigest v;
  ok_recoveries : 0 <= rec_recoveries r <= rec_max_recoveries r;
  ok_max : rec_max_recoveries r <= 10;
  ok_state :
    (rec_state r = "claimed"%string /\ is_some (rec_owner r) = true /\
     is_some (rec_claim_expires r) = true) \/
    (rec_state r = "completed"%string /\ rec_owner r = None /\
     is_some (rec_replay_code r) = true /\ is_some (rec_replay_digest r) = true);
}.

Definition db_ok (db : database) : Prop :=
  map_Forall (record_ok db) (idempotency_records db).

(** What a successful [acquire] did. *)
Inductive acquire_effect `{Columns} (tenant : string) (request : AcquisitionRequest) (db db' : database)
    (a : Acquired) : Prop :=
| effect_owned r :
    let v := ar_Invocation request in
    idempotency_records db !! claim_key tenant v = None ->
    invocations db !! (tenant, row_ID v) = None ->
    acq_Kind_ a = AcquisitionOwned -> acq_Row a = v ->
    invocations db' = <[(tenant, row_ID v) := v]> (invocations db) ->
    idempotency_records db' = <[claim_key tenant v := r]> (idempotency_records db) ->
    r = mkIdempotency (Some (row_ID v)) (logicalRequestDigest v) "claimed"
          (Some (ar_OwnerID request)) (Some (ar_Now request + ar_LeaseDuration request)) None None
          None (ar_Now request) (ar_Now request) (ar_Now request + 24 * Hour) 0
          (ar_MaxRecoveries request) ->
    acquire_effect tenant request db db' a
| effect_recovered r r' e :
    let v := ar_Invocation request in
    idempotency_records db !! claim_key tenant v = Some r ->
    rec_state r = "claimed"%string -> rec_digest r = logicalRequestDigest v ->
    rec_claim_expires r = Some e -> e <= ar_Now request ->
    rec_recoveries r < rec_max_recoveries r ->
    acq_Kind_ a = AcquisitionRecovered ->
    (exists id w, rec_invocation r = Some id /\ invocations db !! (tenant, id) = Some w /\ acq_Row a = read_invocation w) ->
    invocations db' = invocations db ->
    idempotency_records db' = <[claim_key tenant v := r']> (idempotency_records db) ->
    r' = mkIdempotency (rec_invocation r) (rec_digest r) (rec_state r)
          (Some (ar_OwnerID request)) (Some (ar_Now request + ar_LeaseDuration request))
          (rec_replay_code r) (rec_replay_digest r) (rec_replay_payload r) (rec_created r)
          (ar_Now request) (rec_expires r) (rec_recoveries r + 1) (rec_max_recoveries r) ->
    acquire_effect tenant request db db' a
| effect_observed r :
    let v := ar_Invocation request in
    idempotency_records db !! claim_key tenant v = Some r -> db' = db ->
    (exists id w, rec_invocation r = Some id /\ invocations db !! (tenant, id) = Some w /\ acq_Row a = read_invocation w) ->
    grants_ownership a = false ->
    classifyExisting tenant request db = Ok a ->
    acquire_effect tenant request db db' a.

(** ** Lemmas *)

Section Histories.
Context {columns : Columns}.

Lemma classify_not_granting tenant request db a r :
  idempotency_records db !! claim_key tenant (ar_Invocation request) = Some r ->
  classifyExisting tenant request db = Ok a ->
  grants_ownership a = false /\
  exists id w, rec_invocation r = Some id /\ invocations db !! (tenant, id) = Some w /\ acq_Row a = read_invocation w.
Proof.
  intros Hr. unfold classifyExisting. rewrite Hr.
  destruct (rec_invocation r) as [id|]; simpl; [|done].
  destruct (invocations db !! (tenant, id)) as [v|] eqn:Hv; [|done].
  intros Ha. repeat case_match; simplify_eq; simpl; (split; [done|eauto]).
Qed.

Lemma acquire_effects tenant request db db' a :
  db_ok db -> acquire tenant request db = Ok (db', a) ->
  acquire_effect tenant request db db' a.
Proof.
  intros Hok. unfold acquire. set (v := ar_Invocation request).
  destruct (claim_statement tenant request db) as [[db1 [n inv]]|] eqn:Hc; cycle 1.
  - intros Hb. apply result_bind_Ok in Hb as (a' & Ha & [= <- <-]).
    assert (exists r, idempotency_records db !! claim_key tenant v = Some r) as [r Hr].
    { unfold classifyExisting in Ha. fold v in Ha.
      destruct (idempotency_records db !! claim_key tenant v); [eauto|done]. }
    destruct (classify_not_granting _ _ _ _ _ Hr Ha). by eapply effect_observed.
  - unfold claim_statement in Hc. fold v in Hc.
    destruct (idempotency_records db !! claim_key tenant v) as [r|] eqn:Hr.
    + case_match eqn:Hcond; [|done]. injection Hc as <- <- <-.
      rewrite !andb_true_iff in Hcond. destruct Hcond as [[[Hs Hd] He] Hn].
      apply String.eqb_eq in Hs, Hd. apply Z.ltb_lt in Hn.
      destruct (rec_claim_expires r) as [e|] eqn:Hee; [|done]. apply Z.leb_le in He.
      pose proof (ok_recoveries _ _ _ (Hok _ _ Hr)).
      rewrite (proj2 (Z.ltb_lt 0 (rec_recoveries r + 1))) by lia.
      destruct (rec_invocation r) as [id|] eqn:Hi; [|done].
      intros H'. apply result_bind_Ok in H' as (existing & Hg & [= <- <-]).
      unfold Invocations_Get in Hg. simpl in Hg.
      destruct (invocations db !! (tenant, id)) as [x|] eqn:Hx; simplify_eq/=.
      eapply effect_recovered; simpl; eauto. by rewrite Hi.
    + injection Hc as <- <- <-. simpl. intros Hb.
      apply result_bind_Ok in Hb as (db2 & Hcr & [= <- <-]).
      unfold Invocations_Create in Hcr. simpl in Hcr.
      do 4 (case_match; [done|]). simplify_eq/=.
      destruct (invocations db !! (tenant, row_ID v)) eqn:Hx; [done|].
      unfold link_statement. fold v. simpl. rewrite lookup_insert_eq. simpl.
      rewrite bool_decide_true by done. simpl.
      eapply effect_owned; simpl; eauto. by rewrite insert_insert_eq.
Qed.

Lemma record_ok_mono db db' key r : record_ok db key r ->
  (forall k v, invocations db !! k = Some v -> invocations db' !! k = Some v) ->
  record_ok db' key r.
Proof.
  intros [(id & v & ? & ? & ?) ? ? ?] Hm. constructor; auto. exists id, v. eauto.
Qed.

Lemma validate_bounds request : validateAcquisitionRequest request = Ok tt ->
  0 <= ar_MaxRecoveries request <= 10 /\ 0 < ar_LeaseDuration request <= 5 * Minute.
Proof.
  unfold validateAcquisitionRequest. destruct (_ || _); [done|].
  destruct (_ || (10 <? _)) eqn:H; [done|]. to_prop. lia.
Qed.

Lemma effect_ok tenant request db db' a : db_ok db ->
  validateAcquisitionRequest request = Ok tt ->
  acquire_effect tenant request db db' a -> db_ok db'.
Proof.
  intros Hok Hv%validate_bounds He. destruct He as
    [r v Hn Hfresh _ _ Hinv Hrec ->|r r' e v Hr Hst Hd Hexp Hle Hlt _ _ Hinv Hrec ->|r v _ -> _ _ _].
  - unfold db_ok. rewrite Hrec. apply map_Forall_insert_2.
    + constructor; simpl; [|lia|lia|by left].
      exists (row_ID v), v. rewrite Hinv, lookup_insert_eq. done.
    + intros key r Hk. eapply record_ok_mono; [by apply Hok|]. intros k w Hw.
      rewrite Hinv, lookup_insert_ne; [done|]. intros E. congruence.
  - unfold db_ok. rewrite Hrec. apply map_Forall_insert_2.
    + destruct (Hok _ _ Hr) as [Hl Hn Hm Hs]. constructor; simpl; [|lia|lia|by left; rewrite Hst].
      destruct Hl as (id & w & ? & ? & ?). exists id, w. by rewrite Hinv.
    + intros key r0 Hk. eapply record_ok_mono; [by apply Hok|]. by rewrite Hinv.
  - done.
Qed.

Lemma Acquire_cases tenant request begin commit db : db_ok db ->
  let '(db', r) := Acquire tenant request begin commit db in
  db_ok db' /\
  match acquired_by tenant request begin commit db with
  | Some a => validateAcquisitionRequest request = Ok tt /\ acquire_effect tenant request db db' a /\
      (forall a', r = Ok a' -> a' = a)
  | None => db' = db /\ is_ok r = false
  end.
Proof.
  intros Hok. unfold Acquire, acquired_by. destruct (validateAcquisitionRequest request) as [[]|] eqn:Hv; [|done].
  cbn [is_ok]. pose proof (transaction_cases db begin commit (acquire tenant request)) as Ht.
  destruct (WithinTransaction _ _ _ _) as [db' r].
  destruct (transacted _ _ _ _) as [a|]; [|by destruct Ht as [-> ?]].
  destruct Ht as [Ha Hr]. apply acquire_effects in Ha; [|done]. split; [by eapply effect_ok|done].
Qed.

Lemma Complete_cases tenant run call owner code digest payload now db : db_ok db ->
  let '(db', r) := Complete tenant run call owner code digest payload now db in
  db_ok db' /\
  match r with
  | Err _ => db' = db
  | Ok _ => exists rec, idempotency_records db !! (tenant, scope_of run, call) = Some rec /\
      rec_state rec = "claimed"%string /\ rec_owner rec = Some owner /\
      db' = set_idempotency db (<[(tenant, scope_of run, call) :=
        mkIdempotency (rec_invocation rec) (rec_digest rec) "completed" None None (Some code)
          (Some digest) (Some payload) (rec_created rec) now (rec_expires rec)
          (rec_recoveries rec) (rec_max_recoveries rec)]> (idempotency_records db))
  end.
Proof.
  intros Hok. unfold Complete. destruct (_ || _); [done|].
  destruct (idempotency_records db !! _) as [r|] eqn:Hr; [|done].
  destruct (String.eqb (rec_state r) "claimed" && _) eqn:Hc; [|done].
  destruct (_ || _); [done|]. apply andb_true_iff in Hc as [Hs Ho].
  apply String.eqb_eq in Hs. apply bool_decide_eq_true in Ho. split; [|eauto 10].
  unfold db_ok. simpl. apply map_Forall_insert_2.
  - destruct (Hok _ _ Hr) as [Hl Hn Hm _]. constructor; simpl; auto.
  - intros key r0 Hk. eapply record_ok_mono; [by apply Hok|done].
Qed.

Lemma step_ok db ev db' : db_ok db -> step db ev db' -> db_ok db'.
Proof.
  intros Hok Hs. destruct Hs.
  - pose proof (Acquire_cases tenant request begin commit db Hok) as Hc.
    destruct (Acquire _ _ _ _ _). by destruct Hc.
  - pose proof (Complete_cases tenant runID toolCallID ownerID code digest payload now db Hok) as Hc.
    destruct (Complete _ _ _ _ _ _ _ _ _). by destruct Hc.
Qed.

Lemma history_ok db evs db' : db_ok db -> history db evs db' -> db_ok db'.
Proof. intros Hok Hh. induction Hh; [done|]. eapply step_ok; [|done]. auto. Qed.

(** Whoever is told of an acquisition is told of what took effect. *)
Lemma told_what_happened db evs db' tenant request a did : db_ok db -> history db evs db' ->
  EvAcquire tenant request (Ok a) did ∈ evs -> did = Some a.
Proof.
  intros Hok Hh. induction Hh as [|db evs db' ev db'' Hh IH Hs]; [by intros ?%elem_of_nil|].
  intros [Hin|Hin%list_elem_of_singleton]%elem_of_app; [by apply IH|]. pose proof (history_ok _ _ _ Hok Hh) as Hok'.
  destruct Hs as [db' t q begin commit|]; [|done]. injection Hin as -> -> Ho ->.
  pose proof (Acquire_cases t q begin commit db' Hok') as Hc. destruct (Acquire _ _ _ _ _) as [? out].
  cbn in Ho. subst out. destruct (acquired_by _ _ _ _ _); [|by destruct Hc as (_ & _ & ?)].
  destruct Hc as (_ & _ & _ & Hc). by rewrite (Hc a).
Qed.

Lemma empty_ok versions : db_ok (empty_database versions).
Proof. unfold db_ok, empty_database. simpl. apply map_Forall_empty. Qed.

(** What the table records of the ownerships granted so far. *)
Record log_ok (db : database) (evs : list event) (key : string * string * string)
    (r : idempotency_record) : Prop := {
  log_count : Z.of_nat (length (grants key evs)) = rec_recoveries r + 1;
  log_max : ar_MaxRecoveries <$> head (grants key evs) = Some (rec_max_recoveries r);
  log_digest : Forall (fun g => logicalRequestDigest (ar_Invocation g) = rec_digest r) (grants key evs);
  log_successive : successive (grants key evs);
  log_claimed : rec_state r = "claimed"%string -> exists e, rec_claim_expires r = Some e /\
    Forall (fun g => lease_end g <= e) (grants key evs) /\
    rec_owner r = ar_OwnerID <$> list.last (grants key evs);
  log_answers : exists id v, rec_invocation r = Some id /\
    invocations db !! (key.1.1, id) = Some v /\
    (exists later, answers key evs = v :: later /\ Forall (eq (read_invocation v)) later) /\
    ar_Invocation <$> head (grants key evs) = Some v;
}.

Definition logged (db : database) (evs : list event) : Prop := forall key,
  match idempotency_records db !! key with
  | None => grants key evs = [] /\ answers key evs = []
  | Some r => log_ok db evs key r
  end.

Lemma successive_snoc gs g : successive gs -> Forall (fun x => lease_end x <= ar_Now g) gs ->
  successive (gs ++ [g]).
Proof.
  intros Hs Hf i j g1 g2 Hij H1 H2. destruct (decide (j < length gs)%nat) as [Hj|Hj].
  - rewrite lookup_app_l in H1, H2 by lia. eauto.
  - rewrite lookup_app_r in H2 by lia.
    assert (j - length gs = 0)%nat as E by (apply lookup_lt_Some in H2; simpl in H2; lia).
    rewrite E in H2. simplify_eq/=. rewrite lookup_app_l in H1 by lia.
    by eapply (Forall_lookup_1 _ _ _ _ Hf).
Qed.

Lemma grants_snoc key evs ev : grants key (evs ++ [ev]) = grants key evs ++ option_list (grant key ev).
Proof. unfold grants. rewrite omap_app. simpl. by destruct (grant key ev). Qed.

Lemma answers_snoc key evs ev :
  answers key (evs ++ [ev]) = answers key evs ++ option_list (answer key ev).
Proof. unfold answers. rewrite omap_app. simpl. by destruct (answer key ev). Qed.

(** An event that says nothing of a claim and keeps its record keeps the log. *)
Lemma logged_silent db db' evs ev key r :
  log_ok db evs key r -> grant key ev = None ->
  (forall v, answer key ev = Some v ->
     exists id w, rec_invocation r = Some id /\ invocations db !! (key.1.1, id) = Some w /\ v = read_invocation w) ->
  (forall k v, invocations db !! k = Some v -> invocations db' !! k = Some v) ->
  log_ok db' (evs ++ [ev]) key r.
Proof.
  intros [Hc Hm Hd Hs Ho (id & v & Hi & Hv & (later & Ha & Hl) & Hh)] Hg Hans Hinv.
  assert (E : grants key (evs ++ [ev]) = grants key evs) by by rewrite grants_snoc, Hg, app_nil_r.
  constructor; rewrite ?E; auto.
  exists id, v. rewrite answers_snoc, Ha. split_and!; auto. exists (later ++ option_list (answer key ev)). split; [done|].
  apply Forall_app. split; [done|]. destruct (answer key ev) as [w|] eqn:Hw; [|constructor].
  destruct (Hans w eq_refl) as (? & ? & ? & ? & ?). constructor; [|constructor]. congruence.
Qed.

Lemma grant_acquire tenant request out a key :
  grant key (EvAcquire tenant request out (Some a)) =
  if bool_decide (claim_key tenant (ar_Invocation request) = key) && grants_ownership a
  then Some request else None.
Proof. done. Qed.

Lemma grant_other tenant request out did key : claim_key tenant (ar_Invocation request) <> key ->
  grant key (EvAcquire tenant request out did) = None /\ answer key (EvAcquire tenant request out did) = None.
Proof. intros Hk. destruct did; simpl; [|done]. by rewrite bool_decide_false. Qed.

(** The record of a claim other than the requested one is untouched. *)
Lemma logged_acquire_other tenant request out db db' a evs key r :
  acquire_effect tenant request db db' a -> claim_key tenant (ar_Invocation request) <> key ->
  log_ok db evs key r -> log_ok db' (evs ++ [EvAcquire tenant request out (Some a)]) key r.
Proof.
  intros He Hne Hl. destruct (grant_other tenant request out (Some a) key Hne) as [Hg Ha].
  eapply logged_silent; [done|done|by rewrite Ha|]. intros k v Hv.
  destruct He as [? ? _ Hf _ _ -> _ _|? ? ? ? _ _ _ _ _ _ _ _ -> _ _|? ? _ -> _ _ _]; auto.
  rewrite lookup_insert_ne; [done|]. intros E. congruence.
Qed.

Lemma record_other tenant request db db' a key :
  acquire_effect tenant request db db' a -> claim_key tenant (ar_Invocation request) <> key ->
  idempotency_records db' !! key = idempotency_records db !! key.
Proof.
  intros He Hne.
  destruct He as [? ? _ _ _ _ _ -> _|? ? ? ? _ _ _ _ _ _ _ _ _ -> _|? ? _ -> _ _ _];
    by rewrite ?lookup_insert_ne.
Qed.

Lemma logged_owned tenant request out db' a evs key :
  let v := ar_Invocation request in
  claim_key tenant v = key -> grants key evs = [] -> answers key evs = [] ->
  grants_ownership a = true -> acq_Row a = v -> invocations db' !! (tenant, row_ID v) = Some v ->
  log_ok db' (evs ++ [EvAcquire tenant request out (Some a)]) key
    (mkIdempotency (Some (row_ID v)) (logicalRequestDigest v) "claimed" (Some (ar_OwnerID request))
       (Some (ar_Now request + ar_LeaseDuration request)) None None None (ar_Now request)
       (ar_Now request) (ar_Now request + 24 * Hour) 0 (ar_MaxRecoveries request)).
Proof.
  intros v Hk Hg Ha Ho Hrow Hv.
  assert (Eg : grants key (evs ++ [EvAcquire tenant request out (Some a)]) = [request]).
  { rewrite grants_snoc, Hg, grant_acquire. by rewrite bool_decide_true, Ho. }
  assert (Ea : answers key (evs ++ [EvAcquire tenant request out (Some a)]) = [v]).
  { rewrite answers_snoc, Ha. simpl. by rewrite bool_decide_true, Hrow. }
  constructor; rewrite ?Eg, ?Ea; simpl; auto.
  - intros [|i] [|j]; simpl; (lia || done).
  - intros _. eexists. split_and!; [done| |done]. repeat constructor. unfold lease_end. lia.
  - exists (row_ID v), v. rewrite <- Hk. simpl. split_and!; eauto.
Qed.

Lemma logged_recovered tenant request out db db' a evs key r e :
  let v := ar_Invocation request in
  claim_key tenant v = key -> log_ok db evs key r -> rec_state r = "claimed"%string ->
  rec_digest r = logicalRequestDigest v -> rec_claim_expires r = Some e -> e <= ar_Now request ->
  0 < ar_LeaseDuration request -> grants_ownership a = true ->
  (exists id w, rec_invocation r = Some id /\ invocations db !! (tenant, id) = Some w /\ acq_Row a = read_invocation w) ->
  invocations db' = invocations db ->
  log_ok db' (evs ++ [EvAcquire tenant request out (Some a)]) key
    (mkIdempotency (rec_invocation r) (rec_digest r) (rec_state r) (Some (ar_OwnerID request))
       (Some (ar_Now request + ar_LeaseDuration request)) (rec_replay_code r) (rec_replay_digest r)
       (rec_replay_payload r) (rec_created r) (ar_Now request) (rec_expires r)
       (rec_recoveries r + 1) (rec_max_recoveries r)).
Proof.
  intros v Hk [Hc Hm Hd Hs Ho (id & w & Hi & Hw & (later & Ha & Hlater) & Hh)] Hst Hdg He Hle Hl Hg
    (id' & w' & Hi' & Hw' & Hrow) Hinv.
  destruct (Ho Hst) as (e' & He' & Hends & _). rewrite He in He'. injection He' as <-.
  assert (Eg : grants key (evs ++ [EvAcquire tenant request out (Some a)]) = grants key evs ++ [request]).
  { rewrite grants_snoc, grant_acquire. by rewrite bool_decide_true, Hg. }
  constructor; rewrite ?Eg; simpl.
  - rewrite length_app. simpl. lia.
  - destruct (grants key evs); [done|exact Hm].
  - apply Forall_app. split; [done|]. by constructor.
  - apply successive_snoc; [done|]. eapply Forall_impl; [|exact Hends]. simpl. lia.
  - intros _. exists (ar_Now request + ar_LeaseDuration request). rewrite last_snoc.
    split_and!; [done| |done]. apply Forall_app. split; [|repeat constructor; unfold lease_end; lia].
    eapply Forall_impl; [|exact Hends]. simpl. lia.
  - exists id, w. rewrite Hinv. split_and!; auto; [|by destruct (grants key evs)].
    exists (later ++ [acq_Row a]). rewrite answers_snoc, Ha. simpl.
    rewrite bool_decide_true by done. split; [done|]. apply Forall_app. split; [done|]. constructor; [|constructor].
    rewrite <- Hk in Hw. simpl in Hw. congruence.
Qed.

Lemma logged_acquire tenant request out db db' a evs :
  validateAcquisitionRequest request = Ok tt -> acquire_effect tenant request db db' a ->
  logged db evs -> logged db' (evs ++ [EvAcquire tenant request out (Some a)]).
Proof.
  intros Hv%validate_bounds He Hl key. specialize (Hl key).
  destruct (decide (claim_key tenant (ar_Invocation request) = key)) as [Hk|Hk]; cycle 1.
  { rewrite (record_other _ _ _ _ _ _ He Hk).
    destruct (idempotency_records db !! key); [by eapply logged_acquire_other|].
    destruct (grant_other tenant request out (Some a) key Hk) as [Hg Ha].
    rewrite grants_snoc, answers_snoc, Hg, Ha, !app_nil_r. done. }
  destruct He as [r v Hn _ Hkind Hrow Hinv Hrec ->|r r' e v Hr Hst Hd Hexp Hle _ Hkind Hrow Hinv Hrec ->
                 |r v Hr -> Hrow Hkind _]; subst key.
  - rewrite Hrec, lookup_insert_eq. subst v. rewrite Hn in Hl. destruct Hl.
    apply logged_owned; auto; [|by rewrite Hinv, lookup_insert_eq].
    unfold grants_ownership. by rewrite Hkind.
  - rewrite Hrec, lookup_insert_eq. subst v. rewrite Hr in Hl.
    eapply logged_recovered; eauto; [lia|]. unfold grants_ownership. by rewrite Hkind.
  - subst v. rewrite Hr in Hl |- *. eapply logged_silent; [done| | |done].
    + rewrite grant_acquire, Hkind. by rewrite andb_false_r.
    + intros v. simpl. rewrite bool_decide_true by done. intros [= <-]. exact Hrow.
Qed.

Lemma logged_failed db evs ev : (forall key, grant key ev = None /\ answer key ev = None) ->
  logged db evs -> logged db (evs ++ [ev]).
Proof.
  intros Hn Hl key. specialize (Hl key). destruct (Hn key) as [Hg Ha].
  destruct (idempotency_records db !! key).
  - eapply logged_silent; [done|done|by rewrite Ha|done].
  - by rewrite grants_snoc, answers_snoc, Hg, Ha, !app_nil_r.
Qed.

Lemma logged_step db evs ev db' :
  db_ok db -> logged db evs -> step db ev db' -> logged db' (evs ++ [ev]).
Proof.
  intros Hok Hl Hs. destruct Hs.
  - pose proof (Acquire_cases tenant request begin commit db Hok) as Hc.
    destruct (Acquire tenant request begin commit db) as [db' out]; simpl.
    destruct (acquired_by tenant request begin commit db) as [a|].
    + destruct Hc as (_ & Hv & He & _). by eapply logged_acquire.
    + destruct Hc as (_ & -> & _). by apply logged_failed.
  - pose proof (Complete_cases tenant runID toolCallID ownerID code digest payload now db Hok) as Hc.
    destruct (Complete _ _ _ _ _ _ _ _ _) as [db' out]; simpl.
    apply logged_failed; [done|]. destruct Hc as [_ Hc]. destruct out; [|by subst].
    destruct Hc as (r & Hr & Hst & Ho & ->). intros key. specialize (Hl key). simpl.
    destruct (decide ((tenant, scope_of runID, toolCallID) = key)) as [<-|Hk];
      cycle 1.
    { rewrite lookup_insert_ne by done. destruct (idempotency_records db !! key); [|done].
      destruct Hl. by constructor. }
    rewrite lookup_insert_eq. rewrite Hr in Hl. destruct Hl. by constructor.
Qed.

Lemma history_logged versions evs db : history (empty_database versions) evs db ->
  db_ok db /\ logged db evs.
Proof.
  remember (empty_database versions) as db0 eqn:E. intros Hh. induction Hh; subst.
  - split; [apply empty_ok|]. intros key. simpl. by rewrite lookup_empty.
  - destruct (IHHh eq_refl). split; [by eapply step_ok|by eapply logged_step].
Qed.

Lemma completed_stable db ev db' key r : db_ok db -> step db ev db' ->
  idempotency_records db !! key = Some r -> rec_state r = "completed"%string ->
  idempotency_records db' !! key = Some r.
Proof.
  intros Hok Hs Hr Hst. destruct Hs.
  - pose proof (Acquire_cases tenant request begin commit db Hok) as Hc.
    destruct (Acquire tenant request begin commit db) as [db' out]; simpl.
    destruct (acquired_by tenant request begin commit db) as [a|]; [|by destruct Hc as (_ & -> & _)].
    destruct Hc as (_ & _ & He & _).
    destruct (decide (claim_key tenant (ar_Invocation request) = key)) as [Hk|Hk];
      [|by rewrite (record_other _ _ _ _ _ _ He Hk)].
    destruct He as [? v Hn|? ? ? v Hr' Hst'|? v Hr' ->]; subst v; congruence.
  - pose proof (Complete_cases tenant runID toolCallID ownerID code digest payload now db Hok) as Hc.
    destruct (Complete _ _ _ _ _ _ _ _ _) as [db' [?|?]]; simpl; [|by destruct Hc as [_ ->]].
    destruct Hc as (_ & r' & Hr' & Hst' & _ & ->). simpl.
    rewrite lookup_insert_ne; [done|]. intros Hk. subst key. congruence.
Qed.

Lemma invocations_stable db ev db' k v : db_ok db -> step db ev db' ->
  invocations db !! k = Some v -> invocations db' !! k = Some v.
Proof.
  intros Hok Hs Hv. destruct Hs.
  - pose proof (Acquire_cases tenant request begin commit db Hok) as Hc.
    destruct (Acquire tenant request begin commit db) as [db' out]; simpl.
    destruct (acquired_by tenant request begin commit db) as [a|]; [|by destruct Hc as (_ & -> & _)].
    destruct Hc as (_ & _ & He & _).
    destruct He as [? ? _ Hf _ _ -> _ _|? ? ? ? _ _ _ _ _ _ _ _ -> _ _|? ? _ -> _ _ _]; auto.
    rewrite lookup_insert_ne; [done|]. intros E. congruence.
  - pose proof (Complete_cases tenant runID toolCallID ownerID code digest payload now db Hok) as Hc.
    destruct (Complete _ _ _ _ _ _ _ _ _) as [db' [?|?]]; simpl; [|by destruct Hc as [_ ->]].
    by destruct Hc as (_ & r' & _ & _ & _ & ->).
Qed.

Lemma completed_forever db evs db' key r : db_ok db -> history db evs db' ->
  idempotency_records db !! key = Some r -> rec_state r = "completed"%string ->
  idempotency_records db' !! key = Some r /\
  (forall k v, invocations db !! k = Some v -> invocations db' !! k = Some v).
Proof.
  intros Hok Hh Hr Hst. induction Hh as [|db evs db' ev db'' Hh IH Hs]; [done|].
  destruct (IH Hok Hr) as [Hr' Hinv]. pose proof (history_ok _ _ _ Hok Hh).
  split; [by eapply completed_stable|]. eauto using invocations_stable.
Qed.

End Histories.

(** ** Theorems *)

(** C3: along every history of acquisitions and completions that starts with
    empty tables, the ownerships granted on one logical call are successive: each
    one begins only after the leases of all earlier ones ended, so no two owners
    hold a live lease at the same time.  The ownerships include those whose commit was
    not confirmed, and whoever is told of an acquisition is told of what took effect. *)
Theorem single_live_owner {columns : Columns} versions evs db key :
  history (empty_database versions) evs db -> successive (grants key evs) /\
  (forall tenant request a did, EvAcquire tenant request (Ok a) did ∈ evs -> did = Some a).
Proof.
  intros H. split; [|intros tenant request a did; apply (told_what_happened _ _ _ _ _ _ _ (empty_ok versions) H)].
  destruct (history_logged _ _ _ H) as [_ Hl]. specialize (Hl key).
  destruct (idempotency_records db !! key); [by destruct Hl|].
  destruct Hl as [-> _]. intros i j g1 g2 _ Hi. by rewrite lookup_nil in Hi.
Qed.

(** a logical call is granted at most one time more than the recoveries its
    first owner allowed, and never more than eleven times. *)
Theorem grants_bounded {columns : Columns} versions evs db key first :
  history (empty_database versions) evs db -> head (grants key evs) = Some first ->
  Z.of_nat (length (grants key evs)) <= 1 + ar_MaxRecoveries first <= 11.
Proof.
  intros H Hf. destruct (history_logged _ _ _ H) as [Hok Hl]. specialize (Hl key).
  destruct (idempotency_records db !! key) as [r|] eqn:Hr.
  - destruct Hl as [Hc Hm _ _ _ _], (Hok _ _ Hr) as [_ ? ? _]. rewrite Hf in Hm.
    injection Hm as Hm. lia.
  - destruct Hl as [E _]. by rewrite E in Hf.
Qed.


(** C9: only the latest owner completes a call; afterwards, whatever happens, the
    call is never granted or completed again, and every request that matches the
    first one gets the status code and the digest that were recorded, with the
    recorded payload as a [jsonb] column gives it back, which need not be its bytes. *)
Theorem completion_is_final {columns : Columns} versions evs db tenant run call owner code digest payload now db' first :
  let key := (tenant, scope_of run, call) in
  history (empty_database versions) evs db -> head (grants key evs) = Some first ->
  Complete tenant run call owner code digest payload now db = (db', Ok tt) ->
  ar_OwnerID <$> list.last (grants key evs) = Some owner /\
  forall evs' db'', history db' evs' db'' ->
    (forall owner' code' digest' payload' now',
       exists e, Complete tenant run call owner' code' digest' payload' now' db'' = (db'', Err e)) /\
    (forall request, validateAcquisitionRequest request = Ok tt ->
       claim_key tenant (ar_Invocation request) = key ->
       row_ToolID (ar_Invocation request) = row_ToolID (ar_Invocation first) ->
       row_ToolVersion (ar_Invocation request) = row_ToolVersion (ar_Invocation first) ->
       row_ArgumentDigest (ar_Invocation request) = row_ArgumentDigest (ar_Invocation first) ->
       Acquire tenant request (Ok tt) Committed db'' =
         (db'', Ok (mkAcquired AcquisitionReplay (read_invocation (ar_Invocation first)) (Some code) (Some digest)
                      (Some (jsonb payload))))).
Proof.
  intros key H Hf Hc. destruct (history_logged _ _ _ H) as [Hok Hl]. specialize (Hl key).
  pose proof (Complete_cases tenant run call owner code digest payload now db Hok) as Hcc.
  rewrite Hc in Hcc. destruct Hcc as (Hok' & r & Hr & Hst & Ho & Hdb). fold key in Hr, Hdb.
  rewrite Hr in Hl. destruct Hl as [_ _ Hd _ Hcl (id & v & Hi & Hv & _ & Hh)].
  destruct (Hcl Hst) as (e & _ & _ & Hlast). split; [by rewrite <- Hlast|].
  rewrite Hf in Hh. injection Hh as <-.
  intros evs' db'' Hh'. subst db'.
  destruct (completed_forever _ _ _ key _ Hok' Hh' (lookup_insert_eq _ _ _) eq_refl) as [Hr'' Hinv].
  split.
  - intros. unfold Complete. fold key. destruct (_ || _); [eauto|]. rewrite Hr''. simpl. eauto.
  - intros request Hval Hk E1 E2 E3. unfold Acquire, WithinTransaction, acquire, claim_statement.
    rewrite Hval, Hk, Hr''. simpl. unfold classifyExisting. rewrite Hk, Hr''. simpl.
    rewrite Hi. simpl. pose proof (Hinv _ _ Hv) as Hv'. simpl in Hv'. rewrite Hv'.
    assert (Hdig : rec_digest r = logicalRequestDigest (ar_Invocation request)).
    { destruct (grants key evs); simplify_eq/=. inversion Hd; subst.
      unfold logicalRequestDigest in *. congruence. }
    rewrite Hdig, E1, E2, E3, !String.eqb_refl. done.
Qed.

(** ** Witnesses: a call that is owned, recovered after the lease and completed *)

(** A rendering that puts a space after a colon, and microseconds. *)
Fixpoint space_colons (s : string) : string :=
  match s with
  | String c s => if Ascii.eqb c ":" then String c (String " " (space_colons s)) else String c (space_colons s)
  | EmptyString => EmptyString
  end.
Definition ex_columns : Columns := {| jsonb := space_colons; timestamptz := fun t => t / 1000 * 1000 |}.
#[local] Existing Instance ex_columns.

Definition ex_bytes32 : string := "0123456789abcdef0123456789abcdef".
Definition ex_row : Invocation :=
  mkRow "invocation-1" "run-1" "call-1" "tool" "1.0.0" "tg-cjson-v1" ex_bytes32 ex_bytes32 (quoted "{'a':1}")
    RetrySafe "received" 0 None None 1000 1001.
Definition ex_request (owner : string) (now : Z) : AcquisitionRequest :=
  mkAcquisitionRequest ex_row owner now Second 2.
Definition ex_key : string * string * string := ("tenant", "logical_invocation:run-1", "call-1")%string.
Definition ex_db0 : database := empty_database {[("tool", "1.0.0")%string]}.
Definition ex_acquire (owner : string) (now : Z) (db : database) :=
  Acquire "tenant" (ex_request owner now) (Ok tt) Committed db.
Definition ex_db1 : database := (ex_acquire "a" 1000 ex_db0).1.
Definition ex_db2 : database := (ex_acquire "b" (1000 + Second) ex_db1).1.
Definition ex_complete (db : database) :=
  Complete "tenant" "run-1" "call-1" "b" 200 ex_bytes32 (quoted "{'a':1}") 2000 db.
Definition ex_db3 : database := (ex_complete ex_db2).1.
Definition ex_events : list event :=
  [EvAcquire "tenant" (ex_request "a" 1000) (ex_acquire "a" 1000 ex_db0).2
     (acquired_by "tenant" (ex_request "a" 1000) (Ok tt) Committed ex_db0)]
  ++ [EvAcquire "tenant" (ex_request "b" (1000 + Second)) (ex_acquire "b" (1000 + Second) ex_db1).2
        (acquired_by "tenant" (ex_request "b" (1000 + Second)) (Ok tt) Committed ex_db1)].

Lemma ex_history : history ex_db0 ex_events ex_db2.
Proof.
  unfold ex_events. eapply history_snoc; [|apply step_acquire].
  eapply (history_snoc _ [] _ _ _ (history_nil _)). apply step_acquire.
Qed.

Lemma single_live_owner_witness :
  grants ex_key ex_events = [ex_request "a" 1000; ex_request "b" (1000 + Second)] /\
  successive (grants ex_key ex_events).
Proof.
  split; [vm_compute; reflexivity|]. exact (proj1 (single_live_owner _ _ _ ex_key ex_history)).
Defined.

Lemma grants_bounded_witness :
  head (grants ex_key ex_events) = Some (ex_request "a" 1000) /\
  Z.of_nat (length (grants ex_key ex_events)) <= 1 + 2 <= 11.
Proof.
  assert (H : head (grants ex_key ex_events) = Some (ex_request "a" 1000)) by (vm_compute; reflexivity).
  split; [exact H|]. exact (grants_bounded _ _ _ ex_key _ ex_history H).
Defined.


Lemma completion_is_final_witness :
  ex_complete ex_db2 = (ex_db3, Ok tt) /\
  Acquire "tenant" (ex_request "c" 3000) (Ok tt) Committed ex_db3 =
    (ex_db3, Ok (mkAcquired AcquisitionReplay (read_invocation ex_row) (Some 200) (Some ex_bytes32)
                   (Some (quoted "{'a': 1}")))).
Proof.
  assert (Hc : ex_complete ex_db2 = (ex_db3, Ok tt)).
  { unfold ex_db3. assert (E : (ex_complete ex_db2).2 = Ok tt) by (vm_compute; reflexivity).
    destruct (ex_complete ex_db2) as [d o]. simpl in E. by rewrite E. }
  split; [exact Hc|].
  assert (Hf : head (grants ex_key ex_events) = Some (ex_request "a" 1000)) by (vm_compute; reflexivity).
  destruct (completion_is_final _ _ _ "tenant" "run-1" "call-1" "b" 200 ex_bytes32 (quoted "{'a':1}") 2000 ex_db3
              (ex_request "a" 1000) ex_history Hf Hc) as [_ Hfinal].
  destruct (Hfinal [] ex_db3 (history_nil _)) as [_ Hreplay].
  apply (Hreplay (ex_request "c" 3000)); vm_compute; reflexivity.
Defined.

(** The replayed payload is the value that was recorded and not its bytes. *)
Example replay_is_rendered : rec_replay_payload <$> idempotency_records ex_db3 !! ex_key = Some (Some (quoted "{'a':1}")) /\
  SafeReplayPayload <$> (Acquire "tenant" (ex_request "c" 3000) (Ok tt) Committed ex_db3).2 = Ok (Some (quoted "{'a': 1}")).
Proof. vm_compute. split; reflexivity. Qed.
