(* ===== verification/Attempts.v ===== *)
(** * Execution attempts and their fences

    [internal/adapters/postgres/attempt_claiming.go]: a worker claims the next
    attempt of an invocation under a lease, checks that its fence is current
    before it sends anything, and finalizes the attempt once.  The attempts of an
    invocation are kept in the order of insertion; the INSERT runs the trigger and
    the constraints of [migrations/sql/00003_attempts.sql]. *)
From Stdlib Require Import Ascii String.
From S2P Require Import Prelude GoStd Regex Sha256 Json JsonParse Primitives ToolCatalog Ports Database.

Definition maxAttemptLease : Z := 5 * Minute.

Definition AttemptClaimed : string := "claimed".
Definition AttemptClaimBusy : string := "busy".
Definition AttemptIneligible : string := "ineligible".

(** The zero [Attempt] of an ineligible claim is [None]. *)
Record AttemptClaim := mkAttemptClaim {
  clm_Kind : string;
  clm_Attempt : option Attempt;
}.

Record AttemptClaimRequest := mkAttemptClaimRequest {
  acr_InvocationID : string; acr_OwnerID : string; acr_Now : Z; acr_LeaseDuration : Z;
  acr_Evidence : string;
}.

Record AttemptFinalization := mkAttemptFinalization {
  fin_InvocationID : string; fin_AttemptNo : Z; fin_Fence : Z; fin_OwnerID : string; fin_Now : Z;
  fin_RequestRef : option string; fin_ResultRef : option string;
  fin_Outcome : string; fin_Retry : option string; fin_Ambiguity : option string;
  fin_Evidence : string;
}.

Definition validJSONObject (value : string) : bool :=
  if slen value =? 0 then true else unmarshals_object value.

Definition validateAttemptClaimRequest (request : AttemptClaimRequest) : result unit :=
  if String.eqb (acr_InvocationID request) "" || String.eqb (acr_OwnerID request) ""
     || IsZero (acr_Now request) || (acr_LeaseDuration request <=? 0)
     || (maxAttemptLease <? acr_LeaseDuration request)
     || negb (validJSONObject (acr_Evidence request)) then
    Err (NewError CodeInvalidArgument "attempt claim fields are invalid" None)
  else Ok tt.

Definition attempt_outcomes : list string :=
  ["not_sent"; "definitely_rejected"; "confirmed_success"; "transient_safe"; "unknown"]%string.

Definition validateAttemptFinalization (final : AttemptFinalization) : result unit :=
  if String.eqb (fin_InvocationID final) "" || (fin_AttemptNo final <=? 0) || (fin_Fence final <=? 0)
     || String.eqb (fin_OwnerID final) "" || IsZero (fin_Now final)
     || negb (one_of_str (fin_Outcome final) attempt_outcomes)
     || negb (validJSONObject (fin_Evidence final)) then
    Err (NewError CodeInvalidArgument "attempt finalization fields are invalid" None)
  else if String.eqb (fin_Outcome final) "unknown" && negb (is_some (fin_Ambiguity final)) then
    Err (NewError CodeInvalidArgument "unknown attempt outcome requires ambiguity classification" None)
  else Ok tt.

Definition attempts_of (tenant invocation : string) (db : database) : list Attempt :=
  default [] (invocation_attempts db !! (tenant, invocation)).

(** [ORDER BY attempt_no DESC LIMIT 1] *)
Definition latest_attempt (l : list Attempt) : option Attempt :=
  foldl (fun best a =>
    match best with
    | Some b => if att_No b <? att_No a then Some a else best
    | None => Some a
    end) None l.

Definition max_of (f : Attempt -> Z) (l : list Attempt) : Z :=
  foldr (fun a m => Z.max (f a) m) 0 l.

Definition optional_in (o : option string) (l : list string) : bool :=
  match o with Some s => one_of_str s l | None => true end.

(** The CHECK constraints of the table. *)
Definition attempt_check (a : Attempt) : bool :=
  (0 <? att_No a) && (att_No a <=? 2 ^ 31 - 1) && (0 <? att_Fence a)
  && match att_Owner a, att_ClaimedAt a, att_LeaseExpiresAt a with
     | None, None, None => true
     | Some owner, Some claimed, Some expires => negb (String.eqb owner "") && (claimed <? expires)
     | _, _, _ => false
     end
  && optional_in (att_Outcome a) attempt_outcomes
  && optional_in (att_Retry a) ["not_retryable"; "retry_safe"; "reconcile_required";
                                "manual_review_required"]
  && optional_in (att_Ambiguity a) ["none"; "possibly_applied"; "provider_state_unknown";
                                    "evidence_conflict"]
  && unmarshals_raw_object (att_Evidence a)
  && match att_FinishedAt a with Some t => att_StartedAt a <=? t | None => true end
  && Bool.eqb (is_some (att_FinishedAt a)) (is_some (att_Outcome a))
  && (negb (bool_decide (att_Outcome a = Some "unknown"%string)) || is_some (att_Ambiguity a)).

(** [INSERT INTO invocation_attempts] with its trigger. *)
Definition attempt_insert (tenant invocation : string) (a : Attempt) (db : database) : result database :=
  let l := attempts_of tenant invocation db in
  if negb (is_some (invocations db !! (tenant, invocation))) then
    Err (constraint_violation "invocation_attempts_tenant_id_invocation_id_fkey")
  else if negb (att_No a =? max_of att_No l + 1) then
    Err (ErrNew "attempt number must be the next monotonic sequence value")
  else if att_Fence a <=? max_of att_Fence l then
    Err (ErrNew "attempt fence must increase monotonically")
  else if negb (attempt_check a) then Err (constraint_violation "invocation_attempts_check")
  else Ok (set_attempts db (<[(tenant, invocation) := l ++ [a]]> (invocation_attempts db))).

Definition or_empty_object (evidence : string) : string :=
  if slen evidence =? 0 then "{}"%string else evidence.

(** The previous attempt still holds its lease. *)
Definition lease_live (now : Z) (previous : Attempt) : bool :=
  negb (is_some (att_FinishedAt previous))
  && match att_LeaseExpiresAt previous with Some e => now <? e | None => false end.

(** [scanAttempt]: the columns of an attempt as they are read. *)
Definition read_attempt `{Columns} (a : Attempt) : Attempt :=
  mkAttempt (att_No a) (att_Fence a) (att_Owner a) (timestamptz <$> att_ClaimedAt a) (timestamptz <$> att_LeaseExpiresAt a)
    (att_RequestRef a) (att_ResultRef a) (att_Outcome a) (att_Retry a) (att_Ambiguity a) (jsonb (att_Evidence a))
    (timestamptz (att_StartedAt a)) (timestamptz <$> att_FinishedAt a).

Definition claim `{Columns} (tenant : string) (request : AttemptClaimRequest) (db : database)
    : result (database * AttemptClaim) :=
  match invocations db !! (tenant, acr_InvocationID request) with
  | None => Err (repositoryError "lock invocation for attempt claim" ErrNoRows)
  | Some v =>
      if negb (String.eqb (row_State v) "ready") && negb (String.eqb (row_State v) "retry_wait") then
        Ok (db, mkAttemptClaim AttemptIneligible None)
      else
        let insert attemptNo fence :=
          let a := mkAttempt attemptNo fence (Some (acr_OwnerID request)) (Some (acr_Now request))
                     (Some (acr_Now request + acr_LeaseDuration request)) None None None None None
                     (or_empty_object (acr_Evidence request)) (acr_Now request) None in
          in_repository "claim invocation attempt"
            (attempt_insert tenant (acr_InvocationID request) a db) ≫= fun db' =>
          Ok (db', mkAttemptClaim AttemptClaimed (Some a)) in
        match latest_attempt (attempts_of tenant (acr_InvocationID request) db) with
        | Some previous =>
            if lease_live (acr_Now request) previous then
              Ok (db, mkAttemptClaim AttemptClaimBusy (Some (read_attempt previous)))
            else insert (wrap_int64 (att_No previous + 1)) (wrap_int64 (att_Fence previous + 1))
        | None => insert 1 1
        end
  end.

Definition Claim `{Columns} (tenant : string) (request : AttemptClaimRequest) (begin : result unit)
    (commit : commit_reply) (db : database) : database * result AttemptClaim :=
  match validateAttemptClaimRequest request with
  | Err err => (db, Err err)
  | Ok _ => WithinTransaction db begin commit (claim tenant request)
  end.

(** What the transaction of [Claim] did, when it took effect. *)
Definition claimed_by `{Columns} (tenant : string) (request : AttemptClaimRequest) (begin : result unit)
    (commit : commit_reply) (db : database) : option AttemptClaim :=
  if is_ok (validateAttemptClaimRequest request) then transacted db begin commit (claim tenant request) else None.

(** The condition the two statements share: the row of the fence, live, with no
    newer attempt. *)
Definition current_row (l : list Attempt) (attemptNo fence : Z) (ownerID : string) (now : Z)
    (a : Attempt) : bool :=
  (att_No a =? attemptNo) && (att_Fence a =? fence) && bool_decide (att_Owner a = Some ownerID)
  && lease_live now a && negb (existsb (fun newer => att_No a <? att_No newer) l).

Definition IsCurrent (tenant invocationID : string) (attemptNo fence : Z) (ownerID : string) (now : Z)
    (db : database) : result bool :=
  if String.eqb invocationID "" || (attemptNo <=? 0) || (fence <=? 0) || String.eqb ownerID ""
     || IsZero now then
    Err (NewError CodeInvalidArgument "attempt fence fields are invalid" None)
  else
    let l := attempts_of tenant invocationID db in
    Ok (existsb (current_row l attemptNo fence ownerID now) l).

Definition finalized (final : AttemptFinalization) (a : Attempt) : Attempt :=
  mkAttempt (att_No a) (att_Fence a) None None None (fin_RequestRef final) (fin_ResultRef final)
    (Some (fin_Outcome final)) (fin_Retry final) (fin_Ambiguity final)
    (or_empty_object (fin_Evidence final)) (att_StartedAt a) (Some (fin_Now final)).

Definition Finalize (tenant : string) (final : AttemptFinalization) (db : database)
    : database * result unit :=
  match validateAttemptFinalization final with
  | Err err => (db, Err err)
  | Ok _ =>
      let l := attempts_of tenant (fin_InvocationID final) db in
      let current := current_row l (fin_AttemptNo final) (fin_Fence final) (fin_OwnerID final)
                       (fin_Now final) in
      let l' := map (fun a => if current a then finalized final a else a) l in
      if existsb current l then
        if forallb attempt_check l' then
          (set_attempts db (<[(tenant, fin_InvocationID final) := l']> (invocation_attempts db)), Ok tt)
        else (db, Err (repositoryError "finalize invocation attempt"
                         (constraint_violation "invocation_attempts_check")))
      else (db, Err (NewError CodeConflict "invocation attempt fence is no longer current" None))
  end.

(** ** Histories *)

(** Any number of workers act on the table; everything else may change the other
    tables at will.  A claim is what took effect, also when its commit was not
    confirmed.  [AttemptRepository.Create], which no part of the program calls, is not
    a step; [ControlStore] has it. *)
Inductive event :=
| EvClaim (tenant : string) (request : AttemptClaimRequest) (outcome : result AttemptClaim) (did : option AttemptClaim)
| EvFinalize (tenant : string) (final : AttemptFinalization) (outcome : result unit)
| EvOther.

Inductive step `{Columns} : database -> event -> database -> Prop :=
| step_claim db tenant request begin commit :
    step db (EvClaim tenant request (Claim tenant request begin commit db).2 (claimed_by tenant request begin commit db))
      (Claim tenant request begin commit db).1
| step_finalize db tenant final :
    step db (EvFinalize tenant final (Finalize tenant final db).2) (Finalize tenant final db).1
| step_other db db' : invocation_attempts db' = invocation_attempts db -> step db EvOther db'.

Inductive history `{Columns} : database -> list event -> database -> Prop :=
| history_nil db : history db [] db
| history_snoc db evs db' ev db'' :
    history db evs db' -> step db' ev db'' -> history db (evs ++ [ev]) db''.

(** The attempt an event inserted for a worker. *)
Definition claimed (key : string * string) (ev : event) : option Attempt :=
  match ev with
  | EvClaim tenant request _ (Some c) =>
      if bool_decide ((tenant, acr_InvocationID request) = key)
         && String.eqb (clm_Kind c) AttemptClaimed
      then clm_Attempt c else None
  | _ => None
  end.

Definition claims (key : string * string) (evs : list event) : list Attempt := omap (claimed key) evs.

(** ** Invariant *)

(** Attempts are numbered and fenced from one upwards and satisfy the
    constraints of the table. *)
Definition numbered (l : list Attempt) : Prop := forall i a, l !! i = Some a ->
  att_No a = Z.of_nat i + 1 /\ att_Fence a = Z.of_nat i + 1 /\ attempt_check a = true.

Definition db_numbered (db : database) : Prop :=
  forall key l, invocation_attempts db !! key = Some l -> numbered l.

(** The row holds what a finalization wrote. *)
Definition finalized_row (final : AttemptFinalization) (l : list Attempt) : Prop :=
  exists a, l !! Z.to_nat (fin_AttemptNo final - 1) = Some (finalized final a).

Record logged (db : database) (evs : list event) : Prop := {
  log_numbered : db_numbered db;
  log_claims key : numbered (claims key evs);
  log_length key : length (claims key evs) = length (attempts_of key.1 key.2 db);
  log_final tenant final : EvFinalize tenant final (Ok tt) ∈ evs ->
    finalized_row final (attempts_of tenant (fin_InvocationID final) db);
}.

(** ** Lemmas *)

Section Histories.
Context {columns : Columns}.

Lemma numbered_nil : numbered [].
Proof. intros i a H. by rewrite lookup_nil in H. Qed.

Lemma numbered_of db tenant invocation : db_numbered db -> numbered (attempts_of tenant invocation db).
Proof.
  intros H. unfold attempts_of.
  destruct (invocation_attempts db !! (tenant, invocation)) eqn:E; [by eapply H|apply numbered_nil].
Qed.

Lemma numbered_snoc l a : numbered l -> att_No a = Z.of_nat (length l) + 1 ->
  att_Fence a = Z.of_nat (length l) + 1 -> attempt_check a = true -> numbered (l ++ [a]).
Proof.
  intros Hl Hn Hf Hc i b Hb. apply lookup_app_Some in Hb as [Hb|[Hi Hb]]; [by apply Hl|].
  apply list_lookup_singleton_Some in Hb as [Hi0 <-].
  assert (i = length l) as -> by lia. auto.
Qed.

Lemma numbered_prefix l a : numbered (l ++ [a]) ->
  numbered l /\ att_No a = Z.of_nat (length l) + 1 /\ att_Fence a = Z.of_nat (length l) + 1 /\
  attempt_check a = true.
Proof.
  intros H. split.
  - intros i b Hb. apply H. by apply lookup_app_l_Some.
  - apply (H (length l) a). by rewrite lookup_app_r, Nat.sub_diag by lia.
Qed.

Lemma latest_numbered l : numbered l -> latest_attempt l = list.last l.
Proof.
  unfold latest_attempt. induction l as [|a l IH] using rev_ind; [done|].
  intros [Hl [Hn _]]%numbered_prefix. rewrite foldl_snoc, last_snoc, (IH Hl).
  destruct (list.last l) as [b|] eqn:Hb; [|done].
  rewrite last_lookup in Hb. pose proof (lookup_lt_Some _ _ _ Hb).
  destruct (Hl _ _ Hb) as [Hb' _]. rewrite (proj2 (Z.ltb_lt _ _)); [done|lia].
Qed.

Lemma max_of_snoc f l a : (forall b, b ∈ l -> f b <= f a) -> 0 <= f a ->
  max_of f (l ++ [a]) = f a.
Proof.
  induction l as [|b l IH]; simpl; intros Hb Ha; [lia|].
  rewrite IH; [|intros c Hc; apply Hb; set_solver|done].
  pose proof (Hb b (list_elem_of_here _ _)). lia.
Qed.

Lemma max_numbered f l : (forall i a, l !! i = Some a -> f a = Z.of_nat i + 1) ->
  max_of f l = Z.of_nat (length l).
Proof.
  destruct l as [|a l _] using rev_ind; [done|]. intros H.
  assert (Ha : f a = Z.of_nat (length l) + 1).
  { apply H. by rewrite lookup_app_r, Nat.sub_diag by lia. }
  rewrite max_of_snoc; [rewrite length_app; simpl; lia| |lia].
  intros b Hb. apply list_elem_of_lookup in Hb as [i Hi].
  pose proof (lookup_lt_Some _ _ _ Hi). rewrite (H i b); [lia|]. by apply lookup_app_l_Some.
Qed.

(** The attempt a claim inserts. *)
Definition new_attempt (request : AttemptClaimRequest) (n : Z) : Attempt :=
  mkAttempt n n (Some (acr_OwnerID request)) (Some (acr_Now request))
    (Some (acr_Now request + acr_LeaseDuration request)) None None None None None
    (or_empty_object (acr_Evidence request)) (acr_Now request) None.

Lemma attempts_of_insert tenant invocation l db key :
  attempts_of key.1 key.2
    (set_attempts db (<[(tenant, invocation) := l]> (invocation_attempts db))) =
  if decide ((tenant, invocation) = key) then l else attempts_of key.1 key.2 db.
Proof.
  unfold attempts_of. simpl. destruct key as [t i]. simpl. case_decide as E.
  - injection E as -> ->. by rewrite lookup_insert_eq.
  - by rewrite lookup_insert_ne.
Qed.

Lemma insert_effect tenant invocation a db db' : attempt_insert tenant invocation a db = Ok db' ->
  db' = set_attempts db (<[(tenant, invocation) := attempts_of tenant invocation db ++ [a]]>
                           (invocation_attempts db)) /\ attempt_check a = true.
Proof.
  unfold attempt_insert. intros H. repeat case_match; simplify_eq. split; [done|].
  by apply negb_false_iff.
Qed.

(** The number the claim computes is the next one. *)
Lemma next_number l previous : numbered l -> list.last l = Some previous ->
  wrap_int64 (att_No previous + 1) = Z.of_nat (length l) + 1 /\
  wrap_int64 (att_Fence previous + 1) = Z.of_nat (length l) + 1.
Proof.
  intros Hl Hp. rewrite last_lookup in Hp. pose proof (lookup_lt_Some _ _ _ Hp).
  destruct (Hl _ _ Hp) as (Hn & Hf & Hc). unfold attempt_check in Hc.
  rewrite !andb_true_iff in Hc.
  assert (att_No previous <= 2 ^ 31 - 1) by (apply Z.leb_le; tauto).
  rewrite Hn, Hf. rewrite wrap_int64_id; [lia|]. unfold is_int64, min_int64, max_int64. lia.
Qed.

(** A claim either inserts the next attempt, when no live lease is in the way, or
    changes nothing. *)
Lemma attempt_claim_effect tenant request db db' c : db_numbered db ->
  claim tenant request db = Ok (db', c) ->
  let l := attempts_of tenant (acr_InvocationID request) db in
  let a := new_attempt request (Z.of_nat (length l) + 1) in
  (c = mkAttemptClaim AttemptClaimed (Some a) /\ attempt_check a = true /\
   (forall previous, list.last l = Some previous -> lease_live (acr_Now request) previous = false) /\
   db' = set_attempts db (<[(tenant, acr_InvocationID request) := l ++ [a]]>
                            (invocation_attempts db))) \/
  (db' = db /\ (c = mkAttemptClaim AttemptIneligible None \/
     exists previous, c = mkAttemptClaim AttemptClaimBusy (Some (read_attempt previous)) /\
       list.last l = Some previous /\ lease_live (acr_Now request) previous = true)).
Proof.
  intros Hdb H l a. unfold claim in H.
  pose proof (numbered_of db tenant (acr_InvocationID request) Hdb) as Hl. fold l in Hl.
  destruct (invocations db !! _) as [v|]; [|done].
  destruct (_ && _); [simplify_eq; auto|]. fold l in H. rewrite (latest_numbered l Hl) in H.
  destruct (list.last l) as [previous|] eqn:Hp.
  - destruct (lease_live (acr_Now request) previous) eqn:Hlive; [simplify_eq; eauto 10|].
    destruct (next_number l previous Hl Hp) as [-> ->] in H.
    apply result_bind_Ok in H as (db1 & Hi & [= <- <-]).
    change (in_repository "claim invocation attempt"
              (attempt_insert tenant (acr_InvocationID request) a db) = Ok db1) in Hi.
    destruct (attempt_insert _ _ _ _) as [?|] eqn:Hins; simplify_eq/=.
    apply insert_effect in Hins as [-> Hc]. left. split_and!; auto. naive_solver.
  - apply last_None in Hp. apply result_bind_Ok in H as (db1 & Hi & [= <- <-]).
    assert (a = new_attempt request 1) as Ha by (unfold a; by rewrite Hp).
    change (in_repository "claim invocation attempt"
              (attempt_insert tenant (acr_InvocationID request) (new_attempt request 1) db) = Ok db1) in Hi.
    rewrite <- Ha in Hi.
    destruct (attempt_insert _ _ _ _) as [?|] eqn:Hins; simplify_eq/=.
    apply insert_effect in Hins as [-> Hc]. left. split_and!; auto; [by rewrite Ha|done].
Qed.

Lemma Claim_cases tenant request begin commit db :
  let '(db', out) := Claim tenant request begin commit db in
  match claimed_by tenant request begin commit db with
  | Some c => claim tenant request db = Ok (db', c) /\ (forall c', out = Ok c' -> c' = c)
  | None => db' = db /\ is_ok out = false
  end.
Proof.
  unfold Claim, claimed_by. destruct (validateAttemptClaimRequest request) as [[]|]; [|done]. apply transaction_cases.
Qed.

(** In a numbered list only the last row can be current. *)
Lemma current_is_last l n f o now a : numbered l -> a ∈ l -> current_row l n f o now a = true ->
  list.last l = Some a /\ n = Z.of_nat (length l) /\ f = n /\ att_Owner a = Some o /\
  lease_live now a = true.
Proof.
  intros Hl Ha Hc. unfold current_row in Hc. rewrite !andb_true_iff in Hc.
  destruct Hc as [[[[Hn Hf] Ho] Hlive] Hnew]. apply Z.eqb_eq in Hn, Hf. apply bool_decide_eq_true in Ho.
  apply list_elem_of_lookup in Ha as [i Hi]. destruct (Hl _ _ Hi) as (Hn' & Hf' & _).
  pose proof (lookup_lt_Some _ _ _ Hi) as Hlt.
  assert (S i = length l) as E.
  { destruct (decide (S i = length l)) as [|Hne]; [done|exfalso].
    destruct (lookup_lt_is_Some_2 l (S i)) as [b Hb]; [lia|].
    apply negb_true_iff in Hnew. apply not_true_iff_false in Hnew. apply Hnew. apply existsb_exists.
    exists b. split; [apply list_elem_of_In; by eapply list_elem_of_lookup_2|].
    apply Z.ltb_lt. destruct (Hl _ _ Hb) as [-> _]. lia. }
  rewrite last_lookup. replace (Nat.pred (length l)) with i by lia.
  split_and!; auto; lia.
Qed.

Lemma exists_current l n f o now : existsb (current_row l n f o now) l = true ->
  exists a, a ∈ l /\ current_row l n f o now a = true.
Proof. intros (a & Ha & Hc)%existsb_exists. exists a. by rewrite list_elem_of_In. Qed.

(** Finalizing rewrites the last row and nothing else. *)
Lemma finalize_map l final : numbered l ->
  let current := current_row l (fin_AttemptNo final) (fin_Fence final) (fin_OwnerID final)
                   (fin_Now final) in
  existsb current l = true ->
  exists l0 a, l = l0 ++ [a] /\ current a = true /\ fin_AttemptNo final = Z.of_nat (length l) /\
    map (fun a => if current a then finalized final a else a) l = l0 ++ [finalized final a].
Proof.
  intros Hl current (a & Ha & Hc)%exists_current.
  destruct (current_is_last _ _ _ _ _ _ Hl Ha Hc) as (Hlast & Hn & _).
  apply last_Some in Hlast as [l0 Hl0]. exists l0, a. split_and!; auto.
  assert (Hrest : map (fun b => if current b then finalized final b else b) l0 = l0).
  { rewrite <- (map_id l0) at 2. apply map_ext_in. intros b Hb%list_elem_of_In.
    destruct (current b) eqn:Hcb; [|done]. exfalso.
    assert (Hbl : b ∈ l) by (rewrite Hl0; set_solver).
    destruct (current_is_last _ _ _ _ _ _ Hl Hbl Hcb) as (Hlast' & _).
    rewrite Hl0, last_snoc in Hlast'. injection Hlast' as <-.
    apply list_elem_of_lookup in Hb as [i Hi]. pose proof (lookup_lt_Some _ _ _ Hi).
    rewrite Hl0 in Hl. destruct (numbered_prefix _ _ Hl) as (Hl1 & Hna & _).
    destruct (Hl1 _ _ Hi) as [Hnb _]. lia. }
  rewrite Hl0 at 1. rewrite map_app, Hrest. simpl. destruct (current a) eqn:E; [done|]. unfold current in E. congruence.
Qed.

Lemma Finalize_cases tenant final db : db_numbered db ->
  let l := attempts_of tenant (fin_InvocationID final) db in
  let '(db', out) := Finalize tenant final db in
  match out with
  | Err _ => db' = db
  | Ok _ => exists l0 a, l = l0 ++ [a] /\ fin_AttemptNo final = Z.of_nat (length l) /\
      current_row l (fin_AttemptNo final) (fin_Fence final) (fin_OwnerID final) (fin_Now final) a = true /\
      attempt_check (finalized final a) = true /\
      db' = set_attempts db (<[(tenant, fin_InvocationID final) := l0 ++ [finalized final a]]>
                               (invocation_attempts db))
  end.
Proof.
  intros Hdb l. unfold Finalize. destruct (validateAttemptFinalization final) as [[]|]; [|done].
  fold l. destruct (existsb _ l) eqn:Hex; [|done].
  destruct (finalize_map l final (numbered_of _ _ _ Hdb) Hex) as (l0 & a & Hl & Hc & Hn & Hmap).
  rewrite Hmap. destruct (forallb _ _) eqn:Hall; [|done].
  rewrite forallb_app in Hall. apply andb_true_iff in Hall as [_ Hall]. simpl in Hall.
  rewrite andb_true_r in Hall. eauto 10.
Qed.

Lemma attempt_claims_snoc key evs ev : claims key (evs ++ [ev]) = claims key evs ++ option_list (claimed key ev).
Proof. unfold claims. rewrite omap_app. simpl. by destruct (claimed key ev). Qed.

Lemma set_numbered db key l : db_numbered db -> numbered l ->
  db_numbered (set_attempts db (<[key := l]> (invocation_attempts db))).
Proof.
  intros Hdb Hl key' l'. simpl. intros [[_ <-]|[_ H]]%lookup_insert_Some; [done|by eapply Hdb].
Qed.

(** Events that claim nothing and keep the attempts keep the log. *)
Lemma attempt_logged_silent db db' evs ev : logged db evs -> (forall key, claimed key ev = None) ->
  invocation_attempts db' = invocation_attempts db ->
  (forall tenant final, ev <> EvFinalize tenant final (Ok tt)) -> logged db' (evs ++ [ev]).
Proof.
  intros [Hn Hc Hl Hf] Hev Hat Hnf.
  assert (E : forall key, claims key (evs ++ [ev]) = claims key evs)
    by (intros; by rewrite attempt_claims_snoc, Hev, app_nil_r).
  assert (Ea : forall t i, attempts_of t i db' = attempts_of t i db) by (intros; unfold attempts_of; by rewrite Hat).
  constructor; intros; rewrite ?E, ?Ea; auto.
  - intros key l. rewrite Hat. apply Hn.
  - apply Hf. apply elem_of_app in H as [H|H]; [done|]. apply list_elem_of_singleton in H.
    by destruct (Hnf tenant final).
Qed.

Lemma final_kept db tenant invocation l l' final t :
  finalized_row final (attempts_of t (fin_InvocationID final) db) ->
  l = attempts_of tenant invocation db ->
  (forall i a, l !! i = Some a -> is_some (att_FinishedAt a) = true -> l' !! i = Some a) ->
  finalized_row final (attempts_of t (fin_InvocationID final)
    (set_attempts db (<[(tenant, invocation) := l']> (invocation_attempts db)))).
Proof.
  intros [a Ha] Hl Hkeep. exists a.
  pose proof (attempts_of_insert tenant invocation l' db (t, fin_InvocationID final)) as E.
  simpl in E. rewrite E. case_decide as Hk; [|done]. injection Hk as -> ->.
  apply Hkeep; [by rewrite Hl|done].
Qed.

Lemma logged_claim db evs tenant request out a :
  let l := attempts_of tenant (acr_InvocationID request) db in
  logged db evs -> a = new_attempt request (Z.of_nat (length l) + 1) -> attempt_check a = true ->
  logged (set_attempts db (<[(tenant, acr_InvocationID request) := l ++ [a]]> (invocation_attempts db)))
    (evs ++ [EvClaim tenant request out (Some (mkAttemptClaim AttemptClaimed (Some a)))]).
Proof.
  intros l [Hn Hc Hl Hf] Ha Hchk.
  assert (Hnum : numbered (l ++ [a])) by (apply numbered_snoc; [by apply numbered_of|by rewrite Ha..|done]).
  constructor.
  - by apply set_numbered.
  - intros key. rewrite attempt_claims_snoc. simpl.
    case_bool_decide as E; simpl; [|rewrite app_nil_r; apply Hc]. subst key.
    pose proof (Hl (tenant, acr_InvocationID request)) as Hlen. simpl in Hlen. fold l in Hlen.
    apply numbered_snoc; [apply Hc|rewrite Ha, Hlen; done..|done].
  - intros key. rewrite attempt_claims_snoc, attempts_of_insert. simpl.
    case_bool_decide as E; simpl; [|rewrite app_nil_r; destruct (decide _); [done|apply Hl]].
    rewrite decide_True by done. subst key. specialize (Hl (tenant, acr_InvocationID request)).
    simpl in Hl. fold l in Hl. by rewrite !length_app, Hl.
  - intros t final Hin. apply elem_of_app in Hin as [Hin|Hin];
      [|by apply list_elem_of_singleton in Hin].
    eapply final_kept; [by apply Hf|done|]. intros i b Hb _. by apply lookup_app_l_Some.
Qed.

Lemma logged_finalize db evs tenant final l0 a :
  logged db evs -> attempts_of tenant (fin_InvocationID final) db = l0 ++ [a] ->
  fin_AttemptNo final = Z.of_nat (length (l0 ++ [a])) -> is_some (att_FinishedAt a) = false ->
  attempt_check (finalized final a) = true ->
  logged (set_attempts db (<[(tenant, fin_InvocationID final) := l0 ++ [finalized final a]]>
                             (invocation_attempts db)))
    (evs ++ [EvFinalize tenant final (Ok tt)]).
Proof.
  intros [Hn Hc Hl Hf] Hat Hno Hun Hchk.
  assert (E : forall key, claims key (evs ++ [EvFinalize tenant final (Ok tt)]) = claims key evs)
    by (intros; by rewrite attempt_claims_snoc, app_nil_r).
  pose proof (numbered_of db tenant (fin_InvocationID final) Hn) as Hnum. rewrite Hat in Hnum.
  apply numbered_prefix in Hnum as (Hl0 & Hna & Hfa & _).
  constructor.
  - apply set_numbered; [done|]. by apply numbered_snoc.
  - intros key. rewrite E. apply Hc.
  - intros key. rewrite E, attempts_of_insert, Hl. case_decide as Hk; [|done].
    subst key. simpl. by rewrite Hat, !length_app.
  - intros t final' Hin. apply elem_of_app in Hin as [Hin|Hin].
    + apply (final_kept _ _ _ (l0 ++ [a])); [by apply Hf|done|]. intros i b Hb Hfin.
      apply lookup_app_Some in Hb as [Hb|[Hi Hb]]; [by apply lookup_app_l_Some|].
      apply list_lookup_singleton_Some in Hb as [_ <-]. congruence.
    + apply list_elem_of_singleton in Hin. injection Hin as -> ->. exists a.
      pose proof (attempts_of_insert tenant (fin_InvocationID final) (l0 ++ [finalized final a]) db
                    (tenant, fin_InvocationID final)) as Ei.
      simpl in Ei. rewrite Ei, decide_True by done. rewrite Hno, length_app. simpl.
      replace (Z.to_nat _) with (length l0) by lia. by rewrite lookup_app_r, Nat.sub_diag by lia.
Qed.

Lemma attempt_logged_step db evs ev db' : logged db evs -> step db ev db' -> logged db' (evs ++ [ev]).
Proof.
  intros Hlog Hs. pose proof (log_numbered _ _ Hlog) as Hn. destruct Hs.
  - pose proof (Claim_cases tenant request begin commit db) as H.
    destruct (Claim tenant request begin commit db) as [db' out]; simpl.
    destruct (claimed_by tenant request begin commit db) as [c|]; cycle 1.
    { destruct H as [-> _]. by apply (attempt_logged_silent db). }
    destruct H as [H _]. apply attempt_claim_effect in H; [|done].
    destruct H as [(-> & Hc & _ & ->)|[-> Hc]]; [by apply logged_claim|].
    apply (attempt_logged_silent db); [done| |done|done]. intros key. simpl.
    destruct Hc as [->|(p & -> & _)]; simpl; by rewrite andb_false_r.
  - pose proof (Finalize_cases tenant final db Hn) as H.
    destruct (Finalize tenant final db) as [db' [[]|e]]; simpl; cycle 1.
    { simpl in H. subst db'. by apply (attempt_logged_silent db). }
    destruct H as (l0 & a & Hl & Hno & Hc & Hchk & ->).
    apply logged_finalize; auto; [by rewrite <- Hl|].
    unfold current_row, lease_live in Hc. rewrite !andb_true_iff in Hc.
    apply negb_true_iff. tauto.
  - by apply (attempt_logged_silent db).
Qed.

Lemma attempt_history_logged db0 evs db : invocation_attempts db0 = ∅ -> history db0 evs db -> logged db evs.
Proof.
  intros H0 H. induction H as [db0|db0 evs db' ev db'' _ IH Hs].
  - assert (E : forall t i, attempts_of t i db0 = []) by (intros; unfold attempts_of; by rewrite H0).
    constructor; intros; rewrite ?E; try done.
    + intros key l. by rewrite H0, lookup_empty.
    + set_solver.
  - eapply attempt_logged_step; eauto.
Qed.

Lemma IsCurrent_last tenant invocation n f o now db : db_numbered db ->
  IsCurrent tenant invocation n f o now db = Ok true ->
  let l := attempts_of tenant invocation db in
  exists a, list.last l = Some a /\ n = Z.of_nat (length l) /\ f = n /\ att_Owner a = Some o /\
    lease_live now a = true.
Proof.
  intros Hdb H l. unfold IsCurrent in H. destruct (_ || _); [done|]. injection H as H. fold l in H.
  destruct (exists_current _ _ _ _ _ H) as (a & Ha & Hc). exists a.
  apply current_is_last; [by apply numbered_of|done|done].
Qed.

End Histories.

(** ** Theorems *)

(** C4: whatever the workers of any number of processes do, the attempts of an
    invocation get the fences one, two, three, ...; at any moment at most one
    fence and owner is current, it is the latest one claimed, and while it is
    current every other claim on the invocation is refused and changes nothing. *)
Theorem attempt_fencing {columns : Columns} db0 evs db tenant invocation n f o now :
  invocation_attempts db0 = ∅ -> history db0 evs db ->
  (forall i a, claims (tenant, invocation) evs !! i = Some a ->
     att_No a = Z.of_nat i + 1 /\ att_Fence a = Z.of_nat i + 1) /\
  (IsCurrent tenant invocation n f o now db = Ok true ->
     n = Z.of_nat (length (claims (tenant, invocation) evs)) /\ f = n /\
     (forall n' f' o' now', IsCurrent tenant invocation n' f' o' now' db = Ok true ->
        n' = n /\ f' = f /\ o' = o) /\
     (forall request begin commit, acr_InvocationID request = invocation -> acr_Now request <= now ->
        let '(db', out) := Claim tenant request begin commit db in
        db' = db /\ match out with Ok c => clm_Kind c <> AttemptClaimed | Err _ => True end)).
Proof.
  intros H0 H. pose proof (attempt_history_logged _ _ _ H0 H) as [Hn Hc Hl _]. split.
  { intros i a Hi. destruct (Hc _ _ _ Hi) as (? & ? & _). auto. }
  intros Hcur. destruct (IsCurrent_last _ _ _ _ _ _ _ Hn Hcur) as (a & Ha & Hna & Hfa & Ho & Hlive).
  pose proof (Hl (tenant, invocation)) as Hlen. simpl in Hlen. split_and!; [lia|done| |].
  - intros n' f' o' now' Hcur'.
    destruct (IsCurrent_last _ _ _ _ _ _ _ Hn Hcur') as (a' & Ha' & ? & ? & Ho' & _).
    assert (a' = a) as -> by congruence. split_and!; congruence.
  - intros request begin commit <- Hle. pose proof (Claim_cases tenant request begin commit db) as Hcl.
    destruct (Claim tenant request begin commit db) as [db' out].
    destruct (claimed_by tenant request begin commit db) as [c|]; [|by destruct Hcl as [-> ?]; destruct out].
    destruct Hcl as [Hcl Hout]. apply attempt_claim_effect in Hcl; [|done].
    assert (Hkind : clm_Kind c <> AttemptClaimed -> match out with Ok c => clm_Kind c <> AttemptClaimed | Err _ => True end)
      by (destruct out as [c'|]; [by rewrite (Hout c')|done]).
    destruct Hcl as [(_ & _ & Hfree & _)|[-> [->|(p & -> & _)]]]; [|split; [done|by apply Hkind]..].
    exfalso. specialize (Hfree a Ha). unfold lease_live in *.
    destruct (att_FinishedAt a), (att_LeaseExpiresAt a); simpl in *; try done. to_prop. lia.
Qed.

(** A worker whose attempt was superseded by a later claim or was finalized
    is refused by the fence check and by [Finalize], which then change nothing,
    and the outcome that was recorded by a finalization stays in its row. *)
Theorem stale_attempt_refused {columns : Columns} db0 evs db tenant invocation n :
  invocation_attempts db0 = ∅ -> history db0 evs db ->
  (n < Z.of_nat (length (claims (tenant, invocation) evs)) \/
   exists final, EvFinalize tenant final (Ok tt) ∈ evs /\ fin_InvocationID final = invocation /\
     fin_AttemptNo final = n) ->
  (forall f o now, IsCurrent tenant invocation n f o now db <> Ok true) /\
  (forall final, fin_InvocationID final = invocation -> fin_AttemptNo final = n ->
     exists e, Finalize tenant final db = (db, Err e)) /\
  (forall final, EvFinalize tenant final (Ok tt) ∈ evs -> fin_InvocationID final = invocation ->
     exists a, attempts_of tenant invocation db !! Z.to_nat (fin_AttemptNo final - 1) =
                 Some (finalized final a)).
Proof.
  intros H0 H Hstale. pose proof (attempt_history_logged _ _ _ H0 H) as [Hn Hc Hl Hf].
  pose proof (Hl (tenant, invocation)) as Hlen. simpl in Hlen.
  set (l := attempts_of tenant invocation db) in *.
  assert (Hno : forall f o now a, a ∈ l -> current_row l n f o now a = true -> False).
  { intros f o now a Ha Hcr.
    destruct (current_is_last l _ _ _ _ _ (numbered_of _ _ _ Hn) Ha Hcr) as (Hlast & Hlen' & _ & _ & Hlive).
    destruct Hstale as [Hlt|(final & Hin & Hi & Hfn)]; [lia|].
    destruct (Hf _ _ Hin) as [b Hb]. rewrite Hi in Hb. fold l in Hb.
    rewrite Hfn, Hlen' in Hb. rewrite last_lookup in Hlast.
    replace (Z.to_nat (Z.of_nat (length l) - 1)) with (Nat.pred (length l)) in Hb by lia.
    rewrite Hlast in Hb. injection Hb as ->. done. }
  split_and!.
  - intros f o now Hcur. unfold IsCurrent in Hcur. destruct (_ || _); [done|]. injection Hcur as Hcur.
    apply exists_current in Hcur as (a & Ha & Hcr). eauto.
  - intros final Hi Hfn. unfold Finalize. destruct (validateAttemptFinalization final) as [[]|]; [|eauto].
    rewrite Hi, Hfn. fold l. destruct (existsb _ l) eqn:Hex; [|eauto]. exfalso.
    apply exists_current in Hex as (a & Ha & Hcr). eauto.
  - intros final Hin <-. apply (Hf _ _ Hin).
Qed.

(** ** Witnesses: two workers, the second after the lease of the first *)

#[local] Instance ex_columns : Columns := {| jsonb := fun s => s; timestamptz := fun t => t |}.

Definition ex_row : Invocation :=
  mkRow "i" "run" "call" "tool" "1.0.0" "p" "" "" "{}" RetrySafe "ready" 1 None None 1 1.
Definition ex_db0 : database :=
  set_invocations (empty_database ∅) {[("t", "i")%string := ex_row]}.
Definition ex_claim (owner : string) (now : Z) : AttemptClaimRequest :=
  mkAttemptClaimRequest "i" owner now Second "".
Definition ex_run_claim (owner : string) (now : Z) (db : database) :=
  Claim "t" (ex_claim owner now) (Ok tt) Committed db.
Definition ex_did (owner : string) (now : Z) (db : database) :=
  claimed_by "t" (ex_claim owner now) (Ok tt) Committed db.
Definition ex_db1 : database := (ex_run_claim "a" 1000 ex_db0).1.
Definition ex_db2 : database := (ex_run_claim "b" (1000 + Second) ex_db1).1.
Definition ex_final : AttemptFinalization :=
  mkAttemptFinalization "i" 2 2 "b" (2000 + Second) None None "confirmed_success" None None "".
Definition ex_db3 : database := (Finalize "t" ex_final ex_db2).1.
Definition ex_claims : list event :=
  ([] ++ [EvClaim "t" (ex_claim "a" 1000) (ex_run_claim "a" 1000 ex_db0).2 (ex_did "a" 1000 ex_db0)])
  ++ [EvClaim "t" (ex_claim "b" (1000 + Second)) (ex_run_claim "b" (1000 + Second) ex_db1).2
        (ex_did "b" (1000 + Second) ex_db1)].
Definition ex_events : list event :=
  ex_claims ++ [EvFinalize "t" ex_final (Finalize "t" ex_final ex_db2).2].

Lemma ex_claims_history : history ex_db0 ex_claims ex_db2.
Proof. repeat eapply history_snoc; [apply history_nil|apply step_claim|apply step_claim]. Qed.

Lemma attempt_ex_history : history ex_db0 ex_events ex_db3.
Proof. eapply history_snoc; [apply ex_claims_history|apply step_finalize]. Qed.

Lemma attempt_fencing_witness :
  IsCurrent "t" "i" 2 2 "b" (2000 + Second) ex_db2 = Ok true /\
  2 = Z.of_nat (length (claims ("t", "i")%string ex_claims)) /\
  IsCurrent "t" "i" 1 1 "a" 2000 ex_db2 <> Ok true.
Proof.
  assert (Hc : IsCurrent "t" "i" 2 2 "b" (2000 + Second) ex_db2 = Ok true) by (vm_compute; reflexivity).
  destruct (attempt_fencing ex_db0 ex_claims ex_db2 "t" "i" 2 2 "b" (2000 + Second) eq_refl
              ex_claims_history) as [_ Hcur].
  destruct (Hcur Hc) as (Hlen & _ & Huniq & _). split_and!; [exact Hc|exact Hlen|].
  intros H. destruct (Huniq _ _ _ _ H) as [E _]. discriminate E.
Defined.

Lemma stale_attempt_refused_witness :
  (Finalize "t" ex_final ex_db2).2 = Ok tt /\
  exists e, Finalize "t" ex_final ex_db3 = (ex_db3, Err e).
Proof.
  assert (Ho : (Finalize "t" ex_final ex_db2).2 = Ok tt) by (vm_compute; reflexivity).
  split; [exact Ho|].
  destruct (stale_attempt_refused ex_db0 ex_events ex_db3 "t" "i" 2 eq_refl attempt_ex_history) as (_ & Hf & _).
  - right. exists ex_final. split; [|split; reflexivity].
    unfold ex_events. rewrite Ho. apply elem_of_app. right. apply list_elem_of_singleton. reflexivity.
  - exact (Hf ex_final eq_refl eq_refl).
Defined.
