(* ===== verification/Outbox.v ===== *)
(** * Publication of the outbox

    [internal/adapters/postgres/outbox_publisher.go]: a publisher claims one
    available message under a lease, sends it to the sink, and records the
    publication, the dead letter or the retry, each by an update that applies only
    to the claim it still holds.  The metrics are not modelled.  Floating-point
    arithmetic is that of [SpecFloat] at binary64, without fused operations, and
    the conversion of a float that does not fit [int64] is that of amd64. *)
From Stdlib Require Import Ascii String Floats.SpecFloat.
From stdpp Require Import sorting.
From S2P Require Import Prelude GoStd Regex Sha256 Json JsonParse Primitives ToolCatalog Ports Database.

Record Publication := mkPublication {
  pub_TenantID : string; pub_OutboxID : string; pub_EventID : string; pub_Topic : string;
  pub_EventType : string; pub_SafePayload : string; pub_PayloadDigest : string; pub_CreatedAt : Z;
}.

Definition PublicationTransient : string := "transient".
Definition PublicationPermanent : string := "permanent".
Definition PublicationPoison : string := "poison".
Definition PublicationUnknown : string := "unknown".

(** The errors a sink returns: a [*PublicationError], another error, or one of
    them wrapped. *)
Inductive sink_error :=
| PublicationError (class : string) (err : goerror)
| PlainError (err : goerror)
| WrappedError (msg : string) (inner : sink_error).

Record OutboxPublisherConfig := mkOutboxConfig {
  cfg_OwnerID : string;
  cfg_LeaseDuration : Z;
  cfg_MaxAttempts : Z;
  cfg_BaseBackoff : Z;
  cfg_MaxBackoff : Z;
  cfg_Jitter : spec_float;
}.

(** The tests of the constructor; the clock, the random source and the metrics it
    installs are inputs of the operations. *)
Definition NewOutboxPublisher (database_nil sink_nil : bool) (cfg : OutboxPublisherConfig) : result unit :=
  if database_nil || sink_nil then Err (ErrNew "outbox database and sink are required")
  else if String.eqb (TrimSpace (cfg_OwnerID cfg)) "" || (cfg_LeaseDuration cfg <=? 0)
          || (cfg_MaxAttempts cfg <? 1) || (cfg_BaseBackoff cfg <=? 0)
          || (cfg_MaxBackoff cfg <? cfg_BaseBackoff cfg)
          || SFltb (cfg_Jitter cfg) (S754_zero false) || SFltb float64_one (cfg_Jitter cfg) then
    Err (ErrNew "outbox publisher configuration is invalid")
  else Ok tt.

(** ** Claiming *)

Record claimedOutbox := mkClaimed {
  co_Publication : Publication;
  co_AttemptCount : Z;
  co_ClaimUntil : Z;
}.

(** The columns of a message as they are read. *)
Definition publication_of `{Columns} (tenant : string) (m : OutboxMessage) : Publication :=
  mkPublication tenant (out_ID m) (out_EventID m) (out_Topic m) (out_EventType m) (jsonb (out_SafePayload m))
    (out_PayloadDigest m) (timestamptz (out_CreatedAt m)).

(** The WHERE clause of the candidate query. *)
Definition available (now : Z) (r : outbox_row) : bool :=
  negb (is_some (orow_published r)) && negb (is_some (orow_dead r)) && (orow_available r <=? now)
  && match orow_until r with Some until => until <=? now | None => true end.

(** [ORDER BY available_at, tenant_id, outbox_id] *)
Definition row_before (a b : string * string * outbox_row) : bool :=
  (orow_available a.2 <? orow_available b.2)
  || ((orow_available a.2 =? orow_available b.2)
      && (str_ltb a.1.1 b.1.1 || (String.eqb a.1.1 b.1.1 && str_ltb a.1.2 b.1.2))).

Definition first_of (l : list (string * string * outbox_row)) : option (string * string * outbox_row) :=
  foldr (fun a best => match best with
                       | Some b => if row_before b a then Some b else Some a
                       | None => Some a
                       end) None l.

(** The rows another transaction has [locked] are skipped. *)
Definition candidate (now : Z) (locked : gset (string * string)) (db : database)
    : option (string * string * outbox_row) :=
  first_of (filter (fun kr => available now kr.2 = true /\ kr.1 ∉ locked)
              (map_to_list (outbox_messages db))).

Definition set_claim (owner : option string) (until : option Z) (attempts : Z) (r : outbox_row) : outbox_row :=
  mkOutboxRow (orow_message r) (orow_available r) owner until attempts (orow_error_class r)
    (orow_error_at r) (orow_published r) (orow_ref r) (orow_dead r) (orow_reason r).

Definition claim_statement `{Columns} (cfg : OutboxPublisherConfig) (now : Z) (locked : gset (string * string))
    (db : database) : result (database * claimedOutbox) :=
  match candidate now locked db with
  | None => Err ErrNoRows
  | Some (key, r) =>
      let attempts := orow_attempts r + 1 in
      let until := now + cfg_LeaseDuration cfg in
      if (2 ^ 31 - 1 <? attempts) then Err (ErrNew "integer out of range")
      else Ok (set_outbox db (<[key := set_claim (Some (cfg_OwnerID cfg)) (Some until) attempts r]>
                                (outbox_messages db)),
               mkClaimed (publication_of key.1 (orow_message r)) attempts until)
  end.

(** [claim]: nothing to do is [ErrNoRows] itself, every other failure is wrapped. *)
Definition claim `{Columns} (cfg : OutboxPublisherConfig) (now : Z) (locked : gset (string * string))
    (begin : result unit) (commit : commit_reply) (db : database) : database * result claimedOutbox :=
  match WithinTransaction db begin commit (claim_statement cfg now locked) with
  | (db', Ok m) => (db', Ok m)
  | (db', Err err) =>
      (db', Err (if is_no_rows err then ErrNoRows else repositoryError "claim outbox message" err))
  end.

(** The claim of a transaction that took effect, whether or not it was reported. *)
Definition claimed_by `{Columns} (cfg : OutboxPublisherConfig) (now : Z) (locked : gset (string * string))
    (begin : result unit) (commit : commit_reply) (db : database) : option claimedOutbox :=
  transacted db begin commit (claim_statement cfg now locked).

(** ** Recording the outcome *)

Definition error_classes : list string :=
  [PublicationTransient; PublicationPermanent; PublicationPoison; PublicationUnknown].

(** The CHECK constraints on the columns of the publisher. *)
Definition outbox_check (r : outbox_row) : bool :=
  (out_CreatedAt (orow_message r) <=? orow_available r)
  && match orow_owner r, orow_until r with
     | None, None => true
     | Some owner, Some _ => negb (String.eqb owner "")
     | _, _ => false
     end
  && match orow_error_class r with Some c => one_of_str c error_classes | None => true end
  && Bool.eqb (is_some (orow_error_class r)) (is_some (orow_error_at r))
  && negb (is_some (orow_published r) && is_some (orow_dead r))
  && (negb (is_some (orow_ref r)) || is_some (orow_published r))
  && (negb (is_some (orow_reason r)) || is_some (orow_dead r))
  && ((negb (is_some (orow_published r)) && negb (is_some (orow_dead r)))
      || (negb (is_some (orow_owner r)) && negb (is_some (orow_until r)))).

(** The claim the update requires. *)
Definition holds_claim (cfg : OutboxPublisherConfig) (m : claimedOutbox) (r : outbox_row) : bool :=
  bool_decide (orow_owner r = Some (cfg_OwnerID cfg)) && bool_decide (orow_until r = Some (co_ClaimUntil m))
  && (orow_attempts r =? co_AttemptCount m)
  && negb (is_some (orow_published r)) && negb (is_some (orow_dead r)).

Definition claim_row_key (m : claimedOutbox) : string * string :=
  (pub_TenantID (co_Publication m), pub_OutboxID (co_Publication m)).

(** [ownedUpdate], with the SET clause as a function on the row. *)
Definition ownedUpdate (cfg : OutboxPublisherConfig) (operation : string) (m : claimedOutbox)
    (set : outbox_row -> outbox_row) (db : database) : database * result unit :=
  let conflict := Err (NewError CodeConflict "outbox lease is no longer current" None) in
  match outbox_messages db !! claim_row_key m with
  | Some r =>
      if holds_claim cfg m r then
        if outbox_check (set r) then
          (set_outbox db (<[claim_row_key m := set r]> (outbox_messages db)), Ok tt)
        else (db, Err (repositoryError operation (constraint_violation "outbox_messages_check")))
      else (db, conflict)
  | None => (db, conflict)
  end.

Definition markPublished (cfg : OutboxPublisherConfig) (m : claimedOutbox) (ref : string) (now : Z)
    : database -> database * result unit :=
  ownedUpdate cfg "mark outbox published" m (fun r =>
    mkOutboxRow (orow_message r) (orow_available r) None None (orow_attempts r) (orow_error_class r)
      (orow_error_at r) (Some now) (Some ref) (orow_dead r) (orow_reason r)).

Definition markDeadLetter (cfg : OutboxPublisherConfig) (m : claimedOutbox) (class : string) (now : Z)
    : database -> database * result unit :=
  ownedUpdate cfg "dead-letter outbox message" m (fun r =>
    mkOutboxRow (orow_message r) (orow_available r) None None (orow_attempts r) (Some class) (Some now)
      (orow_published r) (orow_ref r) (Some now) (Some ("delivery_" +:+ class))).

(** The loop of [backoff], [fuel] being the iterations left. *)
Fixpoint backoff_loop (fuel : nat) (maximum delay : Z) : Z :=
  match fuel with
  | O => delay
  | S fuel =>
      if delay <? maximum then
        backoff_loop fuel maximum
          (if Z.quot maximum 2 <? delay then maximum else wrap_int64 (delay * 2))
      else delay
  end.

Definition backoff_base (cfg : OutboxPublisherConfig) (attempt : Z) : Z :=
  let delay := backoff_loop (Z.to_nat (attempt - 1)) (cfg_MaxBackoff cfg) (cfg_BaseBackoff cfg) in
  if cfg_MaxBackoff cfg <? delay then cfg_MaxBackoff cfg else delay.

Definition backoff (cfg : OutboxPublisherConfig) (random : spec_float) (attempt : Z) : Z :=
  let factor := float64_add (float64_sub float64_one (cfg_Jitter cfg))
                  (float64_mul (float64_mul float64_two (cfg_Jitter cfg)) random) in
  int64_of_float64 (float64_mul (float64_of_int64 (backoff_base cfg attempt)) factor).

Definition releaseForRetry (cfg : OutboxPublisherConfig) (random : spec_float) (m : claimedOutbox)
    (class : string) (now : Z) : database -> database * result unit :=
  let delay := backoff cfg random (co_AttemptCount m) in
  ownedUpdate cfg "release outbox message for retry" m (fun r =>
    mkOutboxRow (orow_message r) (now + delay) None None (orow_attempts r) (Some class) (Some now)
      (orow_published r) (orow_ref r) (orow_dead r) (orow_reason r)).

Fixpoint classifyPublicationError (err : sink_error) : string :=
  match err with
  | PublicationError class _ => if one_of_str class error_classes then class else PublicationUnknown
  | PlainError _ => PublicationUnknown
  | WrappedError _ inner => classifyPublicationError inner
  end.

(** The second half of [PublishOne]: what the reply of the sink leads to. *)
Definition record_reply (cfg : OutboxPublisherConfig) (random : spec_float) (m : claimedOutbox)
    (reply : string * option sink_error) (now : Z) (db : database) : database * result unit :=
  let failed err :=
    let class := classifyPublicationError err in
    if String.eqb class PublicationPermanent || String.eqb class PublicationPoison
       || (cfg_MaxAttempts cfg <=? co_AttemptCount m) then
      markDeadLetter cfg m class now db
    else releaseForRetry cfg random m class now db in
  match reply with
  | (ref, None) =>
      if String.eqb (TrimSpace ref) "" then
        failed (PublicationError PublicationPoison
                  (ErrNew "sink returned an empty publication reference"))
      else markPublished cfg m ref now db
  | (_, Some err) => failed err
  end.

(** [PublishOne], without another process in between. *)
Definition PublishOne `{Columns} (cfg : OutboxPublisherConfig) (locked : gset (string * string))
    (begin : result unit) (commit : commit_reply) (sink : Publication -> string * option sink_error)
    (now later : Z) (random : spec_float) (db : database) : database * result bool :=
  match claim cfg now locked begin commit db with
  | (db', Err err) => if is_no_rows err then (db', Ok false) else (db', Err err)
  | (db', Ok m) =>
      match record_reply cfg random m (sink (co_Publication m)) later db' with
      | (db'', Ok _) => (db'', Ok true)
      | (db'', Err err) => (db'', Err err)
      end
  end.

(** [DeadLetters]: [ORDER BY dead_lettered_at DESC, outbox_id LIMIT limit] *)
Record DeadLetter := mkDeadLetter {
  dl_Publication : Publication; dl_AttemptCount : Z; dl_ErrorClass : string; dl_DeadLetteredAt : Z;
  dl_Reason : string;
}.

Definition dead_before (a b : DeadLetter) : Prop :=
  dl_DeadLetteredAt b < dl_DeadLetteredAt a \/
  (dl_DeadLetteredAt a = dl_DeadLetteredAt b /\
   str_ltb (pub_OutboxID (dl_Publication b)) (pub_OutboxID (dl_Publication a)) = false).

#[global] Instance dead_before_dec : RelDecision dead_before.
Proof. intros a b. unfold dead_before. apply _. Defined.

(** A NULL in a column that is scanned into a string is an error. *)
Definition dead_letter `{Columns} (kr : string * string * outbox_row) : option (result DeadLetter) :=
  match orow_dead kr.2 with
  | None => None
  | Some at_ =>
      Some (match orow_error_class kr.2, orow_reason kr.2 with
            | Some class, Some reason =>
                Ok (mkDeadLetter (publication_of kr.1.1 (orow_message kr.2)) (orow_attempts kr.2) class
                      at_ reason)
            | _, _ => Err (repositoryError "scan outbox dead letter" (ErrNew "cannot scan NULL"))
            end)
  end.

Definition DeadLetters `{Columns} (tenantID : string) (limit : Z) (db : database) : result (list DeadLetter) :=
  match ParseUUID tenantID with
  | Err err => Err (NewError CodeInvalidArgument "dead-letter query is invalid" (Some err))
  | Ok tenant =>
      if (limit <? 1) || (1000 <? limit) then
        Err (NewError CodeInvalidArgument "dead-letter query is invalid" None)
      else
        let rows := filter (fun kr : string * string * outbox_row => kr.1.1 = UUID_String tenant) (map_to_list (outbox_messages db)) in
        mapM (fun item : result DeadLetter => item) (omap dead_letter rows) ≫= fun items =>
        Ok (take (Z.to_nat limit) (merge_sort dead_before items))
  end.

(** ** Enqueueing: [OutboxRepository.Enqueue] *)

Definition new_row (v : OutboxMessage) : outbox_row :=
  mkOutboxRow v (out_AvailableAt v) None None 0 None None None None None None.

Definition Enqueue (tenant : string) (v : OutboxMessage) (db : database) : result database :=
  in_repository "enqueue outbox message" (
    if String.eqb (out_Topic v) "" || String.eqb (out_EventType v) ""
       || negb (unmarshals_raw_object (out_SafePayload v)) || negb (slen (out_PayloadDigest v) =? 32)
       || (out_AvailableAt v <? out_CreatedAt v) then Err (constraint_violation "outbox_messages_check")
    else if is_some (outbox_messages db !! (tenant, out_ID v)) then
      Err (constraint_violation "outbox_messages_pkey")
    else if existsb (fun kr => String.eqb kr.1.1 tenant
                       && String.eqb (out_Topic (orow_message kr.2)) (out_Topic v)
                       && String.eqb (out_EventID (orow_message kr.2)) (out_EventID v))
              (map_to_list (outbox_messages db)) then
      Err (constraint_violation "outbox_messages_tenant_id_topic_event_id_key")
    else Ok (set_outbox db (<[(tenant, out_ID v) := new_row v]> (outbox_messages db)))).

(** ** Histories of any number of publishers *)

Inductive event :=
| EvEnqueue (tenant : string) (v : OutboxMessage)
| EvClaim (cfg : OutboxPublisherConfig) (now : Z) (m : claimedOutbox)
| EvRecord (cfg : OutboxPublisherConfig) (m : claimedOutbox) (reply : string * option sink_error)
    (outcome : result unit)
| EvOther.

(** A publisher records only what was claimed; it may crash before it does, or not
    know of its claim, when the commit was not confirmed, and other tables change
    freely. *)
Inductive step `{Columns} (evs : list event) (db : database) : event -> database -> Prop :=
| step_enqueue tenant v db' : Enqueue tenant v db = Ok db' -> step evs db (EvEnqueue tenant v) db'
| step_claim cfg now locked begin commit m :
    claimed_by cfg now locked begin commit db = Some m ->
    step evs db (EvClaim cfg now m) (claim cfg now locked begin commit db).1
| step_record cfg now0 m random reply now :
    EvClaim cfg now0 m ∈ evs ->
    step evs db (EvRecord cfg m reply (record_reply cfg random m reply now db).2)
      (record_reply cfg random m reply now db).1
| step_other db' : outbox_messages db' = outbox_messages db -> step evs db EvOther db'.

Inductive history `{Columns} (db0 : database) : list event -> database -> Prop :=
| history_nil : history db0 [] db0
| history_snoc evs db ev db' :
    history db0 evs db -> step evs db ev db' -> history db0 (evs ++ [ev]) db'.

(** The claims made on one message, in order. *)
Definition claim_of (key : string * string) (ev : event)
    : option (OutboxPublisherConfig * Z * claimedOutbox) :=
  match ev with
  | EvClaim cfg now m => if bool_decide (claim_row_key m = key) then Some (cfg, now, m) else None
  | _ => None
  end.

Definition claims (key : string * string) (evs : list event) := omap (claim_of key) evs.

Definition terminal (r : outbox_row) : bool := is_some (orow_published r) || is_some (orow_dead r).

(** ** Invariant *)

Record row_ok `{Columns} (evs : list event) (key : string * string) (r : outbox_row) : Prop := {
  row_id : out_ID (orow_message r) = key.2 /\ EvEnqueue key.1 (orow_message r) ∈ evs;
  row_claims : forall i c, claims key evs !! i = Some c ->
    co_AttemptCount c.2 = Z.of_nat i + 1 /\
    co_Publication c.2 = publication_of key.1 (orow_message r);
  row_count : Z.of_nat (length (claims key evs)) = orow_attempts r;
  row_holder : forall owner, orow_owner r = Some owner ->
    exists c, list.last (claims key evs) = Some c /\ owner = cfg_OwnerID c.1.1 /\
      orow_until r = Some (co_ClaimUntil c.2) /\ terminal r = false;
  row_free : orow_owner r = None -> orow_until r = None;
  row_recorded : forall cfg m reply, EvRecord cfg m reply (Ok tt) ∈ evs -> claim_row_key m = key ->
    co_AttemptCount m <= orow_attempts r /\
    (orow_owner r <> None -> co_AttemptCount m < orow_attempts r);
  row_last_recorded : forall c, list.last (claims key evs) = Some c -> orow_owner r = None ->
    exists reply, EvRecord c.1.1 c.2 reply (Ok tt) ∈ evs;
  row_published : is_some (orow_published r) = true ->
    orow_dead r = None /\
    exists cfg m ref, EvRecord cfg m (ref, None) (Ok tt) ∈ evs /\ orow_ref r = Some ref /\
      TrimSpace ref <> ""%string /\ co_Publication m = publication_of key.1 (orow_message r);
}.

Definition db_ok `{Columns} (evs : list event) (db : database) : Prop :=
  (forall key r, outbox_messages db !! key = Some r -> row_ok evs key r) /\
  (forall key, outbox_messages db !! key = None -> claims key evs = [] /\
     forall cfg m reply, EvRecord cfg m reply (Ok tt) ∈ evs -> claim_row_key m <> key).

(** ** Lemmas *)

Section Histories.
Context {columns : Columns}.

Lemma first_of_elem l x : first_of l = Some x -> x ∈ l.
Proof.
  revert x. induction l as [|a l IH]; simpl; intros x H; [done|].
  destruct (first_of l) as [b|]; [|simplify_eq; set_solver].
  case_match; simplify_eq; [|set_solver]. apply elem_of_cons. right. by apply IH.
Qed.

Lemma outbox_claim_effect cfg now locked begin commit db m :
  claimed_by cfg now locked begin commit db = Some m ->
  exists key r, outbox_messages db !! key = Some r /\ available now r = true /\
    m = mkClaimed (publication_of key.1 (orow_message r)) (orow_attempts r + 1)
          (now + cfg_LeaseDuration cfg) /\
    (claim cfg now locked begin commit db).1
    = set_outbox db (<[key := set_claim (Some (cfg_OwnerID cfg)) (Some (now + cfg_LeaseDuration cfg))
                                (orow_attempts r + 1) r]> (outbox_messages db)).
Proof.
  unfold claimed_by, claim. intros Hm. pose proof (transaction_cases db begin commit (claim_statement cfg now locked)) as Ht.
  rewrite Hm in Ht. destruct (WithinTransaction _ _ _ _) as [db' out]. destruct Ht as [Hc _].
  assert (E : (match out with Ok m0 => (db', Ok m0) | Err err =>
    (db', Err (if is_no_rows err then ErrNoRows else repositoryError "claim outbox message" err)) end).1 = db') by by destruct out.
  rewrite E. unfold claim_statement, candidate in Hc.
  destruct (first_of _) as [[key r]|] eqn:Hf; [|done].
  apply first_of_elem in Hf. apply list_elem_of_filter in Hf as [[Hav _] Hf].
  apply elem_of_map_to_list in Hf. cbv zeta in Hc. destruct (2 ^ 31 - 1 <? orow_attempts r + 1); [done|].
  injection Hc as <- <-. by exists key, r.
Qed.

(** A reported claim is one that took effect. *)
Lemma claim_reported cfg now locked begin commit db db' m :
  claim cfg now locked begin commit db = (db', Ok m) -> claimed_by cfg now locked begin commit db = Some m.
Proof.
  unfold claim, claimed_by. pose proof (transaction_cases db begin commit (claim_statement cfg now locked)) as Ht.
  destruct (WithinTransaction _ _ _ _) as [db1 [m1|e]]; [|done]. intros [= <- <-].
  destruct (transacted _ _ _ _); [|by destruct Ht]. destruct Ht as [_ Ht]. by rewrite (Ht m1).
Qed.

(** What a successful update of the claim does. *)
Lemma owned_effect cfg op m set db db' : ownedUpdate cfg op m set db = (db', Ok tt) ->
  exists r, outbox_messages db !! claim_row_key m = Some r /\ holds_claim cfg m r = true /\
    outbox_check (set r) = true /\
    db' = set_outbox db (<[claim_row_key m := set r]> (outbox_messages db)).
Proof.
  unfold ownedUpdate. destruct (outbox_messages db !! _) as [r|] eqn:Hr; [|done].
  destruct (holds_claim cfg m r) eqn:Hh; [|done]. destruct (outbox_check (set r)) eqn:Hc; [|done].
  intros [= <-]. exists r. auto.
Qed.

Lemma owned_failed cfg op m set db e : (ownedUpdate cfg op m set db).2 = Err e ->
  (ownedUpdate cfg op m set db).1 = db.
Proof. unfold ownedUpdate. repeat case_match; done. Qed.

Lemma holds_claim_spec cfg m r : holds_claim cfg m r = true <->
  orow_owner r = Some (cfg_OwnerID cfg) /\ orow_until r = Some (co_ClaimUntil m) /\
  orow_attempts r = co_AttemptCount m /\ terminal r = false.
Proof.
  unfold holds_claim, terminal. rewrite !andb_true_iff, !bool_decide_eq_true, Z.eqb_eq, orb_false_iff,
    !negb_true_iff. tauto.
Qed.

(** What recording the reply of a held claim does to the row. *)
Definition recorded (cfg : OutboxPublisherConfig) (m : claimedOutbox)
    (reply : string * option sink_error) (db db' : database) : Prop :=
  exists r r', outbox_messages db !! claim_row_key m = Some r /\ holds_claim cfg m r = true /\
    db' = set_outbox db (<[claim_row_key m := r']> (outbox_messages db)) /\
    orow_message r' = orow_message r /\ orow_attempts r' = orow_attempts r /\
    orow_owner r' = None /\ orow_until r' = None /\
    (is_some (orow_published r') = true -> orow_dead r' = None /\
       exists ref, reply = (ref, None) /\ TrimSpace ref <> ""%string /\ orow_ref r' = Some ref).

Lemma failed_recorded cfg random m reply class now db db' :
  markDeadLetter cfg m class now db = (db', Ok tt) \/
  releaseForRetry cfg random m class now db = (db', Ok tt) -> recorded cfg m reply db db'.
Proof.
  intros [H|H]; apply owned_effect in H as (r & Hr & Hh & _ & ->); exists r; eexists;
    (split_and!; [done|done|done|done..|]); simpl; intros Hp;
    apply holds_claim_spec in Hh as (_ & _ & _ & Ht); unfold terminal in Ht;
    rewrite Hp in Ht; discriminate Ht.
Qed.

Lemma record_effect cfg random m reply now db db' :
  record_reply cfg random m reply now db = (db', Ok tt) -> recorded cfg m reply db db'.
Proof.
  unfold record_reply. destruct reply as [ref [err|]].
  - intros H. eapply failed_recorded. case_match; [left|right]; exact H.
  - case_match eqn:Href; intros H.
    + eapply failed_recorded. case_match; [left|right]; exact H.
    + apply owned_effect in H as (r & Hr & Hh & _ & ->). exists r. eexists.
      split_and!; [done|done|done|done..|]. simpl. intros _.
      apply holds_claim_spec in Hh as (_ & _ & _ & Ht). unfold terminal in Ht.
      apply orb_false_iff in Ht as [_ Ht]. split; [by destruct (orow_dead r)|].
      exists ref. split_and!; auto. by apply String.eqb_neq.
Qed.

Lemma record_failed cfg random m reply now db e : (record_reply cfg random m reply now db).2 = Err e ->
  (record_reply cfg random m reply now db).1 = db.
Proof. unfold record_reply. repeat case_match; apply owned_failed. Qed.

Lemma outbox_claims_snoc key evs ev : claims key (evs ++ [ev]) = claims key evs ++ option_list (claim_of key ev).
Proof. unfold claims. rewrite omap_app. simpl. by destruct (claim_of key ev). Qed.

(** The event is no claim and no recorded outcome of the message. *)
Definition silent (key : string * string) (ev : event) : Prop :=
  claim_of key ev = None /\
  forall cfg m reply, ev = EvRecord cfg m reply (Ok tt) -> claim_row_key m <> key.

Lemma elem_snoc {A} (x : A) l y : x ∈ l ++ [y] <-> x ∈ l \/ x = y.
Proof. rewrite elem_of_app, list_elem_of_singleton. done. Qed.

Lemma row_ok_silent evs ev key r : silent key ev -> row_ok evs key r -> row_ok (evs ++ [ev]) key r.
Proof.
  intros [Hc Hs] [H1 H2 H3 H4 H5 H6 H7 H8].
  assert (E : claims key (evs ++ [ev]) = claims key evs) by by rewrite outbox_claims_snoc, Hc, app_nil_r.
  constructor; rewrite ?E; auto.
  - rewrite elem_snoc. tauto.
  - intros cfg m reply [Hin|Hin]%elem_snoc Hk; [by eapply H6|]. by destruct (Hs _ _ _ (eq_sym Hin)).
  - intros c Hl Ho. destruct (H7 c Hl Ho) as [reply Hin]. exists reply. apply elem_snoc. auto.
  - intros Hp. destruct (H8 Hp) as (Hd & cfg & m & ref & Hin & ?). split; [done|].
    exists cfg, m, ref. rewrite elem_snoc. tauto.
Qed.

Lemma none_silent evs ev key : silent key ev ->
  (claims key evs = [] /\ forall cfg m reply, EvRecord cfg m reply (Ok tt) ∈ evs -> claim_row_key m <> key) ->
  claims key (evs ++ [ev]) = [] /\
  forall cfg m reply, EvRecord cfg m reply (Ok tt) ∈ evs ++ [ev] -> claim_row_key m <> key.
Proof.
  intros [Hc Hs] [H1 H2]. split; [by rewrite outbox_claims_snoc, Hc, app_nil_r|].
  intros cfg m reply [Hin|Hin]%elem_snoc; [by eapply H2|]. by eapply Hs.
Qed.

Lemma row_ok_claimed evs key r cfg now m :
  row_ok evs key r -> available now r = true ->
  m = mkClaimed (publication_of key.1 (orow_message r)) (orow_attempts r + 1) (now + cfg_LeaseDuration cfg) ->
  row_ok (evs ++ [EvClaim cfg now m]) key
    (set_claim (Some (cfg_OwnerID cfg)) (Some (now + cfg_LeaseDuration cfg)) (orow_attempts r + 1) r).
Proof.
  intros [H1 H2 H3 H4 H5 H6 H7 H8] Hav Hm.
  assert (Hk : claim_row_key m = key).
  { rewrite Hm. unfold claim_row_key. simpl. destruct H1 as [-> _]. by destruct key. }
  assert (E : claims key (evs ++ [EvClaim cfg now m]) = claims key evs ++ [(cfg, now, m)]).
  { rewrite outbox_claims_snoc. simpl. by rewrite bool_decide_true. }
  unfold available in Hav. rewrite !andb_true_iff, !negb_true_iff in Hav.
  constructor; rewrite ?E; simpl.
  - rewrite elem_snoc. tauto.
  - intros i c [Hc|[Hi Hc]]%lookup_app_Some; [by apply H2|].
    apply list_lookup_singleton_Some in Hc as [Hi0 <-]. simpl. rewrite Hm. simpl. split; [lia|done].
  - rewrite length_app. simpl. lia.
  - intros owner [= <-]. exists (cfg, now, m). rewrite last_snoc, Hm. unfold terminal. simpl.
    destruct Hav as [[[-> ->] _] _]. done.
  - done.
  - intros c0 m0 reply Hin Hk0. apply elem_snoc in Hin as [Hin|]; [|done].
    destruct (H6 _ _ _ Hin Hk0). lia.
  - done.
  - intros Hp. destruct Hav as [[[Hp' _] _] _]. congruence.
Qed.

Lemma claim_in_claims cfg now m evs : EvClaim cfg now m ∈ evs ->
  (cfg, now, m) ∈ claims (claim_row_key m) evs.
Proof.
  intros H. unfold claims. apply list_elem_of_omap. exists (EvClaim cfg now m). split; [done|].
  simpl. by rewrite bool_decide_true.
Qed.

(** The holder of the current claim made the latest one. *)
Lemma holder_is_last evs key r cfg now0 m : row_ok evs key r -> EvClaim cfg now0 m ∈ evs ->
  claim_row_key m = key -> orow_attempts r = co_AttemptCount m ->
  list.last (claims key evs) = Some (cfg, now0, m).
Proof.
  intros [_ H2 H3 _ _ _ _ _] Hin Hk Hat. apply claim_in_claims in Hin. rewrite Hk in Hin.
  apply list_elem_of_lookup in Hin as [i Hi]. destruct (H2 _ _ Hi) as [Hn _]. simpl in Hn.
  rewrite last_lookup. replace (Nat.pred (length (claims key evs))) with i by lia. done.
Qed.

Lemma row_ok_recorded evs key r r' cfg now0 m reply :
  row_ok evs key r -> EvClaim cfg now0 m ∈ evs -> claim_row_key m = key ->
  holds_claim cfg m r = true ->
  orow_message r' = orow_message r -> orow_attempts r' = orow_attempts r ->
  orow_owner r' = None -> orow_until r' = None ->
  (is_some (orow_published r') = true -> orow_dead r' = None /\
     exists ref, reply = (ref, None) /\ TrimSpace ref <> ""%string /\ orow_ref r' = Some ref) ->
  row_ok (evs ++ [EvRecord cfg m reply (Ok tt)]) key r'.
Proof.
  intros Hrow Hin Hk Hh Em Ea Eo Eu Hp. apply holds_claim_spec in Hh as (Ho & Hu & Hat & Ht).
  pose proof (holder_is_last _ _ _ _ _ _ Hrow Hin Hk Hat) as Hlast.
  destruct Hrow as [H1 H2 H3 H4 H5 H6 H7 H8].
  assert (E : claims key (evs ++ [EvRecord cfg m reply (Ok tt)]) = claims key evs)
    by by rewrite outbox_claims_snoc, app_nil_r.
  constructor; rewrite ?E, ?Em, ?Ea, ?Eo; auto; try done.
  - rewrite elem_snoc. tauto.
  - intros c0 m0 reply0 [Hin0|Hin0]%elem_snoc Hk0.
    + destruct (H6 _ _ _ Hin0 Hk0) as [Hle _]. done.
    + injection Hin0 as -> -> ->. split; [lia|done].
  - intros c Hc _. rewrite Hlast in Hc. injection Hc as <-. exists reply. apply elem_snoc. by right.
  - intros Hpub. destruct (Hp Hpub) as (Hd & ref & -> & Hne & Hr). split; [done|].
    exists cfg, m, ref. rewrite elem_snoc. split_and!; auto.
    rewrite last_lookup in Hlast. destruct (H2 _ _ Hlast) as [_ Hpubl]. exact Hpubl.
Qed.

Lemma db_ok_insert evs ev db key r' : db_ok evs db ->
  (forall k, k <> key -> silent k ev) -> row_ok (evs ++ [ev]) key r' ->
  db_ok (evs ++ [ev]) (set_outbox db (<[key := r']> (outbox_messages db))).
Proof.
  intros [Hs Hn] Hsil Hr. split; simpl; intros k.
  - intros r [[<- <-]|[Hne Hk]]%lookup_insert_Some; [done|]. apply row_ok_silent; [|by apply Hs].
    apply Hsil. by apply not_eq_sym.
  - intros [Hk Hne]%lookup_insert_None. apply none_silent; [apply Hsil; by apply not_eq_sym|by apply Hn].
Qed.

Lemma db_ok_silent evs ev db db' : db_ok evs db -> (forall k, silent k ev) ->
  outbox_messages db' = outbox_messages db -> db_ok (evs ++ [ev]) db'.
Proof.
  intros [Hs Hn] Hsil E. split; intros k; rewrite E; intros.
  - apply row_ok_silent; auto.
  - apply none_silent; auto.
Qed.

Lemma new_row_ok evs key v : out_ID v = key.2 -> EvEnqueue key.1 v ∈ evs -> claims key evs = [] ->
  (forall cfg m reply, EvRecord cfg m reply (Ok tt) ∈ evs -> claim_row_key m <> key) ->
  row_ok evs key (new_row v).
Proof.
  intros Hid Hen Hc Hr. constructor; rewrite ?Hc; simpl; try done.
  - intros cfg m reply Hin Hk. by destruct (Hr _ _ _ Hin).
Qed.

Lemma db_ok_step evs db ev db' : db_ok evs db -> step evs db ev db' -> db_ok (evs ++ [ev]) db'.
Proof.
  intros Hok Hs. destruct Hs as [tenant v db' He|cfg now locked begin commit m Hc
                                |cfg now0 m random reply now Hin|db' E].
  - unfold Enqueue in He. repeat case_match; simplify_eq/=.
    destruct Hok as [Hs Hn]. destruct (outbox_messages db !! (tenant, out_ID v)) eqn:Hx; [done|].
    apply db_ok_insert; [done|by split|]. destruct (Hn _ Hx) as [Hcl Hre].
    assert (silent (tenant, out_ID v) (EvEnqueue tenant v)) as Hsil by by split.
    destruct (none_silent evs _ _ Hsil (conj Hcl Hre)). apply new_row_ok; [done| |done..]. apply elem_snoc. by right.
  - apply outbox_claim_effect in Hc as (key & r & Hr & Hav & Hm & ->).
    pose proof (proj1 Hok _ _ Hr) as Hrow. apply db_ok_insert; [done| |by apply row_ok_claimed].
    intros k Hk. split; [|done]. simpl. rewrite bool_decide_false; [done|]. intros E.
    apply Hk. rewrite <- E, Hm. unfold claim_row_key. simpl. destruct Hrow as [[-> _] _ _ _ _ _ _ _].
    by destruct key.
  - destruct (record_reply cfg random m reply now db) as [db' [[]|e]] eqn:Hrec; simpl.
    + apply record_effect in Hrec as (r & r' & Hr & Hh & -> & H1 & H2 & H3 & H4 & H5).
      apply db_ok_insert; [done| |by eapply row_ok_recorded; [apply (proj1 Hok)|..]].
      intros k Hk. split; [done|]. intros ? ? ? [= _ <- _]. by apply not_eq_sym.
    + pose proof (record_failed cfg random m reply now db e) as Hf. rewrite Hrec in Hf. simpl in Hf.
      rewrite (Hf eq_refl). by apply (db_ok_silent evs _ db).
  - by apply (db_ok_silent evs _ db).
Qed.

Lemma history_db_ok db0 evs db : outbox_messages db0 = ∅ -> history db0 evs db -> db_ok evs db.
Proof.
  intros H0 H. induction H as [|evs db ev db' _ IH Hs]; [|by eapply db_ok_step].
  split; intros key; rewrite H0, lookup_empty; [done|]. intros _. split; [done|]. set_solver.
Qed.

Lemma terminal_step evs db ev db' key r : step evs db ev db' ->
  outbox_messages db !! key = Some r -> terminal r = true -> outbox_messages db' !! key = Some r.
Proof.
  intros Hs Hr Ht. destruct Hs as [tenant v db' He|cfg now locked begin commit m Hc
                                  |cfg now0 m random reply now Hin|db' E].
  - unfold Enqueue in He. repeat case_match; simplify_eq/=. rewrite lookup_insert_ne; [done|].
    intros Hk. subst key. by rewrite Hr in *.
  - apply outbox_claim_effect in Hc as (k & r0 & Hr0 & Hav & _ & ->). simpl.
    rewrite lookup_insert_ne; [done|]. intros <-. assert (r0 = r) as -> by congruence.
    unfold available in Hav. unfold terminal in Ht. rewrite !andb_true_iff, !negb_true_iff in Hav.
    destruct Hav as [[[Hp Hd] _] _]. by rewrite Hp, Hd in Ht.
  - destruct (record_reply cfg random m reply now db) as [db' [[]|e]] eqn:Hrec; simpl.
    + apply record_effect in Hrec as (r0 & r' & Hr0 & Hh & -> & _). simpl.
      rewrite lookup_insert_ne; [done|]. intros <-. assert (r0 = r) as -> by congruence.
      apply holds_claim_spec in Hh as (_ & _ & _ & Ht'). congruence.
    + pose proof (record_failed cfg random m reply now db e) as Hf. rewrite Hrec in Hf. simpl in Hf.
      by rewrite (Hf eq_refl).
  - by rewrite E.
Qed.

End Histories.

Lemma backoff_loop_spec n maximum delay : 0 < delay <= maximum -> maximum <= max_int64 ->
  backoff_loop n maximum delay = Z.min maximum (delay * 2 ^ Z.of_nat n).
Proof.
  revert delay. induction n as [|n IH]; intros delay Hd Hm; simpl backoff_loop; [simpl Z.of_nat; lia|].
  assert (1 <= 2 ^ Z.of_nat n) as Hp by lia.
  rewrite Nat2Z.inj_succ, Z.pow_succ_r by lia.
  destruct (Z.ltb_spec delay maximum); [|nia].
  rewrite Z.quot_div_nonneg by lia. pose proof (Z.div_mod maximum 2). pose proof (Z.mod_pos_bound maximum 2).
  destruct (Z.ltb_spec (maximum / 2) delay).
  - rewrite IH by lia. nia.
  - rewrite wrap_int64_id by (unfold is_int64, min_int64, max_int64 in *; lia). rewrite IH by lia.
    f_equal. lia.
Qed.

(** ** Theorems *)

(** C8: along every history of any number of publishers, a publisher records the
    outcome of a message only while its claim is the latest one and was not
    recorded before, so every claim is recorded at most once; and a message is
    claimed again only when the previous claim was recorded or its lease ended. *)
Theorem outbox_lease_exclusive {columns : Columns} db0 evs db : outbox_messages db0 = ∅ -> history db0 evs db ->
  (forall cfg now0 m random reply now db', EvClaim cfg now0 m ∈ evs ->
     record_reply cfg random m reply now db = (db', Ok tt) ->
     list.last (claims (claim_row_key m) evs) = Some (cfg, now0, m) /\
     forall cfg' m' reply', EvRecord cfg' m' reply' (Ok tt) ∈ evs ->
       claim_row_key m' = claim_row_key m -> co_AttemptCount m' < co_AttemptCount m) /\
  (forall cfg now locked begin commit m db', claim cfg now locked begin commit db = (db', Ok m) ->
     co_AttemptCount m = Z.of_nat (length (claims (claim_row_key m) evs)) + 1 /\
     forall cfg1 now1 m1, list.last (claims (claim_row_key m) evs) = Some (cfg1, now1, m1) ->
       co_ClaimUntil m1 <= now \/ exists reply, EvRecord cfg1 m1 reply (Ok tt) ∈ evs).
Proof.
  intros H0 H. pose proof (history_db_ok _ _ _ H0 H) as [Hok _]. split.
  - intros cfg now0 m random reply now db' Hin Hrec.
    apply record_effect in Hrec as (r & _ & Hr & Hh & _). pose proof (Hok _ _ Hr) as Hrow.
    apply holds_claim_spec in Hh as (Ho & _ & Hat & _).
    split; [by eapply holder_is_last|]. intros cfg' m' reply' Hin' Hk'.
    destruct (row_recorded _ _ _ Hrow _ _ _ Hin' Hk') as [_ Hlt].
    rewrite Hat in Hlt. apply Hlt. by rewrite Ho.
  - intros cfg now locked begin commit m db' Hc%claim_reported.
    apply outbox_claim_effect in Hc as (key & r & Hr & Hav & Hm & _). pose proof (Hok _ _ Hr) as Hrow.
    assert (Hk : claim_row_key m = key).
    { rewrite Hm. unfold claim_row_key. simpl. rewrite (proj1 (row_id _ _ _ Hrow)). by destruct key. }
    rewrite Hk. split; [rewrite (row_count _ _ _ Hrow), Hm; done|].
    intros cfg1 now1 m1 Hlast. destruct (orow_owner r) as [o|] eqn:Ho.
    + left. destruct (row_holder _ _ _ Hrow _ Ho) as (c & Hc & _ & Hu & _).
      rewrite Hlast in Hc. injection Hc as <-. unfold available in Hav. rewrite Hu in Hav. simpl in Hav.
      rewrite !andb_true_iff in Hav. apply Z.leb_le. tauto.
    + right. destruct (row_last_recorded _ _ _ Hrow _ Hlast Ho) as [reply Hin]. by exists reply.
Qed.

(** C37: a message that was published was enqueued, was handed to the sink with the
    identifiers, the topic, the type and the payload digest it was enqueued with and
    with its payload as a [jsonb] column gives it back, was accepted under a reference
    that is not blank, and is no dead letter; and a published or dead message never
    changes again. *)
Theorem outbox_delivery {columns : Columns} db0 evs db key r : outbox_messages db0 = ∅ -> history db0 evs db ->
  outbox_messages db !! key = Some r ->
  (is_some (orow_published r) = true -> orow_dead r = None /\
     exists v cfg m ref, EvEnqueue key.1 v ∈ evs /\ EvRecord cfg m (ref, None) (Ok tt) ∈ evs /\
       orow_ref r = Some ref /\ TrimSpace ref <> ""%string /\
       co_Publication m = mkPublication key.1 key.2 (out_EventID v) (out_Topic v) (out_EventType v)
                            (jsonb (out_SafePayload v)) (out_PayloadDigest v) (timestamptz (out_CreatedAt v))) /\
  (terminal r = true -> forall ev db', step evs db ev db' -> outbox_messages db' !! key = Some r).
Proof.
  intros H0 H Hr. pose proof (history_db_ok _ _ _ H0 H) as [Hok _]. split.
  - destruct (Hok _ _ Hr) as [[Hid Hen] _ _ _ _ _ _ Hp]. intros Hpub.
    destruct (Hp Hpub) as (Hd & cfg & m & ref & Hrec & Href & Hne & Hm). split; [done|].
    exists (orow_message r), cfg, m, ref. split_and!; auto. rewrite Hm. unfold publication_of. by rewrite Hid.
  - intros Ht ev db' Hs. by eapply terminal_step.
Qed.

(** before jitter, the delay doubles from the base with every attempt up to
    the maximum; the computation never overflows. *)
Theorem backoff_exact cfg attempt : NewOutboxPublisher false false cfg = Ok tt ->
  cfg_MaxBackoff cfg <= max_int64 -> 1 <= attempt ->
  backoff_base cfg attempt = Z.min (cfg_MaxBackoff cfg) (cfg_BaseBackoff cfg * 2 ^ (attempt - 1)).
Proof.
  unfold NewOutboxPublisher. simpl. destruct (_ || _) eqn:Hc; [done|]. intros _ Hm Ha.
  rewrite !orb_false_iff, Z.leb_gt, Z.ltb_ge in Hc. destruct Hc as [[[[_ Hb] Hmx] _] _].
  apply Z.leb_gt in Hb. apply Z.ltb_ge in Hmx. unfold backoff_base.
  rewrite backoff_loop_spec by lia. rewrite Z2Nat.id by lia.
  destruct (Z.ltb_spec (cfg_MaxBackoff cfg)
              (Z.min (cfg_MaxBackoff cfg) (cfg_BaseBackoff cfg * 2 ^ (attempt - 1)))); lia.
Qed.

(** ** Witnesses: a transient failure of one publisher, then success of another *)

#[local] Instance ex_columns : Columns := {| jsonb := fun s => " " +:+ s; timestamptz := fun t => t / 1000 * 1000 |}.

Definition ex_cfg (owner : string) : OutboxPublisherConfig :=
  mkOutboxConfig owner Second 5 Second (60 * Second) (S754_zero false).
Definition ex_message : OutboxMessage :=
  mkOutbox "o" "e" "evidence" "authorization.decision" "{}" "0123456789abcdef0123456789abcdef" 1000 1000.
Definition ex_key : string * string := ("t", "o")%string.
Definition ex_db0 : database := empty_database ∅.
Definition ex_db1 : database :=
  set_outbox ex_db0 (<[ex_key := new_row ex_message]> (outbox_messages ex_db0)).
Definition ex_claim (owner : string) (now : Z) (db : database) :=
  claim (ex_cfg owner) now ∅ (Ok tt) Committed db.
Definition ex_claimed (attempt until : Z) : claimedOutbox :=
  mkClaimed (publication_of "t" ex_message) attempt until.
Definition ex_db2 : database := (ex_claim "a" 2000 ex_db1).1.
Definition ex_m1 : claimedOutbox := ex_claimed 1 (2000 + Second).
Definition ex_fail : string * option sink_error := (EmptyString, Some (PublicationError "transient" ErrNoRows)).
Definition ex_db3 : database :=
  (record_reply (ex_cfg "a") (S754_zero false) ex_m1 ex_fail 3000 ex_db2).1.
Definition ex_db4 : database := (ex_claim "b" (3000 + Second) ex_db3).1.
Definition ex_m2 : claimedOutbox := ex_claimed 2 (3000 + Second + Second).
Definition ex_ok : string * option sink_error := ("ref"%string, None).
Definition ex_db5 : database :=
  (record_reply (ex_cfg "b") (S754_zero false) ex_m2 ex_ok 4000 ex_db4).1.
Definition ex_events4 : list event :=
  ((([] ++ [EvEnqueue "t" ex_message]) ++ [EvClaim (ex_cfg "a") 2000 ex_m1])
   ++ [EvRecord (ex_cfg "a") ex_m1 ex_fail
         (record_reply (ex_cfg "a") (S754_zero false) ex_m1 ex_fail 3000 ex_db2).2])
  ++ [EvClaim (ex_cfg "b") (3000 + Second) ex_m2].
Definition ex_events5 : list event :=
  ex_events4 ++ [EvRecord (ex_cfg "b") ex_m2 ex_ok
                   (record_reply (ex_cfg "b") (S754_zero false) ex_m2 ex_ok 4000 ex_db4).2].

Lemma ex_history4 : history ex_db0 ex_events4 ex_db4.
Proof.
  repeat eapply history_snoc; [apply history_nil|apply (step_enqueue _ _ _ _ ex_db1); vm_compute; reflexivity| |
    apply (step_record _ _ _ 2000); set_solver|].
  - apply (step_claim _ _ _ _ ∅ (Ok tt) Committed). vm_compute. reflexivity.
  - apply (step_claim _ _ _ _ ∅ (Ok tt) Committed). vm_compute. reflexivity.
Qed.

Lemma ex_history5 : history ex_db0 ex_events5 ex_db5.
Proof.
  eapply history_snoc; [apply ex_history4|]. apply (step_record _ _ _ (3000 + Second)). set_solver.
Qed.

Lemma outbox_lease_exclusive_witness :
  record_reply (ex_cfg "b") (S754_zero false) ex_m2 ex_ok 4000 ex_db4 = (ex_db5, Ok tt) /\
  list.last (claims ex_key ex_events4) = Some (ex_cfg "b", 3000 + Second, ex_m2).
Proof.
  assert (Hr : record_reply (ex_cfg "b") (S754_zero false) ex_m2 ex_ok 4000 ex_db4 = (ex_db5, Ok tt))
    by (vm_compute; reflexivity).
  split; [exact Hr|].
  destruct (outbox_lease_exclusive ex_db0 ex_events4 ex_db4 eq_refl ex_history4) as [Hx _].
  refine (proj1 (Hx _ (3000 + Second) _ _ _ _ _ _ Hr)). apply elem_of_app. right.
  apply list_elem_of_singleton. reflexivity.
Defined.

Lemma outbox_delivery_witness :
  exists r, outbox_messages ex_db5 !! ex_key = Some r /\ orow_dead r = None /\
    exists v cfg m ref, EvEnqueue "t" v ∈ ex_events5 /\ EvRecord cfg m (ref, None) (Ok tt) ∈ ex_events5 /\
      orow_ref r = Some ref.
Proof.
  assert (H : exists r, outbox_messages ex_db5 !! ex_key = Some r /\ is_some (orow_published r) = true)
    by (eexists; vm_compute; split; reflexivity).
  destruct H as (r & Hr & Hp). exists r. split; [exact Hr|].
  destruct (outbox_delivery ex_db0 ex_events5 ex_db5 ex_key r eq_refl ex_history5 Hr) as [Hd _].
  destruct (Hd Hp) as (Hdead & v & cfg & m & ref & Hen & Hin & Href & _). split; [exact Hdead|].
  exists v, cfg, m, ref. split; [exact Hen|]. split; [exact Hin|exact Href].
Defined.

Lemma backoff_exact_witness : backoff_base (ex_cfg "a") 4 = 8 * Second.
Proof.
  rewrite (backoff_exact (ex_cfg "a") 4); [vm_compute; reflexivity|vm_compute; reflexivity| |lia].
  vm_compute. discriminate.
Defined.
