(* ===== verification/Ledger.v ===== *)
(** * Evidence and the invocation ledger

    [internal/adapters/postgres/protected_mutation.go] and
    [invocation_ledger.go], with the repositories they use: a protected mutation
    is committed together with its audit event and at least one outbox message
    that publishes it, or not at all; the ledger presents the acquisition of
    logical calls and the recording of authorization decisions to the
    application. *)
From Stdlib Require Import Ascii String.
From stdpp Require Import sorting.
From S2P Require Import Prelude GoStd Regex Sha256 Json JsonParse Primitives ToolCatalog Ports Database Acquisition Outbox.

(** ** Repositories *)

(** [DecisionRepository.RecordAuthorization] *)
Definition Decisions_RecordAuthorization (tenant invocationID decisionID : string) (v : DecisionRow)
    (db : database) : result database :=
  let key := (tenant, invocationID, decisionID) in
  in_repository "record authorization decision" (
    if String.eqb decisionID "" || negb (slen (drow_ContextDigest v) =? 32)
       || negb (slen (drow_ArgumentDigest v) =? 32) || negb (slen (drow_ResourceDigest v) =? 32)
       || negb (one_of_str (drow_Outcome v) ["allow"; "deny"]) || String.eqb (drow_PolicyRef v) ""
       || negb (unmarshals_raw_object (drow_Constraints v))
       || (drow_ExpiresAt v <=? drow_IssuedAt v)
       || bool_decide (drow_Checkpoint v = Some ""%string) then
      Err (constraint_violation "authorization_decisions_check")
    else if is_some (authorization_decisions db !! key) then
      Err (constraint_violation "authorization_decisions_pkey")
    else if negb (is_some (invocations db !! (tenant, invocationID))) then
      Err (constraint_violation "authorization_decisions_tenant_id_invocation_id_fkey")
    else Ok (set_decisions db (<[key := v]> (authorization_decisions db)))).

(** [AuditRepository.Record] *)
Definition Audit_Record (tenant : string) (v : AuditEvent) (db : database) : result database :=
  let key := (tenant, aud_EventID v) in
  in_repository "record audit event" (
    if String.eqb (aud_EventType v) "" || String.eqb (aud_EvidenceProfile v) ""
       || String.eqb (aud_ActorClass v) "" || String.eqb (aud_Outcome v) ""
       || negb (unmarshals_raw_object (aud_Correlation v))
       || negb (unmarshals_raw_object (aud_SafePayload v)) || negb (slen (aud_PayloadDigest v) =? 32)
       || bool_decide (aud_ActorRef v = Some ""%string) || bool_decide (aud_ReasonCode v = Some ""%string)
       || (aud_RecordedAt v <? aud_OccurredAt v) then
      Err (constraint_violation "audit_events_check")
    else if is_some (audit_events db !! key) then Err (constraint_violation "audit_events_pkey")
    else if match aud_InvocationID v with
            | Some id => negb (is_some (invocations db !! (tenant, id)))
            | None => false
            end then Err (constraint_violation "audit_events_tenant_id_invocation_id_fkey")
    else Ok (set_audit db (<[key := v]> (audit_events db)))).

(** [InvocationRepository.GetToolCallView] *)
Definition GetToolCallView `{Columns} (tenant runID toolCallID : string) (db : database) : result ToolCallView :=
  match List.find (fun kv => String.eqb kv.1.1 tenant && String.eqb (row_RunID kv.2) runID
                        && String.eqb (row_ToolCallID kv.2) toolCallID)
          (map_to_list (invocations db)) with
  | None => Err (repositoryError "get tool call" ErrNoRows)
  | Some (key, v) =>
      let safe_result := if String.eqb (row_State v) "succeeded"
                         then execution_results db !! key ≫= res_SafeResult else None in
      Ok (mkView (row_ToolCallID v) (row_ToolID v) (row_ToolVersion v) (row_State v)
            (default ""%string (jsonb <$> safe_result)) (row_TerminalCode v) (timestamptz (row_CreatedAt v))
            (timestamptz (row_UpdatedAt v)))
  end.

(** ** Protected mutations *)

Record ProtectedMutationRecords := mkRecords {
  pm_Audit : AuditEvent;
  pm_Outbox : list OutboxMessage;
}.

Definition invalidProtectedMutation (message : string) : goerror :=
  NewError CodeInvalidArgument message (Some (ErrNew message)).

Definition jsonObject (value : string) : bool :=
  negb (slen value =? 0) && json_Valid value && unmarshals_raw_object value.

Definition blank (s : string) : bool := String.eqb (TrimSpace s) "".

Fixpoint validate_messages (audit : AuditEvent) (seenTopics : gset string) (l : list OutboxMessage)
    : result unit :=
  match l with
  | [] => Ok tt
  | message :: l =>
      if negb (is_ok (ParseUUID (out_ID message))) then
        Err (invalidProtectedMutation "outbox ID must be a UUID")
      else if negb (String.eqb (out_EventID message) (aud_EventID audit))
              || negb (String.eqb (out_EventType message) (aud_EventType audit)) then
        Err (invalidProtectedMutation "outbox event identity and type must match the audit event")
      else if blank (out_Topic message) || negb (slen (out_PayloadDigest message) =? 32)
              || IsZero (out_CreatedAt message) || (out_AvailableAt message <? out_CreatedAt message)
              || negb (jsonObject (out_SafePayload message)) then
        Err (invalidProtectedMutation "outbox topic, payload, digest, and ordered timestamps are required")
      else if bool_decide (out_Topic message ∈ seenTopics) then
        Err (invalidProtectedMutation "outbox topics must be unique within a protected mutation")
      else validate_messages audit ({[out_Topic message]} ∪ seenTopics) l
  end.

Definition validateProtectedMutationRecords (records : ProtectedMutationRecords) : result unit :=
  let audit := pm_Audit records in
  if negb (is_ok (ParseUUID (aud_EventID audit))) then
    Err (invalidProtectedMutation "audit event ID must be a UUID")
  else if blank (aud_EventType audit) || blank (aud_EvidenceProfile audit)
          || blank (aud_ActorClass audit) || blank (aud_Outcome audit) then
    Err (invalidProtectedMutation
           "audit event type, evidence profile, actor class, and outcome are required")
  else if negb (slen (aud_PayloadDigest audit) =? 32) || IsZero (aud_OccurredAt audit)
          || (aud_RecordedAt audit <? aud_OccurredAt audit) then
    Err (invalidProtectedMutation "audit digest and ordered timestamps are required")
  else if negb (jsonObject (aud_Correlation audit)) || negb (jsonObject (aud_SafePayload audit)) then
    Err (invalidProtectedMutation "audit correlation and safe payload must be JSON objects")
  else match pm_Outbox records with
       | [] => Err (invalidProtectedMutation "at least one outbox publication is required")
       | l => validate_messages audit ∅ l
       end.

Fixpoint enqueue_all (tenant : string) (l : list OutboxMessage) (db : database) : result database :=
  match l with
  | [] => Ok db
  | message :: l => Enqueue tenant message db ≫= enqueue_all tenant l
  end.

(** [Execute], with the callback as a function on the database of the
    transaction. *)
Definition Execute (tenant : string) (records : ProtectedMutationRecords)
    (mutation : option (database -> result database)) (begin : result unit) (commit : commit_reply) (db : database)
    : database * result unit :=
  match mutation with
  | None => (db, Err (invalidProtectedMutation "protected mutation callback is required"))
  | Some mutation =>
      match validateProtectedMutationRecords records with
      | Err err => (db, Err err)
      | Ok _ =>
          WithinTransaction db begin commit (fun db =>
            match mutation db with
            | Err err => Err (ErrWrap "apply protected mutation" err)
            | Ok db1 =>
                Audit_Record tenant (pm_Audit records) db1 ≫= fun db2 =>
                enqueue_all tenant (pm_Outbox records) db2 ≫= fun db3 =>
                Ok (db3, tt)
            end)
      end
  end.

(** ** The ledger *)

Record InvocationLedger := mkLedger {
  led_tenantID : string; led_ownerID : string; led_lease : Z; led_maxRecoveries : Z;
}.

(** [acquirer_nil], [db_nil] and [clock_nil] are the comparisons with nil. *)
Definition NewInvocationLedger (acquirer_nil db_nil clock_nil : bool) (tenantID ownerID : string)
    (lease maxRecoveries : Z) : result InvocationLedger :=
  if acquirer_nil || db_nil || String.eqb ownerID "" || (lease <=? 0) || (5 * Minute <? lease)
     || (maxRecoveries <? 0) || (10 <? maxRecoveries) || clock_nil then
    Err (ErrNew "invocation ledger configuration is invalid")
  else
    match ParseUUID tenantID with
    | Err err => Err (ErrWrap "invalid repository tenant ID" err)
    | Ok _ => Ok (mkLedger tenantID ownerID lease maxRecoveries)
    end.

(** [copy] into a 32-byte array. *)
Definition to_digest (s : string) : Digest :=
  String.substring 0 32 (s +:+ str_of (replicate 32 (byte 0))).

Definition portInvocation (v : Invocation) : LogicalInvocation :=
  mkInvocation (row_ID v) (row_RunID v) (row_ToolCallID v) (row_ToolID v) (row_ToolVersion v)
    (row_ArgumentProfile v) (to_digest (row_ArgumentDigest v)) (to_digest (row_ResourceDigest v))
    (row_ResourceProjection v) (row_RetryClass v) (row_State v) (row_CreatedAt v) (row_UpdatedAt v).

(** The row of [InvocationLedger.Acquire]. *)
Definition invocation_row (value : LogicalInvocation) : Invocation :=
  mkRow (inv_ID value) (inv_RunID value) (inv_ToolCallID value) (inv_ToolID value)
    (inv_ToolVersion value) (inv_ArgumentProfile value) (inv_ArgumentDigest value)
    (inv_ResourceDigest value) (inv_ResourceProjection value) (inv_RetryClass value)
    (inv_State value) 1 None None (inv_CreatedAt value) (inv_UpdatedAt value).

Definition Ledger_Acquire `{Columns} (ledger : InvocationLedger) (identity : InvocationIdentity)
    (value : LogicalInvocation) (now : Z) (begin : result unit) (commit : commit_reply) (db : database)
    : database * result InvocationAcquisition :=
  if negb (String.eqb (id_TenantID identity) (led_tenantID ledger))
     || negb (String.eqb (id_RunID identity) (inv_RunID value)) then
    (db, Err (NewError CodeInvalidArgument "invocation scope does not match the tenant ledger" None))
  else
    let request := mkAcquisitionRequest (invocation_row value) (led_ownerID ledger) now
                     (led_lease ledger) (led_maxRecoveries ledger) in
    match Acquire (led_tenantID ledger) request begin commit db with
    | (db', Err err) => (db', Err err)
    | (db', Ok acquired) =>
        let kind :=
          if String.eqb (acq_Kind_ acquired) AcquisitionConflict then InvocationConflict
          else if String.eqb (acq_Kind_ acquired) AcquisitionOwned
                  || String.eqb (acq_Kind_ acquired) AcquisitionRecovered then InvocationOwned
          else InvocationExisting in
        (db', Ok (mkAcquisition kind (portInvocation (acq_Row acquired))))
    end.

(** [json.Marshal] of the constraints; an empty slice or map is the nil one. *)
Definition json_strings (l : list string) : string :=
  match l with [] => "null"%string | l => json_array (map json_string l) end.

Definition key_before (a b : string * Z) : Prop := str_ltb b.1 a.1 = false.
#[global] Instance key_before_dec : RelDecision key_before.
Proof. intros a b. unfold key_before. apply _. Defined.

Definition constraints_json (c : AuthorizationConstraints) : string :=
  json_object
    [("Repositories", json_strings (Repositories c)); ("Resources", json_strings (Resources c));
     ("Actions", json_strings (Actions c));
     ("ArgumentMax",
      match merge_sort key_before (map_to_list (ArgumentMax c)) with
      | [] => "null"
      | l => json_object (map (fun kv => (kv.1, json_int kv.2)) l)
      end);
     ("MaxResultBytes", json_int (MaxResultBytes c)); ("MaxDuration", json_int (MaxDuration c))]%string.

(** The records of one decision; a map is encoded with its keys in order. *)
Definition decision_row (decision : AuthorizationDecision) (contextDigest argumentDigest resourceDigest : Digest)
    (at_ : Z) : DecisionRow :=
  mkDecisionRow contextDigest argumentDigest resourceDigest (Outcome decision)
    (PolicyID decision +:+ "@" +:+ dec_PolicyVersion decision) (constraints_json (Constraints decision))
    (IssuedAt decision) (ExpiresAt decision) at_ (Some (RevocationCheckpoint decision)).

Definition decision_records (identity : InvocationIdentity) (invocationID : string)
    (decision : AuthorizationDecision) (eventID outboxID : UUID) (at_ : Z) : ProtectedMutationRecords :=
  let event := UUID_String eventID in
  let correlation := json_object [("decision_id", json_string (DecisionID decision));
    ("invocation_id", json_string invocationID); ("run_id", json_string (id_RunID identity))]%string in
  let payload := json_object [("decision_id", json_string (DecisionID decision));
    ("event_id", json_string event); ("event_type", json_string "authorization.decision");
    ("invocation_id", json_string invocationID); ("outcome", json_string (Outcome decision))]%string in
  let digest := DigestBytes payload in
  mkRecords
    (mkAudit event (Some invocationID) "authorization.decision" "tg.evidence/v1alpha1" "workload"
       (Some (id_WorkloadID identity)) (Outcome decision) None correlation payload digest at_ at_)
    [mkOutbox (UUID_String outboxID) event "evidence" "authorization.decision" payload digest at_ at_].

(** [now1], [now2] and [random1], [random2] are the clock and the entropy of the
    two ids. *)
Definition Ledger_RecordAuthorization (ledger : InvocationLedger) (identity : InvocationIdentity)
    (invocationID : string) (decision : AuthorizationDecision) (argumentDigest resourceDigest : Digest)
    (at_ now1 now2 : Z) (random1 random2 : nat -> result string) (begin : result unit) (commit : commit_reply)
    (db : database) : database * result unit :=
  if negb (String.eqb (id_TenantID identity) (led_tenantID ledger)) then
    (db, Err (NewError CodeInvalidArgument "authorization scope does not match the tenant ledger" None))
  else
    match ParseDigest (ContextDigest decision) with
    | Err err => (db, Err (NewError CodeInternal "authorization context digest is invalid" (Some err)))
    | Ok contextDigest =>
        match NewUUIDv7From now1 random1, NewUUIDv7From now2 random2 with
        | Err err, _ => (db, Err (NewError CodeInternal
                               "authorization evidence identity could not be created" (Some err)))
        | _, Err err => (db, Err (NewError CodeInternal
                               "authorization publication identity could not be created" (Some err)))
        | Ok eventID, Ok outboxID =>
            Execute (led_tenantID ledger)
              (decision_records identity invocationID decision eventID outboxID at_)
              (Some (Decisions_RecordAuthorization (led_tenantID ledger) invocationID (DecisionID decision)
                       (decision_row decision contextDigest argumentDigest resourceDigest at_)))
              begin commit db
        end
    end.

Definition Ledger_GetToolCall `{Columns} (ledger : InvocationLedger) (identity : InvocationIdentity)
    (toolCallID : string) (db : database) : result ToolCallView :=
  if negb (String.eqb (id_TenantID identity) (led_tenantID ledger)) || String.eqb (id_RunID identity) "" then
    Err (NewError CodeNotFound "tool call was not found" None)
  else
    match ParseUUID (id_TenantID identity) with
    | Err err => Err (ErrWrap "invalid repository tenant ID" err)
    | Ok tenant => GetToolCallView (UUID_String tenant) (id_RunID identity) toolCallID db
    end.

(** ** Lemmas *)

Lemma Audit_effect tenant v db db' : Audit_Record tenant v db = Ok db' ->
  audit_events db !! (tenant, aud_EventID v) = None /\
  db' = set_audit db (<[(tenant, aud_EventID v) := v]> (audit_events db)).
Proof.
  unfold Audit_Record. intros H. repeat case_match; simplify_eq/=; split; try done;
    by destruct (audit_events db !! (tenant, aud_EventID v)).
Qed.

Lemma Enqueue_effect tenant v db db' : Enqueue tenant v db = Ok db' ->
  outbox_messages db !! (tenant, out_ID v) = None /\
  db' = set_outbox db (<[(tenant, out_ID v) := new_row v]> (outbox_messages db)).
Proof.
  unfold Enqueue. intros H. repeat case_match; simplify_eq/=; split; try done;
    by destruct (outbox_messages db !! (tenant, out_ID v)).
Qed.

Lemma Decision_effect tenant inv id v db db' : Decisions_RecordAuthorization tenant inv id v db = Ok db' ->
  authorization_decisions db !! (tenant, inv, id) = None /\
  is_some (invocations db !! (tenant, inv)) = true /\
  db' = set_decisions db (<[(tenant, inv, id) := v]> (authorization_decisions db)).
Proof.
  unfold Decisions_RecordAuthorization. intros H. repeat case_match; simplify_eq/=; split_and!; try done.
  - by destruct (authorization_decisions db !! (tenant, inv, id)).
  - by apply negb_false_iff.
Qed.

(** Enqueueing adds the rows of its messages and changes nothing else. *)
Lemma enqueue_all_effect tenant l db db' : enqueue_all tenant l db = Ok db' ->
  db' = set_outbox db (outbox_messages db') /\
  (forall v, v ∈ l -> outbox_messages db !! (tenant, out_ID v) = None /\
     outbox_messages db' !! (tenant, out_ID v) = Some (new_row v)) /\
  (forall key, (forall v, v ∈ l -> key <> (tenant, out_ID v)) ->
     outbox_messages db' !! key = outbox_messages db !! key).
Proof.
  revert db. induction l as [|v l IH]; simpl; intros db H.
  - injection H as <-. split; [by destruct db|]. split; [set_solver|done].
  - apply result_bind_Ok in H as (db1 & [Hn ->]%Enqueue_effect & H).
    destruct (IH _ H) as (E & Hin & Hout). simpl in Hin, Hout. split; [by rewrite E|].
    assert (Hv : forall w, w ∈ l -> (tenant, out_ID v) <> (tenant, out_ID w)).
    { intros w Hw Heq. destruct (Hin w Hw) as [Hw' _]. by rewrite <- Heq, lookup_insert_eq in Hw'. }
    split.
    + intros w [->|Hw]%elem_of_cons.
      * split; [done|]. rewrite Hout by done. apply lookup_insert_eq.
      * destruct (Hin w Hw) as [H1 H2]. rewrite lookup_insert_ne in H1 by (by apply Hv). done.
    + intros key Hkey. rewrite Hout by (intros w Hw; apply Hkey; set_solver).
      rewrite lookup_insert_ne; [done|]. apply not_eq_sym, Hkey. set_solver.
Qed.

Lemma validate_messages_match audit seen l : validate_messages audit seen l = Ok tt ->
  forall m, m ∈ l -> out_EventID m = aud_EventID audit /\ out_EventType m = aud_EventType audit.
Proof.
  revert seen. induction l as [|m0 l IH]; simpl; intros seen H m Hm; [set_solver|].
  destruct (negb (is_ok _)); [done|].
  destruct (negb (String.eqb (out_EventID m0) _) || _) eqn:E; [done|].
  destruct (_ || _) in H; [done|]. destruct (bool_decide _); [done|].
  apply elem_of_cons in Hm as [->|Hm]; [|by eapply IH].
  apply orb_false_iff in E as [E1 E2]. apply negb_false_iff in E1, E2.
  split; by apply String.eqb_eq.
Qed.

Lemma validate_records records : validateProtectedMutationRecords records = Ok tt ->
  pm_Outbox records <> [] /\
  forall m, m ∈ pm_Outbox records ->
    out_EventID m = aud_EventID (pm_Audit records) /\ out_EventType m = aud_EventType (pm_Audit records).
Proof.
  unfold validateProtectedMutationRecords. intros H. do 4 (case_match; [done|]).
  destruct (pm_Outbox records) eqn:E; [done|]. split; [done|]. by eapply validate_messages_match.
Qed.

Lemma key_before_total : Total key_before.
Proof.
  intros a b. unfold key_before. destruct (str_ltb b.1 a.1) eqn:E1; [right|by left].
  destruct (str_ltb a.1 b.1) eqn:E2; [|done]. apply str_ltb_lt in E1, E2. by destruct (str_lt_irrefl a.1 (str_lt_trans _ _ _ E2 E1)).
Qed.

(** The constraints are written member by member, the maxima by name. *)
Lemma constraints_text c :
  let names l := if bool_decide (l = []) then "null"%string else json_array (map json_string l) in
  exists maxima, maxima ≡ₚ map_to_list (ArgumentMax c) /\ Sorted key_before maxima /\
    constraints_json c = json_object
      [("Repositories", names (Repositories c)); ("Resources", names (Resources c)); ("Actions", names (Actions c));
       ("ArgumentMax", if bool_decide (maxima = []) then "null"
                       else json_object (map (fun kv => (kv.1, json_int kv.2)) maxima));
       ("MaxResultBytes", json_int (MaxResultBytes c)); ("MaxDuration", json_int (MaxDuration c))]%string.
Proof.
  assert (Hn : forall l, json_strings l = if bool_decide (l = []) then "null"%string else json_array (map json_string l))
    by (by intros []).
  exists (merge_sort key_before (map_to_list (ArgumentMax c))). split; [apply merge_sort_Permutation|].
  split; [apply Sorted_merge_sort; exact key_before_total|].
  unfold constraints_json. rewrite !Hn. by destruct (merge_sort _ _).
Qed.

(** What a committed protected mutation did, after the mutation itself. *)
Definition evidenced (tenant : string) (records : ProtectedMutationRecords) (db1 db' : database) : Prop :=
  let audit := pm_Audit records in
  audit_events db1 !! (tenant, aud_EventID audit) = None /\
  audit_events db' = <[(tenant, aud_EventID audit) := audit]> (audit_events db1) /\
  pm_Outbox records <> [] /\
  (forall m, m ∈ pm_Outbox records ->
     out_EventID m = aud_EventID audit /\ out_EventType m = aud_EventType audit /\
     outbox_messages db1 !! (tenant, out_ID m) = None /\
     outbox_messages db' !! (tenant, out_ID m) = Some (new_row m)) /\
  (forall key, (forall m, m ∈ pm_Outbox records -> key <> (tenant, out_ID m)) ->
     outbox_messages db' !! key = outbox_messages db1 !! key) /\
  db' = set_outbox (set_audit db1 (audit_events db')) (outbox_messages db').

(** A protected mutation that is not reported may have happened, but never in part. *)
Lemma Execute_cases tenant records mutation begin commit db :
  let '(db', out) := Execute tenant records (Some mutation) begin commit db in
  (db' = db /\ is_ok out = false) \/
  ((exists db1, mutation db = Ok db1 /\ evidenced tenant records db1 db') /\
   (is_ok out = false -> exists err, commit = CommitFailed err true)).
Proof.
  unfold Execute. destruct (validateProtectedMutationRecords records) as [[]|] eqn:Hv; [|by left].
  destruct (validate_records _ Hv) as [Hne Hm]. unfold WithinTransaction. destruct begin; [|by left].
  destruct (mutation db) as [db1|]; [|by left].
  destruct (Audit_Record tenant (pm_Audit records) db1) as [db2|] eqn:Ha; [|by left]. simpl.
  destruct (enqueue_all tenant (pm_Outbox records) db2) as [db3|] eqn:He; [|by left].
  assert (Hev : evidenced tenant records db1 db3).
  { apply Audit_effect in Ha as [Hn ->]. apply enqueue_all_effect in He as (E & Hin & Hout).
    unfold evidenced. split_and!; [done|by rewrite E|done| |exact Hout|rewrite E at 1; by rewrite E].
    intros m Hmem. destruct (Hm m Hmem), (Hin m Hmem). auto. }
  destruct commit as [|err []]; cbn; [|right; eauto|by left]. right. split; [eauto|done].
Qed.

(** ** Theorems *)

(** A protected mutation is committed together with its audit event and every one of
    its outbox messages, which publish that event, or leaves the database as it was;
    when it is not reported as done, only a commit that was not confirmed can have
    happened.  Records that omit evidence or publication are refused before the
    mutation runs. *)
Theorem protected_mutation_atomic tenant records mutation begin commit db :
  let '(db', out) := Execute tenant records mutation begin commit db in
  (db' = db /\ is_ok out = false) \/
  ((exists f db1, mutation = Some f /\ f db = Ok db1 /\ evidenced tenant records db1 db') /\
   (is_ok out = false -> exists err, commit = CommitFailed err true)).
Proof.
  destruct mutation as [f|]; [|by left].
  pose proof (Execute_cases tenant records f begin commit db) as H.
  destruct (Execute tenant records (Some f) begin commit db) as [db' out].
  destruct H as [?|[(db1 & Hf & He) ?]]; [by left|right]. eauto 10.
Qed.

(** C33: recording an authorization decision either changes nothing and is refused, or
    stores, for an existing invocation and under a decision ID that was free, one row
    with the outcome, the policy, the constraints, the validity, the checkpoint and the
    three digests of this decision, one audit event that names invocation, decision,
    run, workload and outcome, and one outbox message with the payload of that event
    and its digest, and touches no other row.  When the commit is confirmed the caller
    is told; when it is not, either may have happened. *)
Theorem authorization_evidenced ledger identity invocationID decision argumentDigest resourceDigest
    at_ now1 now2 random1 random2 begin commit db :
  let tenant := led_tenantID ledger in
  let '(db', out) := Ledger_RecordAuthorization ledger identity invocationID decision argumentDigest
                       resourceDigest at_ now1 now2 random1 random2 begin commit db in
  (db' = db /\ is_ok out = false) \/
  ((is_ok out = false -> exists err, commit = CommitFailed err true) /\
   id_TenantID identity = tenant /\ is_some (invocations db !! (tenant, invocationID)) = true /\
   authorization_decisions db !! (tenant, invocationID, DecisionID decision) = None /\
   exists contextDigest eventID outboxID row audit m,
     ParseDigest (ContextDigest decision) = Ok contextDigest /\
     NewUUIDv7From now1 random1 = Ok eventID /\ NewUUIDv7From now2 random2 = Ok outboxID /\
     (drow_ContextDigest row = contextDigest /\ drow_ArgumentDigest row = argumentDigest /\
      drow_ResourceDigest row = resourceDigest /\ drow_Outcome row = Outcome decision /\
      drow_PolicyRef row = PolicyID decision +:+ "@" +:+ dec_PolicyVersion decision /\
      drow_IssuedAt row = IssuedAt decision /\ drow_ExpiresAt row = ExpiresAt decision /\ drow_RecordedAt row = at_ /\
      drow_Checkpoint row = Some (RevocationCheckpoint decision) /\
      let names l := if bool_decide (l = []) then "null"%string else json_array (map json_string l) in
      let c := Constraints decision in
      exists maxima, maxima ≡ₚ map_to_list (ArgumentMax c) /\ Sorted key_before maxima /\
        drow_Constraints row = json_object
          [("Repositories", names (Repositories c)); ("Resources", names (Resources c)); ("Actions", names (Actions c));
           ("ArgumentMax", if bool_decide (maxima = []) then "null"
                           else json_object (map (fun kv => (kv.1, json_int kv.2)) maxima));
           ("MaxResultBytes", json_int (MaxResultBytes c)); ("MaxDuration", json_int (MaxDuration c))])%string /\
     (aud_EventID audit = UUID_String eventID /\ aud_InvocationID audit = Some invocationID /\
      aud_EventType audit = "authorization.decision"%string /\ aud_ActorRef audit = Some (id_WorkloadID identity) /\
      aud_Outcome audit = Outcome decision /\ aud_OccurredAt audit = at_ /\ aud_RecordedAt audit = at_ /\
      aud_Correlation audit = json_object [("decision_id", json_string (DecisionID decision));
        ("invocation_id", json_string invocationID); ("run_id", json_string (id_RunID identity))] /\
      aud_SafePayload audit = json_object [("decision_id", json_string (DecisionID decision));
        ("event_id", json_string (UUID_String eventID)); ("event_type", json_string "authorization.decision");
        ("invocation_id", json_string invocationID); ("outcome", json_string (Outcome decision))] /\
      aud_PayloadDigest audit = sha256 (aud_SafePayload audit))%string /\
     m = mkOutbox (UUID_String outboxID) (aud_EventID audit) "evidence" (aud_EventType audit) (aud_SafePayload audit)
           (sha256 (aud_SafePayload audit)) at_ at_ /\
     db' = set_outbox
             (set_audit
                (set_decisions db (<[(tenant, invocationID, DecisionID decision) := row]> (authorization_decisions db)))
                (<[(tenant, UUID_String eventID) := audit]> (audit_events db)))
             (<[(tenant, UUID_String outboxID) := new_row m]> (outbox_messages db))).
Proof.
  intros tenant. unfold Ledger_RecordAuthorization.
  destruct (negb _) eqn:Ht; [by left|]. apply negb_false_iff, String.eqb_eq in Ht.
  destruct (ParseDigest (ContextDigest decision)) as [contextDigest|] eqn:Hd; [|by left].
  destruct (NewUUIDv7From now1 random1) as [eventID|] eqn:Hu1; [|by left].
  destruct (NewUUIDv7From now2 random2) as [outboxID|] eqn:Hu2; [|by left].
  fold tenant. set (records := decision_records _ _ _ eventID outboxID _).
  pose proof (Execute_cases tenant records
    (Decisions_RecordAuthorization tenant invocationID (DecisionID decision)
       (decision_row decision contextDigest argumentDigest resourceDigest at_)) begin commit db) as H.
  destruct (Execute _ _ _ _ _ _) as [db' out].
  destruct H as [H|[(db1 & (Hn & Hi & ->)%Decision_effect & _ & Ha & _ & Hin & Hout & E) Hc]]; [by left|right].
  split_and!; [done|done|done|done|].
  eexists contextDigest, eventID, outboxID, (decision_row decision contextDigest argumentDigest resourceDigest at_),
    (pm_Audit records), _.
  split; [done|]. split; [done|]. split; [done|]. split; [|split; [|split; [reflexivity|]]].
  - do 9 (split; [reflexivity|]). exact (constraints_text (Constraints decision)).
  - repeat split.
  - rewrite E, Ha. f_equal. apply map_eq. intros key.
    match goal with |- _ = <[?k := new_row ?m]> _ !! _ => destruct (decide (key = k)) as [->|Hk] end.
    + rewrite lookup_insert_eq. apply (Hin (mkOutbox _ _ _ _ _ _ _ _)). apply list_elem_of_here.
    + rewrite lookup_insert_ne by done. rewrite Hout; [done|].
      intros m Hm. apply list_elem_of_singleton in Hm as ->. done.
Qed.

(** A decision whose context digest carries the [sha256:] prefix, which the
    ThinkPixelAG client puts on every digest it sends, is never recorded. *)
Theorem prefixed_context_digest_refused ledger identity invocationID decision argumentDigest
    resourceDigest at_ now1 now2 random1 random2 begin commit db digest :
  ContextDigest decision = ("sha256:" +:+ digest)%string ->
  exists e, Ledger_RecordAuthorization ledger identity invocationID decision argumentDigest
              resourceDigest at_ now1 now2 random1 random2 begin commit db = (db, Err e).
Proof.
  intros H. unfold Ledger_RecordAuthorization. rewrite H. destruct (negb _); [eauto|].
  simpl. eauto.
Qed.

(** ** Witnesses *)

Definition ex_tenant : string := "0198c0de-0000-7000-8000-000000000001".
Definition ex_ledger : InvocationLedger := mkLedger ex_tenant "owner" Minute 3.
Definition ex_identity : InvocationIdentity := mkIdentity ex_tenant "s" "" "a" "1" "run" "workload".
Definition ex_digest : string := "0123456789abcdef0123456789abcdef".
Definition ex_decision (context : string) : AuthorizationDecision :=
  mkDecision "decision-1" "req" context "policy" "v1" AuthorizationAllow [ReasonAllowed] 10 10 20 1 "cp"
    no_constraints (mkApproval false "") "evidence".
Definition ex_row : Invocation :=
  mkRow "i" "run" "call" "tool" "1.0.0" "p" ex_digest ex_digest "{}" RetrySafe "received" 1 None None 1 1.
Definition ex_db : database := set_invocations (empty_database ∅) {[(ex_tenant, "i"%string) := ex_row]}.
Definition ex_now : Z := unix_epoch + 1700000000 * Second.
Definition ex_random (seed : Z) (n : nat) : result string := Ok (str_of (replicate n (byte seed))).
Definition ex_record (context : string) :=
  Ledger_RecordAuthorization ex_ledger ex_identity "i" (ex_decision context) ex_digest ex_digest 15
    ex_now ex_now (ex_random 1) (ex_random 2) (Ok tt) Committed ex_db.

(** A plain hexadecimal digest is recorded. *)
Example record_plain_digest :
  (ex_record (hex_encode ex_digest)).2 = Ok tt /\
  is_some (authorization_decisions (ex_record (hex_encode ex_digest)).1
             !! (ex_tenant, "i"%string, "decision-1"%string)) = true /\
  size (outbox_messages (ex_record (hex_encode ex_digest)).1) = 1%nat.
Proof. vm_compute. split_and!; reflexivity. Qed.

Lemma authorization_evidenced_witness :
  is_ok (ex_record (hex_encode ex_digest)).2 = true /\
  exists row, drow_Outcome row = "allow"%string /\ drow_ArgumentDigest row = ex_digest /\
    authorization_decisions (ex_record (hex_encode ex_digest)).1 !! (ex_tenant, "i"%string, "decision-1"%string) = Some row.
Proof.
  assert (Ho : is_ok (ex_record (hex_encode ex_digest)).2 = true) by (vm_compute; reflexivity). split; [exact Ho|].
  pose proof (authorization_evidenced ex_ledger ex_identity "i" (ex_decision (hex_encode ex_digest)) ex_digest ex_digest 15
    ex_now ex_now (ex_random 1) (ex_random 2) (Ok tt) Committed ex_db) as H.
  fold (ex_record (hex_encode ex_digest)) in H. cbv zeta in H.
  destruct (ex_record (hex_encode ex_digest)) as [db' out]. cbn [fst snd] in Ho |- *.
  destruct H as [[_ He]|(_ & _ & _ & _ & c & e & o & row & audit & m & _ & _ & _ & Hrow & _ & _ & Hdb)];
    [rewrite He in Ho; discriminate Ho|].
  exists row. destruct Hrow as (_ & Harg & _ & Hout & _). split; [exact Hout|]. split; [exact Harg|].
  rewrite Hdb. exact (lookup_insert_eq _ _ _).
Defined.

Lemma prefixed_context_digest_refused_witness :
  exists e, ex_record ("sha256:" +:+ hex_encode ex_digest) = (ex_db, Err e).
Proof.
  exact (prefixed_context_digest_refused ex_ledger ex_identity "i"
           (ex_decision ("sha256:" +:+ hex_encode ex_digest)) ex_digest ex_digest 15 ex_now ex_now
           (ex_random 1) (ex_random 2) (Ok tt) Committed ex_db (hex_encode ex_digest) eq_refl).
Defined.
