(* ===== verification/Http.v ===== *)
(** * The HTTP transport: requests, responses and problems

    [internal/adapters/http/problems.go] and the response writers and admission
    middleware of [server.go].  A response is its status, the headers the writers
    set and its body; a handler is a function from the request to the response.
    [correlation] is the request ID the outer middleware put on the response. *)
From Stdlib Require Import Ascii String.
From stdpp Require Import relations.
From S2P Require Import Prelude GoStd Regex Json JsonParse Primitives ToolCatalog GoText.

(** ** Requests and responses *)

(** Header names are in canonical form, the form the server stores them in; the
    query is what [URL.Query] parses. *)
Record Request := mkRequest {
  rq_Method : string; rq_Path : string; rq_RawQuery : string;
  rq_Query : gmap string (list string);
  rq_Header : gmap string (list string);
  rq_ContentLength : Z;
  rq_Body : result string;
}.

Record Response := mkResponse {
  rs_Status : Z; rs_ContentType : string; rs_NoStore : bool; rs_Body : string;
}.

(** [url.Values] and [http.Header]: [Get] and [Values] *)
Definition values_of (m : gmap string (list string)) (name : string) : list string :=
  match m !! name with Some values => values | None => [] end.
Definition value_of (m : gmap string (list string)) (name : string) : string :=
  match values_of m name with value :: _ => value | [] => EmptyString end.

Definition newline : string := str_of [byte 10].

(** ** Problems *)

Record Problem := mkProblem {
  pr_Type : string; pr_Title : string; pr_Status : Z; pr_Detail : string; pr_Instance : string;
  pr_Code : string; pr_CorrelationID : string;
}.

Definition omit_empty (name value : string) : list (string * string) :=
  if String.eqb value "" then [] else [(name, json_string value)].

Definition problem_json (p : Problem) : string :=
  json_object ([("type", json_string (pr_Type p)); ("title", json_string (pr_Title p));
                ("status", json_int (pr_Status p))]%string
    ++ omit_empty "detail" (pr_Detail p) ++ omit_empty "instance" (pr_Instance p)
    ++ [("code", json_string (pr_Code p)); ("correlation_id", json_string (pr_CorrelationID p))]%string).

(** [WriteProblem] *)
Definition WriteProblem (correlation path : string) (problem : Problem) : Response :=
  let code := if String.eqb (pr_Code problem) "" then CodeInternal else pr_Code problem in
  let instance := if String.eqb (pr_Instance problem) "" then path else pr_Instance problem in
  mkResponse (pr_Status problem) "application/problem+json" true
    (problem_json (mkProblem (pr_Type problem) (pr_Title problem) (pr_Status problem) (pr_Detail problem)
                     instance code correlation) +:+ newline).

Record problemSpec := mkSpec { spec_status : Z; spec_title : string }.

Definition publicProblems : list (ErrorCode * problemSpec) :=
  [(CodeUnauthenticated, mkSpec 401 "Authentication required");
   (CodeIdentityProviderUnavailable, mkSpec 503 "Identity provider is unavailable");
   (CodeNotReady, mkSpec 503 "Service is not ready");
   (CodeServiceUnavailable, mkSpec 503 "Service is unavailable");
   (CodeInvalidContext, mkSpec 401 "Authentication context is invalid");
   (CodeToolNotFound, mkSpec 404 "Tool version was not found");
   (CodeToolCallNotFound, mkSpec 404 "Tool call was not found");
   (CodeInvalidArguments, mkSpec 400 "Request arguments are invalid");
   (CodeReplayConflict, mkSpec 409 "Idempotency key conflicts with an existing tool call");
   (CodeAuthorizationDenied, mkSpec 403 "Tool call is not authorized");
   (CodeApprovalRequired, mkSpec 409 "Approval is required");
   (CodeApprovalInvalid, mkSpec 403 "Approval is invalid");
   (CodeGuardrailBlocked, mkSpec 403 "Tool call was blocked");
   (CodeCredentialUnavailable, mkSpec 503 "Credential is unavailable");
   (CodeConnectorError, mkSpec 502 "Connector execution failed");
   (CodeDownstreamRejected, mkSpec 502 "Downstream operation was rejected");
   (CodeAmbiguousOutcome, mkSpec 409 "Downstream outcome is ambiguous");
   (CodeResultBlocked, mkSpec 403 "Tool result was blocked");
   (CodeRateLimited, mkSpec 429 "Rate limit exceeded");
   (CodeBudgetExhausted, mkSpec 403 "Budget is exhausted");
   (CodeInternal, mkSpec 500 "Internal server error")]%string.

Definition public_problem (code : ErrorCode) : option problemSpec :=
  snd <$> List.find (fun kv => String.eqb kv.1 code) publicProblems.

Definition publicErrorCode (code fallback : ErrorCode) : ErrorCode :=
  if is_some (public_problem code) then code
  else if String.eqb code CodeInvalidArgument then CodeInvalidArguments
  else if String.eqb code CodeNotFound then CodeToolNotFound
  else if String.eqb code CodeConflict then CodeReplayConflict
  else if String.eqb code CodeForbidden then CodeAuthorizationDenied
  else fallback.

Definition writePublicProblemAt (correlation path : string) (code : ErrorCode) (instance : string) : Response :=
  let '(code, spec) := match public_problem code with
                       | Some spec => (code, spec)
                       | None => (CodeInternal, mkSpec 500 "Internal server error")
                       end in
  WriteProblem correlation path
    (mkProblem ("urn:thinkpixeltg:problem:" +:+ code) (spec_title spec) (spec_status spec) EmptyString
       instance code EmptyString).

Definition writePublicProblem (correlation path : string) (code : ErrorCode) : Response :=
  writePublicProblemAt correlation path code path.

(** [writeDomainProblem]: [errors.As] finds the first [*domain.Error] of the chain. *)
Definition writeDomainProblem (correlation path : string) (err : goerror) (fallback : ErrorCode) : Response :=
  let code := match as_domain err with
              | Some (code, _) => publicErrorCode code fallback
              | None => fallback
              end in
  writePublicProblem correlation path code.

(** ** Bounded results *)

Definition maxPublicResultBytes : Z := Z.shiftl 4 20.

(** The answer for a value that cannot be encoded or is too large. *)
Definition writeBlocked (correlation : string) : Response :=
  mkResponse 403 "application/problem+json" true
    (problem_json (mkProblem "urn:thinkpixeltg:problem:result_blocked" "Tool result was blocked" 403
                     EmptyString EmptyString CodeResultBlocked correlation) +:+ newline).

(** [writeBoundedJSON], given the encoding of its value. *)
Definition writeBoundedJSON (correlation : string) (status : Z) (contentType : string) (noStore : bool)
    (encoded : string) : Response :=
  if maxPublicResultBytes <? slen encoded + 1 then writeBlocked correlation
  else mkResponse status contentType noStore (encoded +:+ newline).

Definition writeJSON (correlation : string) (status : Z) (encoded : string) : Response :=
  writeBoundedJSON correlation status "application/json" false encoded.
Definition writeJSONContentType (correlation : string) (status : Z) (contentType encoded : string) : Response :=
  writeBoundedJSON correlation status contentType true encoded.

(** ** Admission *)

Definition maxPublicRequestBytes : Z := Z.shiftl 1 20.
Definition maxConcurrentPublicRequests : Z := 1000.
Definition maxPublicRequestDuration : Z := 30 * Second.

(** [publicRequestLimits]: the permits are a channel of capacity [maxConcurrent],
    so its state is the number of permits taken.  A request enters without a
    permit, with one, or not at all, and gives its permit back when it leaves. *)
Inductive entry := Exempt | Permit | Full.

Definition public_enter (maxConcurrent permits : Z) (request : Request) : Z * entry :=
  if negb (has_prefix (rq_Path request) "/v1/") then (permits, Exempt)
  else if permits <? maxConcurrent then (permits + 1, Permit)
  else (permits, Full).

Definition public_leave (permits : Z) (e : entry) : Z :=
  match e with Permit => permits - 1 | _ => permits end.

(** What runs between entering and leaving. *)
Definition public_serve (maxBodyBytes : Z) (next : Request -> Response) (correlation : string)
    (request : Request) (e : entry) : Response :=
  match e with
  | Exempt => next request
  | Full => writePublicProblem correlation (rq_Path request) CodeRateLimited
  | Permit =>
      if maxBodyBytes <? rq_ContentLength request then
        writePublicProblem correlation (rq_Path request) CodeInvalidArguments
      else if (String.eqb (rq_Method request) "GET" || String.eqb (rq_Method request) "HEAD")
              && (0 <? rq_ContentLength request) then
        writePublicProblem correlation (rq_Path request) CodeInvalidArguments
      else next request
  end.

(** Requests enter and leave in any order. *)
Record server_state := mkServer { permits : Z; running : list (Request * entry) }.

Inductive server_step (maxConcurrent : Z) : server_state -> server_state -> Prop :=
| StepEnter st request permits' e :
    public_enter maxConcurrent (permits st) request = (permits', e) ->
    server_step maxConcurrent st (mkServer permits' ((request, e) :: running st))
| StepLeave p before request e after :
    server_step maxConcurrent (mkServer p (before ++ (request, e) :: after))
      (mkServer (public_leave p e) (before ++ after)).

Definition reachable (maxConcurrent : Z) : server_state -> Prop :=
  rtc (server_step maxConcurrent) (mkServer 0 []).

Definition holds_permit (re : Request * entry) : bool :=
  match re.2 with Permit => true | _ => false end.
Definition permits_held (l : list (Request * entry)) : Z :=
  Z.of_nat (length (List.filter holds_permit l)).

(** [http.MaxBytesReader] under [bodyLimit]: reading a body over the limit fails. *)
Definition bodyLimit (limit : Z) (request : Request) : Request :=
  mkRequest (rq_Method request) (rq_Path request) (rq_RawQuery request) (rq_Query request)
    (rq_Header request) (rq_ContentLength request)
    (rq_Body request ≫= fun body =>
       if limit <? slen body then Err (ErrNew "http: request body too large") else Ok body).

(** [authentication]: [authenticate] replies with a context or an error and the
    status it classifies itself with, if any. *)
Definition authentication {Ctx} (authenticate : Request -> Ctx + option Z)
    (next : Ctx -> Request -> Response) (correlation : string) (request : Request) : Response :=
  match authenticate request with
  | inl ctx => next ctx request
  | inr status =>
      writePublicProblem correlation (rq_Path request)
        (if bool_decide (status = Some 503) then CodeIdentityProviderUnavailable else CodeUnauthenticated)
  end.

(** [requestID]: a caller's UUIDv7 is kept, anything else is replaced. *)
Definition requestID (header : string) (generate : result UUID) : result string :=
  match ParseUUID header with
  | Ok parsed => if Z.shiftr (byte_at 6 parsed) 4 =? 7 then Ok header
                 else generate ≫= fun id => Ok (UUID_String id)
  | Err _ => generate ≫= fun id => Ok (UUID_String id)
  end.

(** [config.HTTP] and its check at start-up *)
Record HTTPConfig := mkHTTPConfig {
  http_Address : string;
  http_ReadHeaderTimeout : Z; http_ReadTimeout : Z; http_WriteTimeout : Z; http_IdleTimeout : Z;
  http_ShutdownTimeout : Z;
  http_MaxHeaderBytes : Z; http_MaxBodyBytes : Z;
}.

Definition validateHTTPConfig (cfg : HTTPConfig) : result unit :=
  if String.eqb (TrimSpace (http_Address cfg)) "" || (http_ReadHeaderTimeout cfg <=? 0)
     || (http_ReadTimeout cfg <=? 0) || (http_WriteTimeout cfg <=? 0)
     || (maxPublicRequestDuration <? http_WriteTimeout cfg) || (http_IdleTimeout cfg <=? 0)
     || (http_ShutdownTimeout cfg <=? 0) || (http_MaxHeaderBytes cfg <? 1024)
     || (http_MaxBodyBytes cfg <? 1) || (maxPublicRequestBytes <? http_MaxBodyBytes cfg) then
    Err (ErrNew "invalid HTTP server limits")
  else Ok tt.

(** ** Lemmas *)

Lemma public_problem_in code spec : public_problem code = Some spec -> (code, spec) ∈ publicProblems.
Proof.
  unfold public_problem. destruct (List.find _ publicProblems) as [[c s]|] eqn:E; [|done].
  intros [= <-]. apply find_some in E as [Hin E]. cbn [fst] in E. apply String.eqb_eq in E. subst.
  by apply list_elem_of_In.
Qed.

(** Every problem has a public code, and the status and title listed for it. *)
Definition public_response (correlation instance : string) (r : Response) : Prop :=
  exists code spec, (code, spec) ∈ publicProblems /\
    rs_Status r = spec_status spec /\ 400 <= rs_Status r <= 599 /\ rs_NoStore r = true /\
    rs_Body r = problem_json (mkProblem ("urn:thinkpixeltg:problem:" +:+ code) (spec_title spec)
                  (spec_status spec) EmptyString instance code correlation) +:+ newline.

Lemma public_statuses kv : kv ∈ publicProblems ->
  400 <= spec_status kv.2 <= 599 /\ kv.1 <> EmptyString.
Proof.
  assert (Hall : forallb (fun kv : ErrorCode * problemSpec => (400 <=? spec_status kv.2) &&
    (spec_status kv.2 <=? 599) && negb (String.eqb kv.1 "")) publicProblems = true) by reflexivity.
  rewrite forallb_forall in Hall. intros Hin%list_elem_of_In%Hall. to_prop. naive_solver.
Qed.

Lemma problem_public correlation path code instance : instance <> EmptyString ->
  public_response correlation instance (writePublicProblemAt correlation path code instance).
Proof.
  intros Hi. unfold writePublicProblemAt.
  destruct (match public_problem code with Some spec => (code, spec) | None => _ end) as [c spec] eqn:E.
  assert (Hin : (c, spec) ∈ publicProblems).
  { destruct (public_problem code) as [s|] eqn:Hp; injection E as <- <-; [by apply public_problem_in|].
    apply (public_problem_in CodeInternal). reflexivity. }
  destruct (public_statuses _ Hin) as [Hst Hne]. cbn [fst snd] in *.
  exists c, spec. unfold WriteProblem. cbn [pr_Code pr_Instance pr_Type pr_Title pr_Status pr_Detail].
  assert (String.eqb c "" = false) as -> by (by apply String.eqb_neq).
  assert (String.eqb instance "" = false) as -> by (by apply String.eqb_neq).
  cbn [rs_Status rs_NoStore rs_Body]. split_and!; try done; lia.
Qed.

Lemma permits_held_app k l : permits_held (k ++ l) = permits_held k + permits_held l.
Proof. unfold permits_held. rewrite List.filter_app, length_app. lia. Qed.

Lemma permits_held_cons re l : permits_held (re :: l) = (if holds_permit re then 1 else 0) + permits_held l.
Proof. unfold permits_held. simpl. destruct (holds_permit re); simpl; lia. Qed.

Lemma server_step_inv max st st' : 0 <= max -> server_step max st st' ->
  permits st = permits_held (running st) -> permits st <= max ->
  (forall request e, (request, e) ∈ running st -> e = Exempt -> has_prefix (rq_Path request) "/v1/" = false) ->
  permits st' = permits_held (running st') /\ permits st' <= max /\
  (forall request e, (request, e) ∈ running st' -> e = Exempt -> has_prefix (rq_Path request) "/v1/" = false).
Proof.
  intros Hm Hstep. destruct Hstep as [st request p e H|p before request e after];
    cbn [permits running] in *; intros Heq Hle Hex.
  - unfold public_enter in H. rewrite permits_held_cons.
    destruct (has_prefix (rq_Path request) "/v1/") eqn:Hp; cbn [negb] in H;
      [destruct (permits st <? max) eqn:Hlt|]; injection H as <- <-; to_prop; cbn [holds_permit snd];
      (split_and!; [lia|lia|]); intros r e [[= -> ->]|Hin]%elem_of_cons; eauto; discriminate.
  - rewrite permits_held_app, permits_held_cons in Heq. rewrite permits_held_app.
    assert (Hr : forall r e', (r, e') ∈ before ++ after -> e' = Exempt ->
              has_prefix (rq_Path r) "/v1/" = false) by (intros r e' Hin; apply Hex; set_solver).
    destruct e; cbn [public_leave holds_permit snd] in *; split_and!; auto; lia.
Qed.

(** ** Properties *)

(** Error responses reveal nothing but a public code: whatever error a handler reports,
    the response is one of the listed problems, with its status between 400 and 599,
    its title, the request path and the correlation ID, and two errors whose first
    domain error has the same code get the same response, so that messages and
    causes never reach the caller. *)
Theorem problems_reveal_only_code (correlation path : string) (err : goerror) (fallback : ErrorCode)
    (Hpath : path <> EmptyString) :
  public_response correlation path (writeDomainProblem correlation path err fallback) /\
  (forall err', fst <$> as_domain err' = fst <$> as_domain err ->
     writeDomainProblem correlation path err' fallback = writeDomainProblem correlation path err fallback).
Proof.
  split; [by apply problem_public|]. intros err' E. unfold writeDomainProblem.
  destruct (as_domain err') as [[]|], (as_domain err) as [[]|]; try discriminate; [|done].
  by injection E as ->.
Qed.

Lemma problems_reveal_only_code_witness :
  writeDomainProblem "c" "/v1/tools" (ErrDomain CodeNotFound "row 17" None) CodeInternal =
  writeDomainProblem "c" "/v1/tools" (ErrWrap "select" (ErrDomain CodeNotFound "no rows" None)) CodeInternal.
Proof.
  apply (problems_reveal_only_code "c" "/v1/tools"
    (ErrWrap "select" (ErrDomain CodeNotFound "no rows" None)) CodeInternal); [discriminate|reflexivity].
Defined.

(** Admission is bounded and leaks no permit: however requests enter and leave, the
    permits taken are exactly those of the running requests and never more than the
    configured number; of the requests under [/v1/] only one that holds a permit, has
    no body over the limit and no body on a [GET] or [HEAD] reaches the application. *)
Theorem admission_bounded (maxConcurrent : Z) (st : server_state) (Hmax : 0 <= maxConcurrent)
    (Hst : reachable maxConcurrent st) :
  permits st = permits_held (running st) /\ 0 <= permits st <= maxConcurrent /\
  (forall request e maxBodyBytes next correlation,
     (request, e) ∈ running st -> has_prefix (rq_Path request) "/v1/" = true ->
     (e = Permit /\ rq_ContentLength request <= maxBodyBytes /\
        ((rq_Method request = "GET" \/ rq_Method request = "HEAD")%string -> rq_ContentLength request <= 0)) \/
     exists code, public_serve maxBodyBytes next correlation request e =
                  writePublicProblem correlation (rq_Path request) code).
Proof.
  assert (Hinv : permits st = permits_held (running st) /\ permits st <= maxConcurrent /\
    (forall request e, (request, e) ∈ running st -> e = Exempt -> has_prefix (rq_Path request) "/v1/" = false)).
  { revert st Hst. apply rtc_ind_r.
    - cbn [permits running]. split_and!; [done|lia|by intros ? ? ?%elem_of_nil].
    - intros y z _ Hstep (? & ? & ?). by eapply server_step_inv. }
  destruct Hinv as (Heq & Hle & Hex). split_and!; [done|unfold permits_held in Heq; lia|done|].
  intros request e maxBodyBytes next correlation Hin Hp.
  destruct e; [by rewrite (Hex _ _ Hin eq_refl) in Hp| |right; by eexists].
  cbn [public_serve]. case_match eqn:E1; [right; by eexists|]. case_match eqn:E2; [right; by eexists|].
  left. to_prop. split_and!; [done|lia|]. intros Hmeth. destruct E2 as [[? ?]|?]; [naive_solver|lia].
Qed.

Definition ex_get : Request := mkRequest "GET" "/v1/tools" "" ∅ ∅ 0 (Ok EmptyString).

Lemma admission_bounded_witness : exists st,
  reachable 1 st /\ length (running st) = 2%nat /\ permits st = 1 /\ permits st <= 1.
Proof.
  assert (H : reachable 1 (mkServer 1 [(ex_get, Full); (ex_get, Permit)])).
  { eapply rtc_l; [apply (StepEnter 1 (mkServer 0 []) ex_get 1 Permit); reflexivity|].
    apply rtc_once. apply (StepEnter 1 (mkServer 1 [(ex_get, Permit)]) ex_get 1 Full). reflexivity. }
  eexists. split; [exact H|]. split; [reflexivity|]. split; [reflexivity|].
  apply (admission_bounded 1 _ ltac:(lia) H).
Defined.
