(* ===== verification/Registry.v ===== *)
(** * Connector instances and the connector registry

    [internal/domain/connector_instance.go] and [internal/connectors/registry.go]:
    administrator-authored destinations, which must not carry credential
    material, and the resolution of a tool to the executor of its operation
    within one tenant. *)
From Stdlib Require Import Ascii String.
From S2P Require Import Prelude GoStd Regex Sha256 Json JsonParse Primitives ToolCatalog Ports.

(** ** Connector instances *)

Definition maximumDestinationConfigBytes : Z := Z.shiftl 16 10.

Record ConnectorInstanceDefinition := mkInstance {
  ci_ID : UUID;
  ci_TenantID : UUID;
  ci_Selector : string;
  ci_ConnectorType : string;
  ci_DestinationConfig : string;
  ci_ConfigDigest : Digest;
  ci_Enabled : bool;
}.

Definition zero_UUID : UUID := str_of (replicate 16 (byte 0)).

Definition drop_first (s : string) : string := match s with String _ s => s | EmptyString => s end.

(** [strings.ToLower], up to the letters that stay outside ASCII: besides the
    ASCII capitals, U+212A (KELVIN SIGN) becomes [k] and U+0130 becomes [i]. *)
Fixpoint lower_key (s : string) : string :=
  match s with
  | EmptyString => EmptyString
  | String a s1 =>
      match s1 with
      | String b s2 =>
          if (byte_val a =? 196) && (byte_val b =? 176) then String "i" (lower_key s2) else
          match s2 with
          | String c s3 =>
              if (byte_val a =? 226) && (byte_val b =? 132) && (byte_val c =? 170)
              then String "k" (lower_key s3)
              else String (lower_byte a) (lower_key s1)
          | EmptyString => String (lower_byte a) (lower_key s1)
          end
      | EmptyString => String (lower_byte a) EmptyString
      end
  end.

(** The replacer deletes dashes, underscores, dots and spaces. *)
Fixpoint strip_separators (s : string) : string :=
  match s with
  | EmptyString => EmptyString
  | String c s =>
      if one_of_str (String c EmptyString) ["-"; "_"; "."; " "]%string then strip_separators s
      else String c (strip_separators s)
  end.

Definition normalized_key (key : string) : string := strip_separators (lower_key key).

Definition credential_names : list string :=
  ["authorization"; "cookie"; "setcookie"; "token"; "accesstoken"; "refreshtoken"; "clientsecret";
   "privatekey"; "password"; "apikey"; "credential"; "secret"]%string.

Fixpoint containsCredentialField (value : jvalue) : bool :=
  match value with
  | JObject members =>
      existsb (fun kv => one_of_str (normalized_key kv.1) credential_names
                         || containsCredentialField kv.2) members
  | JArray items => existsb containsCredentialField items
  | _ => false
  end.

(** The decoded destination, as the decoder with [UseNumber] produces it. *)
Definition decode_destination (config : string) : option jvalue :=
  match json_parse config with
  | Some (JObject members) => Some (go_value (JObject members))
  | _ => None
  end.

Definition ValidateConnectorInstanceDefinition (definition : ConnectorInstanceDefinition) : result unit :=
  let config := ci_DestinationConfig definition in
  if String.eqb (ci_ID definition) zero_UUID || String.eqb (ci_TenantID definition) zero_UUID then
    Err (ErrNew "connector instance and tenant IDs are required")
  else if negb (validRegistryKey (ci_Selector definition))
          || negb (validRegistryKey (ci_ConnectorType definition)) then
    Err (ErrNew "connector instance selector or type is invalid")
  else if (slen config <? 2) || (maximumDestinationConfigBytes <? slen config)
          || negb (json_Valid config) then
    Err (ErrNew "connector destination configuration is invalid")
  else
    match decode_destination config with
    | None => Err (ErrNew "connector destination configuration must be an object")
    | Some destination =>
        if containsCredentialField destination then
          Err (ErrNew "connector destination configuration cannot contain credential material")
        else if negb (String.eqb (DigestBytes config) (ci_ConfigDigest definition)) then
          Err (ErrNew "connector destination configuration digest does not match")
        else Ok tt
    end.

(** Go clones the configuration bytes; an immutable value is its own clone. *)
Definition cloneConnectorInstanceDefinition (definition : ConnectorInstanceDefinition)
    : ConnectorInstanceDefinition := definition.

Record ConnectorInstance := mkConnectorInstance { ci_definition : ConnectorInstanceDefinition }.

Definition NewConnectorInstance (definition : ConnectorInstanceDefinition) : result ConnectorInstance :=
  ValidateConnectorInstanceDefinition definition ≫= fun _ =>
  Ok (mkConnectorInstance (cloneConnectorInstanceDefinition definition)).

(** ** The registry, over the executors it hands out *)

Section Registry.
Context {Executor : Type}.

(** A nil executor is [None]. *)
Record Registration := mkRegistration {
  reg_ConnectorType : string;
  reg_Operations : gmap string (option Executor);
}.

Record Config := mkConfig {
  cfg_Instances : list ConnectorInstance;
  cfg_Registrations : list Registration;
}.

Record Registry := mkRegistry {
  instances : gmap (UUID * string) ConnectorInstance;
  operations : gmap (string * string) Executor;
}.

Record Resolved := mkResolved {
  res_Instance : ConnectorInstance;
  res_Executor : Executor;
}.

(** The operations of one registration; the order does not matter since the keys
    are distinct and every failure is the same error. *)
Fixpoint register_operations (connectorType : string) (l : list (string * option Executor))
    (ops : gmap (string * string) Executor) : result (gmap (string * string) Executor) :=
  match l with
  | [] => Ok ops
  | (operation, executor) :: l =>
      match executor with
      | Some e =>
          if validRegistryKey operation
          then register_operations connectorType l (<[(connectorType, operation) := e]> ops)
          else Err (ErrNew "connector operation registration is invalid")
      | None => Err (ErrNew "connector operation registration is invalid")
      end
  end.

Fixpoint register_all (l : list Registration) (types : gset string)
    (ops : gmap (string * string) Executor) : result (gset string * gmap (string * string) Executor) :=
  match l with
  | [] => Ok (types, ops)
  | registration :: l =>
      let connectorType := reg_ConnectorType registration in
      if negb (validRegistryKey connectorType) || bool_decide (reg_Operations registration = ∅) then
        Err (ErrNew "connector registration is invalid")
      else if bool_decide (connectorType ∈ types) then
        Err (ErrNew "connector type is registered more than once")
      else
        register_operations connectorType (map_to_list (reg_Operations registration)) ops ≫= fun ops' =>
        register_all l ({[connectorType]} ∪ types) ops'
  end.

Fixpoint add_instances (types : gset string) (l : list ConnectorInstance)
    (identities : gset (string * string)) (insts : gmap (UUID * string) ConnectorInstance)
    : result (gmap (UUID * string) ConnectorInstance) :=
  match l with
  | [] => Ok insts
  | instance :: l =>
      let definition := cloneConnectorInstanceDefinition (ci_definition instance) in
      let identity := (UUID_String (ci_TenantID definition), UUID_String (ci_ID definition)) in
      let key := (ci_TenantID definition, ci_Selector definition) in
      if negb (is_ok (ValidateConnectorInstanceDefinition definition)) then
        Err (ErrNew "connector registry contains an invalid instance")
      else if bool_decide (identity ∈ identities) then
        Err (ErrNew "connector instance identity is duplicated")
      else if is_some (insts !! key) then
        Err (ErrNew "connector instance selector is ambiguous")
      else if negb (bool_decide (ci_ConnectorType definition ∈ types)) then
        Err (ErrNew "connector instance type is not compiled")
      else add_instances types l ({[identity]} ∪ identities) (<[key := instance]> insts)
  end.

Definition NewRegistry (config : Config) : result Registry :=
  match cfg_Instances config, cfg_Registrations config with
  | [], _ | _, [] => Err (ErrNew "connector registry configuration is incomplete")
  | _, _ =>
      register_all (cfg_Registrations config) ∅ ∅ ≫= fun '(types, ops) =>
      add_instances types (cfg_Instances config) ∅ ∅ ≫= fun insts =>
      Ok (mkRegistry insts ops)
  end.

Definition Resolve (registry : Registry) (tenantID : UUID) (tool : ToolVersionDefinition) : result Resolved :=
  let connector := Connector tool in
  if String.eqb tenantID zero_UUID || negb (is_ok (ValidateToolVersionDefinition tool)) then
    Err (ErrNew "connector resolution context is invalid")
  else
    match instances registry !! (tenantID, InstanceSelector connector) with
    | None => Err (ErrNew "connector instance is unavailable")
    | Some instance =>
        let definition := cloneConnectorInstanceDefinition (ci_definition instance) in
        if negb (ci_Enabled definition)
           || negb (String.eqb (ci_ConnectorType definition) (ConnectorType connector)) then
          Err (ErrNew "connector instance does not match trusted tool metadata")
        else
          match operations registry !! (ci_ConnectorType definition, Operation connector) with
          | None => Err (ErrNew "connector operation is not compiled")
          | Some executor => Ok (mkResolved instance executor)
          end
    end.

End Registry.
Arguments Registration : clear implicits.
Arguments Config : clear implicits.
Arguments Registry : clear implicits.
Arguments Resolved : clear implicits.

(** ** Specification: the member names at any depth of a value *)

Inductive has_key (k : string) : jvalue -> Prop :=
| has_key_here members v : (k, v) ∈ members -> has_key k (JObject members)
| has_key_member members k' v : (k', v) ∈ members -> has_key k v -> has_key k (JObject members)
| has_key_item items v : v ∈ items -> has_key k v -> has_key k (JArray items).

(** ** Lemmas *)

Lemma one_of_str_In s l : one_of_str s l = true <-> In s l.
Proof.
  unfold one_of_str. rewrite existsb_exists. split; [by intros (x & Hx & ->%String.eqb_eq)|].
  intros H. exists s. by rewrite String.eqb_refl.
Qed.

Lemma contains_has_key v k : has_key k v -> one_of_str (normalized_key k) credential_names = true ->
  containsCredentialField v = true.
Proof.
  intros H Hk. induction H as [members v Hin|members k' v Hin _ IH|items v Hin _ IH];
    cbn [containsCredentialField]; apply existsb_exists.
  - exists (k, v). split; [by apply list_elem_of_In|]. cbn [fst snd]. by rewrite Hk.
  - exists (k', v). split; [by apply list_elem_of_In|]. cbn [fst snd]. by rewrite IH, orb_true_r.
  - exists v. split; [by apply list_elem_of_In|done].
Qed.

Section Lemmas.
Context {Executor : Type}.
Implicit Types (ops : gmap (string * string) Executor).

Lemma register_operations_spec ct (l : list (string * option Executor)) ops ops' : NoDup l.*1 ->
  register_operations ct l ops = Ok ops' -> forall t o e,
  ops' !! (t, o) = Some e <->
  (t = ct /\ (o, Some e) ∈ l) \/ (~ (t = ct /\ o ∈ l.*1) /\ ops !! (t, o) = Some e).
Proof.
  revert ops. induction l as [|[op ex] l IH]; simpl; intros ops Hnd H t o e.
  - injection H as <-. set_solver.
  - destruct ex as [ex|]; [|done]. destruct (validRegistryKey op); [|done].
    apply list.NoDup_cons in Hnd as [Hop Hnd]. rewrite (IH _ Hnd H t o e).
    rewrite lookup_insert_Some, !elem_of_cons.
    assert (forall e', (op, e') ∈ l -> False) as Hno.
    { intros e' He. apply Hop. apply list_elem_of_fmap. by exists (op, e'). }
    split.
    + intros [[-> Hin]|[Hn [[[= <- <-] ->]|[Hne Hl]]]]; [left; auto|left; auto|].
      right. split; [|done]. intros [-> [->|Hin]]; [done|]. by apply Hn.
    + intros [[-> [[= -> ->]|Hin]]|[Hn Hl]].
      * right. split; [by intros [_ Hin]|]. by left.
      * left. auto.
      * right. split; [tauto|]. right. split; [|done]. intros [= -> ->]. tauto.
Qed.

Lemma register_all_spec (l : list (Registration Executor)) types ops types' ops' :
  register_all l types ops = Ok (types', ops') ->
  NoDup (reg_ConnectorType <$> l) /\ (forall r, r ∈ l -> reg_ConnectorType r ∉ types) /\
  forall t o e, ops' !! (t, o) = Some e <->
    (exists r, r ∈ l /\ reg_ConnectorType r = t /\ reg_Operations r !! o = Some (Some e)) \/
    ((forall r, r ∈ l -> reg_ConnectorType r = t -> o ∉ (map_to_list (reg_Operations r)).*1) /\
     ops !! (t, o) = Some e).
Proof.
  revert types ops. induction l as [|r l IH]; simpl; intros types ops H.
  - injection H as <- <-. split; [constructor|]. set_solver.
  - destruct (_ || _); [done|]. destruct (bool_decide _) eqn:Ht; [done|]. apply bool_decide_eq_false in Ht.
    apply result_bind_Ok in H as (ops1 & Hops & H). destruct (IH _ _ H) as (Hnd & Hfresh & Hspec).
    assert (Hn : forall r', r' ∈ l -> reg_ConnectorType r' <> reg_ConnectorType r)
      by (intros r' Hr' E; specialize (Hfresh r' Hr'); set_solver).
    split; [|split].
    + apply list.NoDup_cons. split; [|done]. intros (r' & E & Hr')%list_elem_of_fmap. by eapply Hn.
    + intros r' [->|Hr']%elem_of_cons; [done|]. specialize (Hfresh r' Hr'). set_solver.
    + intros t o e. rewrite Hspec.
      rewrite (register_operations_spec _ _ _ _ (NoDup_fst_map_to_list _) Hops t o e).
      rewrite elem_of_map_to_list. split.
      * intros [(r' & Hr' & E & Hl)|[Hno [[-> Hl]|[Hn' Hl]]]].
        -- left. exists r'. rewrite elem_of_cons. auto.
        -- left. exists r. rewrite elem_of_cons. auto.
        -- right. split; [|done]. intros r' [->|Hr']%elem_of_cons E; [|by apply Hno].
           intros Hin. apply Hn'. auto.
      * intros [(r' & [->|Hr']%elem_of_cons & E & Hl)|[Hno Hl]].
        -- right. split; [|left; auto]. intros r' Hr' E'. destruct (Hn r' Hr'). congruence.
        -- left. eauto.
        -- right. split; [intros r' Hr'; apply Hno; set_solver|]. right. split; [|done].
           intros [-> Hin]. by eapply (Hno r); [set_solver| |].
Qed.

Definition inst_key (i : ConnectorInstance) : UUID * string :=
  (ci_TenantID (ci_definition i), ci_Selector (ci_definition i)).

Lemma add_instances_spec types l identities insts insts' :
  add_instances types l identities insts = Ok insts' -> forall k i,
  insts' !! k = Some i <-> (i ∈ l /\ inst_key i = k) \/ insts !! k = Some i.
Proof.
  revert identities insts. induction l as [|i0 l IH]; simpl; intros identities insts H k i.
  - injection H as <-. set_solver.
  - destruct (negb (is_ok _)); [done|]. destruct (bool_decide _); [done|].
    destruct (is_some _) eqn:Hk; [done|]. destruct (negb _); [done|].
    change (ci_TenantID _, ci_Selector _) with (inst_key i0) in *.
    rewrite (IH _ _ H k i), lookup_insert_Some, elem_of_cons.
    destruct (insts !! inst_key i0) eqn:Hnone; [done|]. split.
    + intros [[? ?]|[[? ?]|[? ?]]]; subst; auto.
    + intros [[[->|?] Hkey]|Hold]; [auto..|].
      right. right. split; [|done]. intros Hkey. congruence.
Qed.

Lemma add_instances_valid types l identities insts insts' :
  add_instances types l identities insts = Ok insts' ->
  Forall (fun i => is_ok (ValidateConnectorInstanceDefinition (ci_definition i)) = true) l.
Proof.
  revert identities insts. induction l as [|i0 l IH]; simpl; intros identities insts H; [constructor|].
  destruct (negb (is_ok _)) eqn:Hv; [done|]. repeat (case_match; [done|]).
  constructor; [by apply negb_false_iff|eauto].
Qed.
End Lemmas.

(** ** Theorems *)

(** a registry resolves a tool exactly to the configured instance of the
    caller's tenant that the selector of the tool names, if it is enabled and of
    the tool's connector type, and to the executor registered for exactly that
    type and operation. *)
Theorem registry_resolution {Executor} (config : Config Executor) registry tenant tool r :
  NewRegistry config = Ok registry ->
  (Resolve registry tenant tool = Ok r <->
   let definition := ci_definition (res_Instance r) in
   tenant <> zero_UUID /\ is_ok (ValidateToolVersionDefinition tool) = true /\
   res_Instance r ∈ cfg_Instances config /\ ci_TenantID definition = tenant /\
   ci_Selector definition = InstanceSelector (Connector tool) /\ ci_Enabled definition = true /\
   ci_ConnectorType definition = ConnectorType (Connector tool) /\
   exists registration, registration ∈ cfg_Registrations config /\
     reg_ConnectorType registration = ConnectorType (Connector tool) /\
     reg_Operations registration !! Operation (Connector tool) = Some (Some (res_Executor r))).
Proof.
  intros H. unfold NewRegistry in H.
  assert (H' : (register_all (cfg_Registrations config) ∅ ∅ ≫= fun '(types, ops) =>
                add_instances types (cfg_Instances config) ∅ ∅ ≫= fun insts =>
                Ok (mkRegistry insts ops)) = Ok registry)
    by (destruct (cfg_Instances config), (cfg_Registrations config); done).
  clear H. apply result_bind_Ok in H' as ([types ops] & Hr & H).
  apply result_bind_Ok in H as (insts & Hi & [= <-]).
  destruct (register_all_spec _ _ _ _ _ Hr) as (_ & _ & Hops).
  pose proof (add_instances_spec _ _ _ _ _ Hi) as Hinst.
  unfold Resolve, cloneConnectorInstanceDefinition. simpl. split.
  - intros H. destruct (_ || _) eqn:Hc in H; [done|].
    apply orb_false_iff in Hc as [Hz%String.eqb_neq Hv%negb_false_iff].
    destruct (insts !! _) as [i|] eqn:Hl; [|done]. destruct (_ || _) eqn:Hc in H; [done|].
    apply orb_false_iff in Hc as [He%negb_false_iff Ht%negb_false_iff%String.eqb_eq].
    destruct (ops !! _) as [e|] eqn:Ho; [|done]. injection H as <-. simpl.
    apply Hinst in Hl as [[Hin [= Hten Hsel]]|Hl]; [|by rewrite lookup_empty in Hl].
    apply Hops in Ho as [(reg & Hreg & Hty & Hop)|[_ Ho]]; [|by rewrite lookup_empty in Ho].
    split_and!; auto. exists reg. split_and!; congruence.
  - intros (Hz & Hv & Hin & Hten & Hsel & He & Ht & reg & Hreg & Hty & Hop).
    rewrite (proj2 (String.eqb_neq _ _) Hz), Hv. simpl.
    assert (insts !! (tenant, InstanceSelector (Connector tool)) = Some (res_Instance r)) as ->.
    { apply Hinst. left. split; [done|]. unfold inst_key. by rewrite Hten, Hsel. }
    rewrite He, Ht, String.eqb_refl. simpl.
    assert (ops !! (ConnectorType (Connector tool), Operation (Connector tool)) = Some (res_Executor r)) as ->.
    { apply Hops. left. by exists reg. }
    by destruct r.
Qed.

(** every instance a registry accepts has a destination configuration whose
    member names, at any depth and whatever their spelling in capitals, dashes,
    underscores, dots and spaces, name no credential, and whose bytes match the
    recorded digest. *)
Theorem destinations_credential_free {Executor} (config : Config Executor) registry i k destination :
  NewRegistry config = Ok registry -> i ∈ cfg_Instances config ->
  decode_destination (ci_DestinationConfig (ci_definition i)) = Some destination ->
  has_key k destination ->
  ~ In (normalized_key k) credential_names /\
  DigestBytes (ci_DestinationConfig (ci_definition i)) = ci_ConfigDigest (ci_definition i).
Proof.
  intros H Hin Hd Hk. unfold NewRegistry in H.
  assert (Hv : is_ok (ValidateConnectorInstanceDefinition (ci_definition i)) = true).
  { destruct (cfg_Instances config) eqn:E1; [done|]. destruct (cfg_Registrations config); [done|].
    apply result_bind_Ok in H as ([types ops] & _ & H). apply result_bind_Ok in H as (insts & Ha & _).
    apply add_instances_valid in Ha. rewrite List.Forall_forall in Ha. apply Ha.
    by apply list_elem_of_In. }
  unfold ValidateConnectorInstanceDefinition in Hv. do 3 (destruct (_ || _); [done|]).
  rewrite Hd in Hv. destruct (containsCredentialField destination) eqn:Hc; [done|].
  destruct (negb _) eqn:Hg; [done|]. apply negb_false_iff, String.eqb_eq in Hg. split; [|done].
  intros Hbad. apply not_true_iff_false in Hc. apply Hc. eapply contains_has_key; [done|].
  by apply one_of_str_In.
Qed.

(** ** Witnesses *)

Definition ex_config_text : string := quoted "{'base_url':'https://api.example','paths':[{'name':'x'}]}".
Definition ex_uuid (n : Z) : UUID := str_of (replicate 15 (byte 0) ++ [byte n]).
Definition ex_instance : ConnectorInstance :=
  mkConnectorInstance (mkInstance (ex_uuid 1) (ex_uuid 2)
    (InstanceSelector (Connector sample_definition)) (ConnectorType (Connector sample_definition))
    ex_config_text (DigestBytes ex_config_text) true).
Definition ex_registry_config : Config nat :=
  mkConfig [ex_instance]
    [mkRegistration (ConnectorType (Connector sample_definition))
       {[Operation (Connector sample_definition) := Some 7%nat]}].
Definition ex_registry : Registry nat :=
  mkRegistry {[(ex_uuid 2, InstanceSelector (Connector sample_definition)) := ex_instance]}
    {[(ConnectorType (Connector sample_definition), Operation (Connector sample_definition)) := 7%nat]}.

Lemma ex_new_registry : NewRegistry ex_registry_config = Ok ex_registry.
Proof. vm_compute. reflexivity. Qed.

(** Spellings of a credential field that are refused. *)
Example credential_spellings :
  map (fun k => containsCredentialField (JArray [JObject [(k, JNull)]]))
    ["API_Key"; "set-cookie"; "Client.Secret"; "to" +:+ str_of [byte 226; byte 132; byte 170] +:+ "en";
     "tokens"]%string = [true; true; true; true; false].
Proof. vm_compute. reflexivity. Qed.

Lemma registry_resolution_witness :
  NewRegistry ex_registry_config = Ok ex_registry /\
  reg_ConnectorType <$> cfg_Registrations ex_registry_config = [ConnectorType (Connector sample_definition)] /\
  Resolve ex_registry (ex_uuid 2) sample_definition = Ok (mkResolved ex_instance 7%nat).
Proof.
  split; [apply ex_new_registry|]. split; [reflexivity|].
  apply (registry_resolution ex_registry_config ex_registry (ex_uuid 2) sample_definition
           (mkResolved ex_instance 7%nat) ex_new_registry).
  split_and!; try (vm_compute; reflexivity).
  - vm_compute. discriminate.
  - apply list_elem_of_here.
  - eexists. split; [apply list_elem_of_here|]. split; vm_compute; reflexivity.
Defined.

Lemma destinations_credential_free_witness :
  exists destination, decode_destination ex_config_text = Some destination /\
    ~ In (normalized_key "base_url") credential_names.
Proof.
  eexists. split; [vm_compute; reflexivity|].
  refine (proj1 (destinations_credential_free ex_registry_config ex_registry ex_instance "base_url"
                   _ ex_new_registry _ _ _)).
  - apply list_elem_of_here.
  - vm_compute. reflexivity.
  - eapply has_key_here. apply list_elem_of_here.
Defined.
