(* ===== verification/CanonicalJson.v ===== *)
(** * Canonical JSON

    [internal/canonicaljson/canonicaljson.go]: the strict reader of the
    [tg-cjson-v1] profile and the domain-separated digests.  The reader follows
    the token stream of [json.Decoder]; its recursion takes fuel, and
    [parse_fuel_enough] shows that the fuel [Parse] gives is enough for every
    input.  A [float64] is represented by the text [json.Marshal] writes for it,
    the shortest decimal that reads back to it.  [jcs.Format] (RFC 8785,
    third-party) is a parameter. *)
From Stdlib Require Import Ascii String Floats.SpecFloat.
From stdpp Require Import sorting pretty.
From S2P Require Import Prelude GoStd Regex Sha256 Json JsonParse Primitives.

Definition Profile : string := "tg-cjson-v1".
Definition ArgumentDomain : string := "ThinkPixelTG:arguments:tg-cjson-v1" +:+ str_of [byte 0].
Definition ResourceDomain : string := "ThinkPixelTG:resource:tg-cjson-v1" +:+ str_of [byte 0].
Definition maxSafeInteger : Z := 2 ^ 53 - 1.

Definition ErrInvalidJSON : goerror := ErrNew "invalid JSON".
Definition ErrLimit : goerror := ErrNew "canonical JSON limit exceeded".
Definition ErrUnsafeNumber : goerror := ErrNew "JSON number is not safely interoperable".
Definition ErrSchema : goerror := ErrNew "JSON schema validation failed".

Record Limits := mkLimits {
  MaxBytes : Z; MaxDepth : Z; MaxMembers : Z; MaxStringBytes : Z; MaxNumberBytes : Z;
}.

Definition DefaultLimits : Limits := mkLimits (Z.shiftl 1 20) 64 10000 (Z.shiftl 1 20) 128.

Definition withDefaults (limits : Limits) : Limits :=
  let or_default value fallback := if value <=? 0 then fallback else value in
  mkLimits (or_default (MaxBytes limits) (MaxBytes DefaultLimits))
    (or_default (MaxDepth limits) (MaxDepth DefaultLimits))
    (or_default (MaxMembers limits) (MaxMembers DefaultLimits))
    (or_default (MaxStringBytes limits) (MaxStringBytes DefaultLimits))
    (or_default (MaxNumberBytes limits) (MaxNumberBytes DefaultLimits)).

(** ** binary64 numbers *)

(** [strconv.ParseFloat] of an accepted literal that does not overflow: the
    nearest binary64.  Magnitudes below [10 ^ -400] are zero. *)
Definition float_of (text : string) : spec_float :=
  let d := decimal_of text in
  match mantissa d with
  | Z.pos m =>
      if slen (json_int (mantissa d)) + exponent d <? -400 then S754_zero (negative d)
      else if 0 <=? exponent d then
        let f := binary_normalize 53 1024 (mantissa d * 10 ^ exponent d) 0 false in
        if negative d then SFopp f else f
      else
        match 10 ^ (- exponent d) with
        | Z.pos den => SFdiv 53 1024 (S754_finite (negative d) m 0) (S754_finite false den 0)
        | _ => S754_nan
        end
  | _ => S754_zero (negative d)
  end.

(** Is the number [num / den] rounded to the binary64 [m * 2 ^ e]? *)
Definition rounds_to (num den : Z) (m : positive) (e : Z) : bool :=
  match num, den with
  | Z.pos n, Z.pos d =>
      match SFdiv 53 1024 (S754_finite false n 0) (S754_finite false d 0) with
      | S754_finite false m' e' => Pos.eqb m' m && (e' =? e)
      | _ => false
      end
  | _, _ => false
  end.

Definition times_pow10 (num den k : Z) : Z * Z :=
  if 0 <=? k then (num * 10 ^ k, den) else (num, den * 10 ^ (- k)).

(** The least [k] with [num / den < 10 ^ k], searched upwards from [k]. *)
Fixpoint decimal_point (fuel : nat) (num den k : Z) : Z :=
  match fuel with
  | O => k
  | S fuel =>
      let '(n, d) := times_pow10 num den (- k) in
      if n <? d then k else decimal_point fuel num den (k + 1)
  end.

(** The shortest digits, [c * 10 ^ (point - n)] with [n] digits, that read back;
    of two of the same length the nearer one. *)
Fixpoint shortest (fuel : nat) (n : Z) (num den point : Z) (m : positive) (e : Z) : Z * Z :=
  let '(sn, sd) := times_pow10 num den (n - point) in
  let low := sn / sd in
  let ok c := let '(cn, cd) := times_pow10 c 1 (point - n) in rounds_to cn cd m e in
  let nearest := if 2 * (sn - low * sd) <? sd then low
                 else if sd <? 2 * (sn - low * sd) then low + 1
                 else if Z.even low then low else low + 1 in
  if ok nearest then (nearest, n)
  else if ok low then (low, n)
  else if ok (low + 1) then (low + 1, n)
  else match fuel with
       | O => (low, n)
       | S fuel => shortest fuel (n + 1) num den point m e
       end.

Fixpoint zeros (n : nat) : string := match n with O => EmptyString | S n => String "0" (zeros n) end.

Fixpoint trim_zeros (fuel : nat) (c n : Z) : Z * Z :=
  match fuel with
  | O => (c, n)
  | S fuel => if (1 <? n) && (c mod 10 =? 0) then trim_zeros fuel (c / 10) (n - 1) else (c, n)
  end.

(** [json.Marshal] of a [float64]: plain notation between [1e-6] and [1e21],
    otherwise with an exponent. *)
Definition json_float (f : spec_float) : string :=
  match f with
  | S754_zero false => "0"%string
  | S754_zero true => "-0"%string
  | S754_finite s m e =>
      let '(num, den) := if 0 <=? e then (Z.pos m * 2 ^ e, 1) else (Z.pos m, 2 ^ (- e)) in
      let estimate := (Z.log2 (Z.pos m) + e) * 30103 / 100000 - 1 in
      let point0 := decimal_point 5 num den estimate in
      let '(c0, n0) := shortest 17 1 num den point0 m e in
      (* a carry adds a digit *)
      let '(c1, n1, point) := if c0 =? 10 ^ n0 then (1, 1, point0 + 1) else (c0, n0, point0) in
      let '(c, n) := trim_zeros 20 c1 n1 in
      let digits := json_int c in
      let body :=
        if (point <? -5) || (21 <? point) then
          let exp := point - 1 in
          let head := String.substring 0 1 digits in
          let tail := String.substring 1 (String.length digits - 1) digits in
          (if n =? 1 then head else head +:+ "." +:+ tail)
          +:+ "e" +:+ (if 0 <=? exp then "+"%string else "-"%string) +:+ json_int (Z.abs exp)
        else if point <=? 0 then "0." +:+ zeros (Z.to_nat (- point)) +:+ digits
        else if n <=? point then digits +:+ zeros (Z.to_nat (point - n))
        else String.substring 0 (Z.to_nat point) digits +:+ "."
             +:+ String.substring (Z.to_nat point) (String.length digits) digits in
      (if s then String "-" body else body)
  | _ => "NaN"%string
  end.

(** The value of the exponent digits of a literal, 0 without an exponent. *)
Fixpoint raw_exponent (text : string) : Z :=
  match text with
  | EmptyString => 0
  | String c r =>
      if Ascii.eqb c "e" || Ascii.eqb c "E" then
        match r with
        | String d r' => if Ascii.eqb d "-" then - digits_val r'
                         else if Ascii.eqb d "+" then digits_val r' else digits_val r
        | EmptyString => 0
        end
      else raw_exponent r
  end.

(** [big.Rat.SetString] refuses exponents beyond [int64] and, for a number other
    than zero, scales beyond a million. *)
Definition rat_ok (text : string) : bool :=
  let d := decimal_of text in
  (min_int64 <=? raw_exponent text) && (raw_exponent text <=? max_int64)
  && ((mantissa d =? 0) || (Z.abs (exponent d) <=? 1000000)).

(** The rational is an integer, and then its magnitude exceeds the safe range. *)
Definition rat_is_int (text : string) : bool :=
  let d := decimal_of text in
  (0 <=? exponent d)
  || (if slen (json_int (mantissa d)) <? - exponent d then mantissa d =? 0
      else mantissa d mod 10 ^ (- exponent d) =? 0).

Definition rat_exceeds_safe (text : string) : bool :=
  let d := decimal_of text in
  if 0 <=? exponent d then
    negb (mantissa d =? 0)
    && ((17 <? slen (json_int (mantissa d)) + exponent d)
        || (maxSafeInteger <? mantissa d * 10 ^ exponent d))
  else maxSafeInteger <? mantissa d / 10 ^ (- exponent d).

Definition is_zero_float (f : spec_float) : bool := match f with S754_zero _ => true | _ => false end.

(** [parseState.number] *)
Definition number (limits : Limits) (token : string) : result jvalue :=
  if MaxNumberBytes limits <? slen token then Err (ErrWrap "number bytes" ErrLimit)
  else if negb (rat_ok token) then Err (ErrWrap "malformed number" ErrInvalidJSON)
  else if rat_is_int token && rat_exceeds_safe token then
    Err (ErrWrap "integer exceeds IEEE-754 safe range" ErrUnsafeNumber)
  else if float_overflows token
          || (is_zero_float (float_of token) && negb (mantissa (decimal_of token) =? 0)) then
    Err (ErrWrap "number cannot be represented as finite binary64" ErrUnsafeNumber)
  else Ok (JNumber (json_float (float_of token))).

(** ** The reader *)

Definition invalid {A} (detail : string) : result A := Err (ErrWrap detail ErrInvalidJSON).

Definition in_keys (key : string) (l : list (string * jvalue)) : bool :=
  existsb (fun kv => String.eqb kv.1 key) l.

(** [parseState.value] with its two loops: the value read, the members counted so
    far and the rest of the input. *)
Fixpoint value (fuel : nat) (limits : Limits) (depth members : Z) (s : string) {struct fuel}
    : result (jvalue * Z * string) :=
  match fuel with
  | O => invalid "fuel"
  | S fuel =>
      if MaxDepth limits <? depth then Err (ErrWrap "nesting depth" ErrLimit) else
      match skip_ws s with
      | EmptyString => invalid "EOF"
      | String c r =>
          if byte_val c =? 34 then
            match lex_string r with
            | None => invalid "string"
            | Some (token, rest) =>
                if MaxStringBytes limits <? slen token then Err (ErrWrap "string bytes" ErrLimit)
                else Ok (JString token, members, rest)
            end
          else if Ascii.eqb c "[" then
            match skip_ws r with
            | EmptyString => invalid "unterminated array"
            | String d r' =>
                if Ascii.eqb d "]" then Ok (JArray [], members, r')
                else if Ascii.eqb d "}" then invalid "unterminated array"
                else items fuel limits depth members (skip_ws r) []
            end
          else if Ascii.eqb c "{" then
            match skip_ws r with
            | EmptyString => invalid "unterminated object"
            | String d r' =>
                if Ascii.eqb d "}" then Ok (JObject [], members, r')
                else if Ascii.eqb d "]" then invalid "unterminated object"
                else fields fuel limits depth members (skip_ws r) []
            end
          else
            match cut_prefix "true" (String c r) with
            | Some rest => Ok (JBool true, members, rest)
            | None =>
                match cut_prefix "false" (String c r) with
                | Some rest => Ok (JBool false, members, rest)
                | None =>
                    match cut_prefix "null" (String c r) with
                    | Some rest => Ok (JNull, members, rest)
                    | None =>
                        match lex_number (String c r) with
                        | None => invalid "token"
                        | Some (token, rest) =>
                            number limits token ≫= fun n => Ok (n, members, rest)
                        end
                    end
                end
            end
      end
  end
with items (fuel : nat) (limits : Limits) (depth members : Z) (s : string) (acc : list jvalue) {struct fuel}
    : result (jvalue * Z * string) :=
  match fuel with
  | O => invalid "fuel"
  | S fuel =>
      value fuel limits (depth + 1) members s ≫= fun '(v, members, rest) =>
      match skip_ws rest with
      | EmptyString => invalid "unterminated array"
      | String c r =>
          if Ascii.eqb c "]" then Ok (JArray (acc ++ [v]), members, r)
          else if Ascii.eqb c "," then items fuel limits depth members r (acc ++ [v])
          else invalid "token"
      end
  end
with fields (fuel : nat) (limits : Limits) (depth members : Z) (s : string)
    (acc : list (string * jvalue)) {struct fuel} : result (jvalue * Z * string) :=
  match fuel with
  | O => invalid "fuel"
  | S fuel =>
      match skip_ws s with
      | EmptyString => invalid "object key"
      | String q r =>
          if negb (byte_val q =? 34) then invalid "object key" else
          match lex_string r with
          | None => invalid "object key"
          | Some (key, rest) =>
              if MaxStringBytes limits <? slen key then Err (ErrWrap "string bytes" ErrLimit)
              else if in_keys key acc then invalid ("duplicate object member " +:+ key)
              else if MaxMembers limits <? members + 1 then Err (ErrWrap "object members" ErrLimit)
              else if MaxDepth limits <? depth + 1 then Err (ErrWrap "nesting depth" ErrLimit)
              else
                match skip_ws rest with
                | EmptyString => invalid "EOF"
                | String colon r1 =>
                    if negb (Ascii.eqb colon ":") then invalid "token" else
                    value fuel limits (depth + 1) (members + 1) r1 ≫= fun '(v, members, rest) =>
                    match skip_ws rest with
                    | EmptyString => invalid "unterminated object"
                    | String c r2 =>
                        if Ascii.eqb c "}" then Ok (JObject (acc ++ [(key, v)]), members, r2)
                        else if Ascii.eqb c "," then fields fuel limits depth members r2 (acc ++ [(key, v)])
                        else invalid "token"
                    end
                end
          end
      end
  end.

(** [validateSurrogates]: escapes inside strings; after an escape that is not
    hexadecimal the scan continues as if the string had ended. *)
Fixpoint surrogates (inside : bool) (s : string) : result unit :=
  match s with
  | EmptyString => Ok tt
  | String c s1 =>
      if negb inside then surrogates (byte_val c =? 34) s1
      else if byte_val c =? 34 then surrogates false s1
      else if negb (byte_val c =? 92) then surrogates true s1
      else
        match s1 with
        | EmptyString => Ok tt
        | String e s2 =>
            if negb (Ascii.eqb e "u") then surrogates true s2
            else
              match s2 with
              | String h1 (String h2 (String h3 (String h4 s6))) =>
                  match hex4 h1 h2 h3 h4 with
                  | None => surrogates false s2
                  | Some first =>
                      if (55296 <=? first) && (first <=? 56319) then
                        match s6 with
                        | String b (String u (String l1 (String l2 (String l3 (String l4 s12))))) =>
                            match hex4 l1 l2 l3 l4 with
                            | Some second =>
                                if (byte_val b =? 92) && Ascii.eqb u "u"
                                   && (56320 <=? second) && (second <=? 57343)
                                then surrogates true s12
                                else invalid "unpaired high surrogate"
                            | None => invalid "unpaired high surrogate"
                            end
                        | _ => invalid "unpaired high surrogate"
                        end
                      else if (56320 <=? first) && (first <=? 57343) then
                        invalid "unpaired low surrogate"
                      else surrogates true s6
                  end
              | _ => surrogates false s2
              end
        end
  end.

Definition validateSurrogates (input : string) : result unit := surrogates false input.

(** [utf8.Valid] *)
Fixpoint utf8_Valid (s : string) : bool :=
  match s with
  | EmptyString => true
  | String a s1 =>
      if byte_val a <? 128 then utf8_Valid s1 else
      match s1 with
      | EmptyString => false
      | String b s2 =>
          if utf8_2 a b then utf8_Valid s2 else
          match s2 with
          | EmptyString => false
          | String c s3 =>
              if utf8_3 a b c then utf8_Valid s3 else
              match s3 with
              | EmptyString => false
              | String d s4 => utf8_4 a b c d && utf8_Valid s4
              end
          end
      end
  end.

Definition Parse (input : string) (limits : Limits) : result jvalue :=
  let limits := withDefaults limits in
  if (slen input =? 0) || (MaxBytes limits <? slen input) then Err (ErrWrap "input bytes" ErrLimit)
  else if negb (utf8_Valid input) then invalid "input is not UTF-8"
  else
    validateSurrogates input ≫= fun _ =>
    value (json_fuel input) limits 1 0 input ≫= fun '(v, _, rest) =>
    match skip_ws rest with EmptyString => Ok v | _ => invalid "trailing data" end.

(** [Digest] *)
Definition domain_digest (domainSeparator canonical : string) : Digest :=
  DigestBytes (domainSeparator +:+ canonical).

Record Result := mkResult {
  res_Profile : string;
  Canonical : string;
  res_Digest : Digest;
}.

(** [json.Marshal] of a value: object members in the order of their names. *)
Definition member_before (a b : string * string) : Prop := str_ltb b.1 a.1 = false.
#[global] Instance member_before_dec : RelDecision member_before.
Proof. intros a b. unfold member_before. apply _. Defined.

Fixpoint json_Marshal (v : jvalue) : string :=
  match v with
  | JNull => "null"
  | JBool b => if b then "true" else "false"
  | JNumber text => text
  | JString s => json_string s
  | JArray items => json_array (map json_Marshal items)
  | JObject members =>
      json_object (merge_sort member_before (map (fun kv => (kv.1, json_Marshal kv.2)) members))
  end%string.

Section Format.
Context (jcs_Format : jvalue -> result string).

Definition format (v : jvalue) : result string :=
  match jcs_Format v with Ok canonical => Ok canonical | Err err => Err (ErrWrap "canonicalize JSON" err) end.

Definition Canonicalize (input : string) (limits : Limits) : result string :=
  Parse input limits ≫= format.

(** [validate] is [None] for a nil validator. *)
Definition NormalizeArguments (input : string) (limits : Limits)
    (validate : option (jvalue -> result unit)) : result Result :=
  match validate with
  | None => Err (ErrNew "canonical JSON schema validator is required")
  | Some validate =>
      Parse input limits ≫= fun v =>
      match validate v with
      | Err err => Err (ErrWrap "JSON schema validation failed" err)
      | Ok _ =>
          format v ≫= fun canonical =>
          Ok (mkResult Profile canonical (domain_digest ArgumentDomain canonical))
      end
  end.
End Format.

(** ** Specification *)

(** The value with every number replaced by the float it denotes. *)
Fixpoint with_floats (v : jvalue) : jvalue :=
  match v with
  | JNumber token => JNumber (json_float (float_of token))
  | JArray items => JArray (map with_floats items)
  | JObject members => JObject (map (fun kv => (kv.1, with_floats kv.2)) members)
  | _ => v
  end.

(** The number of members of all objects in a value. *)
Fixpoint member_count (v : jvalue) : Z :=
  match v with
  | JArray items => foldr (fun v n => member_count v + n) 0 items
  | JObject members => foldr (fun kv n => 1 + member_count kv.2 + n) 0 members
  | _ => 0
  end.

(** The number a literal denotes, as the fraction [literal_num / literal_den]. *)
Definition literal_num (token : string) : Z :=
  let d := decimal_of token in
  (if negative d then - mantissa d else mantissa d) * 10 ^ Z.max 0 (exponent d).

Definition literal_den (token : string) : Z := 10 ^ Z.max 0 (- exponent (decimal_of token)).

(** A literal that is safely interoperable: short enough; if it denotes an integer,
    one that binary64 holds exactly with both its neighbours; below the magnitude
    from which binary64 rounds to infinity; and not rounded to zero unless it is
    zero. *)
Definition safe_number (limits : Limits) (token : string) : Prop :=
  slen token <= MaxNumberBytes limits /\
  (forall z, literal_num token = z * literal_den token -> Z.abs z <= 2 ^ 53 - 1) /\
  Z.abs (literal_num token) < (2 ^ 1024 - 2 ^ 970) * literal_den token /\
  (forall sign, float_of token = S754_zero sign -> literal_num token = 0).

(** A value as it is written, within the limits, its own level being [depth]. *)
Inductive strict (limits : Limits) : Z -> jvalue -> Prop :=
| strict_null depth : depth <= MaxDepth limits -> strict limits depth JNull
| strict_bool depth b : depth <= MaxDepth limits -> strict limits depth (JBool b)
| strict_string depth s : depth <= MaxDepth limits -> slen s <= MaxStringBytes limits ->
    strict limits depth (JString s)
| strict_number depth token : depth <= MaxDepth limits -> safe_number limits token ->
    strict limits depth (JNumber token)
| strict_array depth l : depth <= MaxDepth limits -> Forall (strict limits (depth + 1)) l ->
    strict limits depth (JArray l)
| strict_object depth l : depth <= MaxDepth limits -> NoDup l.*1 ->
    Forall (fun kv => slen kv.1 <= MaxStringBytes limits /\ strict limits (depth + 1) kv.2) l ->
    strict limits depth (JObject l).

(** ** Lemmas *)

Lemma in_keys_spec key l : in_keys key l = false <-> key ∉ l.*1.
Proof.
  unfold in_keys. induction l as [|[k v] l IH]; simpl; [set_solver|].
  rewrite orb_false_iff, IH, elem_of_cons. destruct (String.eqb_spec k key); naive_solver.
Qed.

(** *** Numbers *)

Lemma pretty_go_magnitude x s :
  Z.of_N x < 10 ^ (Z.of_nat (String.length (pretty_N_go x s)) - Z.of_nat (String.length s)).
Proof.
  revert s. induction (N.lt_wf_0 x) as [x _ IH]. intros s.
  destruct (decide (x = 0%N)) as [->|Hx]; [rewrite pretty_N_go_0, Z.sub_diag; lia|].
  rewrite pretty_N_go_step by lia.
  assert (Hlt : (x `div` 10 < x)%N) by (apply N.div_lt; lia).
  specialize (IH _ Hlt (String (pretty_N_char (x `mod` 10)) s)).
  cbn [String.length] in IH. set (k := Z.of_nat (String.length (pretty_N_go _ _))) in *.
  destruct (Z.le_gt_cases 0 (k - Z.of_nat (S (String.length s)))) as [Hk|Hk].
  - replace (k - Z.of_nat (String.length s)) with (Z.succ (k - Z.of_nat (S (String.length s)))) by lia.
    rewrite Z.pow_succ_r by done.
    pose proof (N.div_mod x 10 ltac:(done)). pose proof (N.mod_lt x 10 ltac:(done)). lia.
  - rewrite Z.pow_neg_r in IH by lia. pose proof (N2Z.is_nonneg (x `div` 10)). lia.
Qed.

Lemma json_int_magnitude m : 0 <= m -> m < 10 ^ slen (json_int m).
Proof.
  intros Hm. destruct (decide (m = 0)) as [->|Hz]; [done|]. destruct m as [|m|m]; [done| |lia].
  unfold json_int, slen, pretty, pretty_Z, pretty, pretty_N.
  destruct (decide (N.pos m = 0%N)) as [|_]; [done|].
  pose proof (pretty_go_magnitude (N.pos m) "") as H. cbn [String.length] in H.
  rewrite Z.sub_0_r in H. exact H.
Qed.

Lemma lex_digits_digits s : Forall (fun c => 48 <= byte_val c) (bytes_of (lex_digits s).1).
Proof.
  induction s as [|c s IH]; [constructor|]. cbn [lex_digits].
  destruct (is_digit c) eqn:Hc; [|constructor]. destruct (lex_digits s) as [d rest].
  cbn. constructor; [|exact IH]. unfold is_digit, byte_in in Hc. to_prop. lia.
Qed.

Lemma digits_val_nonneg s : Forall (fun c => 48 <= byte_val c) (bytes_of s) -> 0 <= digits_val s.
Proof.
  unfold digits_val. generalize (bytes_of s) as l. intros l Hl.
  assert (H : forall acc, 0 <= acc -> 0 <= foldl (fun acc c => acc * 10 + (byte_val c - 48)) acc l).
  { induction Hl as [|c l Hc Hl IH]; intros acc Ha; [done|]. cbn. apply IH. lia. }
  by apply H.
Qed.

Lemma bytes_of_append a b : bytes_of (a +:+ b) = bytes_of a ++ bytes_of b.
Proof. unfold bytes_of. induction a as [|c a IH]; [done|]. simpl. by rewrite IH. Qed.

Lemma mantissa_nonneg token : 0 <= mantissa (decimal_of token).
Proof.
  unfold decimal_of. destruct (match token with EmptyString => _ | String c r => _ end) as [neg s].
  pose proof (lex_digits_digits s) as Hi. destruct (lex_digits s) as [i s1]. cbn in Hi.
  assert (Hf : Forall (fun c => 48 <= byte_val c)
                 (bytes_of (match s1 with
                            | EmptyString => (EmptyString, s1)
                            | String c r => if Ascii.eqb c "." then lex_digits r else (EmptyString, s1)
                            end).1)).
  { destruct s1 as [|c r]; [constructor|]. destruct (Ascii.eqb c "."); [|constructor].
    apply lex_digits_digits. }
  destruct (match s1 with EmptyString => _ | String c r => _ end) as [f s2]. cbn in Hf |- *.
  apply digits_val_nonneg. rewrite bytes_of_append. by apply Forall_app.
Qed.

Lemma literal_abs token :
  Z.abs (literal_num token) = mantissa (decimal_of token) * 10 ^ Z.max 0 (exponent (decimal_of token)).
Proof.
  pose proof (mantissa_nonneg token). unfold literal_num.
  pose proof (Z.pow_nonneg 10 (Z.max 0 (exponent (decimal_of token)))).
  destruct (negative (decimal_of token)); nia.
Qed.

(** A number below [10 ^ digits * 10 ^ exponent] that is at least one has more digits
    than its negative exponent. *)
Lemma digits_cover token n : let d := decimal_of token in
  0 < n -> exponent d < 0 -> n * 10 ^ (- exponent d) <= mantissa d ->
  - exponent d < slen (json_int (mantissa d)).
Proof.
  intros d Hn He Hm. pose proof (json_int_magnitude _ (mantissa_nonneg token)) as Hd. fold d in Hd.
  apply Z.nle_gt. intros Hle.
  assert (10 ^ slen (json_int (mantissa d)) <= 10 ^ (- exponent d)) by (apply Z.pow_le_mono_r; lia). nia.
Qed.

Lemma safe_integer token : rat_is_int token && rat_exceeds_safe token = false ->
  forall z, literal_num token = z * literal_den token -> Z.abs z <= 2 ^ 53 - 1.
Proof.
  intros H z Hz. apply (f_equal Z.abs) in Hz. rewrite literal_abs, Z.abs_mul in Hz.
  unfold literal_den in Hz. unfold rat_is_int, rat_exceeds_safe in H.
  pose proof (mantissa_nonneg token) as Hm. pose proof (digits_cover token (Z.abs z)) as Hd.
  cbv zeta in *. set (d := decimal_of token) in *. change (2 ^ 53 - 1) with maxSafeInteger.
  assert (0 <= maxSafeInteger) by done.
  destruct (Z.leb_spec 0 (exponent d)) as [He|He]; cbn [orb] in H; cbv iota in H.
  - rewrite !Z.max_r in Hz by lia. rewrite Z.max_l in Hz by lia. cbn [Z.abs Z.pow] in Hz.
    destruct (Z.eqb_spec (mantissa d) 0) as [E|E]; [rewrite E in Hz; lia|].
    cbn [negb andb] in H. apply orb_false_iff in H as [_ H]. apply Z.ltb_ge in H. lia.
  - rewrite Z.max_l, Z.max_r in Hz by lia. rewrite Z.pow_0_r, Z.mul_1_r in Hz.
    assert (Hp : 0 < 10 ^ (- exponent d)) by (apply Z.pow_pos_nonneg; lia).
    rewrite (Z.abs_eq (10 ^ (- exponent d))) in Hz by lia.
    destruct (Z.eq_dec (Z.abs z) 0) as [E|E]; [lia|].
    replace (slen (json_int (mantissa d)) <? - exponent d) with false in H
      by (symmetry; apply Z.ltb_ge; specialize (Hd ltac:(lia) He ltac:(lia)); lia).
    rewrite Hz in H. rewrite Z.mod_mul, Z.div_mul in H by lia. cbn [Z.eqb andb] in H.
    by apply Z.ltb_ge in H.
Qed.

Lemma finite_number token : float_overflows token = false ->
  Z.abs (literal_num token) < (2 ^ 1024 - 2 ^ 970) * literal_den token.
Proof.
  intros H. rewrite literal_abs. unfold literal_den. unfold float_overflows in H.
  pose proof (mantissa_nonneg token) as Hm. pose proof (digits_cover token 1) as Hd.
  cbv zeta in *. set (d := decimal_of token) in *. set (bound := 2 ^ 1024 - 2 ^ 970) in *.
  assert (Hb : 1 < bound) by done. clearbody bound.
  destruct (Z.le_gt_cases 0 (exponent d)) as [He|He].
  - rewrite (Z.max_r 0 (exponent d)), (Z.max_l 0) by lia. rewrite Z.pow_0_r, Z.mul_1_r.
    destruct (Z.eqb_spec (mantissa d) 0) as [E|E]; [rewrite E; lia|]. case_match; [done|].
    destruct (Z.leb_spec (slen (json_int (mantissa d)) + exponent d) 0).
    + pose proof (json_int_magnitude _ Hm) as Hx. pose proof (slen_nonneg (json_int (mantissa d))).
      replace (slen (json_int (mantissa d))) with 0 in Hx by lia. cbn [Z.pow] in Hx. lia.
    + replace (0 <=? exponent d) with true in H by (symmetry; by apply Z.leb_le). by apply Z.leb_gt in H.
  - rewrite Z.max_l, Z.max_r by lia. rewrite Z.pow_0_r, Z.mul_1_r.
    assert (Hp : 0 < 10 ^ (- exponent d)) by (apply Z.pow_pos_nonneg; lia).
    destruct (Z.eqb_spec (mantissa d) 0) as [E|E]; [nia|]. case_match; [done|].
    destruct (Z.leb_spec (slen (json_int (mantissa d)) + exponent d) 0).
    + destruct (Z.lt_ge_cases (mantissa d) (10 ^ (- exponent d))); [nia|]. lia.
    + replace (0 <=? exponent d) with false in H by (symmetry; by apply Z.leb_gt). by apply Z.leb_gt in H.
Qed.

Lemma number_safe limits token n : number limits token = Ok n ->
  n = JNumber (json_float (float_of token)) /\ safe_number limits token.
Proof.
  unfold number. intros H. destruct (Z.ltb_spec (MaxNumberBytes limits) (slen token)) as [|Hl]; [done|].
  destruct (negb (rat_ok token)); [done|]. destruct (rat_is_int token && _) eqn:Hi; [done|].
  destruct (float_overflows token) eqn:Ho; [done|]. cbn [orb] in H.
  destruct (is_zero_float (float_of token) && _) eqn:Hz; [done|]. injection H as <-.
  split; [done|]. split_and!; [done|by apply safe_integer|by apply finite_number|].
  intros sign Hf. rewrite Hf in Hz. cbn [is_zero_float andb] in Hz.
  apply negb_false_iff, Z.eqb_eq in Hz. pose proof (literal_abs token). rewrite Hz in *. lia.
Qed.

(** *** The readers *)

Definition counted (limits : Limits) (members members' : Z) (v : jvalue) : Prop :=
  members' = members + member_count v /\ (members <= MaxMembers limits -> members' <= MaxMembers limits).

Definition floats_members (l : list (string * jvalue)) : list (string * jvalue) :=
  map (fun kv => (kv.1, with_floats kv.2)) l.

Lemma floats_members_names l : (floats_members l).*1 = l.*1.
Proof. induction l as [|[k v] l IH]; [done|]. cbn in IH |- *. by f_equal. Qed.

(** The ordinary reader of [encoding/json] reads the same value; it is within the
    limits and its members are counted. *)
Definition reads_strict (limits : Limits) (n : nat) : Prop :=
  (forall depth members s v members' r, value n limits depth members s = Ok (v, members', r) ->
     exists v0, read_value n (depth - 1) s = Some (v0, r) /\ v = with_floats v0 /\
       strict limits depth v0 /\ counted limits members members' v0) /\
  (forall depth members s acc0 v members' r,
     items n limits depth members s (map with_floats acc0) = Ok (v, members', r) ->
     exists l, read_items n depth s acc0 = Some (JArray (acc0 ++ l), r) /\
       v = with_floats (JArray (acc0 ++ l)) /\ Forall (strict limits (depth + 1)) l /\
       counted limits members members' (JArray l)) /\
  (forall depth members s acc0 v members' r,
     fields n limits depth members s (floats_members acc0) = Ok (v, members', r) -> NoDup acc0.*1 ->
     exists l, read_members n depth s acc0 = Some (JObject (acc0 ++ l), r) /\
       v = with_floats (JObject (acc0 ++ l)) /\ NoDup (acc0 ++ l).*1 /\
       Forall (fun kv => slen kv.1 <= MaxStringBytes limits /\ strict limits (depth + 1) kv.2) l /\
       counted limits members members' (JObject l)).

Lemma counted_trivial limits members v : member_count v = 0 -> counted limits members members v.
Proof. intros H. unfold counted. rewrite H. lia. Qed.

(** A value without members read where it is written. *)
Ltac plain_value H :=
  injection H as <- <- <-; eexists; split_and!;
  [reflexivity|reflexivity|by repeat constructor|by apply counted_trivial].

Lemma value_strict limits n : MaxDepth limits <= max_nesting -> reads_strict limits n ->
  forall depth members s v members' r, value (S n) limits depth members s = Ok (v, members', r) ->
  exists v0, read_value (S n) (depth - 1) s = Some (v0, r) /\ v = with_floats v0 /\
    strict limits depth v0 /\ counted limits members members' v0.
Proof.
  intros Hmax (IHv & IHi & IHf) depth members s v members' r H. cbn [value] in H. cbn [read_value].
  destruct (Z.ltb_spec (MaxDepth limits) depth) as [|Hd]; [done|].
  replace (depth - 1 + 1) with depth by lia.
  replace (max_nesting <? depth) with false by (symmetry; apply Z.ltb_ge; lia).
  destruct (skip_ws s) as [|c r0]; [done|]. destruct (byte_val c =? 34).
  { destruct (lex_string r0) as [[token rest]|]; [|done].
    destruct (Z.ltb_spec (MaxStringBytes limits) (slen token)); [done|]. plain_value H. }
  destruct (Ascii.eqb c "[") eqn:Hb.
  { apply Ascii.eqb_eq in Hb. subst c. change (Ascii.eqb "[" "{") with false. cbv iota.
    destruct (skip_ws r0) as [|d r'] eqn:Er; [done|]. destruct (Ascii.eqb d "]"); [plain_value H|].
    destruct (Ascii.eqb d "}"); [done|]. apply (IHi _ _ _ []) in H as (l & Hr & -> & Hl & Hc).
    exists (JArray l). split_and!; [exact Hr|done|by constructor|done]. }
  destruct (Ascii.eqb c "{").
  { destruct (skip_ws r0) as [|d r'] eqn:Er; [done|]. destruct (Ascii.eqb d "}"); [plain_value H|].
    destruct (Ascii.eqb d "]"); [done|].
    apply (IHf _ _ _ []) in H as (l & Hr & -> & Hn & Hl & Hc); [|constructor].
    exists (JObject l). split_and!; [exact Hr|done|by constructor|done]. }
  destruct (cut_prefix "true" _); [plain_value H|].
  destruct (cut_prefix "false" _); [plain_value H|].
  destruct (cut_prefix "null" _); [plain_value H|].
  destruct (lex_number _) as [[token rest]|]; [|done].
  apply result_bind_Ok in H as (w & [-> Hs]%number_safe & [= <- <- <-]). exists (JNumber token).
  split_and!; [done|done|by constructor|by apply counted_trivial].
Qed.

Lemma items_strict limits n : reads_strict limits n ->
  forall depth members s acc0 v members' r,
  items (S n) limits depth members s (map with_floats acc0) = Ok (v, members', r) ->
  exists l, read_items (S n) depth s acc0 = Some (JArray (acc0 ++ l), r) /\
    v = with_floats (JArray (acc0 ++ l)) /\ Forall (strict limits (depth + 1)) l /\
    counted limits members members' (JArray l).
Proof.
  intros (IHv & IHi & IHf) depth members s acc0 v members' r H. cbn [items] in H. cbn [read_items].
  apply result_bind_Ok in H as ([[w members1] rest] & Hw & H).
  apply IHv in Hw as (w0 & Hr & -> & Hs & [Hc Hm]).
  replace (depth + 1 - 1) with depth in Hr by lia. rewrite Hr.
  destruct (skip_ws rest) as [|c r0]; [done|]. destruct (Ascii.eqb c "]") eqn:Hb.
  { apply Ascii.eqb_eq in Hb. subst c. change (Ascii.eqb "]" ",") with false. cbv iota.
    injection H as <- <- <-. exists [w0]. split_and!; [done| |by constructor|].
    - simpl. by rewrite map_app.
    - unfold counted. simpl. split; [lia|auto]. }
  destruct (Ascii.eqb c ","); [|done].
  change [with_floats w0] with (map with_floats [w0]) in H. rewrite <- map_app in H.
  apply IHi in H as (l & Hr' & -> & Hl & [Hc' Hm']). rewrite <- app_assoc in Hr' |- *.
  exists (w0 :: l). split_and!; [exact Hr'|done|by constructor|].
  unfold counted in *. simpl in *. split; [lia|auto].
Qed.

Lemma fields_strict limits n : reads_strict limits n ->
  forall depth members s acc0 v members' r,
  fields (S n) limits depth members s (floats_members acc0) = Ok (v, members', r) -> NoDup acc0.*1 ->
  exists l, read_members (S n) depth s acc0 = Some (JObject (acc0 ++ l), r) /\
    v = with_floats (JObject (acc0 ++ l)) /\ NoDup (acc0 ++ l).*1 /\
    Forall (fun kv => slen kv.1 <= MaxStringBytes limits /\ strict limits (depth + 1) kv.2) l /\
    counted limits members members' (JObject l).
Proof.
  intros (IHv & IHi & IHf) depth members s acc0 v members' r H Hnd. cbn [fields] in H. cbn [read_members].
  destruct (skip_ws s) as [|q r0]; [done|]. destruct (byte_val q =? 34); [|done]. cbn [negb] in H.
  destruct (lex_string r0) as [[key rest]|]; [|done].
  destruct (Z.ltb_spec (MaxStringBytes limits) (slen key)); [done|].
  destruct (in_keys key _) eqn:Hk; [done|]. apply in_keys_spec in Hk. rewrite floats_members_names in Hk.
  destruct (Z.ltb_spec (MaxMembers limits) (members + 1)); [done|].
  destruct (MaxDepth limits <? depth + 1); [done|].
  destruct (skip_ws rest) as [|colon r1]; [done|]. destruct (Ascii.eqb colon ":"); [|done]. cbn [negb] in H.
  apply result_bind_Ok in H as ([[w members1] rest1] & Hw & H).
  apply IHv in Hw as (w0 & Hr & -> & Hs & [Hc Hm]).
  replace (depth + 1 - 1) with depth in Hr by lia. rewrite Hr.
  assert (Hnd' : NoDup (acc0 ++ [(key, w0)]).*1).
  { rewrite fmap_app. apply list.NoDup_app. split_and!; [done| |apply list.NoDup_singleton]. set_solver. }
  destruct (skip_ws rest1) as [|c r2]; [done|]. destruct (Ascii.eqb c "}") eqn:Hb.
  { apply Ascii.eqb_eq in Hb. subst c. change (Ascii.eqb "}" ",") with false. cbv iota.
    injection H as <- <- <-. exists [(key, w0)]. split_and!; [done| |done|by constructor|].
    - unfold floats_members. simpl. by rewrite map_app.
    - unfold counted. simpl. split; [lia|]. intros _. apply Hm. lia. }
  destruct (Ascii.eqb c ","); [|done].
  change [(key, with_floats w0)] with (floats_members [(key, w0)]) in H.
  unfold floats_members in H. rewrite <- map_app in H.
  apply IHf in H as (l & Hr' & -> & Hn & Hl & [Hc' Hm']); [|done]. rewrite <- app_assoc in Hr', Hn |- *.
  exists ((key, w0) :: l). split_and!; [exact Hr'|done|done|by constructor|].
  unfold counted in *. simpl in *. split; [lia|]. intros _. apply Hm', Hm. lia.
Qed.

Lemma reads_are_strict limits n : MaxDepth limits <= max_nesting -> reads_strict limits n.
Proof.
  intros Hmax. induction n as [|n IH]; [done|].
  split; [by apply value_strict|split; [by apply items_strict|by apply fields_strict]].
Qed.

(** *** Fuel *)

Definition reads_shorten (limits : Limits) (n : nat) : Prop :=
  (forall depth members s v members' r, value n limits depth members s = Ok (v, members', r) ->
     (String.length r < String.length s)%nat) /\
  (forall depth members s acc v members' r, items n limits depth members s acc = Ok (v, members', r) ->
     (String.length r < String.length s)%nat) /\
  (forall depth members s acc v members' r, fields n limits depth members s acc = Ok (v, members', r) ->
     (String.length r < String.length s)%nat).

Lemma value_shortens limits n : reads_shorten limits n ->
  forall depth members s v members' r, value (S n) limits depth members s = Ok (v, members', r) ->
  (String.length r < String.length s)%nat.
Proof.
  intros (IHv & IHi & IHf) depth members s v members' r H. cbn [value] in H.
  destruct (MaxDepth limits <? depth); [done|].
  destruct (skip_ws s) as [|c r0] eqn:Es; [done|]. apply skip_ws_cons in Es.
  assert (Hskip : forall d r', skip_ws r0 = String d r' ->
            (String.length r' < String.length s /\ String.length (skip_ws r0) < String.length s)%nat).
  { intros d r' E. pose proof (skip_ws_length r0). rewrite E in *. simpl in *. lia. }
  destruct (byte_val c =? 34).
  { destruct (lex_string r0) as [[token rest]|] eqn:E; [|done]. case_match; [done|].
    injection H as <- <- <-. apply lex_string_length in E. lia. }
  destruct (Ascii.eqb c "[").
  { destruct (skip_ws r0) as [|d r'] eqn:E; [done|]. destruct (Hskip _ _ eq_refl).
    case_match; [by injection H as <- <- <-|]. case_match; [done|]. apply IHi in H. lia. }
  destruct (Ascii.eqb c "{").
  { destruct (skip_ws r0) as [|d r'] eqn:E; [done|]. destruct (Hskip _ _ eq_refl).
    case_match; [by injection H as <- <- <-|]. case_match; [done|]. apply IHf in H. lia. }
  destruct (cut_prefix "true" _) eqn:E1; [injection H as <- <- <-; apply cut_prefix_true_length in E1; simpl in *; lia|].
  destruct (cut_prefix "false" _) eqn:E2; [injection H as <- <- <-; apply cut_prefix_true_length in E2; simpl in *; lia|].
  destruct (cut_prefix "null" _) eqn:E3; [injection H as <- <- <-; apply cut_prefix_true_length in E3; simpl in *; lia|].
  destruct (lex_number _) as [[t rest]|] eqn:E4; [|done].
  apply result_bind_Ok in H as (w & _ & [= <- <- <-]). apply lex_number_length in E4. simpl in *. lia.
Qed.

Lemma reads_all_shorten limits n : reads_shorten limits n.
Proof.
  induction n as [|n IH]; [done|]. split; [by apply value_shortens|]. destruct IH as (IHv & IHi & IHf). split.
  - intros depth members s acc v members' r H. cbn [items] in H.
    apply result_bind_Ok in H as ([[w m1] rest] & Hw%IHv & H).
    destruct (skip_ws rest) as [|c r0] eqn:Es; [done|]. apply skip_ws_cons in Es.
    case_match; [injection H as <- <- <-; lia|]. case_match; [apply IHi in H; lia|done].
  - intros depth members s acc v members' r H. cbn [fields] in H.
    destruct (skip_ws s) as [|q r0] eqn:Eq; [done|]. apply skip_ws_cons in Eq. case_match; [done|].
    destruct (lex_string r0) as [[key rest]|] eqn:Ek; [|done]. apply lex_string_length in Ek.
    do 4 (case_match; [done|]). destruct (skip_ws rest) as [|colon r1] eqn:Ec; [done|].
    apply skip_ws_cons in Ec. case_match; [done|].
    apply result_bind_Ok in H as ([[w m1] rest1] & Hw%IHv & H).
    destruct (skip_ws rest1) as [|c r2] eqn:Es; [done|]. apply skip_ws_cons in Es.
    case_match; [injection H as <- <- <-; lia|]. case_match; [apply IHf in H; lia|done].
Qed.

(** Fuel beyond twice the length changes nothing. *)
Lemma reads_fuel limits n :
  (forall m depth members s, (2 * String.length s + 1 <= n)%nat -> (2 * String.length s + 1 <= m)%nat ->
     value n limits depth members s = value m limits depth members s) /\
  (forall m depth members s acc, (2 * String.length s + 2 <= n)%nat -> (2 * String.length s + 2 <= m)%nat ->
     items n limits depth members s acc = items m limits depth members s acc) /\
  (forall m depth members s acc, (2 * String.length s + 2 <= n)%nat -> (2 * String.length s + 2 <= m)%nat ->
     fields n limits depth members s acc = fields m limits depth members s acc).
Proof.
  induction n as [|n (IHv & IHi & IHf)]; [split_and!; intros; lia|].
  split_and!.
  - intros [|m] depth members s Hn Hm; [lia|]. cbn [value]. case_match; [done|].
    destruct (skip_ws s) as [|c r] eqn:Es; [done|]. apply skip_ws_cons in Es.
    pose proof (skip_ws_length r). case_match; [done|]. case_match.
    { destruct (skip_ws r) as [|d r1] eqn:Er; [done|]. simpl in *. do 2 (case_match; [done|]).
      apply IHi; simpl; lia. }
    case_match; [|done].
    destruct (skip_ws r) as [|d r1] eqn:Er; [done|]. simpl in *. do 2 (case_match; [done|]).
    apply IHf; simpl; lia.
  - intros [|m] depth members s acc Hn Hm; [lia|]. cbn [items]. rewrite (IHv m) by lia.
    destruct (value m limits (depth + 1) members s) as [[[w m1] rest]|] eqn:Ev; [|done]. simpl.
    apply (proj1 (reads_all_shorten limits m)) in Ev.
    destruct (skip_ws rest) as [|c r] eqn:Es; [done|]. apply skip_ws_cons in Es.
    case_match; [done|]. case_match; [|done]. apply IHi; lia.
  - intros [|m] depth members s acc Hn Hm; [lia|]. cbn [fields].
    destruct (skip_ws s) as [|q r] eqn:Es; [done|]. apply skip_ws_cons in Es. case_match; [done|].
    destruct (lex_string r) as [[key rest]|] eqn:Ek; [|done]. apply lex_string_length in Ek.
    do 4 (case_match; [done|]). destruct (skip_ws rest) as [|colon r1] eqn:Ec; [done|].
    apply skip_ws_cons in Ec. case_match; [done|]. rewrite (IHv m) by lia.
    destruct (value m limits (depth + 1) (members + 1) r1) as [[[w m1] rest1]|] eqn:Ev; [|done]. simpl.
    apply (proj1 (reads_all_shorten limits m)) in Ev.
    destruct (skip_ws rest1) as [|c r2] eqn:Es1; [done|]. apply skip_ws_cons in Es1.
    case_match; [done|]. case_match; [|done]. apply IHf; lia.
Qed.

Lemma parse_fuel_enough fuel limits depth members s : (json_fuel s <= fuel)%nat ->
  value fuel limits depth members s = value (json_fuel s) limits depth members s.
Proof. intros H. unfold json_fuel in *. apply (proj1 (reads_fuel limits fuel)); lia. Qed.

Lemma withDefaults_members limits : 0 < MaxMembers (withDefaults limits).
Proof. unfold withDefaults. cbn [MaxMembers]. destruct (Z.leb_spec (MaxMembers limits) 0); simpl; lia. Qed.

(** ** Theorems *)

(** C38: if the depth limit in force is at most the ten thousand levels of
    [encoding/json], what the strict reader accepts is valid UTF-8 of at most
    MaxBytes, and its value is what [encoding/json] reads from the same bytes with
    each number replaced by its binary64 value.  In the value as it is written, no
    level is deeper than MaxDepth, no object has two members of one name, there are
    at most MaxMembers members in all, names and strings have at most MaxStringBytes
    and number literals at most MaxNumberBytes; a literal that denotes an integer
    denotes one of magnitude at most [2 ^ 53 - 1], and every literal is rounded to a
    finite number, to zero only if it is zero. *)
Theorem strict_parse input limits v :
  MaxDepth (withDefaults limits) <= max_nesting -> Parse input limits = Ok v ->
  exists v0, json_parse input = Some v0 /\ v = with_floats v0 /\
  strict (withDefaults limits) 1 v0 /\ member_count v0 <= MaxMembers (withDefaults limits) /\
  utf8_Valid input = true /\ 0 < slen input <= MaxBytes (withDefaults limits).
Proof.
  intros Hmax H. unfold Parse in H. set (l := withDefaults limits) in *.
  destruct (_ || _) eqn:Hb; [done|]. apply orb_false_iff in Hb as [Hb1 Hb2].
  apply Z.eqb_neq in Hb1. apply Z.ltb_ge in Hb2. pose proof (slen_nonneg input).
  destruct (utf8_Valid input) eqn:Hu; [|done]. cbn [negb] in H. cbv iota in H.
  apply result_bind_Ok in H as (_ & _ & H). apply result_bind_Ok in H as ([[w members] rest] & Hw & H).
  destruct (proj1 (reads_are_strict l _ Hmax) _ _ _ _ _ _ Hw) as (v0 & Hr & -> & Hs & [Hc Hm]).
  destruct (skip_ws rest) eqn:Hrest; [injection H as <-|done]. pose proof (withDefaults_members limits).
  fold l in H. exists v0. split_and!; [|done|done|lia|done|lia|done].
  unfold json_parse. change (1 - 1) with 0 in Hr. by rewrite Hr, Hrest.
Qed.

(** ** Witness and examples *)

Definition no_limits : Limits := mkLimits 0 0 0 0 0.

Example parse_normalizes :
  Parse (quoted "{'b': [1.50, 1e2, -0.0], 'a': '\u00e9'}") no_limits =
  Ok (JObject [("b", JArray [JNumber "1.5"; JNumber "100"; JNumber "-0"]);
               ("a", JString (str_of [byte 195; byte 169]))])%string.
Proof. vm_compute. reflexivity. Qed.

Example parse_refuses :
  map (fun text => is_ok (Parse (quoted text) no_limits))
    ["{'a':1,'a':2}"; "'\ud800'"; "9007199254740992"; "1e400"; "1e-400"; "[1,]"; "01"; "1 2"; "";
     "9007199254740991"]%string
  = [false; false; false; false; false; false; false; false; false; true].
Proof. vm_compute. reflexivity. Qed.

Lemma strict_parse_witness :
  let input := quoted "{'b':[1.50,9007199254740991]}" in
  Parse input no_limits = Ok (JObject [("b", JArray [JNumber "1.5"; JNumber "9007199254740991"])]) /\
  exists v0, json_parse input = Some v0 /\ strict (withDefaults no_limits) 1 v0 /\
    safe_number (withDefaults no_limits) "9007199254740991".
Proof.
  intros input.
  assert (Hp : Parse input no_limits =
            Ok (JObject [("b", JArray [JNumber "1.5"; JNumber "9007199254740991"])]))
    by (vm_compute; reflexivity).
  destruct (strict_parse input no_limits
              (JObject [("b"%string, JArray [JNumber "1.5"; JNumber "9007199254740991"])]))
    as (v0 & Hj & _ & Hs & _); [vm_compute; discriminate|exact Hp|].
  split; [exact Hp|]. exists v0. split; [exact Hj|]. split; [exact Hs|].
  assert (Hv0 : json_parse input =
            Some (JObject [("b", JArray [JNumber "1.50"; JNumber "9007199254740991"])]))
    by (vm_compute; reflexivity).
  rewrite Hv0 in Hj. injection Hj as <-.
  inversion Hs as [| | | | |d l _ _ Hl]; subst. apply Forall_cons_1 in Hl as [[_ Ha] _].
  inversion Ha as [| | | |d l _ Hl|]; subst. apply Forall_cons_1 in Hl as [_ Hl].
  apply Forall_cons_1 in Hl as [Hn _]. by inversion Hn.
Defined.
