(* ===== verification/JsonStruct.v ===== *)
(** * Decoding JSON into structs

    [encoding/json] reading an object into a struct: members are matched to the
    fields by name, exactly or else up to case folding; a repeated field keeps its
    last value; [null] leaves a field as it is; a value of another type is an
    error; an unknown member is an error only under [DisallowUnknownFields].  A
    [json.RawMessage] field keeps the bytes of its value. *)
From Stdlib Require Import Ascii String.
From stdpp Require Import pretty.
From S2P Require Import Prelude GoStd Regex Json JsonParse Primitives ToolCatalog GoText CanonicalJson.

(** ** Members with the bytes they are written with *)

Record member := mkMember { m_name : string; m_value : jvalue; m_raw : string }.

(** The bytes of [s] before its suffix [rest]. *)
Definition before (s rest : string) : string :=
  String.substring 0 (String.length s - String.length rest) s.

Fixpoint raw_members (fuel : nat) (s : string) : option (list member * string) :=
  match fuel with
  | O => None
  | S fuel =>
      match skip_ws s with
      | String q r =>
          if byte_val q =? 34 then
            match lex_string r with
            | None => None
            | Some (k, rest) =>
                match skip_ws rest with
                | String c r1 =>
                    if Ascii.eqb c ":" then
                      match read_value (json_fuel r1) 1 r1 with
                      | None => None
                      | Some (v, rest) =>
                          let m := mkMember k v (before (skip_ws r1) rest) in
                          match skip_ws rest with
                          | String c r2 =>
                              if Ascii.eqb c "," then
                                match raw_members fuel r2 with
                                | Some (l, rest) => Some (m :: l, rest)
                                | None => None
                                end
                              else if Ascii.eqb c "}" then Some ([m], r2)
                              else None
                          | EmptyString => None
                          end
                      end
                    else None
                | EmptyString => None
                end
            end
          else None
      | EmptyString => None
      end
  end.

(** The next value of a decoder: an object by its members, [null], or another. *)
Inductive top := TObject (l : list member) | TNull | TOther (v : jvalue).

Definition read_top (s : string) : option (top * string) :=
  match read_value (json_fuel s) 0 s with
  | None => None
  | Some (JNull, rest) => Some (TNull, rest)
  | Some (JObject [], rest) => Some (TObject [], rest)
  | Some (JObject _, _) =>
      match skip_ws s with
      | String _ r => match raw_members (String.length s) r with
                      | Some (l, rest) => Some (TObject l, rest)
                      | None => None
                      end
      | EmptyString => None
      end
  | Some (v, rest) => Some (TOther v, rest)
  end.

(** ** Fields *)

Definition field_of (names : list string) (key : string) : option string :=
  if one_of_str key names then Some key else List.find (fun name => EqualFold name key) names.

Section Struct.
Context {A : Type} (names : list string) (strict : bool).
Context (set_field : string -> member -> A -> option A).

Fixpoint set_members (l : list member) (a : A) : option A :=
  match l with
  | [] => Some a
  | m :: l =>
      match field_of names (m_name m) with
      | Some name => set_field name m a ≫= set_members l
      | None => if strict then None else set_members l a
      end
  end.

(** [decoder.Decode(&value)]: the value and what the decoder has not read. *)
Definition decode_struct (zero : A) (s : string) : option (A * string) :=
  match read_top s with
  | Some (TObject l, rest) => match set_members l zero with Some a => Some (a, rest) | None => None end
  | Some (TNull, rest) => Some (zero, rest)
  | _ => None
  end.

(** A document that is exactly one value: [json.Unmarshal], or [Decode] followed
    by a second [Decode] that returns [io.EOF]. *)
Definition decode_document (zero : A) (s : string) : option A :=
  match decode_struct zero s with
  | Some (a, rest) => if String.eqb (skip_ws rest) "" then Some a else None
  | None => None
  end.
End Struct.

Definition set_string (m : member) (old : string) : option string :=
  match m_value m with JNull => Some old | JString s => Some s | _ => None end.
Definition set_int (bits : Z) (m : member) (old : Z) : option Z :=
  match m_value m with JNull => Some old | JNumber text => ParseIntN bits text | _ => None end.
Definition set_uint (bits : Z) (m : member) (old : Z) : option Z :=
  match m_value m with JNull => Some old | JNumber text => ParseUintN bits text | _ => None end.
Definition set_bool (m : member) (old : bool) : option bool :=
  match m_value m with JNull => Some old | JBool b => Some b | _ => None end.
(** [*string] and [*bool] fields *)
Definition set_string_ptr (m : member) (old : option string) : option (option string) :=
  match m_value m with JNull => Some None | JString s => Some (Some s) | _ => None end.
Definition set_bool_ptr (m : member) (old : option bool) : option (option bool) :=
  match m_value m with JNull => Some None | JBool b => Some (Some b) | _ => None end.

(** A nested struct, from the members of an object. *)
Definition set_struct {A} (names : list string) (set : string -> member -> A -> option A) (v : jvalue) (old : A)
    : option A :=
  match v with
  | JObject members => set_members names true set (map (fun kv => mkMember kv.1 kv.2 EmptyString) members) old
  | JNull => Some old
  | _ => None
  end.

(** A slice: an element that is already there is decoded into, others start from
    their zero value. *)
Fixpoint set_slice {A} (set : jvalue -> A -> option A) (zero : A) (items : list jvalue) (old : list A)
    : option (list A) :=
  match items with
  | [] => Some []
  | v :: items =>
      set v (match old with a :: _ => a | [] => zero end) ≫= fun a =>
      set_slice set zero items (tail old) ≫= fun rest => Some (a :: rest)
  end.

(** What every setter preserves holds of the decoded value. *)
Lemma decode_document_inv {A} names strict (set : string -> member -> A -> option A) (P : A -> Prop) zero s a :
  P zero -> (forall name m x y, P x -> set name m x = Some y -> P y) ->
  decode_document names strict set zero s = Some a -> P a.
Proof.
  intros Hz Hset. unfold decode_document, decode_struct.
  destruct (read_top s) as [[[l| |v] rest]|]; try done.
  - assert (Hm : forall x y, P x -> set_members names strict set l x = Some y -> P y).
    { induction l as [|m l IH]; intros x y Hx; cbn [set_members]; [by intros [= <-]|].
      destruct (field_of names (m_name m)) as [name|]; [|destruct strict; [done|by apply IH]].
      destruct (set name m x) as [x'|] eqn:E; [|done]. cbn. apply IH. eauto. }
    destruct (set_members _ _ _ l zero) as [y|] eqn:E; [|done].
    destruct (String.eqb _ _); [|done]. intros [= <-]. eauto.
  - destruct (String.eqb _ _); [|done]. by intros [= <-].
Qed.

(** ** The members agree with the values *)

Definition pair_of (m : member) : string * jvalue := (m_name m, m_value m).

Lemma raw_members_agree fuel s n acc : (String.length s <= fuel)%nat ->
  (2 * String.length s + 2 <= n)%nat ->
  read_members n 1 s acc =
  match raw_members fuel s with
  | Some (l, rest) => Some (JObject (acc ++ map pair_of l), rest)
  | None => None
  end.
Proof.
  revert s n acc. induction fuel as [|fuel IH]; intros s [|n] acc Hf Hn; try lia.
  { destruct s; [done|simpl in *; lia]. }
  cbn [read_members raw_members].
  destruct (skip_ws s) as [|q r] eqn:Es; [done|]. apply skip_ws_cons in Es.
  case_match; [|done]. destruct (lex_string r) as [[k rest]|] eqn:Ek; [|done].
  apply lex_string_length in Ek. destruct (skip_ws rest) as [|c r1] eqn:Ec; [done|].
  apply skip_ws_cons in Ec. case_match; [|done].
  replace (read_value n 1 r1) with (read_value (json_fuel r1) 1 r1)
    by (apply (proj1 (fuel_enough _)); unfold json_fuel; lia).
  destruct (read_value (json_fuel r1) 1 r1) as [[v rest1]|] eqn:Ev; [|done].
  apply (proj1 (read_length _)) in Ev.
  destruct (skip_ws rest1) as [|c1 r2] eqn:Es1; [done|]. apply skip_ws_cons in Es1.
  case_match; [|by case_match].
  rewrite IH by lia. destruct (raw_members fuel r2) as [[l rest2]|]; [|done].
  by rewrite <- (assoc_L (++)).
Qed.

Lemma skip_ws_idemp s : skip_ws (skip_ws s) = skip_ws s.
Proof. induction s as [|c s IH]; [done|]. simpl. destruct (is_ws c) eqn:E; [done|]. simpl. by rewrite E. Qed.

Lemma raw_members_ws fuel s : raw_members fuel (skip_ws s) = raw_members fuel s.
Proof. destruct fuel; [done|]. cbn [raw_members]. by rewrite skip_ws_idemp. Qed.

(** An object is read with the members the general reader finds, in order. *)
Lemma read_top_object s l rest : read_top s = Some (TObject l, rest) <->
  read_value (json_fuel s) 0 s = Some (JObject (map pair_of l), rest) /\
  (l <> [] -> exists c r, skip_ws s = String c r /\
     raw_members (String.length s) r = Some (l, rest)).
Proof.
  unfold read_top. destruct (read_value (json_fuel s) 0 s) as [[v rest0]|] eqn:Ev; [|naive_solver].
  destruct v as [| | | | |[|m ms]]; try naive_solver.
  { split; [naive_solver|]. intros [[= E <-] _]. destruct l; [done|discriminate]. }
  unfold json_fuel in Ev. cbn [read_value] in Ev.
  pose proof (skip_ws_length s) as Hlen.
  destruct (skip_ws s) as [|c r] eqn:Es; [done|].
  destruct (byte_val c =? 34); [by repeat case_match|].
  destruct (Ascii.eqb c "{").
  2:{ exfalso. destruct (Ascii.eqb c "[") eqn:E; [|by repeat case_match].
      repeat (case_match; try done); simplify_eq.
      revert Ev. cut (forall n s acc v r, read_items n 1 s acc = Some (v, r) -> exists l, v = JArray l).
      - intros Hcut Hr. apply Hcut in Hr as [? ?]. discriminate.
      - clear. induction n as [|n IH]; [done|]. intros s acc v r. cbn [read_items].
        repeat (case_match; try done); eauto; intros; simplify_eq; eauto. }
  case_match; [done|]. destruct (skip_ws r) as [|d r'] eqn:Er; [done|].
  case_match; [congruence|]. rewrite <- Er in Ev. simpl in Hlen.
  pose proof (skip_ws_length r).
  rewrite (raw_members_agree (String.length s)) in Ev by lia.
  rewrite raw_members_ws in Ev.
  destruct (raw_members (String.length s) r) as [[l' rest']|] eqn:Em; [|done].
  injection Ev as E <-. simpl in E. split.
  - intros [= <- <-]. split; [by rewrite <- E|eauto].
  - intros [[= Hl ->] Hex]. destruct l; [discriminate|].
    destruct Hex as (? & ? & [= <- <-] & Heq); [done|]. rewrite Em in Heq. naive_solver.
Qed.

(** ** Round trips of encoded texts *)

(** The text of a value that a reader takes whole when a delimiter follows it. *)
Definition delimited (rest : string) : bool :=
  match rest with String c _ => Ascii.eqb c "," || Ascii.eqb c "}" | EmptyString => false end.

Definition reads (text : string) (v : jvalue) : Prop :=
  forall rest, delimited rest = true ->
    read_value (json_fuel (text +:+ rest)) 1 (text +:+ rest) = Some (v, rest) /\
    skip_ws (text +:+ rest) = text +:+ rest.

Lemma lex_escape_ascii c t : byte_val c <? 128 = true ->
  lex_string (escape_ascii c +:+ t) =
  match lex_string t with Some (d, rest) => Some (String c d, rest) | None => None end.
Proof.
  destruct c as [[] [] [] [] [] [] [] []]; intros H;
    first [reflexivity | vm_compute in H; discriminate H].
Qed.

Lemma not_ascii_tests a : (byte_val a <? 128) = false ->
  (byte_val a =? 34) = false /\ (byte_val a <? 32) = false /\ (byte_val a =? 92) = false.
Proof. intros H. to_prop. lia. Qed.

(** Decoding a string literal inverts encoding on valid UTF-8. *)
Lemma lex_escape s rest : utf8_Valid s = true ->
  lex_string (escape_string s +:+ String quote_byte rest) = Some (s, rest).
Proof.
  remember (String.length s) as n eqn:Hn. revert s Hn.
  induction (lt_wf n) as [n _ IH]. intros s -> Hv.
  destruct s as [|a s1]; [done|]. cbn [escape_string utf8_Valid] in *.
  destruct (byte_val a <? 128) eqn:Ha.
  { rewrite <- append_assoc, lex_escape_ascii by done. rewrite (IH (String.length s1)); simpl; auto. }
  destruct (not_ascii_tests a Ha) as (E34 & E32 & E92).
  destruct s1 as [|b s2]; [done|]. destruct (utf8_2 a b) eqn:E2.
  { cbn [String.append lex_string]. rewrite E34, E32, E92, Ha, E2.
    rewrite (IH (String.length s2)); simpl; auto; lia. }
  destruct s2 as [|c s3]; [done|]. destruct (utf8_3 a b c) eqn:E3.
  { destruct (_ && _ && _) eqn:Esp.
    - apply andb_true_iff in Esp as [[Ea Eb]%andb_true_iff Ec]. to_prop.
      assert (Hc : byte_val c = 168 \/ byte_val c = 169).
      { unfold byte_in in Ec. to_prop. lia. }
      change (byte_val a = byte_val (byte 226)) in Ea. change (byte_val b = byte_val (byte 128)) in Eb.
      apply byte_val_inj in Ea, Eb. subst a b. rewrite <- append_assoc.
      specialize (IH (String.length s3) ltac:(simpl; lia) s3 eq_refl Hv).
      destruct Hc as [Hc|Hc];
        [change (byte_val c = byte_val (byte 168)) in Hc|change (byte_val c = byte_val (byte 169)) in Hc];
        apply byte_val_inj in Hc; subst c.
      all: set (t := escape_string s3 +:+ String quote_byte rest) in *.
      + change (match lex_string t with
                | Some (d, r) => Some (utf8_encode 8232 +:+ d, r) | None => None end =
                Some (String (byte 226) (String (byte 128) (String (byte 168) s3)), rest)).
        rewrite IH. reflexivity.
      + change (match lex_string t with
                | Some (d, r) => Some (utf8_encode 8233 +:+ d, r) | None => None end =
                Some (String (byte 226) (String (byte 128) (String (byte 169) s3)), rest)).
        rewrite IH. reflexivity.
    - cbn [String.append lex_string]. rewrite E34, E32, E92, Ha, E2, E3.
      rewrite (IH (String.length s3)); simpl; auto; lia. }
  destruct s3 as [|d s4]; [done|]. apply andb_true_iff in Hv as [E4 Hv]. rewrite E4.
  cbn [String.append lex_string]. rewrite E34, E32, E92, Ha, E2, E3, E4.
  rewrite (IH (String.length s4)); simpl; auto; lia.
Qed.

Lemma reads_string s : utf8_Valid s = true -> reads (json_string s) (JString s).
Proof.
  intros Hv rest _. split; [|done].
  assert (E : json_string s +:+ rest = String quote_byte (escape_string s +:+ String quote_byte rest)).
  { unfold json_string. cbn [String.append]. by rewrite <- append_assoc. }
  rewrite E. unfold json_fuel. cbn [read_value skip_ws].
  change (is_ws quote_byte) with false. cbn iota.
  change (byte_val quote_byte =? 34) with true. cbn iota.
  by rewrite lex_escape.
Qed.

(** ** Integers *)

Lemma dec_val_snoc s c : dec_val (s +:+ String c EmptyString) = dec_val s * 10 + (byte_val c - 48).
Proof.
  unfold dec_val. assert (E : bytes_of (s +:+ String c EmptyString) = bytes_of s ++ [c]).
  { unfold bytes_of. induction s as [|d s IH]; [done|]. simpl. by rewrite IH. }
  by rewrite E, foldl_app.
Qed.

Lemma pretty_char_val x : (x < 10)%N ->
  byte_val (pretty_N_char x) = 48 + Z.of_N x /\ is_digit (pretty_N_char x) = true.
Proof.
  intros H. assert (x = 0 \/ x = 1 \/ x = 2 \/ x = 3 \/ x = 4 \/ x = 5 \/ x = 6 \/ x = 7 \/ x = 8 \/ x = 9)%N
    as Hx by lia.
  repeat (destruct Hx as [->|Hx]; [done|]). by subst x.
Qed.

Lemma pretty_go_digits x s : (0 < x)%N -> exists c d,
  pretty_N_go x s = String c (d +:+ s) /\ 49 <= byte_val c <= 57 /\
  str_forallb is_digit d = true /\ dec_val (String c d) = Z.of_N x.
Proof.
  revert s. induction (N.lt_wf_0 x) as [x _ IH]. intros s Hx. rewrite pretty_N_go_step by done.
  assert (x < 10 \/ 10 <= x)%N as [Hs|Hb] by lia.
  - rewrite N.div_small, N.mod_small by done. rewrite pretty_N_go_0.
    destruct (pretty_char_val x Hs) as [Hv Hd].
    exists (pretty_N_char x), EmptyString. split_and!; [done|lia|lia|done|].
    rewrite dec_val_cons, Hv. simpl. change (slen "") with 0. change (dec_val "") with 0. lia.
  - destruct (IH (x / 10)%N) with (s := String (pretty_N_char (x mod 10)) s) as (c & d & E & Hc & Hd & Hv).
    { apply N.div_lt; lia. } { apply N.div_str_pos; lia. }
    destruct (pretty_char_val (x mod 10)) as [Hm Hdm]; [apply N.mod_lt; lia|].
    exists c, (d +:+ String (pretty_N_char (x mod 10)) EmptyString). split_and!; [|lia|lia|..].
    + rewrite E. f_equal. by rewrite <- append_assoc.
    + rewrite str_forallb_append, Hd. simpl. by rewrite Hdm.
    + change (String c (d +:+ String (pretty_N_char (x mod 10)) ""))
        with (String c d +:+ String (pretty_N_char (x mod 10)) "").
      rewrite dec_val_snoc, Hv, Hm. pose proof (N.div_mod x 10). lia.
Qed.

(** The decimal text of a number: a zero, or digits without a leading zero. *)
Definition natural_text (s : string) : Prop :=
  s = "0"%string \/ exists c d, s = String c d /\ 49 <= byte_val c <= 57 /\ str_forallb is_digit d = true.

Lemma pretty_natural x : natural_text (pretty (x : N)) /\ dec_val (pretty x) = Z.of_N x.
Proof.
  unfold pretty, pretty_N. destruct (decide (x = 0%N)) as [->|Hx]; [split; [by left|done]|].
  destruct (pretty_go_digits x "") as (c & d & E & Hc & Hd & Hv); [lia|].
  rewrite append_nil_r in E. rewrite E. split; [right; eauto|done].
Qed.

Lemma natural_all_digits s : natural_text s -> all_digits s = true.
Proof.
  intros [->|(c & d & -> & Hc & Hd)]; [done|]. unfold all_digits. simpl.
  rewrite Hd, andb_true_r. apply digit_range. lia.
Qed.

Lemma lex_digits_all d rest : str_forallb is_digit d = true -> delimited rest = true ->
  lex_digits (d +:+ rest) = (d, rest).
Proof.
  intros Hd Hr. induction d as [|c d IH]; simpl in *.
  - destruct rest as [|c rest]; [done|]. simpl in *. apply orb_true_iff in Hr.
    destruct Hr as [->%Ascii.eqb_eq| ->%Ascii.eqb_eq]; reflexivity.
  - apply andb_true_iff in Hd as [Hc Hd]. rewrite Hc, IH by done. done.
Qed.

Lemma delimited_tail rest : delimited rest = true ->
  lex_fraction rest = Some (EmptyString, rest) /\ lex_exponent rest = Some (EmptyString, rest).
Proof.
  destruct rest as [|c rest]; [done|]. intros Hr. simpl in Hr. apply orb_true_iff in Hr.
  destruct Hr as [->%Ascii.eqb_eq| ->%Ascii.eqb_eq]; split; reflexivity.
Qed.

Lemma lex_number_natural (neg : bool) s rest : natural_text s -> delimited rest = true ->
  lex_number ((if neg then "-" else "") +:+ s +:+ rest) = Some ((if neg then "-" else "") +:+ s, rest).
Proof.
  intros Hs Hr. destruct (delimited_tail rest Hr) as [Ef Ee].
  assert (Hi : lex_integer (s +:+ rest) = Some (s, rest)).
  { destruct Hs as [->|(c & d & -> & Hc & Hd)]; [reflexivity|].
    cbn [String.append lex_integer]. replace (Ascii.eqb c "0") with false.
    2:{ symmetry. apply Ascii.eqb_neq. intros ->. revert Hc. change (byte_val "0") with 48. lia. }
    assert (byte_in 49 57 c = true) as -> by (unfold byte_in; to_prop; lia).
    by rewrite lex_digits_all. }
  unfold lex_number. destruct neg.
  - cbn [String.append]. change (Ascii.eqb "-" "-") with true. cbv iota. rewrite Hi, Ef, Ee.
    by rewrite append_nil_r.
  - cbn [String.append].
    assert (Hm : match s +:+ rest with
                 | String c r => if Ascii.eqb c "-" then ("-"%string, r) else (EmptyString, s +:+ rest)
                 | EmptyString => (EmptyString, s +:+ rest) end = (EmptyString, s +:+ rest)).
    { destruct Hs as [->|(c & d & -> & Hc & Hd)]; [reflexivity|]. cbn [String.append].
      replace (Ascii.eqb c "-") with false; [done|].
      symmetry. apply Ascii.eqb_neq. intros ->. revert Hc. change (byte_val "-") with 45. lia. }
    rewrite Hm, Hi, Ef, Ee. by rewrite append_nil_r.
Qed.

Lemma json_int_text z : exists s, json_int z = (if z <? 0 then "-" else "") +:+ s /\
  natural_text s /\ dec_val s = Z.abs z.
Proof.
  unfold json_int, pretty, pretty_Z. destruct z as [|p|p]; [exists "0"%string; split_and!; [done|by left|done]|..].
  all: exists (pretty (N.pos p)); destruct (pretty_natural (N.pos p)) as [Hn Hv]; split_and!; [reflexivity|done|];
    rewrite Hv; done.
Qed.

(** [ParseInt] inverts the decimal text of an integer in range. *)
Lemma ParseIntN_json_int bits z : - 2 ^ (bits - 1) <= z <= 2 ^ (bits - 1) - 1 ->
  ParseIntN bits (json_int z) = Some z.
Proof.
  intros Hz. destruct (json_int_text z) as (s & -> & Hn & Hv).
  pose proof (natural_all_digits s Hn) as Hd.
  destruct (z <? 0) eqn:Hneg; to_prop.
  - cbn [String.append]. unfold ParseIntN. change (Ascii.eqb "-" "-") with true. cbv iota beta zeta.
    rewrite Hd, Hv. replace (- Z.abs z) with z by lia. by rewrite (proj2 (andb_true_iff _ _)) by (to_prop; lia).
  - cbn [String.append]. unfold ParseIntN.
    destruct s as [|c r]; [by destruct Hn as [?|(?&?&?&_)]|].
    assert (Hc : is_digit c = true).
    { unfold all_digits in Hd. simpl in Hd. by apply andb_true_iff in Hd as [? _]. }
    apply digit_range in Hc.
    assert (Ascii.eqb c "-" = false) as ->.
    { apply Ascii.eqb_neq. intros ->. revert Hc. change (byte_val "-") with 45. lia. }
    assert (Ascii.eqb c "+" = false) as ->.
    { apply Ascii.eqb_neq. intros ->. revert Hc. change (byte_val "+") with 43. lia. }
    cbv iota beta zeta. rewrite Hd, Hv. replace (Z.abs z) with z by lia.
    by rewrite (proj2 (andb_true_iff _ _)) by (to_prop; lia).
Qed.

Lemma ParseUintN_json_int bits z : 0 <= z <= 2 ^ bits - 1 -> ParseUintN bits (json_int z) = Some z.
Proof.
  intros Hz. destruct (json_int_text z) as (s & -> & Hn & Hv).
  assert (z <? 0 = false) as -> by (to_prop; lia). cbn [String.append]. unfold ParseUintN.
  rewrite natural_all_digits, Hv by done. replace (Z.abs z) with z by lia.
  by rewrite (proj2 (Z.leb_le _ _)) by lia.
Qed.

(** Characters that begin a number are no white space, quote, bracket or word. *)
Lemma number_start c : is_digit c = true \/ c = "-"%char ->
  is_ws c = false /\ (byte_val c =? 34) = false /\ Ascii.eqb c "{" = false /\ Ascii.eqb c "[" = false /\
  Ascii.eqb "t" c = false /\ Ascii.eqb "f" c = false /\ Ascii.eqb "n" c = false.
Proof.
  intros [H| ->]; [|done]. revert c H.
  assert (Hall : forall c, is_digit c = true -> (negb (is_ws c) && negb (byte_val c =? 34) && negb (Ascii.eqb c "{")
    && negb (Ascii.eqb c "[") && negb (Ascii.eqb "t" c) && negb (Ascii.eqb "f" c) && negb (Ascii.eqb "n" c)) = true).
  { intros c. destruct c as [[] [] [] [] [] [] [] []]; vm_compute; auto. }
  intros c H. specialize (Hall c H). rewrite !andb_true_iff, !negb_true_iff in Hall. tauto.
Qed.

Lemma reads_int z : reads (json_int z) (JNumber (json_int z)).
Proof.
  intros rest Hr. destruct (json_int_text z) as (s & -> & Hn & _).
  rewrite <- append_assoc.
  pose proof (lex_number_natural (z <? 0) s rest Hn Hr) as Hlex.
  assert (Hstart : exists c r, (if z <? 0 then "-" else "") +:+ s +:+ rest = String c r /\
                               (is_digit c = true \/ c = "-"%char)).
  { destruct (z <? 0); [cbn [String.append]; eauto|]. cbn [String.append].
    pose proof (natural_all_digits s Hn) as Hd. destruct s as [|c s]; [done|].
    unfold all_digits in Hd. simpl in Hd. apply andb_true_iff in Hd as [? _].
    exists c, (s +:+ rest). split; [done|by left]. }
  destruct Hstart as (c & r & E & Hc). rewrite E in *.
  destruct (number_start c Hc) as (Ews & Eq & Eb & Ek & Et & Ef & En).
  split; [|cbn [skip_ws]; by rewrite Ews].
  unfold json_fuel. cbn [read_value skip_ws]. rewrite Ews, Eq, Eb, Ek.
  cbn [cut_prefix]. rewrite Et, Ef, En. by rewrite Hlex.
Qed.

(** ** Objects *)

Lemma before_append text rest : before (text +:+ rest) rest = text.
Proof.
  unfold before. rewrite length_append, Nat.add_sub. induction text as [|c t IH]; simpl; [by destruct rest|].
  by rewrite IH.
Qed.

Definition encoded_member (f : string * string) : string := json_string f.1 +:+ ":" +:+ f.2.

Lemma raw_members_encoded (fs : list (string * string)) (vs : list jvalue) rest fuel :
  fs <> [] -> (length fs <= fuel)%nat ->
  Forall2 (fun f v => utf8_Valid f.1 = true /\ reads f.2 v) fs vs ->
  raw_members fuel (join "," (map encoded_member fs) +:+ String "}" rest) =
  Some (zip_with (fun f v => mkMember f.1 v f.2) fs vs, rest).
Proof.
  intros Hne Hfuel Hall. revert fuel Hfuel Hne.
  induction Hall as [|[k text] v fs vs [Hk Hread] Hall IH]; intros fuel Hfuel Hne; [done|].
  cbn [fst snd] in Hk, Hread.
  destruct fuel as [|fuel]; [simpl in Hfuel; lia|]. cbn [map].
  set (tail := match fs with [] => String "}" rest
               | _ => String "," (join "," (map encoded_member fs) +:+ String "}" rest) end).
  assert (E : join "," (encoded_member (k, text) :: map encoded_member fs) +:+ String "}" rest =
    String quote_byte (escape_string k +:+ String quote_byte (String ":" (text +:+ tail)))).
  { unfold encoded_member at 1, json_string. cbn [fst snd].
    subst tail. destruct fs as [|f fs]; cbn [map join]; cbn [String.append];
      rewrite <- ?append_assoc; cbn [String.append]; rewrite <- ?append_assoc; done. }
  rewrite E. cbn [raw_members skip_ws]. change (is_ws quote_byte) with false. cbv iota.
  change (byte_val quote_byte =? 34) with true. cbv iota. rewrite lex_escape by done.
  cbn [skip_ws]. change (is_ws ":") with false. cbv iota. change (Ascii.eqb ":" ":") with true. cbv iota.
  assert (Hdel : delimited tail = true) by (subst tail; by destruct fs).
  destruct (Hread tail Hdel) as [-> ->]. rewrite before_append. cbv zeta. subst tail.
  destruct fs as [|f fs].
  - cbn [skip_ws]. change (is_ws "}") with false. cbv iota. inversion Hall; subst. reflexivity.
  - cbn [skip_ws]. change (is_ws ",") with false. cbv iota. change (Ascii.eqb "," ",") with true. cbv iota.
    rewrite IH; [done|simpl in *; lia|done].
Qed.

(** Reading an encoded object gives its members in order, and leaves what follows. *)
Lemma read_top_encoded_rest (fs : list (string * string)) (vs : list jvalue) (rest : string) :
  fs <> [] -> Forall2 (fun f v => utf8_Valid f.1 = true /\ reads f.2 v) fs vs ->
  read_top (json_object fs +:+ rest) = Some (TObject (zip_with (fun f v => mkMember f.1 v f.2) fs vs), rest).
Proof.
  intros Hne Hall. set (body := join "," (map encoded_member fs) +:+ String "}" rest).
  assert (E : json_object fs +:+ rest = String "{" body).
  { unfold json_object. subst body. cbn [String.append]. by rewrite <- append_assoc. }
  assert (Hlen : (length fs <= String.length (json_object fs +:+ rest))%nat).
  { rewrite E. subst body. cbn [String.length]. rewrite length_append.
    assert (Hj : forall l, (length l <= String.length (join "," (map encoded_member l)) + 1)%nat).
    { induction l as [|f l IH]; [simpl; lia|]. destruct l as [|f' l]; [cbn [length]; lia|].
      change (join "," (map encoded_member (f :: f' :: l)))
        with (encoded_member f +:+ "," +:+ join "," (map encoded_member (f' :: l))).
      rewrite !length_append. cbn [length String.length] in *. lia. }
    specialize (Hj fs). lia. }
  pose proof (raw_members_encoded fs vs rest (String.length (json_object fs +:+ rest)) Hne Hlen Hall) as Hraw.
  fold body in Hraw. set (ms := zip_with _ fs vs) in *.
  assert (Hms : ms <> []).
  { subst ms. destruct Hall; [done|discriminate]. }
  apply read_top_object. split.
  - rewrite E in *. unfold json_fuel. cbn [read_value skip_ws]. change (is_ws "{") with false. cbv iota.
    change (byte_val "{" =? 34) with false. change (Ascii.eqb "{" "{") with true. cbv iota.
    change (max_nesting <? 0 + 1) with false. cbv iota.
    assert (Hb : exists t, body = String quote_byte t).
    { subst body. destruct fs as [|[k tx] fs]; [done|]. unfold encoded_member, json_string.
      destruct fs; cbn [map join fst snd String.append]; eauto. }
    destruct Hb as [t Hb].
    assert (Hs : skip_ws body = body) by (by rewrite Hb).
    rewrite Hs. rewrite Hb at 1. change (Ascii.eqb quote_byte "}") with false. cbv iota.
    rewrite (raw_members_agree (String.length (String "{" body))) by (simpl; lia).
    rewrite Hraw. done.
  - intros _. rewrite E in *. exists "{"%char, body. split; [done|exact Hraw].
Qed.
Lemma read_top_encoded (fs : list (string * string)) (vs : list jvalue) :
  fs <> [] -> Forall2 (fun f v => utf8_Valid f.1 = true /\ reads f.2 v) fs vs ->
  read_top (json_object fs) = Some (TObject (zip_with (fun f v => mkMember f.1 v f.2) fs vs), EmptyString).
Proof. intros Hne Hall. by rewrite <- (read_top_encoded_rest fs vs EmptyString Hne Hall), append_nil_r. Qed.
