(* ===== verification/Authorization.v ===== *)
(** * Authorization: narrowing, freshness, live re-authorization

    [internal/app/authorization_constraints.go], [authorization_freshness.go],
    [authorization_current.go] and [authorization_readiness.go].

    The remote authorizer, the revocation state and the clock are the
    environment: each operation takes the replies it gets from them as
    arguments, so a theorem holds for every reply.  The cache of
    [FreshAuthorizer] is the only shared state; its two critical sections are
    [cached] and [store], and whatever other goroutines do to the cache between
    them is the argument [between]. *)
From Stdlib Require Import Ascii String Sorted.
From stdpp Require Import pretty.
From S2P Require Import Prelude GoStd Regex Sha256 Json JsonParse Primitives ToolCatalog GoText Ports CanonicalJson JsonStruct.

(** ** Narrowing an allow decision by the local ceiling *)

(** [ConstraintCeiling] has the fields of [AuthorizationConstraints], which the
    code converts it to before validating it. *)
Definition ConstraintCeiling : Type := AuthorizationConstraints.

Definition narrowSet (ceiling restriction : list string) : result (list string) :=
  if llen restriction =? 0 then Ok ceiling else
  let allowed : gset string := list_to_set restriction in
  let narrowed := List.filter (fun value => bool_decide (value ∈ allowed)) ceiling in
  if negb (llen ceiling =? 0) && (llen narrowed =? 0) then
    Err (ErrNew "authorization constraint intersection is empty")
  else Ok narrowed.

Definition narrowInt64 (ceiling restriction : Z) : Z :=
  if (0 <? restriction) && ((ceiling =? 0) || (restriction <? ceiling)) then restriction
  else ceiling.

Definition narrowDuration (ceiling restriction : Z) : Z :=
  if (0 <? restriction) && ((ceiling =? 0) || (restriction <? ceiling)) then restriction
  else ceiling.

(** The loop over the decision's argument maxima. *)
Fixpoint narrow_arguments (ceiling : gmap string Z) (restriction : list (string * Z))
    (arguments : gmap string Z) : result (gmap string Z) :=
  match restriction with
  | [] => Ok arguments
  | (name, maximum) :: restriction =>
      match ceiling !! name with
      | None => Err (ErrNew "authorization constrained an unknown argument")
      | Some localMaximum =>
          narrow_arguments ceiling restriction
            (if maximum <? localMaximum then <[name := maximum]> arguments else arguments)
      end
  end.

Definition NarrowAuthorizationConstraints (decision : AuthorizationDecision)
    (ceiling : ConstraintCeiling) : result AuthorizationConstraints :=
  if negb (String.eqb (Outcome decision) AuthorizationAllow) then
    Err (ErrNew "authorization allow decision is required")
  else if negb (is_ok (Constraints_Validate ceiling)) then
    Err (ErrNew "local authorization ceiling is invalid")
  else
    let restriction := Constraints decision in
    Constraints_Validate restriction ≫= fun _ =>
    narrowSet (Repositories ceiling) (Repositories restriction) ≫= fun repositories =>
    narrowSet (Resources ceiling) (Resources restriction) ≫= fun resources =>
    narrowSet (Actions ceiling) (Actions restriction) ≫= fun actions =>
    narrow_arguments (ArgumentMax ceiling) (map_to_list (ArgumentMax restriction))
      (ArgumentMax ceiling) ≫= fun arguments =>
    Ok (mkConstraints repositories resources actions arguments
          (narrowInt64 (MaxResultBytes ceiling) (MaxResultBytes restriction))
          (narrowDuration (MaxDuration ceiling) (MaxDuration restriction))).

(** ** Freshness *)

Definition validateFreshDecision (decision : AuthorizationDecision)
    (request : AuthorizationRequest) (now : Z) : result unit :=
  ValidateFor decision request ≫= fun _ =>
  if (now <? IssuedAt decision) || (now <? NotBefore decision)
     || negb (now <? ExpiresAt decision) then
    Err (ErrNew "authorization decision is not currently valid")
  else Ok tt.

Definition matchesRevocation (decision : AuthorizationDecision) (epoch : Z)
    (checkpoint : string) : bool :=
  if RevocationEpoch decision <? epoch then false
  else negb (RevocationEpoch decision =? epoch)
       || String.eqb (RevocationCheckpoint decision) checkpoint.


Definition with_constraints (decision : AuthorizationDecision) (c : AuthorizationConstraints) :=
  mkDecision (DecisionID decision) (dec_RequestID decision) (ContextDigest decision)
    (PolicyID decision) (dec_PolicyVersion decision) (Outcome decision) (Reasons decision)
    (IssuedAt decision) (NotBefore decision) (ExpiresAt decision) (RevocationEpoch decision)
    (RevocationCheckpoint decision) c (dec_Approval decision) (EvidenceRef decision).



Record cachedDecision := mkCached { cached_decision : AuthorizationDecision; until : Z }.



Abbreviation cache := (gmap string cachedDecision) (only parsing).





(** ** Live re-authorization of high-risk writes *)

Record HighRiskWrite := mkHighRisk { hr_Risk : string; hr_SideEffect : string }.

#[global] Instance HighRiskWrite_eq_dec : EqDecision HighRiskWrite.
Proof. solve_decision. Defined.

Definition NewCurrentAuthorizer (rules : list HighRiskWrite) (maxDecisionAge : Z)
    (has_revocations : bool) : result (list HighRiskWrite) :=
  if (maxDecisionAge <=? 0) || negb has_revocations || (llen rules =? 0) then
    Err (ErrNew "current authorization configuration is invalid")
  else if existsb (fun rule => String.eqb (TrimSpace (hr_Risk rule)) ""
                            || String.eqb (TrimSpace (hr_SideEffect rule)) "") rules then
    Err (ErrNew "high-risk write rule is invalid")
  else Ok rules.

(** [revocations] is the reply of the state observed before the live call,
    [now] the clock read after it. *)
Definition Current_Authorize (rules : list HighRiskWrite) (maxDecisionAge : Z)
    (regular live : AuthorizationRequest -> result AuthorizationDecision)
    (revocations : result (Z * string)) (now : Z) (request : AuthorizationRequest)
    : result AuthorizationDecision :=
  if negb (bool_decide (mkHighRisk (req_Risk request) (req_SideEffect request) ∈ rules)) then
    regular request
  else
    match revocations with
    | Err _ => Err (ErrNew "mandatory authorization freshness unavailable")
    | Ok (epoch, checkpoint) =>
        live request ≫= fun decision =>
        validateFreshDecision decision request now ≫= fun _ =>
        if (maxDecisionAge <? time_Sub now (IssuedAt decision))
           || negb (matchesRevocation decision epoch checkpoint) then
          Err (ErrNew "mandatory authorization freshness cannot be established")
        else Ok decision
    end.

(** ** Readiness of protected writes *)

Record ProtectedWriteScope := mkScope { sc_TenantID : string; sc_PolicyProfile : string }.

Definition AuthorizationReady : string := "protected_writes_ready".
Definition AuthorizationReadOnlyDegraded : string := "read_only_degraded".

Definition NewAuthorizationReadiness (scopes : list ProtectedWriteScope)
    : result (list ProtectedWriteScope) :=
  if llen scopes =? 0 then Err (ErrNew "authorization readiness configuration is invalid")
  else if existsb (fun scope => String.eqb (TrimSpace (sc_TenantID scope)) ""
                             || String.eqb (TrimSpace (sc_PolicyProfile scope)) "") scopes then
    Err (ErrNew "authorization readiness scope is invalid")
  else Ok scopes.

(** The status and the error [Status] returns together. *)
Definition Readiness_Status (dependency : result unit)
    (current : string -> string -> result (Z * string)) (scopes : list ProtectedWriteScope)
    : string * option goerror :=
  match dependency with
  | Err err => (AuthorizationReadOnlyDegraded,
                Some (ErrWrap "authorization dependency is not ready" err))
  | Ok _ =>
      if forallb (fun scope =>
           match current (sc_TenantID scope) (sc_PolicyProfile scope) with
           | Ok (_, checkpoint) => negb (String.eqb (TrimSpace checkpoint) "")
           | Err _ => false
           end) scopes
      then (AuthorizationReady, None)
      else (AuthorizationReadOnlyDegraded,
            Some (ErrNew "authorization revocation freshness is not ready"))
  end.

(** ** Lemmas *)

Lemma llen_zero {A} (l : list A) : (llen l =? 0) = true <-> l = [].
Proof. unfold llen. rewrite Z.eqb_eq. destruct l; simpl; split; (done || lia). Qed.

Lemma narrowSet_ok ceiling restriction l : narrowSet ceiling restriction = Ok l ->
  l ⊆ ceiling /\ (restriction <> [] -> l ⊆ restriction) /\
  (validSet ceiling = true -> validSet l = true) /\
  (ceiling <> [] -> l <> []) /\
  (forall v, v ∈ ceiling -> restriction = [] \/ v ∈ restriction -> v ∈ l).
Proof.
  unfold narrowSet. destruct (llen restriction =? 0) eqn:E.
  - apply llen_zero in E as ->. intros [= <-]. naive_solver.
  - case_match eqn:En; [done|]. intros [= <-].
    assert (Hf : forall v, v ∈ List.filter (fun value => bool_decide
              (value ∈ (list_to_set restriction : gset string))) ceiling <->
              v ∈ ceiling /\ v ∈ restriction).
    { intros v. rewrite !list_elem_of_In, filter_In, bool_decide_eq_true.
      rewrite elem_of_list_to_set, list_elem_of_In. done. }
    split_and!.
    + intros v Hv. apply Hf in Hv as []. done.
    + intros _ v Hv. apply Hf in Hv as []. done.
    + apply validSet_filter.
    + intros Hc Hl. rewrite Hl in En. simpl in En.
      destruct (llen ceiling =? 0) eqn:Ec; [by apply llen_zero in Ec|done].
    + intros v Hv [->|Hr]; [by rewrite (proj2 (llen_zero _)) in E|]. by apply Hf.
Qed.

Lemma narrowSet_permits ceiling restriction l : narrowSet ceiling restriction = Ok l ->
  (ceiling <> [] -> l <> [] /\
     forall v, (l = [] \/ v ∈ l) <-> (ceiling = [] \/ v ∈ ceiling) /\ (restriction = [] \/ v ∈ restriction)) /\
  (ceiling = [] -> l = []).
Proof.
  intros H. pose proof (narrowSet_ok _ _ _ H) as (Hs & Hr & _ & Hn & Hin). split.
  - intros Hc. specialize (Hn Hc). split; [done|]. intros v. split.
    + intros [?|Hv]; [done|]. split; [right; by apply Hs|]. destruct restriction; [by left|]. right. by apply Hr.
    + intros [[?|Hv] Hv']; [done|]. right. by apply Hin.
  - intros ->. destruct l as [|v l]; [done|]. specialize (Hs v (list_elem_of_here _ _)). by apply elem_of_nil in Hs.
Qed.

Lemma narrow_num_ok ceiling restriction : 0 <= ceiling -> 0 <= restriction ->
  let r := narrowInt64 ceiling restriction in
  0 <= r /\ (forall x, 0 <= x -> (r = 0 \/ x <= r) <-> (ceiling = 0 \/ x <= ceiling) /\ (restriction = 0 \/ x <= restriction)).
Proof.
  intros Hc Hr. unfold narrowInt64. simpl.
  destruct (Z.ltb_spec 0 restriction), (Z.eqb_spec ceiling 0), (Z.ltb_spec restriction ceiling);
    simpl; (split; [lia|]; intros x Hx; lia).
Qed.

Lemma narrow_arguments_ok ceiling l arguments result :
  NoDup l.*1 ->
  (forall name m, (name, m) ∈ l -> arguments !! name = ceiling !! name) ->
  narrow_arguments ceiling l arguments = Ok result ->
  (forall name m, (name, m) ∈ l -> exists local, ceiling !! name = Some local /\
     result !! name = Some (Z.min m local)) /\
  (forall name, name ∉ l.*1 -> result !! name = arguments !! name).
Proof.
  revert arguments. induction l as [|[name m] l IH]; intros arguments Hnd Hargs; simpl.
  { intros [= <-]. split; [intros n k Hn; by apply elem_of_nil in Hn|done]. }
  inversion Hnd as [|? ? Hni Hnd']; subst.
  destruct (ceiling !! name) as [local|] eqn:Hc; [|done]. intros H.
  assert (Hother : forall n, n <> name ->
    (if m <? local then <[name := m]> arguments else arguments) !! n = arguments !! n).
  { intros n Hn. case_match; [by apply lookup_insert_ne|done]. }
  assert (Hin : forall n k, (n, k) ∈ l -> n <> name).
  { intros n k Hn ->. apply Hni. rewrite list_elem_of_fmap. by exists (name, k). }
  eapply IH in H as [H1 H2]; [|done|]; cycle 1.
  { intros n k Hn. rewrite Hother by (by eapply Hin). eapply Hargs. by apply elem_of_cons; right. }
  split.
  - intros n k [[= -> ->]|Hn]%elem_of_cons; [|by apply H1].
    exists local. split; [done|]. rewrite (H2 name Hni).
    case_match eqn:E; to_prop; [rewrite lookup_insert_eq; f_equal; lia|].
    rewrite (Hargs name m), Hc by apply list_elem_of_here. f_equal. lia.
  - intros n Hn. simpl in Hn. apply not_elem_of_cons in Hn as [Hne Hn].
    by rewrite H2, Hother.
Qed.

Lemma Constraints_Validate_ok c : Constraints_Validate c = Ok tt <->
  validSet (Repositories c) = true /\ validSet (Resources c) = true /\
  validSet (Actions c) = true /\ 0 <= MaxResultBytes c /\ 0 <= MaxDuration c /\
  (forall name m, ArgumentMax c !! name = Some m ->
     validAuthorizationText name = true /\ 0 <= m).
Proof.
  unfold Constraints_Validate.
  assert (Hx : existsb (fun kv : string * Z => negb (validAuthorizationText kv.1) || (kv.2 <? 0))
                 (map_to_list (ArgumentMax c)) = false <->
          (forall name m, ArgumentMax c !! name = Some m ->
             validAuthorizationText name = true /\ 0 <= m)).
  { rewrite <- not_true_iff_false, existsb_exists. split.
    - intros Hn name m Hm. apply elem_of_map_to_list in Hm.
      assert (~ (negb (validAuthorizationText name) || (m <? 0) = true)) as Hb.
      { intros Hb. apply Hn. exists (name, m). by rewrite <- list_elem_of_In. }
      apply not_true_iff_false in Hb. to_prop. naive_solver lia.
    - intros Hall [[name m] [Hin Hb]]. apply list_elem_of_In, elem_of_map_to_list in Hin.
      destruct (Hall _ _ Hin) as [Ht Hm]. simpl in Hb. rewrite Ht in Hb. to_prop. naive_solver lia. }
  destruct (validSet (Repositories c)), (validSet (Resources c)), (validSet (Actions c));
    simpl; try (split; [done|]; clear Hx; intuition congruence).
  destruct (Z.ltb_spec (MaxResultBytes c) 0), (Z.ltb_spec (MaxDuration c) 0); simpl;
    try naive_solver lia.
  case_match eqn:E.
  - split; [done|]. intros (_ & _ & _ & _ & _ & Hall). by apply Hx in Hall.
  - split; [|done]. intros _. pose proof (proj1 Hx eq_refl). naive_solver lia.
Qed.

Lemma is_ok_unit (r : result unit) : is_ok r = true <-> r = Ok tt.
Proof. destruct r as [[]|]; naive_solver. Qed.

Lemma validateFresh_ok d r now : validateFreshDecision d r now = Ok tt <->
  ValidateFor d r = Ok tt /\ IssuedAt d <= now /\ NotBefore d <= now /\ now < ExpiresAt d.
Proof.
  unfold validateFreshDecision. rewrite result_bind_Ok. split.
  - intros ([] & Hv & H). case_match eqn:E; [done|]. to_prop. naive_solver lia.
  - intros (Hv & ? & ? & ?). exists tt. split; [done|]. case_match eqn:E; [|done].
    to_prop. lia.
Qed.







(** ** Lemmas: what a key stands for *)


















(** ** Properties *)

(** A list that restricts names those it permits, an empty one does not restrict; a limit
    of zero is none. *)
Definition permits (l : list string) (v : string) : Prop := l = [] \/ v ∈ l.
Definition within_limit (limit x : Z) : Prop := limit = 0 \/ x <= limit.

(** C29: narrowing only ever removes authority where the local ceiling names any.  A
    successful narrowing of an allow decision yields well-formed constraints; where the
    ceiling lists repositories, resources or actions, exactly those are permitted that
    both the ceiling and the decision permit, and some are; the argument maxima are the
    smaller of both, for the ceiling's arguments only; and the numeric limits admit
    exactly what both limits admit.  Where the ceiling's list is empty the result is
    empty too, that is unrestricted, whatever the decision lists: there the
    decision's restriction is lost (see [repository_restriction_dropped]). *)
Theorem narrowing_never_widens (decision : AuthorizationDecision) (ceiling : ConstraintCeiling)
    (narrowed : AuthorizationConstraints)
    (H : NarrowAuthorizationConstraints decision ceiling = Ok narrowed) :
  let restriction := Constraints decision in
  Outcome decision = AuthorizationAllow /\ Constraints_Validate narrowed = Ok tt /\
  (forall f, f ∈ [Repositories; Resources; Actions] ->
     (f ceiling <> [] -> f narrowed <> [] /\
        forall v, permits (f narrowed) v <-> permits (f ceiling) v /\ permits (f restriction) v) /\
     (f ceiling = [] -> f narrowed = [])) /\
  (forall name, ArgumentMax narrowed !! name =
     match ArgumentMax ceiling !! name, ArgumentMax restriction !! name with
     | Some c, Some r => Some (Z.min r c)
     | c, _ => c
     end) /\
  (forall name, is_Some (ArgumentMax restriction !! name) -> is_Some (ArgumentMax ceiling !! name)) /\
  (forall f, f ∈ [MaxResultBytes; MaxDuration] ->
     forall x, 0 <= x -> within_limit (f narrowed) x <-> within_limit (f ceiling) x /\ within_limit (f restriction) x).
Proof.
  unfold NarrowAuthorizationConstraints in H. intros restriction.
  case_match eqn:Eo; [done|]. case_match eqn:Ec; [done|].
  apply negb_false_iff, is_ok_unit, Constraints_Validate_ok in Ec
    as (Cr & Cs & Ca & Cb & Cd & Cm).
  apply result_bind_Ok in H as ([] & Hr & H). fold restriction in Hr, H.
  apply Constraints_Validate_ok in Hr as (_ & _ & _ & Rb & Rd & Rm).
  apply result_bind_Ok in H as (reps & H1 & H). apply result_bind_Ok in H as (ress & H2 & H).
  apply result_bind_Ok in H as (acts & H3 & H). apply result_bind_Ok in H as (args & H4 & [= <-]).
  pose proof (narrowSet_permits _ _ _ H1) as P1. pose proof (narrowSet_permits _ _ _ H2) as P2.
  pose proof (narrowSet_permits _ _ _ H3) as P3.
  apply narrowSet_ok in H1 as (_ & _ & V1 & _), H2 as (_ & _ & V2 & _), H3 as (_ & _ & V3 & _).
  apply narrow_arguments_ok in H4 as [A1 A2]; [|apply NoDup_fst_map_to_list|done].
  pose proof (narrow_num_ok _ _ Cb Rb) as (B1 & B2).
  pose proof (narrow_num_ok _ _ Cd Rd) as (D1 & D2).
  change (narrowInt64 (MaxDuration ceiling)) with (narrowDuration (MaxDuration ceiling)) in *.
  assert (Hargs : forall name, args !! name =
     match ArgumentMax ceiling !! name, ArgumentMax restriction !! name with
     | Some c, Some r => Some (Z.min r c) | c, _ => c end).
  { intros name. destruct (ArgumentMax restriction !! name) as [r|] eqn:Er.
    - apply elem_of_map_to_list in Er. destruct (A1 _ _ Er) as (l & -> & ->). done.
    - rewrite A2; [by destruct (ArgumentMax ceiling !! name)|].
      intros ((n & m) & -> & Hn)%list_elem_of_fmap. apply elem_of_map_to_list in Hn.
      simpl in Er. congruence. }
  to_prop. split_and!; try done.
  - apply Constraints_Validate_ok. simpl. split_and!; auto.
    intros name m. rewrite Hargs. intros Hm.
    destruct (ArgumentMax ceiling !! name) as [c|] eqn:E; [|done]. destruct (Cm _ _ E).
    destruct (ArgumentMax restriction !! name) as [r|] eqn:E'; [|by simplify_eq].
    destruct (Rm _ _ E'). simplify_eq. split; [done|lia].
  - intros f. rewrite !elem_of_cons, elem_of_nil.
    by intros [->|[->|[->|[]]]].
  - intros name [m Hm]. apply elem_of_map_to_list in Hm. destruct (A1 _ _ Hm) as (l & -> & _). by eexists.
  - intros f. rewrite !elem_of_cons, elem_of_nil. by intros [->|[->|[]]].
Qed.

(** An allow decision used by the witnesses. *)
Definition sample_request : AuthorizationRequest :=
  mkAuthRequest "r-1" "t" "s" "" "a" "v" "run" "w" "github.issue.create" "1.2.0" RiskBoundedWrite
    "true" ApprovalPolicy RetryReconcileBeforeRetry "tg-cjson-v1" "github" "issue.create"
    (sha256 "a") (sha256 "b") ["repository:x"%string] ["issue.create"%string] (10 * Second) "p" "1".

Definition sample_decision : AuthorizationDecision :=
  mkDecision "d-1" "r-1" "ctx" "pol" "1" AuthorizationAllow [ReasonAllowed] 100 100 200 7 "cp"
    (mkConstraints [] ["repository:x"%string] [] ∅ 1000 0) (mkApproval false "") "ev".

Lemma narrowing_never_widens_witness : exists narrowed,
  NarrowAuthorizationConstraints sample_decision
    (mkConstraints [] ["repository:x"; "repository:y"]%string ["issue.create"%string] ∅ 4096 10)
    = Ok narrowed /\ Outcome sample_decision = AuthorizationAllow /\ MaxResultBytes narrowed <= 1000.
Proof.
  eexists. split; [vm_compute; reflexivity|].
  destruct (narrowing_never_widens sample_decision
    (mkConstraints [] ["repository:x"; "repository:y"]%string ["issue.create"%string] ∅ 4096 10)
    (mkConstraints [] ["repository:x"%string] ["issue.create"%string] ∅ 1000 10))
    as (Ho & _ & _ & _ & _ & Hn); [vm_compute; reflexivity|].
  split; [exact Ho|].
  destruct (Hn MaxResultBytes (list_elem_of_here _ _) 1000 ltac:(lia)) as [Hn1 _]. destruct Hn1 as [_ _]; vm_compute; [right|]; discriminate.
Defined.

(** A repository restriction is dropped where the local ceiling names no repositories: the
    set of repositories an authorization decision allows has no effect on the
    narrowed constraints when the ceiling's list is empty, which is how
    the invocation path builds its ceiling; an empty list reads as no restriction. *)
Theorem repository_restriction_dropped (decision : AuthorizationDecision)
    (ceiling : ConstraintCeiling) (narrowed : AuthorizationConstraints)
    (Hempty : Repositories ceiling = [])
    (H : NarrowAuthorizationConstraints decision ceiling = Ok narrowed) :
  Repositories narrowed = [] /\
  forall repositories, validSet repositories = true ->
    NarrowAuthorizationConstraints
      (with_constraints decision
         (mkConstraints repositories (Resources (Constraints decision))
            (Actions (Constraints decision)) (ArgumentMax (Constraints decision))
            (MaxResultBytes (Constraints decision)) (MaxDuration (Constraints decision))))
      ceiling = Ok narrowed.
Proof.
  assert (Hn : forall l, narrowSet [] l = Ok []).
  { intros l. unfold narrowSet. by destruct (llen l =? 0). }
  unfold NarrowAuthorizationConstraints in *. simpl.
  destruct (negb (String.eqb (Outcome decision) AuthorizationAllow)); [done|].
  destruct (negb (is_ok (Constraints_Validate ceiling))); [done|].
  apply result_bind_Ok in H as ([] & Hv & H). rewrite Hempty, Hn in H. simpl in H.
  split.
  - repeat (apply result_bind_Ok in H as (? & ? & H)). by simplify_eq.
  - intros repositories Hr. apply Constraints_Validate_ok in Hv as (? & ? & ? & ? & ? & ?).
    rewrite (proj2 (Constraints_Validate_ok (mkConstraints _ _ _ _ _ _))) by done.
    simpl. by rewrite Hempty, Hn.
Qed.

Lemma repository_restriction_dropped_witness : exists narrowed,
  NarrowAuthorizationConstraints
    (with_constraints sample_decision (mkConstraints ["org/one"%string] ["repository:x"%string] [] ∅ 1000 0))
    (mkConstraints [] ["repository:x"%string] [] ∅ 4096 10) = Ok narrowed /\
  Repositories narrowed = [].
Proof.
  eexists.
  destruct (repository_restriction_dropped sample_decision
    (mkConstraints [] ["repository:x"%string] [] ∅ 4096 10)
    (mkConstraints [] ["repository:x"%string] [] ∅ 1000 10)) as [Hr Hall];
    [reflexivity|vm_compute; reflexivity|].
  split; [|exact Hr]. apply (Hall ["org/one"%string]). vm_compute. reflexivity.
Defined.





(** a configured high-risk write is decided live: its outcome does not depend on the
    regular (cached) authorizer, an error of the revocation state or of the live
    authorizer is an error, and a returned decision is the live one, valid for
    the request now, no older than the configured age, and not behind the
    revocation state that was observed before the live call. *)
Theorem high_risk_is_live (rules : list HighRiskWrite) (maxDecisionAge : Z)
    (regular live : AuthorizationRequest -> result AuthorizationDecision)
    (revocations : result (Z * string)) (now : Z) (request : AuthorizationRequest)
    (Hrisk : mkHighRisk (req_Risk request) (req_SideEffect request) ∈ rules) :
  let outcome := Current_Authorize rules maxDecisionAge regular live revocations now request in
  (forall regular', Current_Authorize rules maxDecisionAge regular' live revocations now request
     = outcome) /\
  (forall d, outcome = Ok d <->
     live request = Ok d /\ ValidateFor d request = Ok tt /\
     IssuedAt d <= now /\ NotBefore d <= now < ExpiresAt d /\
     time_Sub now (IssuedAt d) <= maxDecisionAge /\
     exists epoch checkpoint, revocations = Ok (epoch, checkpoint) /\
       matchesRevocation d epoch checkpoint = true).
Proof.
  unfold Current_Authorize. rewrite bool_decide_true by done. simpl. split; [done|].
  intros d. destruct revocations as [[epoch cp]|]; [|naive_solver].
  rewrite result_bind_Ok. split.
  - intros (d' & Hl & H). apply result_bind_Ok in H as ([] & Hv & H).
    apply validateFresh_ok in Hv as (? & ? & ? & ?). case_match eqn:E; [done|].
    to_prop. simplify_eq. destruct E. split_and!; eauto.
  - intros (Hl & Hv & ? & [? ?] & Ha & ep & c & [= <- <-] & Hm). exists d. split; [done|].
    rewrite (proj2 (validateFresh_ok d request now)) by (split_and!; auto).
    simpl. rewrite Hm. replace (maxDecisionAge <? _) with false by lia. done.
Qed.

Lemma high_risk_is_live_witness :
  Current_Authorize [mkHighRisk RiskBoundedWrite "true"] 60 (fun _ => Err (ErrNew "cached"))
    (fun _ => Ok sample_decision) (Ok (7, "cp"%string)) 150 sample_request = Ok sample_decision.
Proof.
  apply (high_risk_is_live [mkHighRisk RiskBoundedWrite "true"] 60); [apply list_elem_of_here|].
  split_and!; try (vm_compute; reflexivity); try (simpl; lia); try done.
  exists 7, "cp"%string. split; reflexivity.
Defined.
