(* ===== verification/GoTime.v ===== *)
(** * Instants as text

    The parts of [time] that encode and decode instants in JSON: the proleptic
    Gregorian calendar, [Time.MarshalJSON] of an instant in UTC (RFC 3339 with the
    digits of the nanoseconds that are needed) and the strict RFC 3339 reader of
    [Time.UnmarshalJSON].  Instants are nanoseconds since the first of January of
    year 1, as everywhere in this development. *)
From Stdlib Require Import Ascii String Floats.SpecFloat.
From S2P Require Import Prelude GoStd.

(** ** The calendar *)

Record civil := mkCivil { year : Z; month : Z; day : Z }.

(** Days are counted from 0001-01-01; internally from 0000-03-01, in eras of 400
    years whose leap day comes last. *)
Definition civil_of_days (days : Z) : civil :=
  let z := days + 306 in
  let era := z / 146097 in
  let doe := z mod 146097 in
  let yoe := (doe - doe / 1460 + doe / 36524 - doe / 146096) / 365 in
  let doy := doe - (365 * yoe + yoe / 4 - yoe / 100) in
  let mp := (5 * doy + 2) / 153 in
  let m := if mp <? 10 then mp + 3 else mp - 9 in
  mkCivil (yoe + era * 400 + (if m <=? 2 then 1 else 0)) m (doy - (153 * mp + 2) / 5 + 1).

Definition days_of_civil (c : civil) : Z :=
  let y := year c - (if month c <=? 2 then 1 else 0) in
  let era := y / 400 in
  let yoe := y mod 400 in
  let mp := if 2 <? month c then month c - 3 else month c + 9 in
  let doy := (153 * mp + 2) / 5 + day c - 1 in
  era * 146097 + yoe * 365 + yoe / 4 - yoe / 100 + doy - 306.

Definition is_leap (y : Z) : bool :=
  (y mod 4 =? 0) && (negb (y mod 100 =? 0) || (y mod 400 =? 0)).

Definition days_in (m y : Z) : Z :=
  if m =? 2 then (if is_leap y then 29 else 28)
  else if (m =? 4) || (m =? 6) || (m =? 9) || (m =? 11) then 30 else 31.

(** ** Writing *)

Definition digit (n : Z) : ascii := byte (48 + n mod 10).
Fixpoint pad (width : nat) (n : Z) : string :=
  match width with
  | O => EmptyString
  | S width => pad width (n / 10) +:+ String (digit n) EmptyString
  end.

(** The fraction without its trailing zeros, and nothing for a whole second. *)
Fixpoint strip_zeros (l : list ascii) : list ascii :=
  match l with c :: l' => if Ascii.eqb c "0" then strip_zeros l' else l | [] => [] end.
Definition fraction (nanos : Z) : string :=
  let kept := str_of (rev (strip_zeros (rev (bytes_of (pad 9 nanos))))) in
  if String.eqb kept "" then EmptyString else "." +:+ kept.

Definition Day : Z := 24 * Hour.

(** [t.UTC().Format(time.RFC3339Nano)], which [MarshalJSON] refuses outside the
    years 0 to 9999. *)
Definition format_rfc3339 (t : Z) : option string :=
  let c := civil_of_days (t / Day) in
  let s := t mod Day in
  if (year c <? 0) || (9999 <? year c) then None
  else Some (pad 4 (year c) +:+ "-" +:+ pad 2 (month c) +:+ "-" +:+ pad 2 (day c) +:+ "T"
             +:+ pad 2 (s / Hour) +:+ ":" +:+ pad 2 (s / Minute mod 60) +:+ ":" +:+ pad 2 (s / Second mod 60)
             +:+ fraction (s mod Second) +:+ "Z").

(** ** Reading *)

(** [parseUint]: exactly [width] digits between [min] and [max]. *)
Fixpoint take_digits (width : nat) (acc : Z) (s : string) : option (Z * string) :=
  match width, s with
  | O, _ => Some (acc, s)
  | S width, String c s => if is_digit c then take_digits width (acc * 10 + (byte_val c - 48)) s else None
  | S _, EmptyString => None
  end.
Definition parse_uint (width : nat) (min max : Z) (s : string) : option (Z * string) :=
  match take_digits width 0 s with
  | Some (z, rest) => if (min <=? z) && (z <=? max) then Some (z, rest) else None
  | None => None
  end.
Definition expect (c : ascii) (s : string) : option string :=
  match s with String d rest => if Ascii.eqb c d then Some rest else None | EmptyString => None end.

(** The digits of a fraction: the first nine count. *)
Fixpoint fraction_digits (scale acc : Z) (s : string) : Z * string :=
  match s with
  | String c rest =>
      if is_digit c then fraction_digits (scale / 10) (acc + (byte_val c - 48) * scale) rest else (acc, s)
  | EmptyString => (acc, s)
  end.
Definition parse_fraction (s : string) : Z * string :=
  match s with
  | String c (String d _ as rest) =>
      if Ascii.eqb c "." && is_digit d then fraction_digits 100000000 0 rest else (0, s)
  | _ => (0, s)
  end.

(** [Z], or a numeric offset in seconds. *)
Definition parse_zone (s : string) : option Z :=
  if String.eqb s "Z" then Some 0 else
  match s with
  | String sign rest =>
      if Ascii.eqb sign "+" || Ascii.eqb sign "-" then
        parse_uint 2 0 23 rest ≫= fun '(hh, rest) =>
        expect ":" rest ≫= fun rest =>
        parse_uint 2 0 59 rest ≫= fun '(mm, rest) =>
        if String.eqb rest "" then
          Some ((if Ascii.eqb sign "-" then -1 else 1) * ((hh * 60 + mm) * 60))
        else None
      else None
  | EmptyString => None
  end.

(** [parseStrictRFC3339] *)
Definition parse_rfc3339 (s : string) : option Z :=
  parse_uint 4 0 9999 s ≫= fun '(y, s) =>
  expect "-" s ≫= fun s => parse_uint 2 1 12 s ≫= fun '(m, s) =>
  expect "-" s ≫= fun s => parse_uint 2 1 (days_in m y) s ≫= fun '(d, s) =>
  expect "T" s ≫= fun s => parse_uint 2 0 23 s ≫= fun '(hh, s) =>
  expect ":" s ≫= fun s => parse_uint 2 0 59 s ≫= fun '(mm, s) =>
  expect ":" s ≫= fun s => parse_uint 2 0 59 s ≫= fun '(ss, s) =>
  let '(nanos, s) := parse_fraction s in
  parse_zone s ≫= fun offset =>
  Some (days_of_civil (mkCivil y m d) * Day + hh * Hour + mm * Minute + ss * Second + nanos - offset * Second).

(** ** Durations *)

(** [leadingInt]: the value of the leading digits, unless it exceeds [2^63]. *)
Fixpoint leadingInt (x : Z) (s : string) : option (Z * string) :=
  match s with
  | String c rest =>
      if is_digit c then
        if 2 ^ 63 / 10 <? x then None
        else let x := x * 10 + (byte_val c - 48) in if 2 ^ 63 <? x then None else leadingInt x rest
      else Some (x, s)
  | EmptyString => Some (x, s)
  end.

(** [leadingFraction]: digits past the ones that fit are skipped. *)
Fixpoint leadingFraction (x : Z) (scale : spec_float) (overflow : bool) (s : string) : Z * spec_float * string :=
  match s with
  | String c rest =>
      if is_digit c then
        if overflow then leadingFraction x scale true rest
        else if (2 ^ 63 - 1) / 10 <? x then leadingFraction x scale true rest
        else let y := x * 10 + (byte_val c - 48) in
             if 2 ^ 63 <? y then leadingFraction x scale true rest
             else leadingFraction y (float64_mul scale (float64_of_int64 10)) false rest
      else (x, scale, s)
  | EmptyString => (x, scale, s)
  end.

Definition unit_end (c : ascii) : bool := Ascii.eqb c "." || is_digit c.
Fixpoint cut_unit (s : string) : string * string :=
  match s with
  | String c rest => if unit_end c then (EmptyString, s) else let '(u, r) := cut_unit rest in (String c u, r)
  | EmptyString => (EmptyString, EmptyString)
  end.

(** [unitMap]; a microsecond has three spellings. *)
Definition unit_of (u : string) : option Z :=
  if String.eqb u "ns" then Some 1
  else if String.eqb u "us" || String.eqb u (str_of (map byte [194; 181; 115]))
          || String.eqb u (str_of (map byte [206; 188; 115])) then Some 1000
  else if String.eqb u "ms" then Some Millisecond
  else if String.eqb u "s" then Some Second
  else if String.eqb u "m" then Some Minute
  else if String.eqb u "h" then Some Hour
  else None.

(** One number with its unit. *)
Definition duration_part (s : string) : option (Z * string) :=
  match s with
  | String c _ =>
      if negb (unit_end c) then None else
      match leadingInt 0 s with
      | None => None
      | Some (v, s1) =>
          let pre := negb (slen s1 =? slen s) in
          let '(f, scale, s2, post) :=
            match s1 with
            | String d s1' =>
                if Ascii.eqb d "." then
                  let '(f, scale, s2) := leadingFraction 0 float64_one false s1' in
                  (f, scale, s2, negb (slen s2 =? slen s1'))
                else (0, float64_one, s1, false)
            | EmptyString => (0, float64_one, s1, false)
            end in
          if negb pre && negb post then None else
          let '(u, rest) := cut_unit s2 in
          match unit_of u with
          | None => None
          | Some unit =>
              if 2 ^ 63 / unit <? v then None else
              let v := v * unit in
              let v := if 0 <? f then
                         v + int64_of_float64 (float64_mul (float64_of_int64 f) (float64_div (float64_of_int64 unit) scale))
                       else v in
              if 2 ^ 63 <? v then None else Some (v, rest)
          end
      end
  | EmptyString => None
  end.

(** Every part takes at least one byte, so the length of the text is fuel enough. *)
Fixpoint duration_parts (fuel : nat) (d : Z) (s : string) : option Z :=
  match fuel, s with
  | _, EmptyString => Some d
  | O, _ => None
  | S fuel, _ =>
      match duration_part s with
      | None => None
      | Some (v, rest) => let d := d + v in if 2 ^ 63 <? d then None else duration_parts fuel d rest
      end
  end.

(** [time.ParseDuration] *)
Definition ParseDuration (s : string) : option Z :=
  let '(neg, s) := match s with
                   | String c rest => if Ascii.eqb c "-" || Ascii.eqb c "+" then (Ascii.eqb c "-", rest) else (false, s)
                   | EmptyString => (false, s)
                   end in
  if String.eqb s "0" then Some 0
  else if String.eqb s "" then None
  else match duration_parts (String.length s) 0 s with
       | None => None
       | Some d => if neg then Some (- d) else if max_int64 <? d then None else Some d
       end.

Example durations :
  map ParseDuration ["1h30m"; "-1.5s"; "300ms"; "0"; "1"; ""; ".5h"; "9223372036854775807ns"; "9223372036854775808ns";
                     "1.0000000001s"; "2us3ns"; "1d"; "."]%string =
  [Some (90 * Minute); Some (-1500 * Millisecond); Some (300 * Millisecond); Some 0; None; None; Some (30 * Minute);
   Some max_int64; None; Some Second; Some 2003; None; None].
Proof. vm_compute. reflexivity. Qed.

(** The fuel is enough: more of it changes nothing. *)
Lemma cut_unit_length s u r : cut_unit s = (u, r) -> (String.length u + String.length r = String.length s)%nat.
Proof.
  revert u r. induction s as [|c s IH]; intros u r; cbn [cut_unit]; [by intros [= <- <-]|].
  destruct (unit_end c); [by intros [= <- <-]|]. destruct (cut_unit s) as [u' r'] eqn:E. intros [= <- <-].
  specialize (IH _ _ eq_refl). simpl. lia.
Qed.

Lemma leadingInt_length x s v r : leadingInt x s = Some (v, r) -> (String.length r <= String.length s)%nat.
Proof.
  revert x. induction s as [|c s IH]; intros x; cbn [leadingInt]; [by intros [= _ <-]|].
  destruct (is_digit c); [|by intros [= _ <-]]. destruct (_ <? x); [done|]. cbv zeta. destruct (_ <? _); [done|].
  intros H%IH. simpl. lia.
Qed.

Lemma leadingFraction_length x scale o s f scale' r :
  leadingFraction x scale o s = (f, scale', r) -> (String.length r <= String.length s)%nat.
Proof.
  revert x scale o. induction s as [|c s IH]; intros x scale o; cbn [leadingFraction]; [by intros [= _ _ <-]|].
  destruct (is_digit c); [|by intros [= _ _ <-]]. cbv zeta.
  repeat case_match; intros H'%IH; simpl; lia.
Qed.

Lemma duration_part_length s v r : duration_part s = Some (v, r) -> (String.length r < String.length s)%nat.
Proof.
  unfold duration_part. destruct s as [|c s]; [done|]. destruct (negb _); [done|].
  destruct (leadingInt 0 (String c s)) as [[x s1]|] eqn:E1; [|done]. apply leadingInt_length in E1.
  destruct (match s1 with EmptyString => _ | _ => _ end) as [[[f scale] s2] post] eqn:E2.
  assert (Hs2 : (String.length s2 <= String.length s1)%nat).
  { revert E2. destruct s1 as [|d s1]; [by intros [= _ _ <- _]|]. destruct (Ascii.eqb d "."); [|by intros [= _ _ <- _]].
    destruct (leadingFraction _ _ _ s1) as [[f' sc'] s2'] eqn:El. intros [= _ _ <- _].
    apply leadingFraction_length in El. simpl. lia. }
  destruct (_ && _); [done|]. destruct (cut_unit s2) as [u rest] eqn:Eu. apply cut_unit_length in Eu.
  destruct (unit_of u) as [unit|] eqn:Eunit; [|done].
  assert (Hu : (0 < String.length u)%nat) by (destruct u; [done|simpl; lia]).
  repeat case_match; intros [= _ <-]; lia.
Qed.

Lemma duration_fuel fuel d s : (String.length s <= fuel)%nat ->
  duration_parts fuel d s = duration_parts (String.length s) d s.
Proof.
  revert d s. induction (lt_wf fuel) as [fuel _ IH]. intros d s Hf. destruct s as [|c s]; [by destruct fuel|].
  destruct fuel as [|fuel]; [simpl in Hf; lia|]. cbn [String.length duration_parts].
  destruct (duration_part (String c s)) as [[v r]|] eqn:E; [|done]. apply duration_part_length in E. simpl in E, Hf.
  cbv zeta. destruct (_ <? _); [done|]. rewrite IH by lia. symmetry. apply IH; lia.
Qed.

(** ** Reading what was written *)

Example epoch_text : format_rfc3339 unix_epoch = Some "1970-01-01T00:00:00Z"%string.
Proof. reflexivity. Qed.
Example leap_day_text : parse_rfc3339 "2024-02-29T23:59:59.120+01:30" ≫= format_rfc3339
  = Some "2024-02-29T22:29:59.12Z"%string.
Proof. reflexivity. Qed.
Example no_leap_day : parse_rfc3339 "2023-02-29T00:00:00Z" = None.
Proof. reflexivity. Qed.

Definition civil_ok (c : civil) : bool :=
  (1 <=? month c) && (month c <=? 12) && (1 <=? day c) && (day c <=? days_in (month c) (year c)).

(** The date of a day is valid and denotes it. *)
Definition denotes (d : Z) : bool := let c := civil_of_days d in (days_of_civil c =? d) && civil_ok c.

(** The year of an era: its first day, and the formula that finds it. *)
Definition year_of (doe : Z) : Z := (doe - doe / 1460 + doe / 36524 - doe / 146096) / 365.
Definition year_start (y : Z) : Z := 365 * y + y / 4 - y / 100.
Definition year_end (y : Z) : Z := if y =? 399 then 146096 else year_start (y + 1) - 1.

Definition year_ok (y : Z) : bool :=
  (year_of (year_start y) =? y) && (year_of (year_end y) =? y)
  && (year_end y - year_start y <=? (if is_leap (y + 1) then 365 else 364)).

Lemma years_ok : all_from year_ok 400 0 = true.
Proof. vm_compute. reflexivity. Qed.

Lemma year_of_mono a b : a <= b -> year_of a <= year_of b.
Proof.
  intros H. apply Z.div_le_mono; [done|].
  cut (forall x, x - x / 1460 + x / 36524 - x / 146096 <= x + 1 - (x + 1) / 1460 + (x + 1) / 36524 - (x + 1) / 146096).
  - intros Hs. replace b with (a + Z.of_nat (Z.to_nat (b - a))) by lia.
    induction (Z.to_nat (b - a)) as [|n IH]; [by rewrite Z.add_0_r|].
    specialize (Hs (a + Z.of_nat n)). replace (a + Z.of_nat (S n)) with (a + Z.of_nat n + 1) by lia. lia.
  - intros x. change 146096 with (36524 * 4). rewrite <- !(Z.div_div _ 36524 4) by done.
    assert (x / 36524 <= (x + 1) / 36524) by (apply Z.div_le_mono; lia).
    assert ((x + 1) / 1460 <= x / 1460 + 1) by (Z.to_euclidean_division_equations; lia).
    generalize dependent (x / 36524). generalize dependent ((x + 1) / 36524). intros. Z.to_euclidean_division_equations. lia.
Qed.

Lemma year_found doe : 0 <= doe < 146097 ->
  let y := year_of doe in 0 <= y <= 399 /\ 0 <= doe - year_start y <= (if is_leap (y + 1) then 365 else 364).
Proof.
  intros H y.
  assert (Hy : 0 <= y <= 399).
  { split; [change 0 with (year_of 0)|change 399 with (year_of 146096)]; apply year_of_mono; lia. }
  split; [done|].
  assert (Hok : forall y, 0 <= y <= 399 -> year_of (year_start y) = y /\ year_of (year_end y) = y /\
            year_end y - year_start y <= (if is_leap (y + 1) then 365 else 364)).
  { intros x Hx. pose proof (all_from_spec _ _ 400 _ years_ok eq_refl x ltac:(lia)) as E. unfold year_ok in E.
    rewrite !andb_true_iff, !Z.eqb_eq, Z.leb_le in E. tauto. }
  destruct (Hok y Hy) as (Hs & He & Hlen). split.
  - destruct (decide (y = 0)) as [E|]; [rewrite E; change (year_start 0) with 0; lia|].
    destruct (Z.le_gt_cases (year_start y) doe) as [|Hgt]; [lia|exfalso].
    destruct (Hok (y - 1) ltac:(lia)) as (_ & He' & _). unfold year_end in He'.
    replace (y - 1 =? 399) with false in He' by (symmetry; apply Z.eqb_neq; lia).
    replace (y - 1 + 1) with y in He' by lia.
    pose proof (year_of_mono doe (year_start y - 1) ltac:(lia)). fold y in H0. lia.
  - enough (doe <= year_end y) by lia. unfold year_end. destruct (Z.eqb_spec y 399); [lia|].
    destruct (Z.le_gt_cases doe (year_start (y + 1) - 1)) as [|Hgt]; [done|exfalso].
    destruct (Hok (y + 1) ltac:(lia)) as (Hs' & _ & _).
    pose proof (year_of_mono (year_start (y + 1)) doe ltac:(lia)). fold y in H0. lia.
Qed.

(** The month of a year that starts in March. *)
Definition month_of (doy : Z) : Z := (5 * doy + 2) / 153.
Definition shifted (mp : Z) : Z := if mp <? 10 then mp + 3 else mp - 9.
Definition month_ok (doy : Z) : bool :=
  let mp := month_of doy in let m := shifted mp in let d := doy - (153 * mp + 2) / 5 + 1 in
  (1 <=? m) && (m <=? 12) && (1 <=? d) && ((if 2 <? m then m - 3 else m + 9) =? mp)
  && (d <=? (if m =? 2 then (if doy =? 365 then 29 else 28) else days_in m 0)).

Lemma months_ok : all_from month_ok 366 0 = true.
Proof. vm_compute. reflexivity. Qed.

Definition later (c : civil) (k : Z) : civil := mkCivil (year c + k * 400) (month c) (day c).

Lemma civil_of_days_shift d k : civil_of_days (d + k * 146097) = later (civil_of_days d) k.
Proof.
  unfold later, civil_of_days. replace (d + k * 146097 + 306) with (d + 306 + k * 146097) by lia.
  rewrite Z.div_add, Z.mod_add by lia. cbn [year month day]. f_equal. lia.
Qed.

Lemma days_of_civil_shift c k :
  days_of_civil (later c k) = days_of_civil c + k * 146097.
Proof.
  unfold later, days_of_civil. cbn [year month day].
  replace (year c + k * 400 - (if month c <=? 2 then 1 else 0))
    with (year c - (if month c <=? 2 then 1 else 0) + k * 400) by lia.
  rewrite Z.div_add, Z.mod_add by lia. lia.
Qed.

Lemma is_leap_shift y k : is_leap (y + k * 400) = is_leap y.
Proof.
  unfold is_leap. rewrite Z.mod_add by lia.
  replace (y + k * 400) with (y + k * 100 * 4) at 1 by lia. rewrite Z.mod_add by lia.
  replace (y + k * 400) with (y + k * 4 * 100) by lia. by rewrite Z.mod_add by lia.
Qed.

Lemma era_day doe : 0 <= doe < 146097 -> denotes (doe - 306) = true.
Proof.
  intros H. destruct (year_found doe H) as [Hy Hdoy].
  assert (Hc : civil_of_days (doe - 306) =
    let y := year_of doe in let doy := doe - year_start y in let m := shifted (month_of doy) in
    mkCivil (y + (if m <=? 2 then 1 else 0)) m (doy - (153 * month_of doy + 2) / 5 + 1)).
  { unfold civil_of_days. replace (doe - 306 + 306) with doe by lia.
    rewrite (Z.div_small doe 146097), (Z.mod_small doe 146097) by lia. cbv zeta. fold (year_of doe). fold (year_start (year_of doe)).
    by rewrite Z.mul_0_l, Z.add_0_r. }
  unfold denotes. rewrite Hc. clear Hc. cbv zeta.
  set (y := year_of doe) in *. set (doy := doe - year_start y) in *.
  assert (Hd : month_ok doy = true).
  { apply (all_from_spec _ _ 366 _ months_ok eq_refl). clear -Hdoy. revert Hdoy. case_match; lia. }
  unfold month_ok in Hd. rewrite !andb_true_iff, !Z.leb_le, !Z.eqb_eq in Hd. cbv zeta in Hd.
  destruct Hd as [[[[Hm1 Hm2] Hd1] Hmp] Hd2].
  set (mp := month_of doy) in *. set (m := shifted mp) in *. set (d := doy - (153 * mp + 2) / 5 + 1) in *.
  rewrite andb_true_iff, Z.eqb_eq. split.
  - unfold days_of_civil. cbn [year month day]. rewrite Hmp.
    replace (y + (if m <=? 2 then 1 else 0) - (if m <=? 2 then 1 else 0)) with y by lia.
    rewrite (Z.div_small y 400), (Z.mod_small y 400) by lia. unfold d, doy, year_start. lia.
  - unfold civil_ok. cbn [year month day]. rewrite !andb_true_iff, !Z.leb_le. repeat split; try done.
    destruct (Z.eqb_spec m 2) as [E|E]; [|unfold days_in in *; by destruct (Z.eqb_spec m 2)].
    unfold days_in. rewrite E. cbn [Z.eqb Pos.eqb Z.leb Z.compare Pos.compare Pos.compare_cont].
    clear -Hdoy Hd2. revert Hdoy Hd2.
    destruct (is_leap (y + 1)); [intros _; destruct (doy =? 365); lia|]. intros Hdoy Hd2.
    replace (doy =? 365) with false in Hd2 by (symmetry; apply Z.eqb_neq; lia). lia.
Qed.

Lemma civil_ok_shift c k : civil_ok (later c k) = civil_ok c.
Proof. unfold later, civil_ok, days_in. cbn [year month day]. by rewrite is_leap_shift. Qed.

Lemma denotes_shift d k : denotes d = true -> denotes (d + k * 146097) = true.
Proof.
  unfold denotes. rewrite civil_of_days_shift, days_of_civil_shift, civil_ok_shift.
  rewrite !andb_true_iff, !Z.eqb_eq. intros [-> ->]. done.
Qed.

Lemma denotes_spec d : denotes d = true <->
  days_of_civil (civil_of_days d) = d /\ civil_ok (civil_of_days d) = true.
Proof. unfold denotes. by rewrite andb_true_iff, Z.eqb_eq. Qed.

(** Every day has a valid date, which denotes it. *)
Lemma civil_roundtrip d : days_of_civil (civil_of_days d) = d /\ civil_ok (civil_of_days d) = true.
Proof.
  pose proof (Z.mod_pos_bound (d + 306) 146097 ltac:(lia)) as B.
  pose proof (denotes_shift _ ((d + 306) / 146097) (era_day _ B)) as H.
  replace ((d + 306) mod 146097 - 306 + (d + 306) / 146097 * 146097) with d in H
    by (pose proof (Z.div_mod (d + 306) 146097 ltac:(lia)); lia).
  by apply denotes_spec.
Qed.

(** Numbers of a fixed width. *)
Lemma digit_val n : is_digit (digit n) = true /\ byte_val (digit n) - 48 = n mod 10.
Proof.
  unfold digit, is_digit, byte_in. rewrite byte_val_byte.
  pose proof (Z.mod_pos_bound n 10 ltac:(lia)). rewrite (Z.mod_small (48 + n mod 10)) by lia.
  split; [|lia]. apply andb_true_iff. rewrite !Z.leb_le. lia.
Qed.

Lemma take_digits_snoc w acc s z c rest : take_digits w acc s = Some (z, String c rest) ->
  is_digit c = true -> take_digits (S w) acc s = Some (z * 10 + (byte_val c - 48), rest).
Proof.
  revert acc s. induction w as [|w IH]; intros acc s H Hc.
  { injection H as <- ->. simpl. by rewrite Hc. }
  destruct s as [|a s]; [done|]. cbn [take_digits] in H |- *.
  destruct (is_digit a); [|done]. by apply IH.
Qed.

Lemma take_digits_pad w n acc rest : 0 <= n < 10 ^ Z.of_nat w ->
  take_digits w acc (pad w n +:+ rest) = Some (acc * 10 ^ Z.of_nat w + n, rest).
Proof.
  revert n rest. induction w as [|w IH]; intros n rest Hn.
  { simpl in *. f_equal. f_equal. lia. }
  rewrite Nat2Z.inj_succ, Z.pow_succ_r in * by lia.
  pose proof (Z.div_mod n 10 ltac:(lia)). pose proof (Z.mod_pos_bound n 10 ltac:(lia)).
  cbn [pad]. rewrite <- append_assoc. cbn [String.append].
  destruct (digit_val n) as [Hd Hv].
  rewrite (take_digits_snoc w acc _ (acc * 10 ^ Z.of_nat w + n / 10) (digit n) rest), Hv; [|apply IH|done].
  - f_equal. f_equal. lia.
  - split; [apply Z.div_pos; lia|]. apply Z.div_lt_upper_bound; lia.
Qed.

Lemma parse_uint_pad w min max n rest : 0 <= n < 10 ^ Z.of_nat w -> min <= n <= max ->
  parse_uint w min max (pad w n +:+ rest) = Some (n, rest).
Proof.
  intros Hn Hm. unfold parse_uint. rewrite take_digits_pad by done.
  replace (0 * 10 ^ Z.of_nat w + n) with n by lia.
  replace ((min <=? n) && (n <=? max)) with true; [done|].
  symmetry. apply andb_true_iff. rewrite !Z.leb_le. lia.
Qed.

(** Fractions. *)
Lemma fraction_digits_pad (w j : nat) n acc rest : 0 <= n < 10 ^ Z.of_nat w ->
  fraction_digits (10 ^ Z.of_nat (w + j) / 10) acc (pad w n +:+ rest) =
  fraction_digits (10 ^ Z.of_nat j / 10) (acc + n * 10 ^ Z.of_nat j) rest.
Proof.
  revert n j rest. induction w as [|w IH]; intros n j rest Hn.
  { simpl in *. f_equal. nia. }
  rewrite Nat2Z.inj_succ, Z.pow_succ_r in Hn by lia.
  pose proof (Z.div_mod n 10 ltac:(lia)). destruct (digit_val n) as [Hd Hv].
  cbn [pad]. rewrite <- append_assoc. cbn [String.append].
  replace (S w + j)%nat with (w + S j)%nat by lia.
  rewrite IH by (split; [apply Z.div_pos; lia|apply Z.div_lt_upper_bound; lia]).
  cbn [fraction_digits]. rewrite Hd, Hv.
  rewrite Nat2Z.inj_succ, Z.pow_succ_r by lia. rewrite (Z.mul_comm 10), Z.div_mul by lia.
  f_equal. nia.
Qed.

Lemma fraction_zeros zs scale acc r : Forall (eq "0"%char) zs ->
  fraction_digits scale acc (str_of zs +:+ String "Z" r) = (acc, String "Z" r).
Proof.
  revert scale acc. induction zs as [|c zs IH]; intros scale acc H; [done|].
  inversion H as [|? ? <- Hzs]; subst. cbn [str_of string_of_list_ascii String.append fraction_digits].
  change (is_digit "0") with true. cbv iota. fold (str_of zs). rewrite IH by done. f_equal.
  change (byte_val "0") with 48. lia.
Qed.

Lemma fraction_zeros_app p zs scale acc r : Forall (eq "0"%char) zs ->
  fraction_digits scale acc (str_of (p ++ zs) +:+ String "Z" r) =
  fraction_digits scale acc (str_of p +:+ String "Z" r) \/ Exists (fun c => is_digit c = false) p.
Proof.
  intros Hz. revert scale acc. induction p as [|c p IH]; intros scale acc.
  { left. simpl app. by rewrite fraction_zeros. }
  cbn [app str_of string_of_list_ascii String.append fraction_digits].
  destruct (is_digit c) eqn:E; [|by right; constructor].
  destruct (IH (scale / 10) (acc + (byte_val c - 48) * scale)) as [IH'|IH']; [by left|by right; constructor].
Qed.

Lemma strip_zeros_spec l : exists zs, l = zs ++ strip_zeros l /\ Forall (eq "0"%char) zs.
Proof.
  induction l as [|c l (zs & IH & Hz)]; [by exists []|]. cbn [strip_zeros].
  destruct (Ascii.eqb_spec c "0") as [->|]; [|by exists []].
  exists ("0"%char :: zs). split; [simpl; congruence|by constructor].
Qed.

Lemma pad_digits w n : Forall (fun c => is_digit c = true) (bytes_of (pad w n)).
Proof.
  revert n. induction w as [|w IH]; intros n; [constructor|]. cbn [pad].
  assert (E : forall a b, bytes_of (a +:+ b) = bytes_of a ++ bytes_of b).
  { intros a b. induction a as [|c a IHa]; [done|]. cbn. by f_equal. }
  rewrite E. apply Forall_app. split; [apply IH|]. constructor; [apply digit_val|constructor].
Qed.

Lemma parse_fraction_written n : 0 <= n < 10 ^ 9 ->
  parse_fraction (fraction n +:+ String "Z" EmptyString) = (n, String "Z" EmptyString).
Proof.
  intros Hn. unfold fraction. destruct (strip_zeros_spec (rev (bytes_of (pad 9 n)))) as (zs & E & Hz).
  set (k := strip_zeros _) in *. apply (f_equal (@rev _)) in E. rewrite rev_involutive, rev_app_distr in E.
  pose proof (pad_digits 9 n) as Hd. rewrite E in Hd. apply Forall_app in Hd as [Hd _].
  pose proof (fraction_digits_pad 9 0 n 0 (String "Z" EmptyString) Hn) as Hf.
  change (10 ^ Z.of_nat (9 + 0) / 10) with 100000000 in Hf.
  replace (pad 9 n) with (str_of (rev k ++ rev zs)) in Hf
    by (rewrite <- E; apply string_of_list_ascii_of_string).
  assert (Hz' : Forall (eq "0"%char) (rev zs)) by by apply Forall_rev.
  destruct (fraction_zeros_app (rev k) (rev zs) 100000000 0 EmptyString Hz') as [Ea|Ea].
  2:{ exfalso. apply Exists_exists in Ea as (c & Hc & Hf'). rewrite Forall_forall in Hd.
      specialize (Hd _ Hc). simpl in Hd. congruence. }
  rewrite Ea in Hf. cbn [fraction_digits] in Hf. change (is_digit "Z") with false in Hf. cbv iota in Hf.
  destruct (rev k) as [|c p] eqn:Ek.
  { change ((0, String "Z" EmptyString) = (n, String "Z" EmptyString)). f_equal.
    change ((0, String "Z" EmptyString) = (0 + n * 10 ^ Z.of_nat 0, String "Z" EmptyString)) in Hf.
    injection Hf as Hf. lia. }
  cbn [str_of string_of_list_ascii String.eqb String.append parse_fraction].
  change ("." +:+ String c (str_of p)) with (String "." (String c (str_of p))).
  cbn [String.append parse_fraction]. rewrite (Forall_inv Hd).
  change (Ascii.eqb "." ".") with true. cbn [andb].
  change (str_of (c :: p) +:+ String "Z" EmptyString) with (String c (str_of p +:+ String "Z" EmptyString)) in Hf.
  fold (str_of p). rewrite Hf. f_equal. lia.
Qed.

Lemma clock_fields u : 0 <= u < Day ->
  0 <= u / Hour <= 23 /\ 0 <= u / Minute mod 60 <= 59 /\ 0 <= u / Second mod 60 <= 59 /\
  0 <= u mod Second < 10 ^ 9 /\
  u = u / Hour * Hour + u / Minute mod 60 * Minute + u / Second mod 60 * Second + u mod Second.
Proof.
  unfold Day. change Hour with (Second * 60 * 60). change Minute with (Second * 60). intros Hu.
  rewrite <- (Z.div_div u (Second * 60) 60), <- !(Z.div_div u Second 60) by done.
  pose proof (Z.div_mod u Second ltac:(done)). pose proof (Z.mod_pos_bound u Second ltac:(done)).
  generalize dependent (u mod Second). generalize dependent (u / Second). intros q r Hq Hr.
  change (10 ^ 9) with Second. unfold Second in *.
  pose proof (Z.div_mod q 60 ltac:(done)). pose proof (Z.mod_pos_bound q 60 ltac:(done)).
  generalize dependent (q mod 60). generalize dependent (q / 60). intros q2 r2 Hq2 Hr2.
  pose proof (Z.div_mod q2 60 ltac:(done)). pose proof (Z.mod_pos_bound q2 60 ltac:(done)).
  lia.
Qed.

Lemma expect_same c s : expect c (String c s) = Some s.
Proof. unfold expect. by rewrite Ascii.eqb_refl. Qed.

(** Reading a written instant gives it back. *)
Lemma parse_format t s : format_rfc3339 t = Some s -> parse_rfc3339 s = Some t.
Proof.
  unfold format_rfc3339. set (c := civil_of_days (t / Day)).
  destruct ((year c <? 0) || (9999 <? year c)) eqn:Hy; [done|]. intros E%(inj Some). rewrite <- E. clear E. to_prop.
  destruct (civil_roundtrip (t / Day)) as [Hdays Hok]. fold c in Hdays, Hok.
  unfold civil_ok in Hok. rewrite !andb_true_iff, !Z.leb_le in Hok. destruct Hok as [[[? ?] ?] ?].
  assert (days_in (month c) (year c) <= 31) by (unfold days_in; repeat case_match; lia).
  pose proof (Z.div_mod t Day ltac:(done)) as Ht.
  destruct (clock_fields (t mod Day)) as (Hh & Hm & Hs & Hn & Hu); [by apply Z.mod_pos_bound|].
  unfold parse_rfc3339. rewrite parse_uint_pad by lia. cbn [mbind option_bind].
  repeat (cbn [String.append]; rewrite expect_same; cbn [mbind option_bind];
          rewrite parse_uint_pad by lia; cbn [mbind option_bind]).
  rewrite parse_fraction_written by lia. cbn [parse_zone String.eqb Ascii.eqb Bool.eqb mbind option_bind].
  replace (mkCivil (year c) (month c) (day c)) with c by by destruct c.
  rewrite Hdays. f_equal. lia.
Qed.
