(* ===== verification/Cursors.v ===== *)
(** * Signed pagination cursors

    The cursor of [internal/domain/primitives.go] and the discovery cursor of
    [internal/adapters/http/tool_discovery.go]: a JSON payload and its HMAC-SHA-256
    under the deployment's key, both in base64.  A discovery cursor also names the
    identity and page size it was issued for and when it expires. *)
From Stdlib Require Import Ascii String.
From stdpp Require Import pretty.
From S2P Require Import Prelude GoStd Regex Sha256 Json JsonParse Primitives ToolCatalog GoText Ports CanonicalJson JsonStruct.

(** ** Sealing *)

Definition seal (key payload : string) : string :=
  b64_encode payload +:+ "." +:+ b64_encode (hmac_sha256 key payload).

(** The payload of the two decoded parts, once its signature is verified. *)
Definition unseal (key payloadText signatureText : string) : result string :=
  match b64_decode payloadText with
  | None => Err (ErrNew "invalid cursor encoding")
  | Some payload =>
      match b64_decode signatureText with
      | None => Err (ErrNew "invalid cursor encoding")
      | Some signature =>
          if String.eqb signature (hmac_sha256 key payload) then Ok payload
          else Err (ErrNew "invalid cursor signature")
      end
  end.

(** ** [domain.Cursor] *)

Record Cursor := mkCursor { cur_Version : Z; cur_After : string; cur_Limit : Z }.

Definition cursor_fields : list string := ["v"; "after"; "limit"]%string.

Definition set_cursor (name : string) (m : member) (c : Cursor) : option Cursor :=
  if String.eqb name "v" then
    set_uint 8 m (cur_Version c) ≫= fun v => Some (mkCursor v (cur_After c) (cur_Limit c))
  else if String.eqb name "after" then
    set_string m (cur_After c) ≫= fun v => Some (mkCursor (cur_Version c) v (cur_Limit c))
  else
    set_uint 16 m (cur_Limit c) ≫= fun v => Some (mkCursor (cur_Version c) (cur_After c) v).

Definition cursor_bad (c : Cursor) : bool :=
  negb (cur_Version c =? 1) || (cur_Limit c <? 1) || (100 <? cur_Limit c) || (256 <? slen (cur_After c)).

Definition cursor_payload (c : Cursor) : string :=
  json_object [("v", json_int (cur_Version c)); ("after", json_string (cur_After c));
               ("limit", json_int (cur_Limit c))]%string.

Definition EncodeCursor (cursor : Cursor) (key : string) : result string :=
  if slen key <? 32 then Err (ErrNew "cursor signing key must be at least 32 bytes")
  else if cursor_bad cursor then Err (ErrNew "invalid cursor")
  else Ok (seal key (cursor_payload cursor)).

Definition DecodeCursor (encoded key : string) : result Cursor :=
  if slen key <? 32 then Err (ErrNew "cursor signing key must be at least 32 bytes") else
  let '(payloadText, signatureText, found) := cut_on "." encoded in
  if negb found || (1024 <? slen encoded) then Err (ErrNew "invalid cursor encoding") else
  unseal key payloadText signatureText ≫= fun payload =>
  match decode_struct cursor_fields true set_cursor (mkCursor 0 "" 0) payload with
  | None => Err (ErrNew "invalid cursor payload")
  | Some (cursor, _) => if cursor_bad cursor then Err (ErrNew "invalid cursor") else Ok cursor
  end.

(** ** The discovery cursor *)

Record discoveryCursor := mkDiscoveryCursor {
  dc_Version : Z; dc_AfterToolID : string; dc_AfterVersion : string;
  dc_Limit : Z; dc_Binding : string; dc_ExpiresAt : Z;
}.
Definition zero_cursor : discoveryCursor := mkDiscoveryCursor 0 "" "" 0 "" 0.

Record discoveryCursorCodec := mkCodec { codec_key : string; codec_ttl : Z; codec_now : Z }.

Definition maxToolPageSize : Z := 100.
Definition maxDiscoveryCursor : Z := 2048.

(** [Time.Unix] *)
Definition Unix (t : Z) : Z := (t - unix_epoch) / Second.

Definition discovery_fields : list string :=
  ["v"; "tool_id"; "version"; "limit"; "binding"; "expires_at"]%string.

Definition set_discovery (name : string) (m : member) (c : discoveryCursor) : option discoveryCursor :=
  let '(mkDiscoveryCursor v t w l b e) := c in
  if String.eqb name "v" then set_int 64 m v ≫= fun v => Some (mkDiscoveryCursor v t w l b e)
  else if String.eqb name "tool_id" then set_string m t ≫= fun t => Some (mkDiscoveryCursor v t w l b e)
  else if String.eqb name "version" then set_string m w ≫= fun w => Some (mkDiscoveryCursor v t w l b e)
  else if String.eqb name "limit" then set_int 64 m l ≫= fun l => Some (mkDiscoveryCursor v t w l b e)
  else if String.eqb name "binding" then set_string m b ≫= fun b => Some (mkDiscoveryCursor v t w l b e)
  else set_int 64 m e ≫= fun e => Some (mkDiscoveryCursor v t w l b e).

Definition discovery_payload (c : discoveryCursor) : string :=
  json_object [("v", json_int (dc_Version c)); ("tool_id", json_string (dc_AfterToolID c));
               ("version", json_string (dc_AfterVersion c)); ("limit", json_int (dc_Limit c));
               ("binding", json_string (dc_Binding c)); ("expires_at", json_int (dc_ExpiresAt c))]%string.

(** [discoveryCursorCodec.encode] *)
Definition encode (codec : discoveryCursorCodec) (cursor : discoveryCursor) : result string :=
  let encoded := seal (codec_key codec) (discovery_payload cursor) in
  if maxDiscoveryCursor <? slen encoded then Err (ErrNew "encoded cursor is too large") else Ok encoded.

Definition discovery_bad (now : Z) (c : discoveryCursor) : bool :=
  negb (dc_Version c =? 1) || (dc_Limit c <? 1) || (maxToolPageSize <? dc_Limit c)
  || negb (is_ok (ParseToolID (dc_AfterToolID c))) || negb (is_ok (ParseSemanticVersion (dc_AfterVersion c)))
  || String.eqb (dc_Binding c) "" || (dc_ExpiresAt c <=? Unix now).

(** [discoveryCursorCodec.decode] *)
Definition decode (codec : discoveryCursorCodec) (encoded : string) : result discoveryCursor :=
  let '(payloadText, signatureText, ok) := cut_on "." encoded in
  if negb ok then Err (ErrNew "invalid cursor encoding") else
  unseal (codec_key codec) payloadText signatureText ≫= fun payload =>
  match decode_document discovery_fields true set_discovery zero_cursor payload with
  | None => Err (ErrNew "invalid cursor payload")
  | Some cursor =>
      if discovery_bad (codec_now codec) cursor then Err (ErrNew "invalid or expired cursor") else Ok cursor
  end.

(** What [discoveryBinding] hashes: every value after its length. *)
Definition binding_part (value : string) : string := json_int (slen value) +:+ ":" +:+ value.
Definition binding_preimage (identity : DiscoveryAuthorizationRequest) (limit : Z) : string :=
  foldr (fun value rest => binding_part value +:+ rest) EmptyString
    [dr_TenantID identity; dr_Subject identity; dr_Actor identity; dr_AgentID identity;
     dr_AgentVersion identity; dr_RunID identity; dr_WorkloadID identity; json_int limit].

Definition discoveryBinding (identity : DiscoveryAuthorizationRequest) (limit : Z) : string :=
  b64_encode (sha256 (binding_preimage identity limit)).

(** ** Lemmas: texts *)

(** Bytes that JSON strings contain as they are. *)
Definition plain_ascii (c : ascii) : bool :=
  byte_in 32 126 c && negb (contains_byte c (str_of [byte 34; byte 92; byte 60; byte 62; byte 38])).

Lemma plain_byte c : plain_ascii c = true -> byte_val c <? 128 = true /\ escape_ascii c = String c EmptyString.
Proof.
  assert (Hall : forall c, implb (plain_ascii c) ((byte_val c <? 128) &&
    bool_decide (escape_ascii c = String c EmptyString)) = true).
  { apply forall_byte. vm_compute. reflexivity. }
  intros H. specialize (Hall c). rewrite H in Hall. simpl in Hall.
  by rewrite andb_true_iff, bool_decide_eq_true in Hall.
Qed.

Lemma plain_utf8 s : str_forallb plain_ascii s = true -> utf8_Valid s = true.
Proof.
  induction s as [|c s IH]; [done|]. simpl. intros [[Hc _]%plain_byte Hs]%andb_true_iff.
  rewrite Hc. auto.
Qed.

Lemma plain_escape s : str_forallb plain_ascii s = true -> escape_string s = s.
Proof.
  induction s as [|c s IH]; [done|]. cbn [str_forallb escape_string].
  intros [[-> ->]%plain_byte Hs]%andb_true_iff. cbn [String.append]. by rewrite IH.
Qed.

Lemma cut_on_spec sep s a b found : cut_on sep s = (a, b, found) ->
  s = if found then a +:+ String sep b else a.
Proof.
  revert a b found. induction s as [|c s IH]; simpl; intros a b found; [by intros [= <- <- <-]|].
  destruct (Ascii.eqb_spec c sep) as [->|]; [by intros [= <- <- <-]|].
  destruct (cut_on sep s) as [[a' b'] f']. intros [= <- <- <-].
  rewrite (IH _ _ _ eq_refl). by destruct f'.
Qed.

Lemma cut_on_append sep a b : str_forallb (fun c => negb (Ascii.eqb c sep)) a = true ->
  cut_on sep (a +:+ String sep b) = (a, b, true).
Proof.
  induction a as [|c a IH]; simpl; [by rewrite Ascii.eqb_refl|].
  rewrite andb_true_iff, negb_true_iff. intros [-> Ha]. by rewrite IH.
Qed.

Lemma split_on_forallb (p : ascii -> bool) sep s : p sep = true ->
  Forall (fun piece => str_forallb p piece = true) (split_on sep s) -> str_forallb p s = true.
Proof.
  intros Hsep. induction s as [|c s IH]; [done|]. simpl.
  destruct (Ascii.eqb_spec c sep) as [->|].
  - intros H. inversion H; subst. rewrite Hsep. auto.
  - destruct (split_on sep s) as [|piece rest]; intros H; inversion H as [|? ? Hp Hr]; subst; simpl in Hp.
    + apply andb_true_iff in Hp as [-> _]. apply IH. constructor.
    + apply andb_true_iff in Hp as [-> Hp]. apply IH. by constructor.
Qed.

Lemma identifiers_plain text strict : validSemverIdentifiers text strict = true ->
  str_forallb plain_ascii text = true.
Proof.
  unfold validSemverIdentifiers. case_match; [done|]. rewrite forallb_forall. intros Hall.
  apply (split_on_forallb _ "."); [done|]. rewrite List.Forall_forall. intros piece Hin.
  specialize (Hall piece Hin). destruct (matches semverIDPattern piece) eqn:E; [|done].
  revert E. apply matches_bytes_in. intros c. apply implb_true_iff. revert c. apply forall_byte.
  vm_compute. reflexivity.
Qed.

Lemma version_plain s v : ParseSemanticVersion s = Ok v -> str_forallb plain_ascii s = true.
Proof.
  unfold ParseSemanticVersion. case_match; [done|].
  destruct (cut_on "+" s) as [[p b] hb] eqn:Hb. case_match eqn:E1; [done|].
  destruct (cut_on "-" p) as [[c q] hq] eqn:Hq. case_match eqn:E2; [done|].
  unfold core_submatches. destruct (matches semverCorePattern c) eqn:Hc; [|done]. intros _.
  apply cut_on_spec in Hb, Hq. subst s p. rewrite orb_false_iff in E1. destruct E1 as [E1 _].
  assert (Hcore : str_forallb plain_ascii c = true).
  { revert Hc. apply matches_bytes_in. intros d. apply implb_true_iff. revert d. apply forall_byte.
    vm_compute. reflexivity. }
  assert (Hpre : str_forallb plain_ascii (if hq then c +:+ String "-" q else c) = true).
  { destruct hq; [|done]. rewrite str_forallb_append, Hcore. simpl.
    apply negb_false_iff in E2. by apply identifiers_plain in E2. }
  destruct hb; [|done]. rewrite str_forallb_append, Hpre. simpl.
  apply negb_false_iff in E1. by apply identifiers_plain in E1.
Qed.

Lemma tool_id_plain s t : ParseToolID s = Ok t -> str_forallb plain_ascii s = true.
Proof.
  unfold ParseToolID. case_match eqn:E; [done|]. intros _. to_prop. destruct E as [_ E].
  revert E. apply matches_bytes_in. intros c. apply implb_true_iff. revert c. apply forall_byte.
  vm_compute. reflexivity.
Qed.

Definition b64_byte (c : ascii) : bool := is_some (b64_val c).

Lemma b64_encode_bytes s : str_forallb b64_byte (b64_encode s) = true.
Proof.
  remember (String.length s) as n eqn:Hn. revert s Hn.
  induction (lt_wf n) as [n _ IH]. intros s ->.
  assert (Hc : forall k, 0 <= k < 64 -> b64_byte (b64_char k) = true).
  { intros k Hk. unfold b64_byte. by rewrite (proj1 (b64_val_char k Hk)). }
  assert (Hv : forall v, 0 <= v < 16777216 -> b64_byte (b64_char (v / 262144)) = true /\
    b64_byte (b64_char (v / 4096 mod 64)) = true /\ b64_byte (b64_char (v / 64 mod 64)) = true /\
    b64_byte (b64_char (v mod 64)) = true).
  { intros v (? & ? & ? & ?)%div_mod_bounds. auto. }
  destruct s as [|a [|b [|c rest]]]; [done|..]; cbn [b64_encode str_forallb].
  all: pose proof (byte_val_range a); try pose proof (byte_val_range b); try pose proof (byte_val_range c).
  - destruct (Hv (byte_val a * 65536)) as (-> & -> & _); [lia|done].
  - destruct (Hv (byte_val a * 65536 + byte_val b * 256)) as (-> & -> & -> & _); [lia|done].
  - destruct (Hv (byte_val a * 65536 + byte_val b * 256 + byte_val c)) as (-> & -> & -> & ->); [lia|].
    by rewrite (IH (String.length rest)) by (simpl; lia || done).
Qed.

Lemma b64_plain s : str_forallb plain_ascii (b64_encode s) = true.
Proof.
  eapply str_forallb_mono; [|apply b64_encode_bytes]. intros c. apply implb_true_iff. revert c.
  apply forall_byte. vm_compute. reflexivity.
Qed.

Lemma b64_no_dot s : str_forallb (fun c => negb (Ascii.eqb c ".")) (b64_encode s) = true.
Proof.
  eapply str_forallb_mono; [|apply b64_encode_bytes]. intros c. apply implb_true_iff. revert c.
  apply forall_byte. vm_compute. reflexivity.
Qed.

Lemma unseal_seal key payload :
  unseal key (b64_encode payload) (b64_encode (hmac_sha256 key payload)) = Ok payload.
Proof. unfold unseal. rewrite !b64_decode_encode. by rewrite String.eqb_refl. Qed.

Lemma unseal_ok key a b payload : unseal key a b = Ok payload ->
  b64_decode a = Some payload /\ b64_decode b = Some (hmac_sha256 key payload).
Proof.
  unfold unseal. destruct (b64_decode a) as [p|]; [|done]. destruct (b64_decode b) as [sig|]; [|done].
  case_match eqn:E; [|done]. intros [= ->]. apply String.eqb_eq in E. by subst.
Qed.

Lemma payload_of_sealed key payload : cut_on "." (seal key payload) =
  (b64_encode payload, b64_encode (hmac_sha256 key payload), true).
Proof.
  unfold seal. apply (cut_on_append "."), b64_no_dot.
Qed.

(** ** Lemmas: payloads *)

(** The side condition of [read_top_encoded] for strings and integers. *)
Ltac encoded_fields :=
  repeat (apply List.Forall2_cons;
    [split; cbn [fst snd]; first [reflexivity | apply reads_int | by apply reads_string]|]);
  apply List.Forall2_nil.

Lemma decode_cursor_payload c : cursor_bad c = false -> utf8_Valid (cur_After c) = true ->
  decode_struct cursor_fields true set_cursor (mkCursor 0 "" 0) (cursor_payload c) = Some (c, EmptyString).
Proof.
  intros Hb Hu. unfold cursor_bad in Hb. to_prop. destruct Hb as [[[Hv Hl] Hh] _].
  unfold decode_struct, cursor_payload.
  rewrite (read_top_encoded _ [JNumber (json_int (cur_Version c)); JString (cur_After c);
                               JNumber (json_int (cur_Limit c))]); [|done|].
  2:{ encoded_fields. }
  cbn [zip_with set_members m_name fst snd].
  change (field_of cursor_fields "v") with (Some "v"%string).
  change (field_of cursor_fields "after") with (Some "after"%string).
  change (field_of cursor_fields "limit") with (Some "limit"%string).
  unfold set_cursor.
  change (String.eqb "v" "v") with true. change (String.eqb "after" "v") with false.
  change (String.eqb "after" "after") with true. change (String.eqb "limit" "v") with false.
  change (String.eqb "limit" "after") with false. cbv iota.
  unfold set_uint, set_string. cbn [m_value].
  rewrite ParseUintN_json_int by (change (2 ^ 8) with 256; lia).
  cbn [mbind option_bind cur_Version cur_After cur_Limit].
  rewrite ParseUintN_json_int by (change (2 ^ 16) with 65536; lia).
  cbn [mbind option_bind cur_Version cur_After cur_Limit]. by destruct c.
Qed.

Lemma decode_discovery_payload c : is_int64 (dc_Version c) -> is_int64 (dc_Limit c) ->
  is_int64 (dc_ExpiresAt c) -> utf8_Valid (dc_AfterToolID c) = true ->
  utf8_Valid (dc_AfterVersion c) = true -> utf8_Valid (dc_Binding c) = true ->
  decode_document discovery_fields true set_discovery zero_cursor (discovery_payload c) = Some c.
Proof.
  intros Hv Hl He Ht Hw Hb. unfold decode_document, decode_struct, discovery_payload.
  rewrite (read_top_encoded _ [JNumber (json_int (dc_Version c)); JString (dc_AfterToolID c);
    JString (dc_AfterVersion c); JNumber (json_int (dc_Limit c)); JString (dc_Binding c);
    JNumber (json_int (dc_ExpiresAt c))]); [|done|].
  2:{ encoded_fields. }
  cbn [zip_with set_members m_name fst snd].
  change (field_of discovery_fields "v") with (Some "v"%string).
  change (field_of discovery_fields "tool_id") with (Some "tool_id"%string).
  change (field_of discovery_fields "version") with (Some "version"%string).
  change (field_of discovery_fields "limit") with (Some "limit"%string).
  change (field_of discovery_fields "binding") with (Some "binding"%string).
  change (field_of discovery_fields "expires_at") with (Some "expires_at"%string).
  unfold set_discovery, zero_cursor.
  repeat match goal with |- context [String.eqb ?a ?b] =>
    let r := eval vm_compute in (String.eqb a b) in change (String.eqb a b) with r end.
  cbv iota. unfold set_int, set_string. cbn [m_value].
  unfold is_int64, min_int64, max_int64 in *.
  rewrite ParseIntN_json_int by (change (64 - 1) with 63; lia). cbn [mbind option_bind].
  rewrite ParseIntN_json_int by (change (64 - 1) with 63; lia). cbn [mbind option_bind].
  rewrite ParseIntN_json_int by (change (64 - 1) with 63; lia). cbn [mbind option_bind].
  change (String.eqb (skip_ws "") "") with true. cbv iota. by destruct c.
Qed.

(** Decoding what was encoded gives the cursor back while it is acceptable. *)
Lemma decode_encode codec codec' c e : encode codec c = Ok e -> codec_key codec' = codec_key codec ->
  discovery_bad (codec_now codec') c = false -> is_int64 (dc_ExpiresAt c) ->
  utf8_Valid (dc_Binding c) = true -> decode codec' e = Ok c.
Proof.
  unfold encode. case_match; [done|]. intros [= <-] Hkey Hbad He Hb.
  pose proof Hbad as Hbad'. unfold discovery_bad, maxToolPageSize in Hbad'. to_prop.
  destruct Hbad' as [[[[[[Hv Hl] Hh] Ht] Hw] _] _].
  apply is_ok_true in Ht as [t Ht], Hw as [w Hw].
  unfold decode. rewrite payload_of_sealed. cbv iota zeta. cbn [negb]. rewrite Hkey, unseal_seal.
  cbn [mbind result_bind]. rewrite decode_discovery_payload, Hbad; [done|..]; try done;
    try (unfold is_int64, min_int64, max_int64; lia).
  - eapply plain_utf8, tool_id_plain, Ht.
  - eapply plain_utf8, version_plain, Hw.
Qed.

(** An accepted cursor carries a payload signed under the key. *)
Lemma decode_signed codec e c : decode codec e = Ok c -> discovery_bad (codec_now codec) c = false /\
  exists a b payload, e = a +:+ "." +:+ b /\ b64_decode a = Some payload /\
    b64_decode b = Some (hmac_sha256 (codec_key codec) payload) /\
    decode_document discovery_fields true set_discovery zero_cursor payload = Some c.
Proof.
  unfold decode. destruct (cut_on "." e) as [[a b] found] eqn:Hcut. apply cut_on_spec in Hcut.
  destruct found; [|done]. cbn [negb]. rewrite result_bind_Ok. intros (payload & Hu & Hd).
  apply unseal_ok in Hu as [Ha Hb]. case_match; [|done]. case_match eqn:E; [done|].
  injection Hd as ->. split; [done|]. exists a, b, payload. done.
Qed.

(** ** Lemmas: the binding *)

Lemma digits_colon_inj d d' r r' : all_digits d = true -> all_digits d' = true ->
  d +:+ String ":" r = d' +:+ String ":" r' -> d = d' /\ r = r'.
Proof.
  unfold all_digits. intros [_ Hd]%andb_true_iff [_ Hd']%andb_true_iff E.
  assert (Hn : forall s, str_forallb is_digit s = true ->
            str_forallb (fun c => negb (Ascii.eqb c ":")) s = true).
  { intros s. apply str_forallb_mono. intros c. apply implb_true_iff. revert c. apply forall_byte.
    vm_compute. reflexivity. }
  pose proof (cut_on_append ":" d r (Hn d Hd)) as H1.
  pose proof (cut_on_append ":" d' r' (Hn d' Hd')) as H2.
  rewrite E in H1. rewrite H1 in H2. by injection H2.
Qed.

Lemma binding_part_inj v w r s : binding_part v +:+ r = binding_part w +:+ s -> v = w /\ r = s.
Proof.
  unfold binding_part. rewrite <- !append_assoc. cbn [String.append]. intros E.
  assert (Hd : forall x, all_digits (json_int (slen x)) = true).
  { intros x. destruct (json_int_text (slen x)) as (t & -> & Hn & _).
    pose proof (slen_nonneg x). assert (slen x <? 0 = false) as -> by (apply Z.ltb_ge; lia).
    by apply natural_all_digits. }
  apply digits_colon_inj in E as [El E]; [|apply Hd..].
  unfold json_int in El. apply (inj pretty) in El. unfold slen in El.
  apply append_inj_length in E as [-> ->]; [done|lia].
Qed.

(** The identity a binding covers: all but the candidates of the request. *)
Definition same_identity (i j : DiscoveryAuthorizationRequest) : Prop :=
  dr_TenantID i = dr_TenantID j /\ dr_Subject i = dr_Subject j /\ dr_Actor i = dr_Actor j /\
  dr_AgentID i = dr_AgentID j /\ dr_AgentVersion i = dr_AgentVersion j /\ dr_RunID i = dr_RunID j /\
  dr_WorkloadID i = dr_WorkloadID j.

(** Everything the binding covers can be read back from what is hashed. *)
Lemma binding_preimage_inj i j l m : binding_preimage i l = binding_preimage j m ->
  same_identity i j /\ l = m.
Proof.
  unfold binding_preimage. cbn [foldr]. intros E.
  do 8 (apply binding_part_inj in E as [? E]). split; [split_and!; done|].
  by apply (inj pretty).
Qed.

Lemma b64_encode_inj a b : b64_encode a = b64_encode b -> a = b.
Proof. intros E. assert (Some a = Some b) as [=]; [|done]. by rewrite <- !b64_decode_encode, E. Qed.

(** Equal bindings are of the same identity and page size, or two texts with the
    same SHA-256. *)
Lemma binding_separates i j l m : discoveryBinding i l = discoveryBinding j m ->
  (same_identity i j /\ l = m) \/
  (binding_preimage i l <> binding_preimage j m /\
   sha256 (binding_preimage i l) = sha256 (binding_preimage j m)).
Proof.
  unfold discoveryBinding. intros E%b64_encode_inj.
  destruct (decide (binding_preimage i l = binding_preimage j m)) as [H|H]; [|by right].
  left. by apply binding_preimage_inj.
Qed.

(** ** Lemmas: lengths *)

Lemma b64_length s : 3 * slen (b64_encode s) <= 4 * slen s + 2.
Proof.
  remember (String.length s) as n eqn:Hn. revert s Hn.
  induction (lt_wf n) as [n _ IH]. intros s ->. unfold slen in *.
  destruct s as [|a [|b [|c rest]]]; cbn [b64_encode String.length]; [lia..|].
  specialize (IH (String.length rest) ltac:(simpl; lia) rest eq_refl). lia.
Qed.

Lemma natural_length s k : natural_text s -> 1 <= k -> dec_val s < 10 ^ k -> slen s <= k.
Proof.
  intros [->|(c & d & -> & Hc & Hd)] Hk Hv; [unfold slen; simpl; lia|].
  destruct (Z.le_gt_cases (slen (String c d)) k) as [|Hgt]; [done|exfalso].
  rewrite dec_val_cons in Hv. pose proof (dec_val_range d Hd). rewrite slen_cons in Hgt.
  assert (10 ^ k <= 10 ^ slen d) by (apply Z.pow_le_mono_r; lia). nia.
Qed.

Lemma json_int_length z k : 1 <= k -> Z.abs z < 10 ^ k -> slen (json_int z) <= k + 1.
Proof.
  intros Hk Hz. destruct (json_int_text z) as (s & -> & Hn & Hv). rewrite slen_append.
  assert (slen s <= k) by (apply natural_length; [done|done|lia]).
  destruct (z <? 0); unfold slen at 1; simpl; lia.
Qed.

Lemma json_string_length s : str_forallb plain_ascii s = true -> slen (json_string s) = slen s + 2.
Proof.
  intros H. unfold json_string. rewrite plain_escape by done. rewrite slen_cons, slen_append.
  unfold slen at 2. simpl. lia.
Qed.

(** A cursor the codec issues always fits its limit. *)
Lemma encode_fits codec c : dc_Version c = 1 -> 1 <= dc_Limit c <= 100 -> is_int64 (dc_ExpiresAt c) ->
  is_ok (ParseToolID (dc_AfterToolID c)) = true -> is_ok (ParseSemanticVersion (dc_AfterVersion c)) = true ->
  str_forallb plain_ascii (dc_Binding c) = true -> slen (dc_Binding c) <= 43 ->
  exists e, encode codec c = Ok e /\ slen e <= maxDiscoveryCursor /\ e <> EmptyString.
Proof.
  intros Hv Hl He [t Ht]%is_ok_true [w Hw]%is_ok_true Hb Hb43. unfold encode.
  assert (Htl : slen (dc_AfterToolID c) <= 255).
  { unfold ParseToolID in Ht. case_match eqn:E; [done|]. to_prop. lia. }
  assert (Hwl : slen (dc_AfterVersion c) <= 255).
  { unfold ParseSemanticVersion in Hw. case_match eqn:E; [done|]. to_prop. lia. }
  assert (Hp : slen (discovery_payload c) <= 700).
  { unfold discovery_payload, json_object. cbn [map join fst snd]. rewrite !slen_append.
    rewrite !json_string_length by (eauto using tool_id_plain, version_plain || reflexivity).
    unfold is_int64, min_int64, max_int64 in He.
    assert (H1 : slen (json_int (dc_Version c)) <= 2) by (apply (json_int_length _ 1); [done|rewrite Hv; done]).
    assert (H2 : slen (json_int (dc_Limit c)) <= 4) by (apply (json_int_length _ 3); [done|change (10 ^ 3) with 1000; lia]).
    assert (H3 : slen (json_int (dc_ExpiresAt c)) <= 20) by (apply (json_int_length _ 19); [done|change (10 ^ 19) with 10000000000000000000; lia]).
    repeat match goal with |- context [slen ?x] =>
      lazymatch x with String _ _ => let r := eval vm_compute in (slen x) in change (slen x) with r end end.
    lia. }
  assert (Hs : slen (seal (codec_key codec) (discovery_payload c)) <= 1100).
  { unfold seal. rewrite !slen_append. pose proof (b64_length (discovery_payload c)).
    pose proof (b64_length (hmac_sha256 (codec_key codec) (discovery_payload c))) as Hm.
    unfold slen in Hm at 2. rewrite hmac_sha256_length in Hm. unfold slen at 2. simpl String.length. lia. }
  unfold maxDiscoveryCursor. rewrite (proj2 (Z.ltb_ge _ _)) by lia.
  eexists. split; [done|]. split; [lia|]. intros E. apply (f_equal slen) in E.
  unfold seal in E. rewrite !slen_append in E. pose proof (slen_nonneg (b64_encode (discovery_payload c))).
  pose proof (slen_nonneg (b64_encode (hmac_sha256 (codec_key codec) (discovery_payload c)))).
  change (slen ".") with 1 in E. change (slen "") with 0 in E. lia.
Qed.

Lemma binding_plain i l : str_forallb plain_ascii (discoveryBinding i l) = true /\
  slen (discoveryBinding i l) <= 43 /\ discoveryBinding i l <> EmptyString.
Proof.
  unfold discoveryBinding. split_and!; [apply b64_plain|..].
  - pose proof (b64_length (sha256 (binding_preimage i l))) as H. unfold slen in H at 2.
    rewrite sha256_length in H. lia.
  - intros E. assert (Some (sha256 (binding_preimage i l)) = Some EmptyString) as [=].
    { rewrite <- b64_decode_encode, E. reflexivity. }
Qed.

(** The cursors that may be issued. *)
Definition cursor_ok (c : Cursor) : Prop :=
  cur_Version c = 1 /\ 1 <= cur_Limit c <= 100 /\ slen (cur_After c) <= 256.

Lemma cursor_bad_ok c : cursor_bad c = false <-> cursor_ok c.
Proof.
  unfold cursor_bad, cursor_ok. rewrite !orb_false_iff, negb_false_iff, Z.eqb_eq, !Z.ltb_ge. lia.
Qed.

(** ** Properties *)

(** C25: the domain cursor round-trips exactly when it fits the decoder's limit.  For a
    signing key of at least 32 bytes, a cursor of version 1 with a page size from 1 to 100
    and a position of at most 256 bytes that is valid UTF-8 is encoded, and decoding
    it gives it back unless the encoded text is longer than 1024 bytes, which the
    decoder refuses.  Conversely whatever is decoded is such a cursor, apart from the
    encoding of its position, and is what a JSON payload says that was signed under the
    key: the text is the payload and its HMAC under the key, both in base64. *)
Theorem cursor_roundtrip (c : Cursor) (key : string) (Hkey : 32 <= slen key)
    (Hok : cursor_ok c) (Hutf8 : utf8_Valid (cur_After c) = true) :
  (exists e, EncodeCursor c key = Ok e /\
     DecodeCursor e key = (if 1024 <? slen e then Err (ErrNew "invalid cursor encoding") else Ok c)) /\
  (forall e d, DecodeCursor e key = Ok d ->
     cursor_ok d /\ slen e <= 1024 /\
     exists a b payload rest, e = a +:+ "." +:+ b /\ b64_decode a = Some payload /\
       b64_decode b = Some (hmac_sha256 key payload) /\
       decode_struct cursor_fields true set_cursor (mkCursor 0 "" 0) payload = Some (d, rest)).
Proof.
  assert (slen key <? 32 = false) as Hk by (apply Z.ltb_ge; lia). apply cursor_bad_ok in Hok. split.
  - exists (seal key (cursor_payload c)). unfold EncodeCursor, DecodeCursor.
    rewrite Hk, Hok, payload_of_sealed. split; [done|]. cbv iota zeta. cbn [negb orb].
    case_match; [done|]. rewrite unseal_seal. cbn [mbind result_bind].
    by rewrite decode_cursor_payload, Hok.
  - intros e d. unfold DecodeCursor. rewrite Hk.
    destruct (cut_on "." e) as [[a b] found] eqn:Hcut. apply cut_on_spec in Hcut.
    destruct (negb found || _) eqn:Hf; [done|]. to_prop. destruct Hf as [-> Hlen].
    intros (payload & Hu & Hd)%result_bind_Ok. apply unseal_ok in Hu as [Ha Hb].
    destruct (decode_struct _ _ _ _ payload) as [[c' rest]|] eqn:Hdec; [|done].
    destruct (cursor_bad c') eqn:E; [done|]. injection Hd as ->.
    split_and!; [by apply cursor_bad_ok|lia|]. by exists a, b, payload, rest.
Qed.

Definition ex_key : string := "0123456789abcdef0123456789abcdef".
Definition ex_cursor : Cursor := mkCursor 1 "tool<1>" 25.

Lemma cursor_roundtrip_witness : exists e,
  EncodeCursor ex_cursor ex_key = Ok e /\ DecodeCursor e ex_key = Ok ex_cursor.
Proof.
  destruct (cursor_roundtrip ex_cursor ex_key) as [(e & He & Hd) _];
    [vm_compute; discriminate|unfold cursor_ok; vm_compute; repeat split; discriminate|vm_compute; reflexivity|].
  exists e. split; [exact He|]. rewrite Hd.
  assert (Hlen : (1024 <? slen (seal ex_key (cursor_payload ex_cursor))) = false) by (vm_compute; reflexivity).
  assert (Ok (seal ex_key (cursor_payload ex_cursor)) = Ok e) as [= <-].
  { rewrite <- He. unfold EncodeCursor. reflexivity. }
  rewrite Hlen. reflexivity.
Defined.

(** A position of 150 escaped characters is accepted by the encoder, whose text
    the decoder then refuses for its length. *)
Definition ex_long : Cursor := mkCursor 1 (str_of (replicate 150 (byte 60))) 25.

Lemma long_cursor_refused : exists e,
  EncodeCursor ex_long ex_key = Ok e /\ DecodeCursor e ex_key = Err (ErrNew "invalid cursor encoding").
Proof.
  exists (seal ex_key (cursor_payload ex_long)).
  assert (Hlen : (1024 <? slen (seal ex_key (cursor_payload ex_long))) = true) by (vm_compute; reflexivity).
  split; [unfold EncodeCursor; reflexivity|].
  unfold DecodeCursor. rewrite payload_of_sealed, Hlen. reflexivity.
Qed.
