(* ===== verification/HttpDiscovery.v ===== *)
(** * The discovery endpoints

    [internal/adapters/http/tool_discovery.go]: pages of the tools a caller may
    see, in the order of their keys, linked by signed cursors, and the description
    of one tool version.  The discovery service and the identity of the caller are
    arguments of the handler. *)
From Stdlib Require Import Ascii String Sorted.
From stdpp Require Import sorting.
From S2P Require Import Prelude GoStd Regex Sha256 Json JsonParse Primitives ToolCatalog GoText Ports Http CanonicalJson JsonStruct Cursors.

(** ** Order and search *)

Definition tool_cmp : string * string -> string * string -> comparison := lex String.compare String.compare.
Definition tool_pair (tool : CatalogToolVersion) : string * string := (ct_ToolID tool, ct_Version tool).

(** The comparison [sort.Slice] is given.  Where keys are distinct the sorted list
    is unique, so any sorting algorithm stands for the library's. *)
Definition tool_less (a b : CatalogToolVersion) : bool :=
  if String.eqb (ct_ToolID a) (ct_ToolID b) then str_ltb (ct_Version a) (ct_Version b)
  else str_ltb (ct_ToolID a) (ct_ToolID b).

Definition not_after (a b : CatalogToolVersion) : Prop := tool_less b a = false.
#[global] Instance not_after_dec : RelDecision not_after.
Proof. intros a b. unfold not_after. apply _. Defined.

Definition sort_tools (tools : list CatalogToolVersion) : list CatalogToolVersion := merge_sort not_after tools.

Definition compareToolKey (tool : CatalogToolVersion) (toolID version : string) : Z :=
  if str_ltb (ct_ToolID tool) toolID
     || (String.eqb (ct_ToolID tool) toolID && str_ltb (ct_Version tool) version) then -1
  else if String.eqb (ct_ToolID tool) toolID && String.eqb (ct_Version tool) version then 0
  else 1.

(** [sort.Search]: bisection; the interval shrinks at every turn, so its length is
    enough fuel. *)
Fixpoint bisect (fuel : nat) (f : nat -> bool) (i j : nat) : nat :=
  match fuel with
  | O => i
  | S fuel =>
      if Nat.ltb i j then
        let h := ((i + j) / 2)%nat in
        if f h then bisect fuel f i h else bisect fuel f (S h) j
      else i
  end.
Definition sort_Search (n : nat) (f : nat -> bool) : nat := bisect n f 0 n.

(** ** Tool documents *)

(** [discoveryToolDocument]; a nil map is [None]. *)
Record toolDocument := mkToolDocument {
  td_Description : string; td_InputSchema : option (list (string * jvalue));
  td_OutputSchema : option (list (string * jvalue)); td_Risk : string; td_SideEffect : option bool;
  td_RetryClass : string; td_Approval : string; td_OpenWorldResult : option bool;
}.
Definition zero_document : toolDocument := mkToolDocument "" None None "" None "" "" None.

Definition document_fields : list string :=
  ["description"; "input_schema"; "output_schema"; "risk"; "side_effect"; "retry_class"; "approval";
   "open_world_result"]%string.

(** A [map[string]interface{}] field: members are added to a map that is already
    there; numbers must fit a [float64]. *)
Definition set_map (m : member) (old : option (list (string * jvalue)))
    : option (option (list (string * jvalue))) :=
  match m_value m with
  | JNull => Some None
  | JObject members =>
      if numbers_fit (m_value m) then
        Some (Some (foldl (fun acc kv => set_member kv.1 kv.2 acc) (default [] old)
                      (map (fun kv => (kv.1, with_floats (go_value kv.2))) members)))
      else None
  | _ => None
  end.

Definition set_document (name : string) (m : member) (d : toolDocument) : option toolDocument :=
  let '(mkToolDocument de i o r s t a w) := d in
  if String.eqb name "description" then set_string m de ≫= fun de => Some (mkToolDocument de i o r s t a w)
  else if String.eqb name "input_schema" then set_map m i ≫= fun i => Some (mkToolDocument de i o r s t a w)
  else if String.eqb name "output_schema" then set_map m o ≫= fun o => Some (mkToolDocument de i o r s t a w)
  else if String.eqb name "risk" then set_string m r ≫= fun r => Some (mkToolDocument de i o r s t a w)
  else if String.eqb name "side_effect" then set_bool_ptr m s ≫= fun s => Some (mkToolDocument de i o r s t a w)
  else if String.eqb name "retry_class" then set_string m t ≫= fun t => Some (mkToolDocument de i o r s t a w)
  else if String.eqb name "approval" then set_string m a ≫= fun a => Some (mkToolDocument de i o r s t a w)
  else set_bool_ptr m w ≫= fun w => Some (mkToolDocument de i o r s t a w).

(** [openapi.Tool] *)
Record Tool := mkTool {
  tool_ToolId : string; tool_Version : string; tool_Description : string;
  tool_InputSchema : list (string * jvalue); tool_OutputSchema : list (string * jvalue);
  tool_Risk : string; tool_SideEffect : bool; tool_RetryClass : string; tool_Approval : string;
  tool_OpenWorldResult : bool;
}.

Definition oneOf (value : string) (allowed : list string) : bool := existsb (String.eqb value) allowed.

Definition errProjection : goerror := ErrNew "published discovery projection is invalid".

Definition projectDiscoveryTool (candidate : CatalogToolVersion) : result Tool :=
  match decode_document document_fields false set_document zero_document (ct_Definition candidate) with
  | Some (mkToolDocument description (Some input) (Some output) risk (Some sideEffect) retry approval (Some open)) =>
      if String.eqb description "" || (4096 <? slen description)
         || negb (oneOf risk ["read"; "bounded_write"; "consequential_write"; "privileged"])
         || negb (oneOf retry ["safe"; "downstream_idempotency"; "gateway_deduplicated";
                               "reconcile_before_retry"; "at_least_once_accepted"; "non_retryable"])
         || negb (oneOf approval ["never"; "policy"; "always"]) then Err errProjection
      else Ok (mkTool (ct_ToolID candidate) (ct_Version candidate) description input output risk
                 sideEffect retry approval open)
  | _ => Err errProjection
  end.

Definition json_bool (b : bool) : string := if b then "true" else "false".

Definition tool_json (t : Tool) : string :=
  json_object [("approval", json_string (tool_Approval t)); ("description", json_string (tool_Description t));
    ("input_schema", json_Marshal (JObject (tool_InputSchema t)));
    ("open_world_result", json_bool (tool_OpenWorldResult t));
    ("output_schema", json_Marshal (JObject (tool_OutputSchema t)));
    ("retry_class", json_string (tool_RetryClass t)); ("risk", json_string (tool_Risk t));
    ("side_effect", json_bool (tool_SideEffect t)); ("tool_id", json_string (tool_ToolId t));
    ("version", json_string (tool_Version t))]%string.

Record ToolPage := mkPage { Items : list Tool; NextCursor : option string }.

Definition page_json (p : ToolPage) : string :=
  json_object (("items"%string, json_array (map tool_json (Items p)))
    :: match NextCursor p with Some c => [("next_cursor"%string, json_string c)] | None => [] end).

(** ** Pages *)

Definition defaultToolPageSize : Z := 50.

(** [parsePage] *)
Definition parsePage (codec : discoveryCursorCodec) (identity : DiscoveryAuthorizationRequest)
    (query : gmap string (list string)) : result (Z * discoveryCursor) :=
  if negb (forallb (fun kv : string * list string =>
             (String.eqb kv.1 "limit" || String.eqb kv.1 "cursor") && (llen kv.2 =? 1)) (map_to_list query)) then
    Err (ErrNew "unknown or repeated query parameter") else
  let has name := is_some (query !! name) in
  (if has "limit"%string then
     match Atoi (value_of query "limit") with
     | Some parsed => if (parsed <? 1) || (maxToolPageSize <? parsed) then Err (ErrNew "invalid page size")
                      else Ok parsed
     | None => Err (ErrNew "invalid page size")
     end
   else Ok defaultToolPageSize) ≫= fun limit =>
  if negb (has "cursor"%string) then Ok (limit, zero_cursor) else
  let encoded := value_of query "cursor" in
  if String.eqb encoded "" then Err (ErrNew "cursor is empty")
  else if maxDiscoveryCursor <? slen encoded then Err (ErrNew "cursor is too large")
  else
    decode codec encoded ≫= fun cursor =>
    if has "limit"%string && negb (dc_Limit cursor =? limit) then Err (ErrNew "cursor page size mismatch")
    else if negb (String.eqb (dc_Binding cursor) (discoveryBinding identity (dc_Limit cursor))) then
      Err (ErrNew "cursor context mismatch")
    else Ok (dc_Limit cursor, cursor).

Fixpoint project_all (tools : list CatalogToolVersion) : result (list Tool) :=
  match tools with
  | [] => Ok []
  | candidate :: tools =>
      projectDiscoveryTool candidate ≫= fun tool =>
      project_all tools ≫= fun rest => Ok (tool :: rest)
  end.

Definition nth_tool (tools : list CatalogToolVersion) (n : nat) : CatalogToolVersion :=
  nth n tools (mkCatalogTool "" "" "" "").

(** The page after the cursor, of at most [limit] tools. *)
Definition tool_page (codec : discoveryCursorCodec) (identity : DiscoveryAuthorizationRequest) (limit : Z)
    (cursor : discoveryCursor) (tools : list CatalogToolVersion) : result ToolPage :=
  let tools := sort_tools tools in
  let start := sort_Search (length tools) (fun index =>
                 0 <? compareToolKey (nth_tool tools index) (dc_AfterToolID cursor) (dc_AfterVersion cursor)) in
  let last := Nat.min (start + Z.to_nat limit) (length tools) in
  project_all (take (last - start) (drop start tools)) ≫= fun items =>
  if Nat.ltb last (length tools) then
    let final := nth_tool tools (last - 1) in
    encode codec (mkDiscoveryCursor 1 (ct_ToolID final) (ct_Version final) limit
                    (discoveryBinding identity limit) (Unix (codec_now codec + codec_ttl codec)))
    ≫= fun next => Ok (mkPage items (Some next))
  else Ok (mkPage items None).

(** ** Handlers *)

(** [writeDiscoveryProblem] *)
Definition writeDiscoveryProblem (correlation path : string) (code : ErrorCode) : Response :=
  if String.eqb code CodeToolNotFound then
    writePublicProblemAt correlation path CodeToolNotFound "/v1/tools/{tool_id}"
  else writePublicProblem correlation path
         (if String.eqb code CodeInternal then CodeServiceUnavailable else code).

Section Handler.
Context (codec : discoveryCursorCodec).
Context (identity : result DiscoveryAuthorizationRequest).
Context (discover : DiscoveryAuthorizationRequest -> result (list CatalogToolVersion)).
Context (describe_tool : DiscoveryAuthorizationRequest -> string -> string -> result CatalogToolVersion).

(** The list, up to the encoding of the page; errors carry their problem code. *)
Definition list_tools (query : gmap string (list string)) : ToolPage + ErrorCode :=
  match identity with
  | Err _ => inr CodeInvalidContext
  | Ok identity =>
      match parsePage codec identity query with
      | Err _ => inr CodeInvalidArguments
      | Ok (limit, cursor) =>
          match discover identity ≫= tool_page codec identity limit cursor with
          | Err _ => inr CodeInternal
          | Ok page => inl page
          end
      end
  end.

(** [describe] *)
Definition describe (toolID : string) (query : gmap string (list string)) : Tool + ErrorCode :=
  match identity with
  | Err _ => inr CodeInvalidContext
  | Ok identity =>
      if negb (Nat.eqb (size query) 1) || negb (is_some (query !! "version"%string))
         || negb (llen (values_of query "version") =? 1) || String.eqb (value_of query "version") "" then
        inr CodeInvalidArguments else
      let version := value_of query "version" in
      if negb (is_ok (ParseToolID toolID)) || negb (is_ok (ParseSemanticVersion version)) then
        inr CodeToolNotFound
      else
        match describe_tool identity toolID version with
        | Err err =>
            match as_domain err with
            | Some (code, _) => if String.eqb code CodeNotFound || String.eqb code CodeToolNotFound
                                then inr CodeToolNotFound else inr CodeInternal
            | None => inr CodeInternal
            end
        | Ok candidate =>
            match projectDiscoveryTool candidate with
            | Err _ => inr CodeInternal
            | Ok tool => inl tool
            end
        end
  end.

(** [ServeHTTP]; [toolID] is the path value, empty for the list. *)
Definition ServeHTTP (correlation toolID : string) (request : Request) : Response :=
  if negb (String.eqb toolID "") then
    match describe toolID (rq_Query request) with
    | inl tool => writeJSON correlation 200 (tool_json tool)
    | inr code => writeDiscoveryProblem correlation (rq_Path request) code
    end
  else
    match list_tools (rq_Query request) with
    | inl page => writeJSON correlation 200 (page_json page)
    | inr code => writeDiscoveryProblem correlation (rq_Path request) code
    end.
End Handler.

(** [NewToolDiscoveryHandler]: the options a handler is built from. *)
Definition NewToolDiscoveryHandler (key : string) (ttl now : Z) : result discoveryCursorCodec :=
  if slen key <? 32 then Err (ErrNew "discovery cursor key must be at least 32 bytes")
  else if ttl <=? 0 then Err (ErrNew "discovery cursor TTL must be positive")
  else Ok (mkCodec key ttl now).

(** ** Specification: following the cursors *)

Section Follow.
Context (key : string) (ttl : Z) (identity : DiscoveryAuthorizationRequest).
Context (describe_tool : DiscoveryAuthorizationRequest -> string -> string -> result CatalogToolVersion).
Context (tools : list CatalogToolVersion) (times : nat -> Z).

(** The [k]-th request of a client, for a list with this query, and its answer at
    [times k]. *)
Definition list_request (query : gmap string (list string)) : Request := mkRequest "GET" "/v1/tools" "" query ∅ 0 (Ok EmptyString).
Definition answer_at (correlation : nat -> string) (k : nat) (query : gmap string (list string)) : Response :=
  ServeHTTP (mkCodec key ttl (times k)) (Ok identity) (fun _ => Ok tools) describe_tool (correlation k) "" (list_request query).

(** The answer that gives a client a page. *)
Definition page_response (page : ToolPage) : Response := mkResponse 200 "application/json" false (page_json page +:+ newline).

(** A client that follows the cursors: each request but the first has the cursor of the
    page before and nothing else, and the page without a cursor is the last. *)
Inductive follow (correlation : nat -> string) : nat -> gmap string (list string) -> list ToolPage -> Prop :=
| follow_last k query page :
    answer_at correlation k query = page_response page -> NextCursor page = None -> follow correlation k query [page]
| follow_next k query page cursor pages :
    answer_at correlation k query = page_response page -> NextCursor page = Some cursor ->
    follow correlation (S k) {["cursor"%string := [cursor]]} pages -> follow correlation k query (page :: pages).
End Follow.

(** ** Lemmas: order *)

Lemma tool_total : total_cmp tool_cmp.
Proof. apply lex_total; apply string_total. Qed.

Lemma tool_less_cmp a b : tool_less a b = true <-> tool_cmp (tool_pair a) (tool_pair b) = Lt.
Proof.
  unfold tool_less, tool_cmp, lex, tool_pair. cbn [fst snd].
  destruct (String.eqb_spec (ct_ToolID a) (ct_ToolID b)) as [->|Hne].
  - rewrite (cmp_refl _ string_total). apply str_ltb_lt.
  - rewrite str_ltb_lt. unfold str_lt. destruct (String.compare _ _) eqn:E; try done.
    by apply (cmp_eq string_total) in E.
Qed.

Lemma compare_after t id v :
  (0 <? compareToolKey t id v) = true <-> tool_cmp (tool_pair t) (id, v) = Gt.
Proof.
  unfold compareToolKey, tool_cmp, lex, tool_pair. cbn [fst snd].
  unfold str_ltb. pose proof (fun a b => cmp_eq string_total a b) as Heq.
  destruct (String.compare (ct_ToolID t) id) eqn:E1; cbn [orb andb].
  - apply Heq in E1 as ->. rewrite String.eqb_refl. cbn [andb].
    destruct (String.compare (ct_Version t) v) eqn:E2; cbn [orb].
    + apply Heq in E2 as ->. rewrite String.eqb_refl. done.
    + done.
    + destruct (String.eqb_spec (ct_Version t) v) as [Ev|]; [|done].
      by rewrite Ev, (cmp_refl _ string_total) in E2.
  - done.
  - destruct (String.eqb_spec (ct_ToolID t) id) as [Ei|]; [|done].
    by rewrite Ei, (cmp_refl _ string_total) in E1.
Qed.

Definition before_key (a b : CatalogToolVersion) : Prop := tool_cmp (tool_pair a) (tool_pair b) = Lt.

#[global] Instance not_after_trans : Transitive not_after.
Proof.
  intros a b c. unfold not_after. rewrite <- !not_true_iff_false, !tool_less_cmp.
  intros Hba Hcb Hca. pose proof tool_total as T.
  destruct (tool_cmp (tool_pair b) (tool_pair a)) eqn:E1; [|done|].
  - apply (cmp_eq T) in E1. rewrite <- E1 in Hca. done.
  - assert (tool_cmp (tool_pair a) (tool_pair b) = Lt) as E2 by (rewrite (cmp_antisym T), E1; done).
    apply Hcb. by apply (cmp_trans T _ (tool_pair a)).
Qed.
#[global] Instance not_after_total : Total not_after.
Proof.
  intros a b. unfold not_after. rewrite <- !not_true_iff_false, !tool_less_cmp.
  pose proof (cmp_antisym tool_total (tool_pair a) (tool_pair b)) as E.
  rewrite E. destruct (tool_cmp (tool_pair b) (tool_pair a)); simpl; [left|right|left]; done.
Qed.

(** With distinct keys the sorted list is strictly ascending. *)
Lemma sort_strict tools : NoDup (map tool_pair tools) -> StronglySorted before_key (sort_tools tools).
Proof.
  intros Hnd. pose proof (StronglySorted_merge_sort not_after tools) as Hs.
  pose proof (merge_sort_Permutation not_after tools) as Hp. fold (sort_tools tools) in *.
  assert (Hnd' : NoDup (map tool_pair (sort_tools tools))).
  { by rewrite Hp. }
  clear Hp Hnd.
  induction Hs as [|t l Hs IH Hall]; [constructor|]. cbn [map] in Hnd'.
  apply list.NoDup_cons in Hnd' as [Hn Hnd']. constructor; [auto|].
  rewrite List.Forall_forall in Hall. apply List.Forall_forall. intros u Hu. specialize (Hall u Hu).
  unfold not_after in Hall. rewrite <- not_true_iff_false, tool_less_cmp in Hall. unfold before_key.
  destruct (tool_cmp (tool_pair t) (tool_pair u)) eqn:E; [|done|].
  - exfalso. apply Hn. apply (cmp_eq tool_total) in E. rewrite E.
    by apply list_elem_of_In, in_map.
  - exfalso. apply Hall. rewrite (cmp_antisym tool_total), E. done.
Qed.

(** ** Lemmas: search *)

Lemma bisect_threshold fuel f i j t : (i <= t <= j)%nat -> (j - i <= fuel)%nat ->
  (forall h, (h < j)%nat -> f h = Nat.leb t h) -> bisect fuel f i j = t.
Proof.
  revert i j. induction fuel as [|fuel IH]; intros i j Ht Hf Hall; cbn [bisect]; [lia|]. cbv zeta.
  destruct (Nat.ltb_spec i j); [|lia].
  assert (Hh : (i <= (i + j) / 2 < j)%nat).
  { pose proof (Nat.div_mod_eq (i + j) 2). pose proof (Nat.mod_upper_bound (i + j) 2 ltac:(lia)). lia. }
  rewrite Hall by lia. destruct (Nat.leb_spec t ((i + j) / 2)); apply IH; try lia.
  - intros h Hlt. apply Hall. lia.
  - intros h Hlt. apply Hall. lia.
Qed.

Lemma nth_tool_lookup l n t : l !! n = Some t -> nth_tool l n = t.
Proof. intros H. unfold nth_tool. by apply nth_lookup_Some. Qed.

Lemma strict_lookup l i j a b : StronglySorted before_key l -> (i < j)%nat ->
  l !! i = Some a -> l !! j = Some b -> before_key a b.
Proof.
  intros Hs. revert i j. induction Hs as [|x l Hs IH Hall]; intros i j Hij Ha Hb; [done|].
  destruct j as [|j]; [lia|]. destruct i as [|i]; simpl in *.
  - injection Ha as ->. rewrite List.Forall_forall in Hall. apply Hall, list_elem_of_In.
    by eapply list_elem_of_lookup_2.
  - eapply (IH i j); eauto; lia.
Qed.

(** What a cursor points behind: nothing yet, or the tool before position [n]. *)
Definition points_to (l : list CatalogToolVersion) (c : discoveryCursor) (n : nat) : Prop :=
  (n = O /\ dc_AfterToolID c = EmptyString) \/
  (exists m t, n = S m /\ l !! m = Some t /\ dc_AfterToolID c = ct_ToolID t /\ dc_AfterVersion c = ct_Version t).

Lemma search_start l c n : StronglySorted before_key l -> Forall (fun t => ct_ToolID t <> EmptyString) l ->
  points_to l c n -> (n <= length l)%nat ->
  sort_Search (length l) (fun index =>
    0 <? compareToolKey (nth_tool l index) (dc_AfterToolID c) (dc_AfterVersion c)) = n.
Proof.
  intros Hs Hne Hp Hn. unfold sort_Search. apply bisect_threshold; [lia|lia|].
  intros h Hh. destruct (lookup_lt_is_Some_2 l h) as [u Hu]; [lia|]. rewrite (nth_tool_lookup _ _ _ Hu).
  apply eq_bool_prop_intro. rewrite !Is_true_true, compare_after, Nat.leb_le.
  destruct Hp as [[-> ->]|(m & t & -> & Ht & -> & ->)].
  - rewrite Forall_forall in Hne. specialize (Hne u (proj1 (list_elem_of_In _ _) (list_elem_of_lookup_2 _ _ _ Hu))).
    unfold tool_cmp, lex, tool_pair. cbn [fst snd]. destruct (ct_ToolID u); [done|]. split; [lia|done].
  - change (ct_ToolID t, ct_Version t) with (tool_pair t). rewrite (cmp_antisym tool_total).
    destruct (Nat.lt_trichotomy m h) as [Hlt|[<-|Hlt]].
    + rewrite (strict_lookup l m h t u Hs Hlt Ht Hu). split; [lia|done].
    + rewrite Hu in Ht. injection Ht as ->. rewrite (cmp_refl _ tool_total). split; [done|lia].
    + pose proof (strict_lookup l h m u t Hs Hlt Hu Ht) as E. unfold before_key in E.
      rewrite (cmp_antisym tool_total), E. split; [done|lia].
Qed.

(** ** Lemmas: one page *)

Lemma project_all_Forall2 l all :
  project_all l = Ok all <-> Forall2 (fun t x => projectDiscoveryTool t = Ok x) l all.
Proof.
  revert all. induction l as [|t l IH]; cbn [project_all]; intros all.
  - split; [by intros [= <-]|]. by intros ->%Forall2_nil_inv_l.
  - rewrite result_bind_Ok. split.
    + intros (x & Hx & H). rewrite result_bind_Ok in H. destruct H as (rest & Hr & [= <-]).
      apply List.Forall2_cons; [done|]. by apply IH.
    + intros H. apply Forall2_cons_inv_l in H as (x & rest & Hx & Hr & ->). apply IH in Hr.
      exists x. rewrite Hr. done.
Qed.

Lemma project_all_slice l all k n : project_all l = Ok all ->
  project_all (take k (drop n l)) = Ok (take k (drop n all)).
Proof. rewrite !project_all_Forall2. intros H. by apply Forall2_take, Forall2_drop. Qed.

Lemma parsePage_first codec identity limit : 1 <= limit <= 100 ->
  parsePage codec identity {["limit"%string := [json_int limit]]} = Ok (limit, zero_cursor).
Proof.
  intros Hl. unfold parsePage, value_of, values_of. rewrite map_to_list_singleton. cbn [forallb fst snd].
  rewrite !lookup_singleton_eq, lookup_singleton_ne by done. cbn [negb orb andb is_some default String.eqb Ascii.eqb].
  unfold Atoi. rewrite ParseIntN_json_int by (change (2 ^ (64 - 1)) with 9223372036854775808; lia).
  unfold maxToolPageSize. rewrite !(proj2 (Z.ltb_ge _ _)) by lia. done.
Qed.

Lemma parsePage_cursor codec identity e c : decode codec e = Ok c -> e <> EmptyString ->
  slen e <= maxDiscoveryCursor -> dc_Binding c = discoveryBinding identity (dc_Limit c) ->
  parsePage codec identity {["cursor"%string := [e]]} = Ok (dc_Limit c, c).
Proof.
  intros Hd Hne Hle Hb. unfold parsePage, value_of, values_of. rewrite map_to_list_singleton.
  cbn [forallb fst snd]. rewrite !lookup_singleton_eq, !lookup_singleton_ne by done.
  cbn [negb orb andb is_some default String.eqb Ascii.eqb mbind result_bind].
  change (llen [e] =? 1) with true. cbn [andb negb]. cbv iota.
  rewrite (proj2 (String.eqb_neq _ _) Hne), (proj2 (Z.ltb_ge _ _)) by lia.
  rewrite Hd. cbn [mbind result_bind]. by rewrite Hb, String.eqb_refl.
Qed.

Lemma expires_later now now' ttl : now' + Second <= now + ttl -> Unix now' < Unix (now + ttl).
Proof.
  unfold Unix. intros H. assert (Second > 0) by done.
  assert (Second <> 0) by done.
  replace (now + ttl - unix_epoch) with ((now + ttl - unix_epoch - Second) + 1 * Second) by lia.
  rewrite Z.div_add by done.
  assert ((now' - unix_epoch) / Second <= (now + ttl - unix_epoch - Second) / Second)
    by (apply Z.div_le_mono; lia). lia.
Qed.

(** The tools a catalog can list: distinct keys that parse. *)
Definition listable (tools : list CatalogToolVersion) : Prop :=
  NoDup (map tool_pair tools) /\
  Forall (fun t => is_ok (ParseToolID (ct_ToolID t)) = true /\
                   is_ok (ParseSemanticVersion (ct_Version t)) = true) tools.

(** [e] continues the list at position [n], until it expires. *)
Definition continues (key : string) (identity : DiscoveryAuthorizationRequest) (limit expires : Z)
    (l : list CatalogToolVersion) (n : nat) (e : string) : Prop :=
  exists c, points_to l c n /\ dc_Limit c = limit /\
    forall codec, codec_key codec = key -> Unix (codec_now codec) < expires ->
      parsePage codec identity {["cursor"%string := [e]]} = Ok (limit, c).

Lemma issued_continues codec identity limit l n t : 1 <= limit <= 100 ->
  is_int64 (Unix (codec_now codec + codec_ttl codec)) -> l !! n = Some t ->
  is_ok (ParseToolID (ct_ToolID t)) = true -> is_ok (ParseSemanticVersion (ct_Version t)) = true ->
  exists e, encode codec (mkDiscoveryCursor 1 (ct_ToolID t) (ct_Version t) limit
      (discoveryBinding identity limit) (Unix (codec_now codec + codec_ttl codec))) = Ok e /\ slen e <= maxDiscoveryCursor /\
    continues (codec_key codec) identity limit (Unix (codec_now codec + codec_ttl codec)) l (S n) e.
Proof.
  intros Hl He Ht Hid Hv. set (c := mkDiscoveryCursor _ _ _ _ _ _).
  destruct (binding_plain identity limit) as (Hp & H43 & Hb).
  destruct (encode_fits codec c) as (e & Henc & Hle & Hne); try done.
  exists e. split; [done|]. split; [done|]. exists c. split; [right; by exists n, t|]. split; [done|].
  intros codec' Hk Hnow. apply (parsePage_cursor codec' identity e c); try done.
  apply (decode_encode codec codec' c e); try done; [|by apply plain_utf8].
  unfold discovery_bad, maxToolPageSize, c. cbn [dc_Version dc_Limit dc_AfterToolID dc_AfterVersion dc_Binding dc_ExpiresAt].
  rewrite Hid, Hv, (proj2 (String.eqb_neq _ _) Hb), (proj2 (Z.leb_gt _ _)) by done.
  rewrite !(proj2 (Z.ltb_ge _ _)) by lia. done.
Qed.

Lemma sort_listable tools : listable tools -> StronglySorted before_key (sort_tools tools) /\
  Forall (fun t => is_ok (ParseToolID (ct_ToolID t)) = true /\
                   is_ok (ParseSemanticVersion (ct_Version t)) = true) (sort_tools tools).
Proof.
  intros [Hnd Hall]. split; [by apply sort_strict|]. unfold sort_tools. by rewrite merge_sort_Permutation.
Qed.

Lemma take_min {A} (l : list A) n k : (n <= length l)%nat ->
  take (Nat.min (n + k) (length l) - n) (drop n l) = take k (drop n l).
Proof.
  intros Hn. destruct (Nat.le_gt_cases (n + k) (length l)).
  - f_equal. lia.
  - rewrite !take_ge; rewrite ?length_drop; [done|lia..].
Qed.

Lemma tool_page_at codec identity limit c tools all n : listable tools ->
  project_all (sort_tools tools) = Ok all -> 1 <= limit <= 100 ->
  is_int64 (Unix (codec_now codec + codec_ttl codec)) ->
  points_to (sort_tools tools) c n -> (n <= length tools)%nat ->
  exists next, tool_page codec identity limit c tools = Ok (mkPage (take (Z.to_nat limit) (drop n all)) next) /\
    if Nat.ltb (n + Z.to_nat limit) (length tools) then
      exists e, next = Some e /\ slen e <= maxDiscoveryCursor /\
        continues (codec_key codec) identity limit (Unix (codec_now codec + codec_ttl codec))
          (sort_tools tools) (n + Z.to_nat limit) e
    else next = None.
Proof.
  intros Hlist Hall Hl He Hp Hn. destruct (sort_listable _ Hlist) as [Hs Hok].
  assert (Hlen : length (sort_tools tools) = length tools) by (unfold sort_tools; by rewrite merge_sort_Permutation).
  assert (Hla : length (sort_tools tools) = length all) by (by eapply Forall2_length, project_all_Forall2).
  unfold tool_page. cbv zeta. rewrite (search_start _ c n); [|done| |done|lia].
  2:{ eapply List.Forall_impl; [|exact Hok]. intros t [Ht _] E. simpl in Ht. rewrite E in Ht. done. }
  rewrite (project_all_slice _ all) by done. cbn [mbind result_bind].
  rewrite <- (take_min all n (Z.to_nat limit)), <- Hla by lia.
  destruct (Nat.ltb_spec (n + Z.to_nat limit) (length tools)) as [Hlt|Hge].
  - rewrite (proj2 (Nat.ltb_lt _ _)) by lia. rewrite Nat.min_l by lia.
    destruct (lookup_lt_is_Some_2 (sort_tools tools) (n + Z.to_nat limit - 1)) as [t Ht]; [lia|].
    rewrite (nth_tool_lookup _ _ _ Ht).
    destruct (proj1 (Forall_lookup _ _) Hok _ _ Ht) as [Hid Hv].
    destruct (issued_continues codec identity limit (sort_tools tools) _ t Hl He Ht Hid Hv) as (e & Henc & Hle & Hc).
    rewrite Henc. exists (Some e). split; [done|]. exists e. split; [done|]. split; [done|].
    by replace (n + Z.to_nat limit)%nat with (S (n + Z.to_nat limit - 1)) by lia.
  - rewrite (proj2 (Nat.ltb_ge _ _)) by lia. by exists None.
Qed.

(** ** Lemmas: following the cursors *)

Section FollowLemmas.
Context (key : string) (ttl : Z) (identity : DiscoveryAuthorizationRequest).
Context (describe_tool : DiscoveryAuthorizationRequest -> string -> string -> result CatalogToolVersion).
Context (tools : list CatalogToolVersion) (times : nat -> Z) (correlation : nat -> string) (all : list Tool) (limit : Z).
Context (Hlist : listable tools) (Hall : project_all (sort_tools tools) = Ok all) (Hl : 1 <= limit <= 100).
Context (Htime : forall k, times (S k) + Second <= times k + ttl).
Context (Hrep : forall k, is_int64 (Unix (times k + ttl))).
Context (Hfits : forall n next, from_option slen 0 next <= maxDiscoveryCursor ->
  slen (page_json (mkPage (take (Z.to_nat limit) (drop n all)) next)) < maxPublicResultBytes).

(** A page that fits is what the client is sent. *)
Lemma answer_page k query c page :
  parsePage (mkCodec key ttl (times k)) identity query = Ok (limit, c) ->
  tool_page (mkCodec key ttl (times k)) identity limit c tools = Ok page ->
  slen (page_json page) < maxPublicResultBytes ->
  answer_at key ttl identity describe_tool tools times correlation k query = page_response page.
Proof.
  intros Hq Hp Hf. unfold answer_at, ServeHTTP, list_tools, list_request. cbn [negb String.eqb rq_Query].
  rewrite Hq. cbn [mbind result_bind]. rewrite Hp. unfold writeJSON, writeBoundedJSON, page_response.
  by rewrite (proj2 (Z.ltb_ge _ _)) by lia.
Qed.

Lemma follow_from fuel : forall k n query c,
  parsePage (mkCodec key ttl (times k)) identity query = Ok (limit, c) ->
  points_to (sort_tools tools) c n -> (n <= length tools)%nat -> (length tools < n + fuel)%nat ->
  exists pages, follow key ttl identity describe_tool tools times correlation k query pages /\
    concat (map Items pages) = drop n all /\ (length pages <= fuel)%nat /\
    Forall (fun page => (length (Items page) <= Z.to_nat limit)%nat) pages.
Proof.
  induction fuel as [|fuel IH]; intros k n query c Hq Hp Hn Hf; [lia|].
  destruct (tool_page_at (mkCodec key ttl (times k)) identity limit c tools all n) as (next & Hpage & Hnext); try done.
  { apply Hrep. }
  pose proof (answer_page _ _ _ _ Hq Hpage) as Hanswer.
  destruct (Nat.ltb_spec (n + Z.to_nat limit) (length tools)) as [Hlt|Hge].
  - destruct Hnext as (e & -> & Hle & c' & Hp' & Hc & Hparse).
    destruct (IH (S k) (n + Z.to_nat limit)%nat {["cursor"%string := [e]]} c') as (pages & Hfollow & Hi & Hlen & Hb); [..|lia|lia|].
    + apply Hparse; [done|]. cbn [codec_now codec_ttl]. apply expires_later, Htime.
    + done.
    + eexists. split; [eapply follow_next; [apply Hanswer, Hfits; exact Hle|done|exact Hfollow]|].
      cbn [map concat Items length]. split_and!; [by rewrite Hi, <- drop_drop, take_drop|lia|].
      constructor; [|done]. cbn [Items]. rewrite length_take. lia.
  - rewrite Hnext in *. eexists. split; [apply follow_last; [apply Hanswer, Hfits; cbn; unfold maxDiscoveryCursor; lia|done]|].
    cbn [map concat Items length]. rewrite app_nil_r.
    assert (Hla : length (sort_tools tools) = length all) by (by eapply Forall2_length, project_all_Forall2).
    assert (Hlen : length (sort_tools tools) = length tools) by (unfold sort_tools; by rewrite merge_sort_Permutation).
    split_and!; [by rewrite take_ge by (rewrite length_drop; lia)|lia|].
    constructor; [|done]. cbn [Items]. rewrite length_take. lia.
Qed.
End FollowLemmas.

(** The tools in the order of their keys are one list. *)
Lemma sort_unique tools listed : NoDup (map tool_pair tools) -> listed ≡ₚ tools -> StronglySorted before_key listed ->
  sort_tools tools = listed.
Proof.
  intros Hnd Hp Hs. apply (StronglySorted_unique_strong before_key); [|by apply sort_strict|done|].
  - intros a b _ _ Hab Hba. unfold before_key in Hab, Hba. rewrite (cmp_antisym tool_total), Hba in Hab. done.
  - unfold sort_tools. by rewrite merge_sort_Permutation, Hp.
Qed.

(** ** Lemmas: who a cursor serves *)

(** The cursor of a page was issued for one of the tools. *)
Lemma issued_by_page codec i limit c tools page : listable tools ->
  tool_page codec i limit c tools = Ok page -> forall e, NextCursor page = Some e ->
  exists t, (is_ok (ParseToolID (ct_ToolID t)) = true /\ is_ok (ParseSemanticVersion (ct_Version t)) = true) /\
    encode codec (mkDiscoveryCursor 1 (ct_ToolID t) (ct_Version t) limit
      (discoveryBinding i limit) (Unix (codec_now codec + codec_ttl codec))) = Ok e.
Proof.
  intros Hlist Hpage e He. destruct (sort_listable _ Hlist) as [_ Hok]. revert Hpage.
  unfold tool_page. cbv zeta. set (start := sort_Search _ _). rewrite result_bind_Ok.
  intros (items & _ & H). destruct (Nat.ltb_spec (Nat.min (start + Z.to_nat limit) (length (sort_tools tools)))
    (length (sort_tools tools))); [|by injection H as <-].
  rewrite result_bind_Ok in H. destruct H as (e' & Henc & [= <-]). injection He as ->.
  set (k := (Nat.min (start + Z.to_nat limit) (length (sort_tools tools)) - 1)%nat) in *.
  destruct (lookup_lt_is_Some_2 (sort_tools tools) k) as [t Ht]; [lia|].
  rewrite (nth_tool_lookup _ _ _ Ht) in Henc. exists t. split; [|done].
  exact (proj1 (Forall_lookup _ _) Hok _ _ Ht).
Qed.

Lemma parsePage_accepted codec j e l c :
  parsePage codec j {["cursor"%string := [e]]} = Ok (l, c) ->
  decode codec e = Ok c /\ l = dc_Limit c /\ dc_Binding c = discoveryBinding j l.
Proof.
  unfold parsePage, value_of, values_of. rewrite map_to_list_singleton. cbn [forallb fst snd].
  rewrite !lookup_singleton_eq, !lookup_singleton_ne by done.
  cbn [is_some default mbind result_bind].
  change (((String.eqb "cursor" "limit" || String.eqb "cursor" "cursor") && (llen [e] =? 1)) && true) with true.
  cbn [andb negb]. cbv iota. destruct (String.eqb e ""); [done|]. destruct (_ <? slen e); [done|].
  destruct (decode codec e) as [d|]; [|done]. cbn [mbind result_bind]. intros H.
  destruct (String.eqb_spec (dc_Binding d) (discoveryBinding j (dc_Limit d))) as [E|]; [|done].
  cbn [negb] in H. injection H as <- <-. done.
Qed.

(** An issued cursor is decoded to what was issued, or refused. *)
Lemma decode_issued codec codec' c c' e : encode codec c = Ok e -> codec_key codec' = codec_key codec ->
  is_int64 (dc_Version c) -> is_int64 (dc_Limit c) -> is_int64 (dc_ExpiresAt c) ->
  utf8_Valid (dc_AfterToolID c) = true -> utf8_Valid (dc_AfterVersion c) = true ->
  utf8_Valid (dc_Binding c) = true -> decode codec' e = Ok c' -> c' = c.
Proof.
  unfold encode. case_match; [done|]. intros [= <-] Hkey Hv Hl He Ht Hw Hb.
  unfold decode. rewrite payload_of_sealed. cbv iota zeta. cbn [negb]. rewrite Hkey, unseal_seal.
  cbn [mbind result_bind]. rewrite decode_discovery_payload by done. case_match; [done|]. congruence.
Qed.

(** ** Properties *)

(** C23: following the cursors lists every tool once.  Take a catalog that does not change
    meanwhile, of tools with distinct, well-formed keys whose projections are valid, and
    a client that asks for pages of [limit] tools and sends each next request before the
    cursor it was given expires (a second less than the TTL after the previous answer).
    If the encodings of all pages stay below the response bound of 4 MiB, with room for a
    cursor, then every request is answered by a page; the client needs at most one
    request per tool and one more; every page has at most [limit] tools, and the pages
    together are the projections of all tools in the order of their keys: none is
    skipped, repeated or reordered, and no cursor is refused. *)
Theorem pagination_complete (key : string) (ttl : Z) (identity : DiscoveryAuthorizationRequest)
    (describe_tool : DiscoveryAuthorizationRequest -> string -> string -> result CatalogToolVersion)
    (tools listed : list CatalogToolVersion) (times : nat -> Z) (correlation : nat -> string) (all : list Tool) (limit : Z)
    (Hlist : listable tools) (Hperm : listed ≡ₚ tools) (Hsorted : StronglySorted before_key listed)
    (Hall : Forall2 (fun t x => projectDiscoveryTool t = Ok x) listed all) (Hl : 1 <= limit <= 100)
    (Htime : forall k, times (S k) + Second <= times k + ttl)
    (Hrep : forall k, is_int64 (Unix (times k + ttl)))
    (Hfits : forall n next, from_option slen 0 next <= maxDiscoveryCursor ->
       slen (page_json (mkPage (take (Z.to_nat limit) (drop n all)) next)) < maxPublicResultBytes) :
  exists pages,
    follow key ttl identity describe_tool tools times correlation 0 {["limit"%string := [json_int limit]]} pages /\
    concat (map Items pages) = all /\ (length pages <= S (length tools))%nat /\
    Forall (fun page => (length (Items page) <= Z.to_nat limit)%nat) pages.
Proof.
  apply project_all_Forall2 in Hall. rewrite <- (sort_unique tools listed (proj1 Hlist) Hperm Hsorted) in Hall.
  apply (follow_from key ttl identity describe_tool tools times correlation all limit Hlist Hall Hl Htime Hrep Hfits
           (S (length tools)) 0 0 {["limit"%string := [json_int limit]]} zero_cursor); [|by left|lia|lia].
  by apply parsePage_first.
Qed.

(** The other branch of the bound: a page that does not fit is not sent, and a client that
    asked for it is not told where to go on. *)
Lemma oversized_page_blocked key ttl identity describe_tool tools times correlation k query page :
  list_tools (mkCodec key ttl (times k)) (Ok identity) (fun _ => Ok tools) query = inl page ->
  maxPublicResultBytes <= slen (page_json page) ->
  answer_at key ttl identity describe_tool tools times correlation k query = writeBlocked (correlation k).
Proof.
  intros Hp Hbig. unfold answer_at, ServeHTTP, list_request. cbn [negb String.eqb rq_Query]. rewrite Hp.
  unfold writeJSON, writeBoundedJSON. by rewrite (proj2 (Z.ltb_lt _ _)) by lia.
Qed.

Definition ex_tool (id version : string) : CatalogToolVersion :=
  mkCatalogTool id version
    (quoted "{'description':'d','input_schema':{},'output_schema':{},'risk':'read','side_effect':false,'retry_class':'safe','approval':'never','open_world_result':false}") "".
Definition ex_tools : list CatalogToolVersion :=
  [ex_tool "b.tool" "1.0.0"; ex_tool "a.tool" "2.0.0"; ex_tool "a.tool" "1.0.0"].
Definition ex_identity : DiscoveryAuthorizationRequest :=
  mkDiscoveryRequest "tenant" "subject" "actor" "agent" "1.0.0" "run" "workload" [].
Definition ex_times (k : nat) : Z := unix_epoch.
Definition ex_listed : list CatalogToolVersion :=
  [ex_tool "a.tool" "1.0.0"; ex_tool "a.tool" "2.0.0"; ex_tool "b.tool" "1.0.0"].
Definition ex_page_tools : list Tool := match project_all ex_listed with Ok l => l | Err _ => [] end.

Lemma ex_listable : listable ex_tools.
Proof.
  split; [eapply (proj1 (bool_decide_spec _)); vm_compute; exact I|].
  repeat (apply List.Forall_cons; [split; vm_compute; reflexivity|]). apply List.Forall_nil.
Qed.

(** A byte is written with at most six. *)
Lemma escape_length s : slen (escape_string s) <= 6 * slen s.
Proof.
  remember (String.length s) as n eqn:Hn. revert s Hn. induction (lt_wf n) as [n _ IH]. intros s ->.
  assert (Hone : forall c, (slen (escape_ascii c) <=? 6) = true) by (apply forall_byte; vm_compute; reflexivity).
  assert (Hhex : forall c, (slen (hex_byte c) <=? 2) = true) by (apply forall_byte; vm_compute; reflexivity).
  assert (Hrest : forall t, (String.length t < String.length s)%nat -> slen (escape_string t) <= 6 * slen t) by eauto.
  clear IH. destruct s as [|a s1]; [done|]. cbn [escape_string String.length] in *.
  pose proof (Hrest s1 ltac:(lia)) as H1. pose proof (slen_nonneg s1). rewrite slen_cons.
  generalize dependent (escape_string s1). intros e1 H1. destruct (byte_val a <? 128).
  { specialize (Hone a). apply Z.leb_le in Hone. rewrite slen_append. lia. }
  destruct s1 as [|b s2]; [vm_compute; discriminate|]. cbn [String.length] in Hrest. rewrite slen_cons in *.
  pose proof (Hrest s2 ltac:(lia)) as H2. pose proof (slen_nonneg s2).
  generalize dependent (escape_string s2). intros e2 H2. destruct (utf8_2 a b); [rewrite !slen_cons; lia|].
  destruct s2 as [|c s3]; [rewrite slen_append; change (slen "\ufffd") with 6; lia|]. cbn [String.length] in Hrest. rewrite slen_cons in *.
  pose proof (Hrest s3 ltac:(lia)) as H3. pose proof (slen_nonneg s3).
  generalize dependent (escape_string s3). intros e3 H3. destruct (utf8_3 a b c).
  { rewrite slen_append. destruct (_ && _); [|rewrite !slen_cons; change (slen "") with 0; lia].
    rewrite slen_append. match goal with |- context [hex_byte ?x] => specialize (Hhex x) end. apply Z.leb_le in Hhex.
    change (slen "\u20") with 4. lia. }
  destruct s3 as [|d s4]; [rewrite slen_append; change (slen "\ufffd") with 6; lia|]. cbn [String.length] in Hrest. rewrite slen_cons in *.
  pose proof (Hrest s4 ltac:(lia)) as Hd. destruct (utf8_4 a b c d); [rewrite !slen_cons; lia|].
  rewrite slen_append. change (slen "\ufffd") with 6. lia.
Qed.

Lemma json_string_bound s : slen (json_string s) <= 6 * slen s + 2.
Proof.
  pose proof (escape_length s). unfold json_string. rewrite slen_cons, slen_append. change (slen (String quote_byte EmptyString)) with 1. lia.
Qed.

(** Every page of the example is far below the bound: its tools take less than a kilobyte. *)
Lemma ex_fits n next : from_option slen 0 next <= maxDiscoveryCursor ->
  slen (page_json (mkPage (take (Z.to_nat 2) (drop n ex_page_tools)) next)) < maxPublicResultBytes.
Proof.
  intros Hc.
  assert (Hitems : slen (json_array (map tool_json (take (Z.to_nat 2) (drop n ex_page_tools)))) <= 1000).
  { destruct n as [|[|[|n]]]; [vm_compute; discriminate..|].
    rewrite drop_ge by (vm_compute; lia). vm_compute. discriminate. }
  unfold page_json, json_object. cbn [Items NextCursor]. destruct next as [c|]; cbn [map join fst snd from_option] in *.
  - rewrite !slen_append. pose proof (json_string_bound c). unfold maxDiscoveryCursor in Hc.
    repeat match goal with |- context [slen ?x] =>
      lazymatch x with String _ _ => let r := eval vm_compute in (slen x) in change (slen x) with r
                     | json_string (String _ _) => let r := eval vm_compute in (slen x) in change (slen x) with r end end.
    unfold maxPublicResultBytes. change (Z.shiftl 4 20) with 4194304. lia.
  - rewrite !slen_append.
    repeat match goal with |- context [slen ?x] =>
      lazymatch x with String _ _ => let r := eval vm_compute in (slen x) in change (slen x) with r
                     | json_string (String _ _) => let r := eval vm_compute in (slen x) in change (slen x) with r end end.
    unfold maxPublicResultBytes. change (Z.shiftl 4 20) with 4194304. lia.
Qed.

Lemma pagination_complete_witness : exists pages,
  follow ex_key Minute ex_identity (fun _ _ _ => Err (ErrNew "")) ex_tools ex_times (fun _ => EmptyString) 0
    {["limit"%string := [json_int 2]]} pages /\
  concat (map Items pages) = ex_page_tools /\ (length pages <= 4)%nat /\
  Forall (fun page => (length (Items page) <= 2)%nat) pages.
Proof.
  apply (pagination_complete ex_key Minute ex_identity (fun _ _ _ => Err (ErrNew "")) ex_tools ex_listed ex_times
    (fun _ => EmptyString) ex_page_tools 2); [apply ex_listable| | | |lia| | |apply ex_fits].
  - unfold ex_listed, ex_tools. symmetry. apply (Permutation_rev [_; _; _]).
  - repeat constructor; vm_compute; reflexivity.
  - repeat (apply List.Forall2_cons; [vm_compute; reflexivity|]). apply List.Forall2_nil.
  - intros k. unfold ex_times, Minute, Second. lia.
  - intros k. unfold ex_times. vm_compute. split; discriminate.
Defined.

(** A cursor serves only the identity and page size it was issued for.  If the
    next cursor of a page made for [i] is accepted, with the same key, from a caller
    [j], then [j] has the tenant, subject, actor, agent, agent version, run and
    workload of [i] and continues with the same page size, or two different texts
    with the same SHA-256 are exhibited. *)
Theorem cursor_bound_to_identity (codec codec' : discoveryCursorCodec) (i j : DiscoveryAuthorizationRequest)
    (limit l' : Z) (c c' : discoveryCursor) (tools : list CatalogToolVersion) (page : ToolPage) (e : string)
    (Hlist : listable tools) (Hl : 1 <= limit <= 100)
    (Hrep : is_int64 (Unix (codec_now codec + codec_ttl codec)))
    (Hpage : tool_page codec i limit c tools = Ok page) (Hnext : NextCursor page = Some e)
    (Hkey : codec_key codec' = codec_key codec)
    (Haccept : parsePage codec' j {["cursor"%string := [e]]} = Ok (l', c')) :
  (same_identity i j /\ l' = limit) \/
  (exists a b : string, a <> b /\ sha256 a = sha256 b).
Proof.
  destruct (issued_by_page _ _ _ _ _ _ Hlist Hpage e Hnext) as (t & [[id Hid]%is_ok_true [v Hv]%is_ok_true] & Henc).
  apply parsePage_accepted in Haccept as (Hd & -> & Hb).
  destruct (binding_plain i limit) as (Hp & _).
  apply (decode_issued _ _ _ _ _ Henc Hkey) in Hd; cbn [dc_Version dc_Limit dc_ExpiresAt dc_AfterToolID dc_AfterVersion dc_Binding];
    [|unfold is_int64, min_int64, max_int64; lia|unfold is_int64, min_int64, max_int64; lia|done
     |by eapply plain_utf8, tool_id_plain|by eapply plain_utf8, version_plain|by apply plain_utf8].
  subst c'. cbn [dc_Limit dc_Binding] in *.
  destruct (binding_separates _ _ _ _ Hb) as [[Hs _]|[Hne E]]; [by left|]. right. eauto.
Qed.

Definition ex_codec : discoveryCursorCodec := mkCodec ex_key Minute unix_epoch.
Definition ex_page : ToolPage :=
  match tool_page ex_codec ex_identity 2 zero_cursor ex_tools with Ok p => p | Err _ => mkPage [] None end.
Definition ex_next : string := default EmptyString (NextCursor ex_page).
Definition ex_resumed : Z * discoveryCursor :=
  match parsePage ex_codec ex_identity {["cursor"%string := [ex_next]]} with Ok r => r | Err _ => (0, zero_cursor) end.

Lemma cursor_bound_to_identity_witness :
  parsePage ex_codec ex_identity {["cursor"%string := [ex_next]]} = Ok (2, snd ex_resumed) /\
  ((same_identity ex_identity ex_identity /\ 2 = 2) \/ (exists a b : string, a <> b /\ sha256 a = sha256 b)).
Proof.
  assert (H : parsePage ex_codec ex_identity {["cursor"%string := [ex_next]]} = Ok (2, snd ex_resumed))
    by (vm_compute; reflexivity).
  split; [exact H|].
  apply (cursor_bound_to_identity ex_codec ex_codec ex_identity ex_identity 2 2 zero_cursor
           (snd ex_resumed) ex_tools ex_page ex_next ex_listable); [lia| | | |reflexivity|exact H].
  - vm_compute. split; discriminate.
  - vm_compute. reflexivity.
  - vm_compute. reflexivity.
Defined.
