(* ===== verification/CatalogStore.v ===== *)
(** * The catalog tables

    [internal/adapters/postgres/tool_versions.go] and the catalog repositories of
    [repositories.go], on the tables, constraints and triggers of
    [migrations/sql/00001_catalog.sql]: tool versions go from draft to published to
    retired, a released version never changes, and a tenant sees the published
    versions that are enabled for it.

    [jsonb] is what PostgreSQL makes of JSON text written to a jsonb column and read
    back ([None]: rejected), [order_by] the order of a query under the collation of
    the database.  [fault] is the failure of a statement for reasons outside the
    model; it leaves the tables as they were. *)
From Stdlib Require Import Ascii String.
From S2P Require Import Prelude GoStd Regex Sha256 Json JsonParse Primitives ToolCatalog GoText Ports Discovery Database Http CanonicalJson JsonStruct Cursors HttpDiscovery.

(** ** Rows *)

Record version_row := mkVersionRow {
  vr_state : string; vr_definition : string; vr_digest : string; vr_published_at : option Z;
}.
Record exposure_row := mkExposure { er_enabled : bool; er_updated_at : Z }.

(** [postgres.ToolVersion] *)
Record ToolVersionValue := mkToolVersionValue {
  tvv_ToolID : string; tvv_Version : string; tvv_State : string;
  tvv_Definition : string; tvv_DefinitionDigest : string; tvv_PublishedAt : option Z;
}.

(** [postgres.ConnectorInstance] and [postgres.CredentialBinding] *)
Record ConnectorInstance := mkConnectorInstance {
  con_ID : string; con_Type : string; con_DestinationConfig : string; con_ConfigDigest : string;
  con_Enabled : bool; con_CreatedAt : Z; con_UpdatedAt : Z;
}.
Record CredentialBinding := mkCredentialBinding {
  cb_ID : string; cb_ConnectorInstanceID : string; cb_ProviderRef : string; cb_CapabilityMetadata : string;
  cb_Enabled : bool; cb_CreatedAt : Z; cb_UpdatedAt : Z;
}.

Record catalog := mkCatalog {
  cat_tools : gmap string Z;
  cat_versions : gmap (string * string) version_row;
  cat_exposures : gmap (string * string * string) exposure_row;
  cat_connectors : gmap (string * string) ConnectorInstance;
  cat_bindings : gmap (string * string) CredentialBinding;
}.
Definition empty_catalog : catalog := mkCatalog ∅ ∅ ∅ ∅ ∅.

Definition set_versions (db : catalog) tools versions :=
  mkCatalog tools versions (cat_exposures db) (cat_connectors db) (cat_bindings db).
Definition set_exposures (db : catalog) exposures :=
  mkCatalog (cat_tools db) (cat_versions db) exposures (cat_connectors db) (cat_bindings db).
Definition set_connectors (db : catalog) connectors :=
  mkCatalog (cat_tools db) (cat_versions db) (cat_exposures db) connectors (cat_bindings db).
Definition set_bindings (db : catalog) bindings :=
  mkCatalog (cat_tools db) (cat_versions db) (cat_exposures db) (cat_connectors db) bindings.

(** ** Constraints and triggers *)

(** The CHECK constraints of [tool_versions]. *)
Definition version_check (version : string) (row : version_row) : bool :=
  negb (String.eqb version "") && one_of_str (vr_state row) ["draft"; "published"; "retired"]
  && unmarshals_raw_object (vr_definition row) && (slen (vr_digest row) =? 32)
  && (if String.eqb (vr_state row) "draft" then negb (is_some (vr_published_at row))
      else is_some (vr_published_at row)).

Definition released (row : version_row) : bool := one_of_str (vr_state row) ["published"; "retired"].

#[global] Instance version_row_eq_dec : EqDecision version_row.
Proof. solve_decision. Defined.

(** [protect_released_tool_version], for an update; the key is not updated. *)
Definition protect_released (old new : version_row) : result version_row :=
  if released old then
    if String.eqb (vr_state old) "published" && String.eqb (vr_state new) "retired"
       && String.eqb (vr_definition new) (vr_definition old) && String.eqb (vr_digest new) (vr_digest old)
       && bool_decide (vr_published_at new = vr_published_at old) then Ok new
    else if bool_decide (new = old) then Ok new
    else Err (constraint_violation "released tool versions are immutable")
  else Ok new.

(** An UPDATE of one row: the trigger, then the constraints. *)
Definition update_version (version : string) (old new : version_row) : result version_row :=
  protect_released old new ≫= fun new =>
  if version_check version new then Ok new else Err (constraint_violation "tool_versions_check").

(** [require_published_tool_version_for_exposure] *)
Definition require_published (db : catalog) (toolID version : string) (enabled : bool) : result unit :=
  if negb enabled then Ok tt
  else if bool_decide (vr_state <$> cat_versions db !! (toolID, version) = Some "published"%string) then Ok tt
  else Err (constraint_violation "enabled tenant exposure requires a published tool version").

(** What a statement answers: the tables after it and the rows it affected. *)
Definition exec (operation : string) (fault : option goerror) (statement : catalog -> result (catalog * Z))
    (db : catalog) : catalog * result Z :=
  match fault with
  | Some err => (db, Err (repositoryError operation err))
  | None =>
      match statement db with
      | Err err => (db, Err (repositoryError operation err))
      | Ok (db', affected) => (db', Ok affected)
      end
  end.

(** The callers compare the affected rows with 1. *)
Definition one_row (conflict : string) (outcome : catalog * result Z) : catalog * result unit :=
  let '(db, reply) := outcome in
  match reply with
  | Err err => (db, Err err)
  | Ok affected => (db, if affected =? 1 then Ok tt else Err (NewError CodeConflict conflict None))
  end.

(** ** Tool versions *)

Definition validateToolVersionKey (toolID version : string) : result unit :=
  match ParseToolID toolID with
  | Err err => Err (NewError CodeInvalidArgument "tool ID is invalid" (Some err))
  | Ok _ =>
      match ParseSemanticVersion version with
      | Err err => Err (NewError CodeInvalidArgument "tool version is invalid" (Some err))
      | Ok _ => Ok tt
      end
  end.

Section Store.
Context (jcs_Format : jvalue -> result string).
Context (jsonb : string -> option string).
Context (order_by : list CatalogToolVersion -> list CatalogToolVersion).

Definition to_jsonb (text : string) : result string :=
  match jsonb text with Some stored => Ok stored | None => Err (ErrNew "invalid input syntax for type json") end.

(** The statement of [SaveDraft]. *)
Definition save_statement (toolID version definition digest : string) (at_ : Z) (db : catalog)
    : result (catalog * Z) :=
  to_jsonb definition ≫= fun stored =>
  let tools := match cat_tools db !! toolID with Some _ => cat_tools db | None => <[toolID := at_]> (cat_tools db) end in
  let row := mkVersionRow "draft" stored digest None in
  if negb (matches toolIDPattern toolID) then Err (constraint_violation "tools_tool_id_check")
  else if negb (version_check version row) then Err (constraint_violation "tool_versions_check")
  else match cat_versions db !! (toolID, version) with
       | None => Ok (set_versions db tools (<[(toolID, version) := row]> (cat_versions db)), 1)
       | Some old =>
           if String.eqb (vr_state old) "draft" then
             update_version version old (mkVersionRow (vr_state old) stored digest (vr_published_at old)) ≫= fun new =>
             Ok (set_versions db tools (<[(toolID, version) := new]> (cat_versions db)), 1)
           else Ok (set_versions db tools (cat_versions db), 0)
       end.

(** What [SaveDraft] stores: the canonical definition, which must be an object. *)
Definition draft_definition (definition : string) : result string :=
  match Parse definition no_limits with
  | Err err => Err (NewError CodeInvalidArgument "tool definition is invalid" (Some err))
  | Ok (JObject _) =>
      match Canonicalize jcs_Format definition no_limits with
      | Err err => Err (NewError CodeInvalidArgument "tool definition is invalid" (Some err))
      | Ok canonical => Ok canonical
      end
  | Ok _ => Err (NewError CodeInvalidArgument "tool definition must be a JSON object" None)
  end.

Definition SaveDraft (toolID version definition : string) (at_ : Z) (fault : option goerror) (db : catalog)
    : catalog * result unit :=
  match ParseToolID toolID with
  | Err err => (db, Err (NewError CodeInvalidArgument "tool ID is invalid" (Some err)))
  | Ok _ =>
  match ParseSemanticVersion version with
  | Err err => (db, Err (NewError CodeInvalidArgument "tool version is invalid" (Some err)))
  | Ok _ =>
      if IsZero at_ then (db, Err (NewError CodeInvalidArgument "draft timestamp is required" None)) else
      match draft_definition definition with
      | Err err => (db, Err err)
      | Ok canonical =>
          one_row "released tool version is immutable; create a new version"
            (exec "save draft tool version" fault
               (save_statement toolID version canonical (DigestBytes canonical) at_) db)
      end
  end
  end.

(** An UPDATE of the version if it is in the given state. *)
Definition transition (toolID version from : string) (change : version_row -> version_row) (db : catalog)
    : result (catalog * Z) :=
  match cat_versions db !! (toolID, version) with
  | Some old =>
      if String.eqb (vr_state old) from then
        update_version version old (change old) ≫= fun new =>
        Ok (set_versions db (cat_tools db) (<[(toolID, version) := new]> (cat_versions db)), 1)
      else Ok (db, 0)
  | None => Ok (db, 0)
  end.

Definition publish_row (at_ : Z) (old : version_row) : version_row :=
  mkVersionRow "published" (vr_definition old) (vr_digest old) (Some at_).
Definition retire_row (old : version_row) : version_row :=
  mkVersionRow "retired" (vr_definition old) (vr_digest old) (vr_published_at old).

Definition Publish (toolID version : string) (at_ : Z) (fault : option goerror) (db : catalog)
    : catalog * result unit :=
  match validateToolVersionKey toolID version with
  | Err err => (db, Err err)
  | Ok _ =>
      if IsZero at_ then (db, Err (NewError CodeInvalidArgument "publication timestamp is required" None))
      else one_row "tool version is not a current draft"
             (exec "publish tool version" fault (transition toolID version "draft" (publish_row at_)) db)
  end.

Definition Retire (toolID version : string) (fault : option goerror) (db : catalog) : catalog * result unit :=
  match validateToolVersionKey toolID version with
  | Err err => (db, Err err)
  | Ok _ =>
      one_row "tool version is not currently published"
        (exec "retire tool version" fault (transition toolID version "published" retire_row) db)
  end.

Definition version_value (toolID version : string) (row : version_row) : ToolVersionValue :=
  mkToolVersionValue toolID version (vr_state row) (vr_definition row) (vr_digest row) (vr_published_at row).

(** [AdminToolCatalogRepository.Get] *)
Definition Versions_Get (toolID version : string) (db : catalog) : result ToolVersionValue :=
  validateToolVersionKey toolID version ≫= fun _ =>
  in_repository "get tool version"
    (match cat_versions db !! (toolID, version) with
     | Some row => Ok (version_value toolID version row)
     | None => Err ErrNoRows
     end).

(** ** Exposures *)

(** The rows of the join: enabled for the tenant and published. *)
Definition exposed (tenant : string) (db : catalog) (toolID version : string) : option version_row :=
  match cat_exposures db !! (tenant, toolID, version), cat_versions db !! (toolID, version) with
  | Some e, Some row => if er_enabled e && String.eqb (vr_state row) "published" then Some row else None
  | _, _ => None
  end.

Definition GetExposedVersion (tenant toolID version : string) (db : catalog) : result ToolVersionValue :=
  in_repository "get exposed tool version"
    (match exposed tenant db toolID version with
     | Some row => Ok (version_value toolID version row)
     | None => Err ErrNoRows
     end).

Definition exposed_tool (tenant : string) (db : catalog) (key : string * string * string)
    : option CatalogToolVersion :=
  let '(owner, toolID, version) := key in
  if String.eqb owner tenant then
    (fun row => mkCatalogTool toolID version (vr_definition row) (vr_digest row)) <$> exposed tenant db toolID version
  else None.

Definition ListExposedForDiscovery (tenant : string) (db : catalog) : result (list CatalogToolVersion) :=
  Ok (order_by (omap (exposed_tool tenant db) (map fst (map_to_list (cat_exposures db))))).

(** The statement of [SetExposure]. *)
Definition exposure_statement (tenant toolID version : string) (enabled : bool) (at_ : Z) (db : catalog)
    : result (catalog * Z) :=
  require_published db toolID version enabled ≫= fun _ =>
  if is_some (cat_versions db !! (toolID, version)) then
    Ok (set_exposures db (<[(tenant, toolID, version) := mkExposure enabled at_]> (cat_exposures db)), 1)
  else Err (constraint_violation "tenant_tool_exposures_tool_id_version_fkey").

Definition SetExposure (tenant toolID version : string) (enabled : bool) (at_ : Z) (fault : option goerror)
    (db : catalog) : catalog * result unit :=
  match validateToolVersionKey toolID version with
  | Err err => (db, Err err)
  | Ok _ =>
      if IsZero at_ then (db, Err (NewError CodeInvalidArgument "exposure timestamp is required" None)) else
      let '(db', reply) := exec "set tool exposure" fault
                             (exposure_statement tenant toolID version enabled at_) db in
      (db', fmap (fun _ => tt) reply)
  end.

(** ** Connector instances and credential bindings *)

Definition connector_check (v : ConnectorInstance) : bool :=
  negb (String.eqb (con_Type v) "") && unmarshals_raw_object (con_DestinationConfig v)
  && (slen (con_ConfigDigest v) =? 32) && (con_CreatedAt v <=? con_UpdatedAt v).

(** The constraints hold of the proposed row, and of the updated one, which keeps
    its creation time. *)
Definition Connectors_Put (tenant : string) (v : ConnectorInstance) (db : catalog) : result catalog :=
  in_repository "put connector instance" (
    to_jsonb (con_DestinationConfig v) ≫= fun stored =>
    let row created := mkConnectorInstance (con_ID v) (con_Type v) stored (con_ConfigDigest v)
                         (con_Enabled v) created (con_UpdatedAt v) in
    let final := match cat_connectors db !! (tenant, con_ID v) with
                 | Some old => row (con_CreatedAt old) | None => row (con_CreatedAt v) end in
    if negb (connector_check (row (con_CreatedAt v))) || negb (connector_check final) then
      Err (constraint_violation "connector_instances_check")
    else Ok (set_connectors db (<[(tenant, con_ID v) := final]> (cat_connectors db)))).

Definition Connectors_Get (tenant id : string) (db : catalog) : result ConnectorInstance :=
  in_repository "get connector instance"
    (match cat_connectors db !! (tenant, id) with Some v => Ok v | None => Err ErrNoRows end).

Definition binding_check (v : CredentialBinding) : bool :=
  negb (String.eqb (cb_ProviderRef v) "") && unmarshals_raw_object (cb_CapabilityMetadata v)
  && (cb_CreatedAt v <=? cb_UpdatedAt v).

Definition Bindings_Put (tenant : string) (v : CredentialBinding) (db : catalog) : result catalog :=
  in_repository "put credential binding" (
    to_jsonb (cb_CapabilityMetadata v) ≫= fun stored =>
    let row created := mkCredentialBinding (cb_ID v) (cb_ConnectorInstanceID v) (cb_ProviderRef v) stored
                         (cb_Enabled v) created (cb_UpdatedAt v) in
    let final := match cat_bindings db !! (tenant, cb_ID v) with
                 | Some old => row (cb_CreatedAt old) | None => row (cb_CreatedAt v) end in
    if negb (binding_check (row (cb_CreatedAt v))) || negb (binding_check final) then
      Err (constraint_violation "credential_bindings_check")
    else if negb (is_some (cat_connectors db !! (tenant, cb_ConnectorInstanceID v))) then
      Err (constraint_violation "credential_bindings_tenant_id_connector_instance_id_fkey")
    else Ok (set_bindings db (<[(tenant, cb_ID v) := final]> (cat_bindings db)))).

Definition Bindings_Get (tenant id : string) (db : catalog) : result CredentialBinding :=
  in_repository "get credential binding"
    (match cat_bindings db !! (tenant, id) with Some v => Ok v | None => Err ErrNoRows end).

(** ** Histories *)

(** The operations of the administration and exposure paths. *)
Inductive operation :=
| OpSaveDraft (toolID version definition : string) (at_ : Z) (fault : option goerror)
| OpPublish (toolID version : string) (at_ : Z) (fault : option goerror)
| OpRetire (toolID version : string) (fault : option goerror)
| OpSetExposure (tenant toolID version : string) (enabled : bool) (at_ : Z) (fault : option goerror).

Definition apply_op (o : operation) (db : catalog) : catalog * result unit :=
  match o with
  | OpSaveDraft t v d at_ fault => SaveDraft t v d at_ fault db
  | OpPublish t v at_ fault => Publish t v at_ fault db
  | OpRetire t v fault => Retire t v fault db
  | OpSetExposure tenant t v e at_ fault => SetExposure tenant t v e at_ fault db
  end.

Definition run_ops (ops : list operation) (db : catalog) : catalog :=
  foldl (fun db o => fst (apply_op o db)) db ops.

(** ** Specification: the lifecycle of a tool version *)

Inductive version_spec :=
| Absent
| Draft (definition digest : string)
| Published (definition digest : string) (at_ : Z)
| Retired (definition digest : string) (at_ : Z).

Definition abstract (row : option version_row) : version_spec :=
  match row with
  | None => Absent
  | Some row =>
      if String.eqb (vr_state row) "draft" then Draft (vr_definition row) (vr_digest row)
      else let at_ := default 0 (vr_published_at row) in
           if String.eqb (vr_state row) "published" then Published (vr_definition row) (vr_digest row) at_
           else Retired (vr_definition row) (vr_digest row) at_
  end.
Definition version_of (db : catalog) (key : string * string) : version_spec := abstract (cat_versions db !! key).

Definition conflict {A} (message : string) : result A := Err (NewError CodeConflict message None).

Definition spec_save (definition digest : string) (v : version_spec) : version_spec * result unit :=
  match v with
  | Absent | Draft _ _ => (Draft definition digest, Ok tt)
  | _ => (v, conflict "released tool version is immutable; create a new version")
  end.
Definition spec_publish (at_ : Z) (v : version_spec) : version_spec * result unit :=
  match v with
  | Draft definition digest => (Published definition digest at_, Ok tt)
  | _ => (v, conflict "tool version is not a current draft")
  end.
Definition spec_retire (v : version_spec) : version_spec * result unit :=
  match v with
  | Published definition digest at_ => (Retired definition digest at_, Ok tt)
  | _ => (v, conflict "tool version is not currently published")
  end.

(** ** Invariant *)

Definition catalog_wf (db : catalog) : Prop :=
  (forall toolID version row, cat_versions db !! (toolID, version) = Some row ->
     is_ok (ParseToolID toolID) = true /\ is_ok (ParseSemanticVersion version) = true /\
     is_Some (cat_tools db !! toolID) /\ version_check version row = true) /\
  (forall tenant toolID version e, cat_exposures db !! (tenant, toolID, version) = Some e ->
     exists row, cat_versions db !! (toolID, version) = Some row /\ (er_enabled e = true -> released row = true)).

(** ** Lemmas *)

Lemma exec_cases operation fault statement db db' reply :
  exec operation fault statement db = (db', reply) ->
  (exists e, reply = Err e /\ db' = db) \/ (exists n, fault = None /\ statement db = Ok (db', n) /\ reply = Ok n).
Proof.
  unfold exec. destruct fault; [intros [= <- <-]; left; eauto|].
  destruct (statement db) as [[db1 n]|]; intros [= <- <-]; [right|left]; eauto.
Qed.

Lemma one_row_cases message operation fault statement db db' reply :
  one_row message (exec operation fault statement db) = (db', reply) ->
  db' = db \/ exists n, statement db = Ok (db', n).
Proof.
  destruct (exec operation fault statement db) as [db1 r] eqn:E. apply exec_cases in E.
  simpl. destruct E as [(e & -> & ->)|(n & _ & Hs & ->)]; intros [= <- <-]; eauto.
Qed.

Lemma protect_ok old new row : protect_released old new = Ok row -> row = new.
Proof. unfold protect_released. repeat (case_match; [|]); congruence. Qed.

Lemma update_ok version old new row : update_version version old new = Ok row ->
  row = new /\ version_check version new = true /\ protect_released old new = Ok new.
Proof.
  unfold update_version. rewrite result_bind_Ok. intros (x & Hp & H).
  pose proof (protect_ok _ _ _ Hp) as ->. case_match eqn:E; [|done]. by injection H as <-.
Qed.

(** The effect of a statement on the version table: one row, which goes where the
    lifecycle lets it go. *)
Inductive row_step : option version_row -> version_row -> Prop :=
| step_insert row : vr_state row = "draft"%string -> row_step None row
| step_replace old row : vr_state old = "draft"%string -> vr_state row = "draft"%string -> row_step (Some old) row
| step_publish old at_ : vr_state old = "draft"%string -> row_step (Some old) (publish_row at_ old)
| step_retire old : vr_state old = "published"%string -> row_step (Some old) (retire_row old).

(** The tables after one operation. *)
Inductive catalog_step (db : catalog) : catalog -> Prop :=
| catalog_same : catalog_step db db
| catalog_tools tools : (forall t, is_Some (cat_tools db !! t) -> is_Some (tools !! t)) ->
    catalog_step db (set_versions db tools (cat_versions db))
| catalog_version tools toolID version row :
    is_ok (ParseToolID toolID) = true -> is_ok (ParseSemanticVersion version) = true ->
    row_step (cat_versions db !! (toolID, version)) row -> version_check version row = true ->
    (forall t, is_Some (cat_tools db !! t) -> is_Some (tools !! t)) ->
    is_Some (tools !! toolID) \/ is_Some (cat_versions db !! (toolID, version)) ->
    catalog_step db (set_versions db tools (<[(toolID, version) := row]> (cat_versions db)))
| catalog_exposure tenant toolID version enabled at_ row :
    cat_versions db !! (toolID, version) = Some row ->
    (enabled = true -> vr_state row = "published"%string) ->
    catalog_step db (set_exposures db (<[(tenant, toolID, version) := mkExposure enabled at_]> (cat_exposures db))).

Lemma valid_key toolID version : validateToolVersionKey toolID version = Ok tt ->
  is_ok (ParseToolID toolID) = true /\ is_ok (ParseSemanticVersion version) = true.
Proof. unfold validateToolVersionKey. repeat (case_match; [|done]). done. Qed.

Lemma save_step toolID version definition digest at_ db db' n :
  is_ok (ParseToolID toolID) = true -> is_ok (ParseSemanticVersion version) = true ->
  save_statement toolID version definition digest at_ db = Ok (db', n) -> catalog_step db db'.
Proof.
  intros Ht Hv. unfold save_statement. rewrite result_bind_Ok. intros (stored & _ & H). cbv zeta in H.
  set (tools := match cat_tools db !! toolID with Some _ => _ | None => _ end) in *.
  assert (Hg : forall t, is_Some (cat_tools db !! t) -> is_Some (tools !! t)).
  { intros t Hs. unfold tools. destruct (cat_tools db !! toolID) eqn:E; [done|].
    apply lookup_insert_is_Some. destruct (decide (toolID = t)); auto. }
  assert (Hi : is_Some (tools !! toolID)).
  { unfold tools. destruct (cat_tools db !! toolID) eqn:E; [by rewrite E|].
    apply lookup_insert_is_Some. auto. }
  destruct (negb (matches _ _)); [done|]. destruct (negb (version_check _ _)) eqn:Hc; [done|].
  apply negb_false_iff in Hc. destruct (cat_versions db !! (toolID, version)) as [old|] eqn:Hold.
  - destruct (String.eqb_spec (vr_state old) "draft") as [Hs|Hs].
    + apply result_bind_Ok in H as (new & (-> & Hc' & _)%update_ok & [= <- <-]).
      apply catalog_version; auto. rewrite Hold. by apply step_replace.
    + injection H as <- <-. by apply catalog_tools.
  - injection H as <- <-. apply catalog_version; auto. rewrite Hold. by apply step_insert.
Qed.

Lemma transition_step toolID version from change db db' n :
  is_ok (ParseToolID toolID) = true -> is_ok (ParseSemanticVersion version) = true ->
  (forall old, vr_state old = from -> row_step (Some old) (change old)) ->
  transition toolID version from change db = Ok (db', n) -> catalog_step db db'.
Proof.
  intros Ht Hv Hstep. unfold transition.
  destruct (cat_versions db !! (toolID, version)) as [old|] eqn:Hold; [|intros [= <- <-]; constructor].
  destruct (String.eqb_spec (vr_state old) from) as [Hs|]; [|intros [= <- <-]; constructor].
  rewrite result_bind_Ok. intros (new & (-> & Hc & _)%update_ok & [= <- <-]).
  apply catalog_version; rewrite ?Hold; eauto.
Qed.

Lemma exposure_step tenant toolID version enabled at_ db db' n :
  exposure_statement tenant toolID version enabled at_ db = Ok (db', n) -> catalog_step db db'.
Proof.
  unfold exposure_statement. rewrite result_bind_Ok. intros ([] & Hr & H).
  destruct (cat_versions db !! (toolID, version)) as [row|] eqn:Hrow; [|done]. injection H as <- <-.
  apply (catalog_exposure db tenant toolID version enabled at_ row Hrow). intros ->.
  unfold require_published in Hr. simpl in Hr. case_bool_decide as E; [|done].
  rewrite Hrow in E. by injection E.
Qed.

Lemma apply_step o db : catalog_step db (fst (apply_op o db)).
Proof.
  destruct o as [t v d at_ fault|t v at_ fault|t v fault|tenant t v e at_ fault]; cbn [apply_op].
  - unfold SaveDraft. destruct (ParseToolID t) as [tt'|] eqn:Ht; [|constructor].
    destruct (ParseSemanticVersion v) as [vv|] eqn:Hv; [|constructor].
    case_match; [constructor|]. case_match; [|constructor].
    destruct (one_row _ _) as [db' r] eqn:E. apply one_row_cases in E as [->|[n E]]; [constructor|].
    apply save_step in E; [done|by rewrite Ht|by rewrite Hv].
  - unfold Publish. destruct (validateToolVersionKey t v) as [[]|] eqn:Hk; [|constructor].
    apply valid_key in Hk as [Ht Hv]. case_match; [constructor|].
    destruct (one_row _ _) as [db' r] eqn:E. apply one_row_cases in E as [->|[n E]]; [constructor|].
    apply transition_step in E; [done..|]. intros old ?. by apply step_publish.
  - unfold Retire. destruct (validateToolVersionKey t v) as [[]|] eqn:Hk; [|constructor].
    apply valid_key in Hk as [Ht Hv].
    destruct (one_row _ _) as [db' r] eqn:E. apply one_row_cases in E as [->|[n E]]; [constructor|].
    apply transition_step in E; [done..|]. intros old ?. by apply step_retire.
  - unfold SetExposure. destruct (validateToolVersionKey t v); [|constructor].
    case_match; [constructor|]. destruct (exec _ _ _ _) as [db' r] eqn:E.
    apply exec_cases in E as [(? & _ & ->)|(n & _ & E & _)]; [constructor|]. by eapply exposure_step.
Qed.

Lemma row_step_released old row : row_step (Some old) row -> released old = true ->
  row = retire_row old /\ vr_state old = "published"%string.
Proof. unfold released. inversion 1 as [|? ? E|? ? E|]; subst; try (rewrite E); done. Qed.

Lemma step_wf db db' : catalog_wf db -> catalog_step db db' -> catalog_wf db'.
Proof.
  intros [Hv He] [|tools Hg|tools toolID version row Ht Hver Hstep Hc Hg Hin|tenant toolID version enabled at_ row Hrow Hen];
    [by split| | |].
  - split; [|exact He]. intros t v r H. destruct (Hv t v r H) as (? & ? & ? & ?). auto.
  - split; cbn [set_versions cat_versions cat_tools cat_exposures].
    + intros t v r H. destruct (decide ((toolID, version) = (t, v))) as [[= <- <-]|Hne].
      * rewrite lookup_insert_eq in H. injection H as <-. split_and!; auto.
        destruct Hin as [?|[old Hold]]; [done|]. apply Hg. by destruct (Hv _ _ _ Hold) as (_ & _ & ? & _).
      * rewrite lookup_insert_ne in H by done. destruct (Hv t v r H) as (? & ? & ? & ?). auto.
    + intros tenant t v e H. destruct (He tenant t v e H) as (old & Hold & Hr).
      destruct (decide ((toolID, version) = (t, v))) as [[= <- <-]|Hne].
      * exists row. rewrite lookup_insert_eq. split; [done|]. intros Hen. rewrite Hold in Hstep.
        by apply row_step_released in Hstep as [-> _]; auto.
      * exists old. rewrite lookup_insert_ne by done. eauto.
  - split; [exact Hv|]. cbn [set_exposures cat_versions cat_exposures]. intros tenant' t v e H.
    destruct (decide ((tenant, toolID, version) = (tenant', t, v))) as [[= <- <- <-]|Hne].
    + rewrite lookup_insert_eq in H. injection H as <-. exists row. split; [done|]. cbn [er_enabled].
      intros Hn. unfold released. by rewrite (Hen Hn).
    + rewrite lookup_insert_ne in H by done. eauto.
Qed.

(** What every later history keeps of a released version. *)
Definition same_release (old row : version_row) : Prop :=
  vr_definition row = vr_definition old /\ vr_digest row = vr_digest old /\
  vr_published_at row = vr_published_at old /\
  (vr_state row = vr_state old \/ (vr_state old = "published" /\ vr_state row = "retired")%string).

Lemma step_release db db' key old : catalog_step db db' -> cat_versions db !! key = Some old ->
  released old = true -> exists row, cat_versions db' !! key = Some row /\ same_release old row.
Proof.
  unfold same_release. intros Hs Hold Hr.
  assert (Hsame : exists row, cat_versions db !! key = Some row /\ vr_definition row = vr_definition old /\
    vr_digest row = vr_digest old /\ vr_published_at row = vr_published_at old /\
    (vr_state row = vr_state old \/ (vr_state old = "published" /\ vr_state row = "retired")%string)).
  { exists old. split_and!; auto. }
  destruct Hs as [| |tools toolID version row Ht Hver Hstep Hc Hg Hin|]; try done.
  cbn [set_versions cat_versions]. destruct (decide ((toolID, version) = key)) as [<-|Hne].
  - rewrite Hold in Hstep. apply row_step_released in Hstep as [-> Hp]; [|done].
    exists (retire_row old). rewrite lookup_insert_eq. split_and!; auto.
  - destruct Hsame as (r & Hr' & ?). exists r. by rewrite lookup_insert_ne.
Qed.

Lemma same_release_released old row : same_release old row -> released old = true -> released row = true.
Proof.
  unfold released. intros (_ & _ & _ & [->|[_ ->]]) H; [done|]. done.
Qed.

Lemma same_release_trans a b c : same_release a b -> same_release b c -> same_release a c.
Proof.
  intros (? & ? & ? & Hab) (? & ? & ? & Hbc). split_and!; [congruence..|].
  destruct Hab as [Hab|[Ha Hb]], Hbc as [Hbc|[Hb' Hc]]; rewrite ?Hab, ?Hbc in *; first [by auto | congruence].
Qed.

Lemma run_ops_release ops db key old : cat_versions db !! key = Some old -> released old = true ->
  exists row, cat_versions (run_ops ops db) !! key = Some row /\ same_release old row.
Proof.
  unfold run_ops. revert db old. induction ops as [|o ops IH]; cbn [foldl]; intros db old Hold Hr.
  - exists old. split; [done|]. repeat split; auto.
  - destruct (step_release _ _ _ _ (apply_step o db) Hold Hr) as (row & Hrow & Hs).
    destruct (IH _ _ Hrow (same_release_released _ _ Hs Hr)) as (row' & Hrow' & Hs').
    exists row'. split; [done|]. by eapply same_release_trans.
Qed.

Lemma run_ops_wf ops db : catalog_wf db -> catalog_wf (run_ops ops db).
Proof.
  unfold run_ops. revert db. induction ops as [|o ops IH]; cbn [foldl]; intros db Hwf; [done|].
  apply IH. eapply step_wf; [done|apply apply_step].
Qed.

Lemma empty_wf : catalog_wf empty_catalog.
Proof. split; intros *; cbn [empty_catalog cat_versions cat_exposures]; by rewrite lookup_empty. Qed.

(** ** Lemmas: the lifecycle *)

Lemma draft_unpublished version row : version_check version row = true -> vr_state row = "draft"%string ->
  vr_published_at row = None.
Proof.
  unfold version_check. intros H Hs. rewrite Hs in H. to_prop. destruct H as [_ H].
  cbn in H. by destruct (vr_published_at row).
Qed.

Lemma state_cases version row : version_check version row = true ->
  (vr_state row = "draft" \/ vr_state row = "published" \/ vr_state row = "retired")%string.
Proof.
  unfold version_check, one_of_str. intros H. to_prop. destruct H as [[[[_ H] _] _] _].
  cbn [existsb] in H. to_prop. naive_solver.
Qed.

Lemma check_replace version old definition digest : version_check version old = true ->
  vr_state old = "draft"%string -> unmarshals_raw_object definition = true -> slen digest = 32 ->
  update_version version old (mkVersionRow (vr_state old) definition digest (vr_published_at old)) =
    Ok (mkVersionRow (vr_state old) definition digest (vr_published_at old)).
Proof.
  intros Hc Hs Hd Hl. unfold update_version, protect_released, released. rewrite Hs.
  change (one_of_str "draft" ["published"; "retired"]%string) with false. cbn [mbind result_bind].
  rewrite (draft_unpublished _ _ Hc Hs). unfold version_check in *. cbn [vr_state vr_definition vr_digest vr_published_at].
  to_prop. destruct Hc as [[[[Hv _] _] _] _]. rewrite Hd, Hl. by rewrite (proj2 (String.eqb_neq _ _) Hv).
Qed.

Lemma check_publish version old at_ : version_check version old = true -> vr_state old = "draft"%string ->
  update_version version old (publish_row at_ old) = Ok (publish_row at_ old).
Proof.
  intros Hc Hs. unfold update_version, protect_released, released. rewrite Hs.
  change (one_of_str "draft" ["published"; "retired"]%string) with false. cbn [mbind result_bind].
  unfold version_check, publish_row in *. cbn [vr_state vr_definition vr_digest vr_published_at].
  to_prop. destruct Hc as [[[[Hv _] Hd] Hl] _]. rewrite Hd, Hl. by rewrite (proj2 (String.eqb_neq _ _) Hv).
Qed.

Lemma check_retire version old : version_check version old = true -> vr_state old = "published"%string ->
  update_version version old (retire_row old) = Ok (retire_row old).
Proof.
  intros Hc Hs. unfold update_version, protect_released, released, retire_row. rewrite Hs.
  change (one_of_str "published" ["published"; "retired"]%string) with true. cbv iota.
  cbn [vr_state vr_definition vr_digest vr_published_at]. rewrite !String.eqb_refl, bool_decide_true by done.
  cbn [andb]. cbv iota. cbn [mbind result_bind]. unfold version_check in *. cbn [vr_state vr_definition vr_digest vr_published_at].
  rewrite Hs in Hc. to_prop. destruct Hc as [[[[Hv _] Hd] Hl] Hp]. rewrite Hd, Hl.
  cbn in Hp |- *. rewrite Hp. by rewrite (proj2 (String.eqb_neq _ _) Hv).
Qed.

Lemma digest_length s : slen (DigestBytes s) = 32.
Proof. unfold DigestBytes, slen. by rewrite sha256_length. Qed.

Lemma tool_id_matches toolID t : ParseToolID toolID = Ok t -> matches toolIDPattern toolID = true.
Proof. unfold ParseToolID. case_match eqn:E; [done|]. intros _. to_prop. by destruct E. Qed.

Lemma semver_nonempty version v : ParseSemanticVersion version = Ok v -> version <> EmptyString.
Proof. intros H ->. by vm_compute in H. Qed.

Lemma save_refined toolID version definition canonical stored at_ db : catalog_wf db ->
  validateToolVersionKey toolID version = Ok tt -> IsZero at_ = false ->
  draft_definition definition = Ok canonical -> jsonb canonical = Some stored ->
  unmarshals_raw_object stored = true ->
  let '(db', reply) := SaveDraft toolID version definition at_ None db in
  (version_of db' (toolID, version), reply) =
    spec_save stored (DigestBytes canonical) (version_of db (toolID, version)).
Proof.
  intros [Hwf _] Hk Hz Hd Hj Ho. unfold validateToolVersionKey in Hk. unfold SaveDraft.
  destruct (ParseToolID toolID) as [t|] eqn:Ht; [|done].
  destruct (ParseSemanticVersion version) as [v|] eqn:Hv; [|done].
  rewrite Hz, Hd. unfold exec, save_statement, to_jsonb. rewrite Hj. cbn [mbind result_bind].
  rewrite (tool_id_matches _ _ Ht). cbn [negb].
  assert (Hc : version_check version (mkVersionRow "draft" stored (DigestBytes canonical) None) = true).
  { unfold version_check. cbn [vr_state vr_definition vr_digest vr_published_at].
    rewrite Ho, digest_length, (proj2 (String.eqb_neq _ _) (semver_nonempty _ _ Hv)). done. }
  rewrite Hc. cbn [negb]. unfold version_of.
  destruct (cat_versions db !! (toolID, version)) as [old|] eqn:Hold.
  2:{ cbn [one_row set_versions cat_versions]. by rewrite lookup_insert_eq. }
  destruct (Hwf _ _ _ Hold) as (_ & _ & _ & Hco).
  destruct (state_cases _ _ Hco) as [Hs|[Hs|Hs]]; unfold abstract at 2; rewrite Hs.
  - change (String.eqb "draft" "draft") with true. cbv iota.
    pose proof (check_replace version old stored (DigestBytes canonical) Hco Hs Ho (digest_length _)) as Hu.
    rewrite Hs in Hu. rewrite Hu. cbn [mbind result_bind one_row set_versions cat_versions].
    rewrite lookup_insert_eq. done.
  - cbn. rewrite Hold. unfold abstract. by rewrite Hs.
  - cbn. rewrite Hold. unfold abstract. by rewrite Hs.
Qed.

Lemma publish_refined toolID version at_ db : catalog_wf db ->
  validateToolVersionKey toolID version = Ok tt -> IsZero at_ = false ->
  let '(db', reply) := Publish toolID version at_ None db in
  (version_of db' (toolID, version), reply) = spec_publish at_ (version_of db (toolID, version)).
Proof.
  intros [Hwf _] Hk Hz. unfold Publish, exec, transition, version_of. rewrite Hk, Hz.
  destruct (cat_versions db !! (toolID, version)) as [old|] eqn:Hold; [|simpl; by rewrite Hold].
  destruct (Hwf _ _ _ Hold) as (_ & _ & _ & Hco).
  destruct (state_cases _ _ Hco) as [Hs|[Hs|Hs]]; unfold abstract at 2; rewrite Hs.
  - change (String.eqb "draft" "draft") with true. cbv iota. rewrite check_publish by done.
    cbn [mbind result_bind one_row set_versions cat_versions]. by rewrite lookup_insert_eq.
  - cbn. rewrite Hold. unfold abstract. by rewrite Hs.
  - cbn. rewrite Hold. unfold abstract. by rewrite Hs.
Qed.

Lemma retire_refined toolID version db : catalog_wf db -> validateToolVersionKey toolID version = Ok tt ->
  let '(db', reply) := Retire toolID version None db in
  (version_of db' (toolID, version), reply) = spec_retire (version_of db (toolID, version)).
Proof.
  intros [Hwf _] Hk. unfold Retire, exec, transition, version_of. rewrite Hk.
  destruct (cat_versions db !! (toolID, version)) as [old|] eqn:Hold; [|simpl; by rewrite Hold].
  destruct (Hwf _ _ _ Hold) as (_ & _ & _ & Hco).
  destruct (state_cases _ _ Hco) as [Hs|[Hs|Hs]]; unfold abstract at 2; rewrite Hs.
  - cbn. rewrite Hold. unfold abstract. by rewrite Hs.
  - change (String.eqb "published" "published") with true. cbv iota. rewrite check_retire by done.
    cbn [mbind result_bind one_row set_versions cat_versions]. by rewrite lookup_insert_eq.
  - cbn. rewrite Hold. unfold abstract. by rewrite Hs.
Qed.
End Store.

(** ** Lemmas: exposure *)

Lemma exposed_spec tenant db toolID version row : exposed tenant db toolID version = Some row <->
  (exists e, cat_exposures db !! (tenant, toolID, version) = Some e /\ er_enabled e = true) /\
  cat_versions db !! (toolID, version) = Some row /\ vr_state row = "published"%string.
Proof.
  unfold exposed. destruct (cat_exposures db !! _) as [e|].
  2:{ split; [done|]. by intros [(e & ? & _) _]. }
  destruct (cat_versions db !! _) as [r|].
  2:{ split; [done|]. by intros (_ & ? & _). }
  destruct (er_enabled e) eqn:E, (String.eqb_spec (vr_state r) "published") as [Hs|Hs]; cbn [andb]; split.
  all: try done.
  - intros [= <-]. eauto.
  - by intros (_ & [= <-] & _).
  - by intros (_ & [= <-] & ?).
  - intros [(e' & [= <-] & ?) _]. congruence.
  - intros [(e' & [= <-] & ?) _]. congruence.
Qed.

Lemma exposed_tool_spec tenant db key tool : exposed_tool tenant db key = Some tool <->
  key = (tenant, ct_ToolID tool, ct_Version tool) /\
  exists row, exposed tenant db (ct_ToolID tool) (ct_Version tool) = Some row /\
    ct_Definition tool = vr_definition row /\ ct_DefinitionDigest tool = vr_digest row.
Proof.
  destruct key as [[owner t] v]. unfold exposed_tool.
  destruct (String.eqb_spec owner tenant) as [->|Hne]; [|naive_solver].
  rewrite fmap_Some. split.
  - intros (row & He & ->). cbn. eauto.
  - intros [[= -> ->] (row & He & Hd & Hg)]. exists row. split; [done|]. destruct tool. cbn in *. by subst.
Qed.

Lemma exposed_list_elem tenant db tool :
  tool ∈ omap (exposed_tool tenant db) (map fst (map_to_list (cat_exposures db))) <->
  exists row, exposed tenant db (ct_ToolID tool) (ct_Version tool) = Some row /\
    ct_Definition tool = vr_definition row /\ ct_DefinitionDigest tool = vr_digest row.
Proof.
  rewrite list_elem_of_omap. split.
  - intros (key & _ & [_ H]%exposed_tool_spec). done.
  - intros (row & He & Hd & Hg). exists (tenant, ct_ToolID tool, ct_Version tool). split.
    + apply exposed_spec in He as [(e & Hl & _) _].
      apply list_elem_of_In, in_map_iff. exists (tenant, ct_ToolID tool, ct_Version tool, e).
      split; [done|]. apply list_elem_of_In. by apply elem_of_map_to_list.
    + apply exposed_tool_spec. eauto.
Qed.

Lemma omap_keys_NoDup tenant db keys : NoDup keys ->
  NoDup (map tool_pair (omap (exposed_tool tenant db) keys)).
Proof.
  induction 1 as [|key keys Hn Hnd IH]; [constructor|]. cbn [omap list_omap].
  destruct (exposed_tool tenant db key) as [tool|] eqn:E; [|done]. cbn [map]. constructor; [|done].
  rewrite list_elem_of_In, in_map_iff. intros (u & Hu & Hin%list_elem_of_In).
  apply list_elem_of_omap in Hin as (key' & Hk' & E'). apply exposed_tool_spec in E as [-> _], E' as [-> _].
  apply Hn. unfold tool_pair in Hu. injection Hu as <- <-. done.
Qed.

Lemma validate_keys_intro seen keys : NoDup keys -> (forall k, k ∈ keys -> k ∉ seen) ->
  Forall (fun k => is_ok (ParseToolID (key_ToolID k)) = true /\
                   is_ok (ParseSemanticVersion (key_Version k)) = true) keys ->
  validate_keys_from seen keys = Ok tt.
Proof.
  intros Hnd. revert seen. induction Hnd as [|k keys Hn Hnd IH]; intros seen Hs Hf; [done|].
  inversion Hf as [|? ? [H1 H2] Hf']; subst. cbn [validate_keys_from]. rewrite H1, H2. cbn [negb].
  rewrite bool_decide_false by (apply Hs; left). apply IH; [|done].
  intros j Hj [->%elem_of_singleton|Hin]%elem_of_union; [done|]. by apply (Hs j); [right|].
Qed.

Lemma validate_listable tools : listable tools -> validateToolVersionKeys (map tool_key tools) = Ok tt.
Proof.
  intros [Hnd Hf]. apply validate_keys_intro.
  - clear Hf. induction tools as [|t tools IH]; [constructor|]. cbn [map] in *.
    apply list.NoDup_cons in Hnd as [Hn Hnd]. constructor; [|auto].
    rewrite list_elem_of_In, in_map_iff. intros (u & Hu & Hin). apply Hn.
    apply list_elem_of_In, in_map_iff. exists u. split; [|done]. unfold tool_key in Hu. unfold tool_pair. by injection Hu as -> ->.
  - intros k _ H. by apply elem_of_empty in H.
  - clear Hnd. induction Hf; cbn [map]; constructor; done.
Qed.

(** ** Properties *)

(** C16: a released tool version never changes.  Whatever sequence of saves,
    publications, retirements and exposures follows, by any caller and with any
    failing statements, a version that is published or retired keeps its definition,
    its digest and its publication time; its state stays, or goes once from published
    to retired. *)
Theorem released_immutable (jcs : jvalue -> result string) (jsonb : string -> option string)
    (ops : list operation) (db : catalog) (key : string * string) (old : version_row)
    (Hold : cat_versions db !! key = Some old) (Hr : released old = true) :
  exists row, cat_versions (run_ops jcs jsonb ops db) !! key = Some row /\
    vr_definition row = vr_definition old /\ vr_digest row = vr_digest old /\
    vr_published_at row = vr_published_at old /\
    (vr_state row = vr_state old \/ (vr_state old = "published" /\ vr_state row = "retired")%string).
Proof. exact (run_ops_release jcs jsonb ops db key old Hold Hr). Qed.

(** The repository implements the lifecycle of tool versions.  In every catalog
    reached by its operations, and for well-formed keys and times, [SaveDraft]
    succeeds exactly on an absent or draft version and stores the canonical
    definition as the database renders it with the SHA-256 of the canonical text;
    [Publish] succeeds exactly on a draft and [Retire] exactly on a published
    version; everything else is answered with a conflict and leaves the version as
    it was.  No constraint or trigger of the table ever refuses one of them. *)
Theorem lifecycle_refined (jcs : jvalue -> result string) (jsonb : string -> option string)
    (ops : list operation) (toolID version definition canonical stored : string) (at_ : Z)
    (Hkey : validateToolVersionKey toolID version = Ok tt) (Hat : at_ <> 0)
    (Hdef : draft_definition jcs definition = Ok canonical) (Hj : jsonb canonical = Some stored)
    (Hobj : unmarshals_raw_object stored = true) :
  let db := run_ops jcs jsonb ops empty_catalog in
  let k := (toolID, version) in
  (let '(db', reply) := SaveDraft jcs jsonb toolID version definition at_ None db in
   (version_of db' k, reply) = spec_save stored (DigestBytes canonical) (version_of db k)) /\
  (let '(db', reply) := Publish toolID version at_ None db in
   (version_of db' k, reply) = spec_publish at_ (version_of db k)) /\
  (let '(db', reply) := Retire toolID version None db in
   (version_of db' k, reply) = spec_retire (version_of db k)).
Proof.
  intros db k. assert (Hwf : catalog_wf db) by apply run_ops_wf, empty_wf.
  assert (Hz : IsZero at_ = false) by (by apply Z.eqb_neq). split_and!.
  - by apply save_refined.
  - by apply publish_refined.
  - by apply retire_refined.
Qed.

(** what a tenant discovers is its enabled, published versions, and discovery
    accepts them.  In every catalog reached by the operations the exposed list holds
    exactly the versions that are published and enabled for this tenant, with the
    stored definition and digest; the keys are distinct and well-formed, so that
    paging is complete on them and the discovery request built from them is valid
    whenever the caller's identity is. *)
Theorem exposed_catalog_discoverable (jcs : jvalue -> result string) (jsonb : string -> option string)
    (order_by : list CatalogToolVersion -> list CatalogToolVersion) (ops : list operation) (tenant : string)
    (request : DiscoveryAuthorizationRequest) (tools : list CatalogToolVersion)
    (Horder : forall l, order_by l ≡ₚ l)
    (Hlist : ListExposedForDiscovery order_by tenant (run_ops jcs jsonb ops empty_catalog) = Ok tools) :
  let db := run_ops jcs jsonb ops empty_catalog in
  (forall tool, tool ∈ tools <-> exists row,
     (exists e, cat_exposures db !! (tenant, ct_ToolID tool, ct_Version tool) = Some e /\ er_enabled e = true) /\
     cat_versions db !! (ct_ToolID tool, ct_Version tool) = Some row /\ vr_state row = "published"%string /\
     ct_Definition tool = vr_definition row /\ ct_DefinitionDigest tool = vr_digest row) /\
  listable tools /\
  (Discovery_Validate (with_candidates request []) = Ok tt ->
   Discovery_Validate (with_candidates request (map tool_key tools)) = Ok tt).
Proof.
  intros db. assert (Hwf : catalog_wf db) by apply run_ops_wf, empty_wf.
  unfold ListExposedForDiscovery in Hlist. injection Hlist as <-. fold db.
  set (l := omap _ _). assert (Hl : listable (order_by l)).
  { split.
    - rewrite Horder. apply omap_keys_NoDup, NoDup_fst_map_to_list.
    - rewrite Horder. apply List.Forall_forall. intros tool Hin%list_elem_of_In.
      apply exposed_list_elem in Hin as (row & He & _). apply exposed_spec in He as (_ & Hrow & _).
      by destruct (proj1 Hwf _ _ _ Hrow) as (? & ? & _). }
  split_and!; [|done|].
  - intros tool. rewrite Horder. unfold l. rewrite exposed_list_elem. split.
    + intros (row & He & ? & ?). exists row. apply exposed_spec in He as (? & ? & ?). done.
    + intros (row & ? & ? & ? & ? & ?). exists row. split; [|done]. by apply exposed_spec.
  - unfold Discovery_Validate. cbn. do 2 (case_match; [done|]). intros _. by apply validate_listable.
Qed.

(** A concrete history; definitions are stored as they are written. *)
Definition ex_jcs (v : jvalue) : result string := Ok (json_Marshal v).
Definition ex_ops : list operation :=
  [OpSaveDraft "a.tool" "1.0.0" (quoted "{'risk':'read'}") 1 None;
   OpSetExposure "t1" "a.tool" "1.0.0" true 2 None;
   OpPublish "a.tool" "1.0.0" 3 None;
   OpSetExposure "t1" "a.tool" "1.0.0" true 4 None;
   OpSetExposure "t2" "a.tool" "1.0.0" false 4 None].
Definition ex_store : catalog := run_ops ex_jcs Some ex_ops empty_catalog.
Definition ex_released : version_row :=
  mkVersionRow "published" (quoted "{'risk':'read'}") (DigestBytes (quoted "{'risk':'read'}")) (Some 3).

Lemma released_immutable_witness : exists row,
  cat_versions (run_ops ex_jcs Some
     [OpSaveDraft "a.tool" "1.0.0" "{}" 9 None; OpRetire "a.tool" "1.0.0" None] ex_store)
    !! ("a.tool", "1.0.0")%string = Some row /\
  vr_definition row = quoted "{'risk':'read'}" /\ vr_published_at row = Some 3.
Proof.
  destruct (released_immutable ex_jcs Some
     [OpSaveDraft "a.tool" "1.0.0" "{}" 9 None; OpRetire "a.tool" "1.0.0" None] ex_store
     ("a.tool", "1.0.0")%string ex_released) as (row & Hrow & Hd & _ & Hp & _).
  - vm_compute. reflexivity.
  - vm_compute. reflexivity.
  - exists row. split; [exact Hrow|]. split; [exact Hd|exact Hp].
Defined.

Lemma lifecycle_refined_witness :
  let db := run_ops ex_jcs Some ex_ops empty_catalog in
  (let '(db', reply) := Publish "b.tool" "1.0.0" 5 None db in
   (version_of db' ("b.tool", "1.0.0")%string, reply) = (Absent, conflict "tool version is not a current draft")) /\
  (let '(db', reply) := SaveDraft ex_jcs Some "b.tool" "1.0.0" "{}" 5 None db in
   (version_of db' ("b.tool", "1.0.0")%string, reply) = (Draft "{}" (DigestBytes "{}"), Ok tt)).
Proof.
  destruct (lifecycle_refined ex_jcs Some ex_ops "b.tool" "1.0.0" "{}" "{}" "{}" 5) as (Hs & Hp & _);
    try (vm_compute; reflexivity).
  { discriminate. }
  split; [exact Hp|exact Hs].
Defined.

Definition ex_exposed : CatalogToolVersion :=
  mkCatalogTool "a.tool" "1.0.0" (quoted "{'risk':'read'}") (DigestBytes (quoted "{'risk':'read'}")).

Lemma exposed_catalog_discoverable_witness :
  listable [ex_exposed] /\
  (Discovery_Validate (with_candidates ex_identity []) = Ok tt ->
   Discovery_Validate (with_candidates ex_identity (map tool_key [ex_exposed])) = Ok tt).
Proof.
  destruct (exposed_catalog_discoverable ex_jcs Some (fun l => l) ex_ops "t1" ex_identity [ex_exposed])
    as (_ & Hl & Hd); [done|vm_compute; reflexivity|]. split; [exact Hl|exact Hd].
Defined.
