(* ===== verification/Netip.v ===== *)
(** * More of Go's standard library: addresses and authorities

    [net/netip] as the outbound client uses it (parsing, the classification of
    special-purpose addresses), [net.SplitHostPort], the host and port of a
    [url.URL] and [http.CanonicalHeaderKey]. *)
From Stdlib Require Import Ascii String.
From S2P Require Import Prelude GoStd Regex Json JsonParse Primitives ToolCatalog GoText.

(** ** Text *)

(** The text around the last separator. *)
Fixpoint cut_last (sep : ascii) (s : string) : option (string * string) :=
  match s with
  | EmptyString => None
  | String c s =>
      match cut_last sep s with
      | Some (a, b) => Some (String c a, b)
      | None => if Ascii.eqb c sep then Some (EmptyString, s) else None
      end
  end.

(** [host[1:len(host)-1]] for a host in brackets. *)
Definition strip_brackets (host : string) : string :=
  match cut_prefix "[" host with
  | Some rest =>
      match cut_prefix "]" (str_rev rest) with Some inner => str_rev inner | None => host end
  | None => host
  end.

(** The [splitHostPort] of [net/url]: the port is what follows the last colon, if
    that is empty or digits. *)
Definition url_split (hostPort : string) : string * string :=
  let '(host, port) :=
    match cut_last ":" hostPort with
    | Some (host, port) => if str_forallb is_digit port then (host, port) else (hostPort, EmptyString)
    | None => (hostPort, EmptyString)
    end in
  (strip_brackets host, port).

(** [net.SplitHostPort] *)
Definition SplitHostPort (hostport : string) : option (string * string) :=
  match cut_last ":" hostport with
  | None => None
  | Some (before, port) =>
      match cut_prefix "[" hostport with
      | Some _ =>
          (* the first closing bracket ends the host, just before the last colon *)
          let '(host, rest, closed) := cut_on "]" hostport in
          if negb closed || negb (String.eqb before (host +:+ "]")) then None
          else if contains_byte "[" (TrimPrefix hostport "[") then None
          else if contains_byte "]" rest then None
          else Some (TrimPrefix host "[", port)
      | None =>
          if contains_byte ":" before then None
          else if contains_byte "[" hostport || contains_byte "]" hostport then None
          else Some (before, port)
      end
  end.

(** [http.CanonicalHeaderKey]: a name with bytes outside RFC 7230 tokens is left as
    it is. *)
Definition header_byte (c : ascii) : bool :=
  is_digit c || is_lower c || is_upper c || contains_byte c "!#$%&'*+-.^_`|~".

Fixpoint canonical_from (upper : bool) (s : string) : string :=
  match s with
  | EmptyString => EmptyString
  | String c s =>
      String (if upper then upper_byte c else lower_byte c) (canonical_from (Ascii.eqb c "-") s)
  end.
Definition CanonicalHeaderKey (name : string) : string :=
  if str_forallb header_byte name then canonical_from true name else name.

(** ** Addresses *)

(** [netip.Addr]; a v6 address is its sixteen bytes and its zone. *)
Inductive Addr :=
| Addr4 (bytes : list Z)
| Addr6 (bytes : list Z) (zone : string).

#[global] Instance Addr_eq_dec : EqDecision Addr.
Proof. solve_decision. Defined.

(** One field of a dotted address: digits without a leading zero, at most 255. *)
Definition parse_octet (s : string) : option Z :=
  if all_digits s && negb (has_prefix s "0" && negb (String.eqb s "0")) && (dec_val s <=? 255)
  then Some (dec_val s) else None.

Definition parseIPv4Fields (s : string) : option (list Z) :=
  match mapM parse_octet (split_on "." s) with
  | Some bytes => if Nat.eqb (length bytes) 4 then Some bytes else None
  | None => None
  end.

(** The leading hexadecimal digits: their value, their number and what follows. *)
Fixpoint hex_group (acc : Z) (digits : nat) (s : string) : Z * nat * string :=
  match s with
  | String c rest =>
      match hex_val c with
      | Some d => hex_group (acc * 16 + d) (S digits) rest
      | None => (acc, digits, s)
      end
  | EmptyString => (acc, digits, s)
  end.

(** The loop of [parseIPv6]: the bytes so far, where the ellipsis was seen, and the
    text left.  Every turn adds two bytes, so eight turns are enough. *)
Fixpoint parse6_loop (fuel : nat) (bytes : list Z) (ellipsis : option nat) (s : string)
    : option (list Z * option nat * string) :=
  match fuel with
  | O => Some (bytes, ellipsis, s)
  | S fuel =>
      let '(acc, digits, rest) := hex_group 0 0 s in
      if Nat.eqb digits 0 || Nat.ltb 4 digits then None else
      if has_prefix rest "." then
        if negb (is_some ellipsis) && negb (Nat.eqb (length bytes) 12) then None
        else if Nat.ltb 12 (length bytes) then None
        else match parseIPv4Fields s with
             | Some fields => Some (bytes ++ fields, ellipsis, EmptyString)
             | None => None
             end
      else
        let bytes := bytes ++ [acc / 256; acc mod 256] in
        match rest with
        | EmptyString => Some (bytes, ellipsis, EmptyString)
        | String c rest =>
            if negb (Ascii.eqb c ":") || String.eqb rest "" then None else
            match cut_prefix ":" rest with
            | Some after =>
                if is_some ellipsis then None
                else if String.eqb after "" then Some (bytes, Some (length bytes), EmptyString)
                else parse6_loop fuel bytes (Some (length bytes)) after
            | None => parse6_loop fuel bytes ellipsis rest
            end
        end
  end.

(** The ellipsis stands for at least one group of zeros. *)
Definition expand (bytes : list Z) (ellipsis : option nat) : option (list Z) :=
  if Nat.ltb (length bytes) 16 then
    match ellipsis with
    | Some at_ => Some (take at_ bytes ++ replicate (16 - length bytes) 0 ++ drop at_ bytes)
    | None => None
    end
  else if is_some ellipsis then None else Some bytes.

Definition parseIPv6 (input : string) : option Addr :=
  let '(s, zone, zoned) := cut_on "%" input in
  if zoned && String.eqb zone "" then None else
  let start := match cut_prefix "::" s with Some rest => (rest, Some O) | None => (s, None) end in
  if is_some start.2 && String.eqb start.1 "" then Some (Addr6 (replicate 16 0) zone) else
  match parse6_loop 8 [] start.2 start.1 with
  | Some (bytes, ellipsis, rest) =>
      if negb (String.eqb rest "") then None
      else (fun bytes => Addr6 bytes zone) <$> expand bytes ellipsis
  | None => None
  end.

(** [netip.ParseAddr]: the first of [.], [:] and [%] decides the family. *)
Fixpoint first_of (s : string) : option ascii :=
  match s with
  | EmptyString => None
  | String c s => if contains_byte c ".:%" then Some c else first_of s
  end.
Definition ParseAddr (s : string) : option Addr :=
  match first_of s with
  | Some c =>
      if Ascii.eqb c "." then Addr4 <$> parseIPv4Fields s
      else if Ascii.eqb c ":" then parseIPv6 s
      else None
  | None => None
  end.

(** [netip.AddrFromSlice] *)
Definition AddrFromSlice (slice : list Z) : option Addr :=
  if Nat.eqb (length slice) 4 then Some (Addr4 slice)
  else if Nat.eqb (length slice) 16 then Some (Addr6 slice "") else None.

(** The prefix of the v4 addresses mapped into v6. *)
Definition mapped_prefix : list Z := replicate 10 0 ++ [255; 255].

Definition Unmap (a : Addr) : Addr :=
  match a with
  | Addr6 bytes _ => if bool_decide (take 12 bytes = mapped_prefix) then Addr4 (drop 12 bytes) else a
  | Addr4 _ => a
  end.

Definition nth_byte (bytes : list Z) (n : nat) : Z := nth n bytes 0.
Definition word0 (bytes : list Z) : Z := nth_byte bytes 0 * 256 + nth_byte bytes 1.

Definition IsUnspecified (a : Addr) : bool :=
  bool_decide (a = Addr4 (replicate 4 0)) || bool_decide (a = Addr6 (replicate 16 0) "").
Definition IsLoopback (a : Addr) : bool :=
  match a with
  | Addr4 b => nth_byte b 0 =? 127
  | Addr6 b _ => bool_decide (b = replicate 15 0 ++ [1])
  end.
Definition IsPrivate (a : Addr) : bool :=
  match a with
  | Addr4 b => (nth_byte b 0 =? 10) || ((nth_byte b 0 =? 172) && (Z.land (nth_byte b 1) 240 =? 16))
               || ((nth_byte b 0 =? 192) && (nth_byte b 1 =? 168))
  | Addr6 b _ => Z.land (nth_byte b 0) 254 =? 252
  end.
Definition IsLinkLocalUnicast (a : Addr) : bool :=
  match a with
  | Addr4 b => (nth_byte b 0 =? 169) && (nth_byte b 1 =? 254)
  | Addr6 b _ => Z.land (word0 b) 65472 =? 65152
  end.
Definition IsLinkLocalMulticast (a : Addr) : bool :=
  match a with
  | Addr4 b => (nth_byte b 0 =? 224) && (nth_byte b 1 =? 0) && (nth_byte b 2 =? 0)
  | Addr6 b _ => Z.land (word0 b) 65295 =? 65282
  end.
Definition IsMulticast (a : Addr) : bool :=
  match a with
  | Addr4 b => Z.land (nth_byte b 0) 240 =? 224
  | Addr6 b _ => nth_byte b 0 =? 255
  end.

(** Four or sixteen bytes. *)
Definition addr_wf (a : Addr) : Prop :=
  match a with
  | Addr4 b => length b = 4%nat /\ Forall (fun z => 0 <= z < 256) b
  | Addr6 b _ => length b = 16%nat /\ Forall (fun z => 0 <= z < 256) b
  end.

(** ** Lemmas *)

Lemma parse_octet_range s z : parse_octet s = Some z -> 0 <= z < 256.
Proof.
  unfold parse_octet. case_match eqn:E; [|done]. intros [= <-]. to_prop. destruct E as [[Hd _] Hle].
  unfold all_digits in Hd. to_prop. destruct Hd as [_ Hd]. pose proof (dec_val_range s Hd). lia.
Qed.

Lemma fields_wf s bytes : parseIPv4Fields s = Some bytes ->
  length bytes = 4%nat /\ Forall (fun z => 0 <= z < 256) bytes.
Proof.
  unfold parseIPv4Fields. destruct (mapM _ _) as [l|] eqn:E; [|done].
  case_match eqn:Hl; [|done]. intros [= <-]. apply Nat.eqb_eq in Hl. split; [done|].
  apply mapM_Some_1 in E. clear Hl. induction E; constructor; [|done]. by eapply parse_octet_range.
Qed.

Lemma hex_group_range s acc digits z n rest : 0 <= acc < 16 ^ Z.of_nat digits ->
  hex_group acc digits s = (z, n, rest) -> 0 <= z < 16 ^ Z.of_nat n.
Proof.
  revert acc digits. induction s as [|c s IH]; cbn [hex_group]; intros acc digits Ha; [by intros [= <- <- <-]|].
  destruct (hex_val c) as [d|] eqn:Hd; [|by intros [= <- <- <-]].
  apply IH. apply hex_val_range in Hd. rewrite Nat2Z.inj_succ, Z.pow_succ_r by lia. lia.
Qed.

Lemma loop_wf fuel bytes ellipsis s bytes' ellipsis' rest :
  Forall (fun z => 0 <= z < 256) bytes -> (length bytes + 2 * fuel = 16)%nat ->
  parse6_loop fuel bytes ellipsis s = Some (bytes', ellipsis', rest) ->
  Forall (fun z => 0 <= z < 256) bytes' /\ (length bytes' <= 16)%nat.
Proof.
  revert bytes ellipsis s. induction fuel as [|fuel IH]; cbn [parse6_loop]; intros bytes ellipsis s Hf Hl.
  { intros [= <- <- <-]. split; [done|lia]. }
  destruct (hex_group 0 0 s) as [[acc digits] after] eqn:Hg.
  apply hex_group_range in Hg; [|simpl; lia]. destruct (_ || Nat.ltb 4 digits) eqn:Hd; [done|].
  destruct (has_prefix after "."). { 
    destruct (_ && _); [done|]. destruct (Nat.ltb_spec 12 (length bytes)); [done|].
    destruct (parseIPv4Fields s) as [fields|] eqn:Hp; [|done]. intros [= <- <- <-].
    apply fields_wf in Hp as [Hn Hr]. rewrite length_app, Hn. split; [by apply Forall_app|lia]. }
  assert (Hacc : 0 <= acc < 65536).
  { to_prop. destruct Hd as [_ Hd%Nat.ltb_ge]. split; [lia|].
    apply Z.lt_le_trans with (16 ^ Z.of_nat digits); [lia|]. change 65536 with (16 ^ 4). apply Z.pow_le_mono_r; lia. }
  assert (Hf' : Forall (fun z => 0 <= z < 256) (bytes ++ [acc / 256; acc mod 256])).
  { apply Forall_app. split; [done|]. repeat constructor;
      [apply Z.div_pos; lia|apply Z.div_lt_upper_bound; lia|apply Z.mod_pos_bound; lia..]. }
  assert (Hl' : (length (bytes ++ [acc / 256; acc mod 256]%Z) + 2 * fuel = 16)%nat) by (rewrite length_app; simpl; lia).
  destruct after as [|c after]; [intros [= <- <- <-]; split; [done|lia]|].
  destruct (_ || String.eqb after ""); [done|]. destruct (cut_prefix ":" after) as [more|].
  - destruct (is_some ellipsis); [done|]. destruct (String.eqb more "").
    + intros [= <- <- <-]. split; [done|lia].
    + by apply IH.
  - by apply IH.
Qed.

Lemma ParseAddr_wf s a : ParseAddr s = Some a -> addr_wf a.
Proof.
  unfold ParseAddr. case_match; [|done]. case_match.
  { rewrite fmap_Some. intros (b & Hb & ->). by apply fields_wf in Hb. }
  case_match; [|done]. unfold parseIPv6. destruct (cut_on "%" s) as [[t zone] zoned].
  case_match; [done|]. case_match.
  { intros [= <-]. split; [done|]. repeat constructor; lia. }
  destruct (parse6_loop _ _ _ _) as [[[bytes ellipsis] rest]|] eqn:E; [|done].
  apply loop_wf in E as [Hf Hl]; [|by constructor..].
  destruct (String.eqb rest ""); [|done]. cbn [negb].
  rewrite fmap_Some. intros (b & Hb & ->). unfold expand in Hb.
  destruct (Nat.ltb_spec (length bytes) 16) as [Hlt|Hge].
  - destruct ellipsis as [at_|]; [|done]. injection Hb as <-. split.
    + rewrite !length_app, length_replicate, length_take, length_drop. lia.
    + rewrite <- (take_drop at_ bytes) in Hf. apply Forall_app in Hf as [? ?].
      rewrite !Forall_app. split_and!; [done|apply Forall_replicate; lia|done].
  - case_match; [done|]. injection Hb as <-. split; [lia|done].
Qed.
