(* ===== verification/DownstreamHttp.v ===== *)
(** * The outbound HTTP client

    [internal/connectors/downstreamhttp/client.go]: the boundary every networked
    connector goes through.  Destinations, headers, redirects, resolved addresses
    and response bodies are checked against a compiled policy.

    The resolver, the dialer and the transport (with what [net/http] makes of a
    redirect response) are arguments; the requests handed to the transport and the
    addresses handed to the dialer are recorded, so that theorems can speak of
    them. *)
From Stdlib Require Import Ascii String.
From S2P Require Import Prelude GoStd Regex Json JsonParse Primitives ToolCatalog GoText Http Netip.

Definition maximumRedirects : Z := 5.
Definition maximumResponseBody : Z := 16 * 1048576.
Definition maximumIdleConnections : Z := 100.

Definition ErrDestinationDenied : goerror := ErrNew "downstream HTTP destination denied".
Definition ErrUnsafeHeader : goerror := ErrNew "downstream HTTP header denied".
Definition ErrRequestFailed : goerror := ErrNew "downstream HTTP request failed".
Definition ErrResponseBodyTooLarge : goerror := ErrNew "downstream HTTP response body exceeds limit".
Definition ErrCanceled : goerror := ErrNew "context canceled".
Definition ErrDeadlineExceeded : goerror := ErrNew "context deadline exceeded".

#[global] Instance goerror_eq_dec : EqDecision goerror.
Proof.
  refine (fix go (x y : goerror) : Decision (x = y) :=
    match x, y with
    | ErrNew a, ErrNew b => cast_if (decide (a = b))
    | ErrDomain a b c, ErrDomain a' b' c' =>
        cast_if_and3 (decide (a = a')) (decide (b = b'))
          (match c as c0, c' as c1 return Decision (c0 = c1) with
           | Some e, Some e' => cast_if (go e e')
           | None, None => left _
           | _, _ => right _
           end)
    | ErrWrap a e, ErrWrap a' e' => cast_if_and (decide (a = a')) (go e e')
    | _, _ => right _
    end); abstract congruence.
Defined.

(** [errors.Is] *)
Fixpoint errors_Is (err target : goerror) : bool :=
  bool_decide (err = target) ||
  match err with
  | ErrNew _ | ErrDomain _ _ None => false
  | ErrDomain _ _ (Some inner) | ErrWrap _ inner => errors_Is inner target
  end.

(** ** Policies *)

Record Policy := mkPolicy {
  AllowedSchemes : list string; AllowedHosts : list string; AllowedPorts : list Z;
  AllowedRequestHeaders : list string; AllowPrivateAddresses : bool; MaxRedirects : Z;
  RequestTimeout : Z; ConnectTimeout : Z; ResponseHeaderTimeout : Z;
  MaxResponseBodyBytes : Z; MaxConnectionsPerHost : Z;
}.

Record compiledPolicy := mkCompiled {
  schemes : gset string; hosts : gset string; headers : gset string; ports : gset Z;
  allowPrivate : bool; maxRedirects : Z; maxBody : Z;
}.

Definition normalizeHost (host : string) : string := TrimSuffix (ToLower (TrimSpace host)) ".".

Definition forbiddenHeader (name : string) : bool :=
  one_of_str (ToLower name)
    ["connection"; "proxy-connection"; "keep-alive"; "transfer-encoding"; "te"; "trailer"; "upgrade"; "host";
     "proxy-authorization"; "forwarded"; "x-forwarded-for"; "x-forwarded-host"; "x-forwarded-proto"]%string.

(** One loop of [compilePolicy]: every value is normalized and accepted, or the
    policy is refused. *)
Fixpoint compile_set `{Countable K} (normalize : K -> K) (refused : K -> bool) (message : string) (l : list K)
    : result (gset K) :=
  match l with
  | [] => Ok ∅
  | value :: l =>
      let value := normalize value in
      if refused value then Err (ErrNew message)
      else compile_set normalize refused message l ≫= fun rest => Ok ({[value]} ∪ rest)
  end.

Definition compilePolicy (policy : Policy) : result compiledPolicy :=
  if (RequestTimeout policy <=? 0) || (ConnectTimeout policy <=? 0) || (ResponseHeaderTimeout policy <=? 0)
     || (MaxResponseBodyBytes policy <=? 0) || (maximumResponseBody <? MaxResponseBodyBytes policy)
     || (MaxConnectionsPerHost policy <=? 0) then Err (ErrNew "downstream HTTP limits are invalid")
  else if (MaxRedirects policy <? 0) || (maximumRedirects <? MaxRedirects policy) then
    Err (ErrNew "downstream HTTP redirect limit is invalid")
  else
    compile_set (fun scheme => ToLower (TrimSpace scheme)) (fun scheme => negb (String.eqb scheme "https"))
      "only HTTPS downstream destinations are supported" (AllowedSchemes policy) ≫= fun schemes =>
    compile_set normalizeHost (fun host => String.eqb host "" || contains_any host "/?#@:%*[]")
      "downstream HTTP host allowlist is invalid" (AllowedHosts policy) ≫= fun hosts =>
    compile_set (fun port => port) (fun port => port =? 0)
      "downstream HTTP port allowlist is invalid" (AllowedPorts policy) ≫= fun ports =>
    compile_set (fun header => CanonicalHeaderKey (TrimSpace header))
      (fun header => String.eqb header "" || forbiddenHeader header)
      "downstream HTTP header allowlist is invalid" (AllowedRequestHeaders policy) ≫= fun headers =>
    if Nat.eqb (size schemes) 0 || Nat.eqb (size hosts) 0 || Nat.eqb (size ports) 0 then
      Err (ErrNew "downstream HTTP destination allowlist is required")
    else Ok (mkCompiled schemes hosts headers ports (AllowPrivateAddresses policy) (MaxRedirects policy)
               (MaxResponseBodyBytes policy)).

(** ** Requests *)

(** The parts of a [url.URL] that are looked at; [url_path] is carried along. *)
Record URL := mkURL {
  url_Scheme : string; url_User : bool; url_Host : string; url_Path : string;
  url_RawQuery : string; url_Fragment : string;
}.
Definition url_Hostname (u : URL) : string := fst (url_split (url_Host u)).
Definition url_Port (u : URL) : string := snd (url_split (url_Host u)).

(** An [http.Request]; header names are as the caller stored them. *)
Record hrequest := mkHRequest {
  hr_Method : string; hr_URL : URL; hr_Header : gmap string (list string);
}.
Definition set_header (r : hrequest) (h : gmap string (list string)) : hrequest :=
  mkHRequest (hr_Method r) (hr_URL r) h.

Definition prohibitedAddress (address : Addr) : bool :=
  let address := Unmap address in
  IsUnspecified address || IsLoopback address || IsPrivate address || IsLinkLocalUnicast address
  || IsLinkLocalMulticast address || IsMulticast address.

Definition effectivePort (target : URL) : result Z :=
  let value := url_Port target in
  if String.eqb value "" then
    if EqualFold (url_Scheme target) "https" then Ok 443 else Err ErrDestinationDenied
  else match ParseUintN 16 value with
       | Some port => if port =? 0 then Err ErrDestinationDenied else Ok port
       | None => Err ErrDestinationDenied
       end.

(** The port that is compared when there is an error: its zero value. *)
Definition port_or_zero (u : URL) : Z := match effectivePort u with Ok port => port | Err _ => 0 end.

Definition sameAuthority (left_ right_ : URL) : bool :=
  EqualFold (url_Scheme left_) (url_Scheme right_)
  && String.eqb (normalizeHost (url_Hostname left_)) (normalizeHost (url_Hostname right_))
  && (port_or_zero left_ =? port_or_zero right_).

Definition validateURL (policy : compiledPolicy) (target : URL) : result unit :=
  if url_User target || negb (String.eqb (url_RawQuery target) "") || negb (String.eqb (url_Fragment target) "")
     || String.eqb (url_Host target) "" then Err ErrDestinationDenied else
  let scheme := ToLower (url_Scheme target) in
  let host := normalizeHost (url_Hostname target) in
  if negb (bool_decide (scheme ∈ schemes policy)) then Err ErrDestinationDenied
  else if negb (bool_decide (host ∈ hosts policy)) then Err ErrDestinationDenied
  else match effectivePort target with
       | Err _ => Err ErrDestinationDenied
       | Ok port =>
           if negb (bool_decide (port ∈ ports policy)) then Err ErrDestinationDenied
           else match ParseAddr host with
                | Some address => if negb (allowPrivate policy) && prohibitedAddress address
                                  then Err ErrDestinationDenied else Ok tt
                | None => Ok tt
                end
       end.

(** One header of [validateHeaders]; every failure is the same error, so the order
    of the map does not matter. *)
Definition header_ok (policy : compiledPolicy) (kv : string * list string) : bool :=
  let canonical := CanonicalHeaderKey kv.1 in
  negb (forbiddenHeader canonical) && bool_decide (canonical ∈ headers policy)
  && forallb (fun value => negb (contains_any value (str_of [byte 13; byte 10]))) kv.2.

Definition validateHeaders (policy : compiledPolicy) (h : gmap string (list string)) : result unit :=
  if forallb (header_ok policy) (map_to_list h) then Ok tt else Err ErrUnsafeHeader.

(** [checkRedirect], with the headers of the redirected request it leaves. *)
Definition checkRedirect (policy : compiledPolicy) (request : hrequest) (via : list hrequest) : result hrequest :=
  if maxRedirects policy <? Z.of_nat (length via) then Err ErrDestinationDenied else
  validateURL policy (hr_URL request) ≫= fun _ =>
  let h := delete "Referer"%string (hr_Header request) in
  let h := match via with
           | first :: _ =>
               if sameAuthority (hr_URL first) (hr_URL request) then h
               else delete "Proxy-Authorization"%string (delete "Cookie"%string (delete "Authorization"%string h))
           | [] => h
           end in
  validateHeaders policy h ≫= fun _ => Ok (set_header request h).

(** ** Dialing *)

Section Dial.
Context (policy : compiledPolicy).
(** [LookupIPAddr]: the slices of the addresses of a name. *)
Context (lookup : string -> result (list (list Z))).
(** [DialContext] on an address and port. *)
Context (dial : Addr -> string -> result unit).

(** The validated addresses, unmapped; one refused address refuses the name. *)
Fixpoint validate_addresses (candidates : list (list Z)) : option (list Addr) :=
  match candidates with
  | [] => Some []
  | candidate :: candidates =>
      match AddrFromSlice candidate with
      | None => None
      | Some parsed =>
          if negb (allowPrivate policy) && prohibitedAddress parsed then None
          else cons (Unmap parsed) <$> validate_addresses candidates
      end
  end.

(** Dial in order until one answers: the addresses dialled and the outcome. *)
Fixpoint dial_first (port : string) (last : goerror) (addresses : list Addr)
    : list (Addr * string) * result unit :=
  match addresses with
  | [] => ([], Err (ErrWrap "connect downstream host" last))
  | candidate :: addresses =>
      match dial candidate port with
      | Ok _ => ([(candidate, port)], Ok tt)
      | Err err => let '(dialled, r) := dial_first port err addresses in ((candidate, port) :: dialled, r)
      end
  end.

(** [secureDialContext] *)
Definition secureDial (address : string) : list (Addr * string) * result unit :=
  match SplitHostPort address with
  | None => ([], Err ErrDestinationDenied)
  | Some (host, port) =>
      match ParseAddr host with
      | Some literal =>
          if negb (allowPrivate policy) && prohibitedAddress literal then ([], Err ErrDestinationDenied)
          else ([(literal, port)], dial literal port)
      | None =>
          match lookup host with
          | Err _ | Ok [] => ([], Err (ErrWrap "resolve downstream host" ErrDestinationDenied))
          | Ok addresses =>
              match validate_addresses addresses with
              | None => ([], Err ErrDestinationDenied)
              | Some validated => dial_first port (ErrNew "") validated
              end
          end
      end
  end.
End Dial.

(** ** Construction *)

Definition VersionTLS12 : Z := 771.

(** What the client may be given; the observer and the clock only see events. *)
Record Options := mkOptions {
  opt_Resolver : option (string -> result (list (list Z)));
  opt_Dialer : option (Addr -> string -> result unit);
}.

(** The [http.Transport] the client is built on; [tr_Proxy] says whether one is asked
    for, [tr_DialContext] gives the addresses dialled and the outcome. *)
Record Transport := mkTransport {
  tr_Proxy : bool;
  tr_DialContext : string -> list (Addr * string) * result unit;
  tr_ForceAttemptHTTP2 : bool;
  tr_MinVersion : Z;
  tr_TLSHandshakeTimeout : Z; tr_ResponseHeaderTimeout : Z; tr_ExpectContinueTimeout : Z;
  tr_MaxIdleConns : Z; tr_MaxIdleConnsPerHost : Z; tr_MaxConnsPerHost : Z; tr_IdleConnTimeout : Z;
}.
Record Client := mkClient { cl_Transport : Transport; cl_Timeout : Z; cl_policy : compiledPolicy }.

(** [NewClient]: the default resolver and the default dialer, which gets the connect
    timeout and the keep-alive period, are arguments. *)
Definition NewClient (DefaultResolver : string -> result (list (list Z)))
    (net_Dialer : Z -> Z -> Addr -> string -> result unit) (policy : Policy) (options : Options) : result Client :=
  compilePolicy policy ≫= fun compiled =>
  let resolver := default DefaultResolver (opt_Resolver options) in
  let dialer := default (net_Dialer (ConnectTimeout policy) (30 * Second)) (opt_Dialer options) in
  let transport := mkTransport false (secureDial compiled resolver dialer) true VersionTLS12
    (ConnectTimeout policy) (ResponseHeaderTimeout policy) Second
    maximumIdleConnections (MaxConnectionsPerHost policy) (MaxConnectionsPerHost policy) (90 * Second) in
  Ok (mkClient transport (RequestTimeout policy) compiled).

(** ** Bodies *)

Definition EOF : goerror := ErrNew "EOF".

(** A reader: what it will deliver, in chunks, each with the error that comes with
    its last byte; then the end of file. *)
Definition source : Type := list (string * option goerror).

Definition source_Read (cap : nat) (src : source) : string * option goerror * source :=
  match src with
  | [] => (EmptyString, Some EOF, [])
  | (chunk, err) :: rest =>
      if Nat.leb (String.length chunk) cap then (chunk, err, rest)
      else (String.substring 0 cap chunk, None,
            (String.substring cap (String.length chunk - cap) chunk, err) :: rest)
  end.

(** [boundedBody]: [bb_limit] is what the limit reader below still lets through. *)
Record boundedBody := mkBody { bb_limit : Z; bb_remaining : Z; bb_source : source }.

(** [io.LimitedReader.Read] below [boundedBody.Read] *)
Definition bounded_Read (cap : nat) (body : boundedBody) : string * option goerror * boundedBody :=
  let '(data, err, src, limit) :=
    if bb_limit body <=? 0 then (EmptyString, Some EOF, bb_source body, bb_limit body)
    else let '(data, err, src) := source_Read (Nat.min cap (Z.to_nat (bb_limit body))) (bb_source body) in
         (data, err, src, bb_limit body - slen data) in
  let remaining := bb_remaining body - slen data in
  (data, if remaining <? 0 then Some ErrResponseBodyTooLarge else err, mkBody limit remaining src).

(** ** Requests *)

(** [net/http.Response], as far as it is looked at. *)
Record hresponse := mkHResponse {
  hs_StatusCode : Z; hs_Header : gmap string (list string); hs_ContentLength : Z; hs_Body : source;
}.

Record Event := mkEvent { ev_Operation : string; ev_Method : string; ev_Outcome : string; ev_StatusClass : string }.

Definition stable_byte (c : ascii) : bool :=
  is_lower c || is_digit c || Ascii.eqb c "." || Ascii.eqb c "_".
Definition stableName (value : string) : bool :=
  negb (String.eqb value "") && (slen value <=? 128) && str_forallb stable_byte value.

Definition stable_methods : list string := ["GET"; "POST"; "PUT"; "PATCH"; "DELETE"; "HEAD"]%string.
Definition stableMethod (value : string) : string :=
  let value := ToUpper value in if one_of_str value stable_methods then value else "OTHER"%string.

Definition statusClass (status : Z) : string :=
  if (status <? 100) || (599 <? status) then "unknown"%string else json_int (Z.quot status 100) +:+ "xx".

Section Client.
Context (policy : compiledPolicy).
(** The transport: its answer to the n-th request of a call. *)
Context (transport : nat -> hrequest -> result hresponse).
(** The request [net/http] makes of a redirect response, if it is one. *)
Context (redirect : list hrequest -> hrequest -> hresponse -> option hrequest).

(** [http.Client.Do]: the requests sent and the outcome ([None]: out of fuel). *)
Fixpoint http_Do (fuel : nat) (via : list hrequest) (request : hrequest)
    : list hrequest * option (result hresponse) :=
  match fuel with
  | O => ([], None)
  | S fuel =>
      match transport (length via) request with
      | Err err => ([request], Some (Err (ErrWrap "http" err)))
      | Ok response =>
          match redirect via request response with
          | None => ([request], Some (Ok response))
          | Some next =>
              match checkRedirect policy next (via ++ [request]) with
              | Err err => ([request], Some (Err (ErrWrap "http" err)))
              | Ok next =>
                  let '(sent, outcome) := http_Do fuel (via ++ [request]) next in
                  (request :: sent, outcome)
              end
          end
      end
  end.

(** The error [Do] reports for what went wrong below it. *)
Definition public_error (err : goerror) : goerror :=
  if errors_Is err ErrResponseBodyTooLarge then ErrResponseBodyTooLarge
  else if errors_Is err ErrDestinationDenied then ErrDestinationDenied
  else if errors_Is err ErrUnsafeHeader then ErrUnsafeHeader
  else if errors_Is err ErrCanceled then ErrCanceled
  else if errors_Is err ErrDeadlineExceeded then ErrDeadlineExceeded
  else ErrRequestFailed.

(** A response with its bounded body. *)
Definition bounded (response : hresponse) : hresponse * boundedBody :=
  (response, mkBody (maxBody policy + 1) (maxBody policy) (hs_Body response)).

(** Redirects are followed [maxRedirects] times, so the fuel is enough. *)
Definition do_fuel : nat := S (S (Z.to_nat (maxRedirects policy))).

(** [Do]: the requests sent, the event observed and the outcome. *)
Definition Do (operation : string) (request : hrequest)
    : list hrequest * option Event * option (result (hresponse * boundedBody)) :=
  if negb (stableName operation) then
    ([], None, Some (Err (ErrNew "downstream HTTP operation is invalid"))) else
  match validateURL policy (hr_URL request) with
  | Err err => ([], None, Some (Err err))
  | Ok _ =>
  match validateHeaders policy (hr_Header request) with
  | Err err => ([], None, Some (Err err))
  | Ok _ =>
      let '(sent, outcome) := http_Do do_fuel [] request in
      let event := mkEvent operation (stableMethod (hr_Method request)) in
      match outcome with
      | None => (sent, None, None)
      | Some (Err err) => (sent, Some (event "transport_error" ""), Some (Err (public_error err)))
      | Some (Ok response) =>
          let class := statusClass (hs_StatusCode response) in
          if maxBody policy <? hs_ContentLength response then
            (sent, Some (event "response_too_large" class), Some (Err (public_error ErrResponseBodyTooLarge)))
          else (sent, Some (event "response" class), Some (Ok (bounded response)))
      end
  end
  end.
End Client.

(** ** Specification *)

(** The special-purpose networks: a prefix and its length in bits.  The unspecified
    v6 address counts without a zone only. *)
Definition prohibited4 : list (list Z * Z) :=
  [([0; 0; 0; 0], 32); ([10; 0; 0; 0], 8); ([127; 0; 0; 0], 8); ([169; 254; 0; 0], 16); ([172; 16; 0; 0], 12);
   ([192; 168; 0; 0], 16); ([224; 0; 0; 0], 4)].
Definition prohibited6 (zone : string) : list (list Z * Z) :=
  (if String.eqb zone "" then [(replicate 16 0, 128)] else [])
  ++ [(replicate 15 0 ++ [1], 128); (252 :: replicate 15 0, 7); (254 :: 128 :: replicate 14 0, 10);
      (255 :: replicate 15 0, 8)].

(** The number an address is in base 256, and the addresses that share a prefix. *)
Definition number (bytes : list Z) : Z := foldl (fun acc b => acc * 256 + b) 0 bytes.
Definition in_network (width : Z) (bytes : list Z) (net : list Z * Z) : bool :=
  number bytes / 2 ^ (width - net.2) =? number net.1 / 2 ^ (width - net.2).

Definition special_address (a : Addr) : bool :=
  match Unmap a with
  | Addr4 bytes => existsb (in_network 32 bytes) prohibited4
  | Addr6 bytes zone => existsb (in_network 128 bytes) (prohibited6 zone)
  end.

(** What a request handed to the transport must satisfy. *)
Definition destination_ok (policy : compiledPolicy) (u : URL) : Prop :=
  ToLower (url_Scheme u) ∈ schemes policy /\ normalizeHost (url_Hostname u) ∈ hosts policy /\
  (exists port, effectivePort u = Ok port /\ port ∈ ports policy /\ port <> 0) /\
  url_User u = false /\ url_RawQuery u = EmptyString /\ url_Fragment u = EmptyString /\
  (allowPrivate policy = false -> forall a, ParseAddr (normalizeHost (url_Hostname u)) = Some a ->
     prohibitedAddress a = false).
Definition headers_ok (policy : compiledPolicy) (h : gmap string (list string)) : Prop :=
  forall name values, h !! name = Some values ->
    CanonicalHeaderKey name ∈ headers policy /\ forbiddenHeader (CanonicalHeaderKey name) = false /\
    Forall (fun v => contains_any v (str_of [byte 13; byte 10]) = false) values.
Definition credentials_deleted (h : gmap string (list string)) : Prop :=
  h !! "Authorization"%string = None /\ h !! "Cookie"%string = None /\ h !! "Proxy-Authorization"%string = None.

(** The same in terms of the policy as it is written. *)

(** The host and the port a URL names; the port of HTTPS is the default. *)
Definition goes_to (u : URL) (host : string) (port : Z) : Prop :=
  normalizeHost (url_Hostname u) = host /\
  (url_Port u = EmptyString /\ port = 443 \/ ParseUintN 16 (url_Port u) = Some port).

Definition connection_headers : list string :=
  ["connection"; "proxy-connection"; "keep-alive"; "transfer-encoding"; "te"; "trailer"; "upgrade"; "host";
   "proxy-authorization"; "forwarded"; "x-forwarded-for"; "x-forwarded-host"; "x-forwarded-proto"]%string.

Definition allowed_request (policy : Policy) (r : hrequest) : Prop :=
  let u := hr_URL r in
  ToLower (url_Scheme u) = "https"%string /\
  (exists host port, host ∈ AllowedHosts policy /\ port ∈ AllowedPorts policy /\ port <> 0 /\
     goes_to u (normalizeHost host) port) /\
  url_User u = false /\ url_RawQuery u = EmptyString /\ url_Fragment u = EmptyString /\
  (AllowPrivateAddresses policy = false -> forall a, ParseAddr (normalizeHost (url_Hostname u)) = Some a ->
     special_address a = false) /\
  (forall name values, hr_Header r !! name = Some values ->
     (exists h, h ∈ AllowedRequestHeaders policy /\ CanonicalHeaderKey (TrimSpace h) = CanonicalHeaderKey name) /\
     ToLower (CanonicalHeaderKey name) ∉ connection_headers /\
     Forall (fun v => contains_any v (str_of [byte 13; byte 10]) = false) values).

(** No header of these names, in whatever spelling. *)
Definition carries_none (names : list string) (h : gmap string (list string)) : Prop :=
  forall name, CanonicalHeaderKey name ∈ names -> h !! name = None.
Definition credential_headers : list string := ["Authorization"; "Cookie"; "Proxy-Authorization"]%string.

(** Header names are stored the way the methods of [http.Header] store them. *)
Definition canonical_names (h : gmap string (list string)) : Prop :=
  forall name values, h !! name = Some values -> CanonicalHeaderKey name = name.

(** What [net/http] makes of a redirect: the names of its headers are those of the earlier
    requests and names it adds itself, which are canonical. *)
Definition redirect_canonical (redirect : list hrequest -> hrequest -> hresponse -> option hrequest) : Prop :=
  forall via request response next, redirect via request response = Some next ->
    Forall (fun r => canonical_names (hr_Header r)) (via ++ [request]) -> canonical_names (hr_Header next).

(** What holds of a redirected request in a call that began with [first]. *)
Definition redirect_private (first request : hrequest) : Prop :=
  request = first \/
  (carries_none ["Referer"%string] (hr_Header request) /\
   forall host port host' port', goes_to (hr_URL first) host port -> goes_to (hr_URL request) host' port' ->
     (host, port) <> (host', port') -> carries_none credential_headers (hr_Header request)).

(** ** Lemmas *)

Lemma effectivePort_nonzero u port : effectivePort u = Ok port -> port <> 0.
Proof.
  unfold effectivePort. case_match; [case_match; by intros [= <-]|].
  case_match; [|done]. case_match eqn:E; [done|]. intros [= <-]. by apply Z.eqb_neq.
Qed.

Lemma validateURL_ok policy u : validateURL policy u = Ok tt -> destination_ok policy u.
Proof.
  unfold validateURL, destination_ok. case_match eqn:E0; [done|]. case_match eqn:E1; [done|].
  case_match eqn:E2; [done|]. destruct (effectivePort u) as [port|] eqn:Hp; [|done].
  case_match eqn:E3; [done|]. intros H. to_prop. destruct E0 as [[[? ?] ?] _]. split_and!; try done.
  - exists port. split_and!; [done..|]. by eapply effectivePort_nonzero.
  - intros Hpriv a Ha. rewrite Ha, Hpriv in H. cbn [negb andb] in H. by destruct (prohibitedAddress a).
Qed.

Lemma validateHeaders_ok policy h : validateHeaders policy h = Ok tt -> headers_ok policy h.
Proof.
  unfold validateHeaders, headers_ok. case_match eqn:E; [|done]. intros _ name values Hl.
  rewrite forallb_forall in E. apply elem_of_map_to_list, list_elem_of_In, E in Hl.
  unfold header_ok in Hl. cbn [fst snd] in Hl. to_prop. destruct Hl as [[? ?] Hv].
  split_and!; [done..|]. apply List.Forall_forall. intros v Hin. rewrite forallb_forall in Hv.
  by apply negb_true_iff, Hv.
Qed.

Lemma delete_credentials h : credentials_deleted
  (delete "Proxy-Authorization"%string (delete "Cookie"%string (delete "Authorization"%string h))).
Proof.
  unfold credentials_deleted. split_and!.
  - rewrite !lookup_delete_ne by done. by rewrite lookup_delete_eq.
  - rewrite lookup_delete_ne by done. by rewrite lookup_delete_eq.
  - by rewrite lookup_delete_eq.
Qed.

Lemma delete_none {A} (m : gmap string A) i j : m !! i = None -> delete j m !! i = None.
Proof. intros. apply lookup_delete_None. auto. Qed.

(** What a redirected request satisfies. *)
Lemma checkRedirect_ok policy request via next : checkRedirect policy request via = Ok next ->
  Z.of_nat (length via) <= maxRedirects policy /\ destination_ok policy (hr_URL next) /\
  headers_ok policy (hr_Header next) /\ hr_Header next !! "Referer"%string = None /\
  (forall first rest, via = first :: rest -> sameAuthority (hr_URL first) (hr_URL next) = false ->
     credentials_deleted (hr_Header next)).
Proof.
  unfold checkRedirect. case_match eqn:E; [done|]. apply Z.ltb_ge in E.
  rewrite result_bind_Ok. intros ([] & Hu & H). rewrite result_bind_Ok in H. destruct H as ([] & Hh & [= <-]).
  unfold set_header. cbn [hr_URL hr_Header]. apply validateURL_ok in Hu. apply validateHeaders_ok in Hh.
  split_and!; [done..| |].
  - destruct via as [|first rest]; [apply lookup_delete_eq|].
    case_match; [|do 3 apply delete_none]; apply lookup_delete_eq.
  - intros first rest -> Hs. rewrite Hs. apply delete_credentials.
Qed.

(** What the client guarantees of a request sent in a call that began with [first]. *)
Definition sent_ok (policy : compiledPolicy) (first request : hrequest) : Prop :=
  destination_ok policy (hr_URL request) /\ headers_ok policy (hr_Header request) /\
  (request = first \/ (hr_Header request !! "Referer"%string = None /\
     (sameAuthority (hr_URL first) (hr_URL request) = false -> credentials_deleted (hr_Header request)))).

Lemma http_Do_spec policy transport redirect first fuel via request :
  hd request via = first -> sent_ok policy first request ->
  (Z.to_nat (maxRedirects policy) + 1 < length via + fuel)%nat ->
  (length via <= Z.to_nat (maxRedirects policy))%nat ->
  exists outcome sent, http_Do policy transport redirect fuel via request = (sent, Some outcome) /\
    Forall (sent_ok policy first) sent /\ (length via + length sent <= Z.to_nat (maxRedirects policy) + 1)%nat.
Proof.
  revert via request. induction fuel as [|fuel IH]; intros via request Hfirst Hok Hfuel Hvia; [lia|].
  cbn [http_Do]. destruct (transport (length via) request) as [response|err].
  2:{ eexists _, _. split; [done|]. split; [by apply Forall_singleton|simpl; lia]. }
  destruct (redirect via request response) as [next|].
  2:{ eexists _, _. split; [done|]. split; [by apply Forall_singleton|simpl; lia]. }
  destruct (checkRedirect policy next (via ++ [request])) as [next'|err] eqn:Hc.
  2:{ eexists _, _. split; [done|]. split; [by apply Forall_singleton|simpl; lia]. }
  apply checkRedirect_ok in Hc as (Hlen & Hd & Hh & Hr & Hcred). rewrite length_app in Hlen. cbn [length] in Hlen.
  assert (Hfirst' : exists rest, via ++ [request] = first :: rest) by (destruct via; simpl in *; subst; eauto).
  destruct Hfirst' as [rest Hrest].
  destruct (IH (via ++ [request]) next') as (outcome & sent & -> & Hall & Hl).
  - by rewrite Hrest.
  - split_and!; [done..|]. right. split; [done|]. by apply (Hcred first rest).
  - rewrite length_app. simpl. lia.
  - rewrite length_app. simpl. lia.
  - exists outcome, (request :: sent). split; [done|]. split; [by constructor|].
    rewrite length_app in Hl. simpl in *. lia.
Qed.

Lemma canonical_sub (h h' : gmap string (list string)) : h' ⊆ h -> canonical_names h -> canonical_names h'.
Proof. intros Hs Hc name values Hl. eapply Hc, lookup_weaken; [exact Hl|exact Hs]. Qed.

Lemma checkRedirect_canonical policy request via next : checkRedirect policy request via = Ok next ->
  canonical_names (hr_Header request) -> canonical_names (hr_Header next).
Proof.
  unfold checkRedirect. case_match; [done|]. rewrite result_bind_Ok. intros (_ & _ & Hrest).
  rewrite result_bind_Ok in Hrest. destruct Hrest as (_ & _ & [= <-]). unfold set_header. cbn [hr_Header].
  apply canonical_sub. destruct via; [apply delete_subseteq|]. case_match; [apply delete_subseteq|].
  do 3 (etrans; [apply delete_subseteq|]). apply delete_subseteq.
Qed.

Lemma http_Do_canonical policy transport redirect fuel : redirect_canonical redirect -> forall via request sent outcome,
  http_Do policy transport redirect fuel via request = (sent, outcome) ->
  Forall (fun r => canonical_names (hr_Header r)) (via ++ [request]) ->
  Forall (fun r => canonical_names (hr_Header r)) sent.
Proof.
  intros Hredirect. induction fuel as [|fuel IH]; cbn [http_Do]; intros via request sent outcome.
  { intros [= <- <-] _. constructor. }
  intros H Hc. assert (Hone : Forall (fun r => canonical_names (hr_Header r)) [request]) by (by apply Forall_app in Hc as [_ ?]).
  destruct (transport (length via) request) as [response|]; [|by injection H as <- <-].
  destruct (redirect via request response) as [next|] eqn:Hr; [|by injection H as <- <-].
  destruct (checkRedirect policy next (via ++ [request])) as [next'|] eqn:Hn; [|by injection H as <- <-].
  destruct (http_Do policy transport redirect fuel (via ++ [request]) next') as [sent' outcome'] eqn:E. injection H as <- <-.
  apply list.Forall_cons. split; [exact (List.Forall_inv Hone)|]. eapply IH; [exact E|].
  apply Forall_app. split; [done|]. apply Forall_singleton.
  eapply checkRedirect_canonical; [exact Hn|]. by eapply Hredirect.
Qed.

Lemma goes_to_port u host port port0 : ToLower (url_Scheme u) = "https"%string -> effectivePort u = Ok port0 ->
  goes_to u host port -> port = port0.
Proof.
  unfold effectivePort, goes_to. intros _ He [_ Hp]. destruct (String.eqb_spec (url_Port u) "") as [E|Hne].
  - destruct (EqualFold _ _) in He; [|done]. injection He as <-. destruct Hp as [[_ ->]|Hp]; [done|].
    rewrite E in Hp. vm_compute in Hp. discriminate.
  - destruct Hp as [[? _]|Hp]; [done|]. rewrite Hp in He. destruct (port =? 0); [done|]. by injection He as <-.
Qed.

(** What the deletions amount to when names are canonical. *)
Lemma sent_private policy first request : sent_ok policy first request -> destination_ok policy (hr_URL first) ->
  (forall scheme, scheme ∈ schemes policy -> scheme = "https"%string) ->
  canonical_names (hr_Header request) -> redirect_private first request.
Proof.
  intros (Hd & _ & [->|[Href Hcred]]) Hf Hs Hc; [by left|right]. split.
  - intros name Hin%list_elem_of_singleton. destruct (hr_Header request !! name) eqn:E; [|done].
    apply Hc in E as E'. congruence.
  - intros host port host' port' H1 H2 Hne. assert (Hdel : credentials_deleted (hr_Header request)).
    { apply Hcred, not_true_is_false. unfold sameAuthority. rewrite !andb_true_iff, String.eqb_eq, Z.eqb_eq.
      intros [[_ Hh] Hp]. apply Hne. destruct Hd as (Hs1 & _ & (p1 & He1 & _) & _), Hf as (Hs2 & _ & (p2 & He2 & _) & _).
      pose proof (goes_to_port _ _ _ _ (Hs _ Hs2) He2 H1) as ->. pose proof (goes_to_port _ _ _ _ (Hs _ Hs1) He1 H2) as ->.
      unfold port_or_zero in Hp. rewrite He1, He2 in Hp. subst. destruct H1 as [<- _], H2 as [<- _]. by rewrite Hh. }
    intros name Hin. destruct (hr_Header request !! name) as [values|] eqn:E; [|done]. rewrite (Hc _ _ E) in Hin.
    destruct Hdel as (Ha & Hk & Hx). unfold credential_headers in Hin. rewrite !elem_of_cons, elem_of_nil in Hin.
    destruct Hin as [->|[->|[->|[]]]]; congruence.
Qed.

(** ** Lemmas: dialing *)

Lemma validate_addresses_ok policy candidates validated :
  validate_addresses policy candidates = Some validated -> allowPrivate policy = false ->
  Forall (fun a => prohibitedAddress a = false) validated.
Proof.
  intros H Hp. revert validated H. induction candidates as [|c cs IH]; cbn [validate_addresses]; intros validated.
  - intros [= <-]. constructor.
  - destruct (AddrFromSlice c) as [parsed|]; [|done]. rewrite Hp. cbn [negb andb].
    destruct (prohibitedAddress parsed) eqn:E; [done|]. rewrite fmap_Some. intros (rest & Hr & ->).
    constructor; [|auto]. revert E. unfold prohibitedAddress.
    assert (Hu : Unmap (Unmap parsed) = Unmap parsed).
    { destruct parsed as [b|b z]; [done|]. unfold Unmap at 2 3. case_bool_decide; [done|].
      unfold Unmap. by rewrite bool_decide_false. }
    by rewrite Hu.
Qed.

Lemma dial_first_incl dial port last addresses : forall a p,
  (a, p) ∈ fst (dial_first dial port last addresses) -> a ∈ addresses /\ p = port.
Proof.
  revert last. induction addresses as [|c cs IH]; cbn [dial_first]; intros last a p.
  - intros H. by apply elem_of_nil in H.
  - destruct (dial c port) as [|err].
    + cbn [fst]. intros [= -> ->]%list_elem_of_singleton. split; [left|done].
    + destruct (dial_first dial port err cs) as [dialled r] eqn:E. cbn [fst].
      intros [[= -> ->]|Hin]%elem_of_cons; [split; [left|done]|].
      specialize (IH err a p). rewrite E in IH. destruct (IH Hin). split; [by right|done].
Qed.

(** ** Lemmas: bodies *)

(** The data and errors of a sequence of reads. *)
Fixpoint read_many (caps : list nat) (body : boundedBody) : list (string * option goerror) :=
  match caps with
  | [] => []
  | cap :: caps => let '(data, err, body) := bounded_Read cap body in (data, err) :: read_many caps body
  end.
Definition delivered (replies : list (string * option goerror)) : string :=
  foldr (fun reply rest => fst reply +:+ rest) EmptyString replies.
Definition source_bytes (src : source) : string := delivered src.

Lemma substring_all s : String.substring 0 (String.length s) s = s.
Proof. induction s as [|c s IH]; [done|]. cbn [String.length String.substring]. by rewrite IH. Qed.

Lemma substring_split (n : nat) s : (n <= String.length s)%nat ->
  s = String.substring 0 n s +:+ String.substring n (String.length s - n) s.
Proof.
  revert n. induction s as [|c s IH]; intros [|n] Hn; [done|simpl in Hn; lia| |].
  - rewrite Nat.sub_0_r, substring_all. done.
  - cbn [String.length String.substring String.append Nat.sub]. f_equal. apply IH. simpl in Hn. lia.
Qed.

Lemma substring_length (n : nat) s : (n <= String.length s)%nat -> String.length (String.substring 0 n s) = n.
Proof.
  revert n. induction s as [|c s IH]; intros [|n] Hn; cbn in *; [done|lia|done|]. rewrite IH; lia.
Qed.

Lemma source_Read_spec cap src data err src' : source_Read cap src = (data, err, src') ->
  (String.length data <= cap)%nat /\ source_bytes src = data +:+ source_bytes src'.
Proof.
  unfold source_Read, source_bytes. destruct src as [|[chunk e] rest]; [intros [= <- <- <-]; cbn; split; [lia|done]|].
  destruct (Nat.leb_spec (String.length chunk) cap) as [Hle|Hgt]; intros [= <- <- <-]; [done|].
  rewrite substring_length by lia. split; [done|]. cbn [delivered foldr fst].
  rewrite append_assoc, <- substring_split by lia. done.
Qed.

Lemma bounded_Read_spec cap body data err body' : bounded_Read cap body = (data, err, body') ->
  0 <= bb_limit body -> 
  bb_limit body' = bb_limit body - slen data /\ bb_remaining body' = bb_remaining body - slen data /\
  0 <= bb_limit body' /\ source_bytes (bb_source body) = data +:+ source_bytes (bb_source body') /\
  (bb_remaining body' < 0 -> err = Some ErrResponseBodyTooLarge).
Proof.
  intros H Hl. unfold bounded_Read in H. destruct (Z.leb_spec (bb_limit body) 0).
  - injection H as <- <- <-. cbn [bb_limit bb_remaining bb_source]. change (slen "") with 0.
    split_and!; [lia..|done|]. intros Hr. by rewrite (proj2 (Z.ltb_lt _ _) Hr).
  - destruct (source_Read _ _) as [[d e] src] eqn:E. injection H as <- <- <-.
    apply source_Read_spec in E as [Hn Hs]. cbn [bb_limit bb_remaining bb_source].
    split_and!; [done|done| |done|].
    + unfold slen. lia.
    + intros Hr. by rewrite (proj2 (Z.ltb_lt _ _) Hr).
Qed.

Lemma read_many_spec caps body : 0 <= bb_limit body ->
  slen (delivered (read_many caps body)) <= bb_limit body /\
  (exists rest, source_bytes (bb_source body) = delivered (read_many caps body) +:+ rest) /\
  (bb_remaining body < slen (delivered (read_many caps body)) ->
   0 <= bb_remaining body -> Exists (fun reply => snd reply = Some ErrResponseBodyTooLarge) (read_many caps body)).
Proof.
  revert body. induction caps as [|cap caps IH]; intros body Hl; cbn [read_many].
  - cbn. change (slen "") with 0. split_and!; [lia|by eexists|lia].
  - destruct (bounded_Read cap body) as [[data err] body'] eqn:E.
    apply bounded_Read_spec in E as (H1 & H2 & H3 & H4 & H5); [|done].
    destruct (IH body' H3) as (I1 & (rest & I2) & I3). cbn [delivered foldr fst]. fold (delivered (read_many caps body')).
    rewrite slen_append. split_and!; [lia| |].
    + exists rest. by rewrite <- append_assoc, <- I2.
    + intros Hover Hr. destruct (Z.lt_ge_cases (bb_remaining body') 0) as [Hneg|Hpos].
      * left. cbn. auto.
      * right. apply I3; lia.
Qed.

(** A reader that reports the end of file reports it with its last bytes. *)
Definition eof_last (src : source) : Prop :=
  forall before chunk after, src = before ++ (chunk, Some EOF) :: after -> source_bytes after = EmptyString.

(** The reads of the body itself, without a bound. *)
Fixpoint source_many (caps : list nat) (src : source) : list (string * option goerror) :=
  match caps with
  | [] => []
  | cap :: caps => let '(data, err, src) := source_Read cap src in (data, err) :: source_many caps src
  end.

Lemma eof_last_tail x src : eof_last (x :: src) -> eof_last src.
Proof. intros H before chunk after ->. by apply (H (x :: before) chunk after). Qed.

Lemma source_Read_eof cap src data err src' : source_Read cap src = (data, err, src') -> eof_last src ->
  eof_last src' /\ (err = Some EOF -> source_bytes src' = EmptyString).
Proof.
  unfold source_Read. destruct src as [|[chunk e] rest].
  { intros [= <- <- <-] H. done. }
  destruct (Nat.leb _ _); intros [= <- <- <-] H.
  - split; [by eapply eof_last_tail|]. intros ->. by apply (H [] chunk rest).
  - split; [|done]. intros [|y before] c after E.
    + injection E as <- -> <-. by apply (H [] chunk rest).
    + injection E as <- ->. by apply (H ((chunk, e) :: before) c after).
Qed.

(** Reading a body that is longer than what remains never ends cleanly. *)
Lemma oversized_read caps body : bb_limit body = bb_remaining body + 1 -> 0 <= bb_limit body ->
  bb_remaining body < slen (source_bytes (bb_source body)) -> eof_last (bb_source body) ->
  Forall (fun reply => snd reply <> Some EOF) (read_many caps body).
Proof.
  revert body. induction caps as [|cap caps IH]; intros body Hlim Hl Hover Heof; cbn [read_many]; [constructor|].
  destruct (bounded_Read cap body) as [[data err] body'] eqn:E. pose proof E as E'.
  apply bounded_Read_spec in E as (H1 & H2 & H3 & H4 & H5); [|done]. rewrite H4, slen_append in Hover.
  unfold bounded_Read in E'. destruct (Z.leb_spec (bb_limit body) 0) as [Hz|Hz].
  - injection E' as <- <- <-. cbn [bb_remaining bb_limit bb_source] in *. change (slen "") with 0 in *. constructor.
    + cbn [snd]. rewrite (proj2 (Z.ltb_lt _ _)) by lia. done.
    + apply IH; cbn [bb_remaining bb_limit bb_source]; [lia|lia|lia|done].
  - destruct (source_Read _ _) as [[d e] src] eqn:Hr. apply source_Read_eof in Hr as [Hs He]; [|done].
    injection E' as <- <- <-. cbn [bb_remaining bb_limit bb_source] in *. constructor.
    + cbn [snd]. destruct (Z.ltb_spec (bb_remaining body - slen d) 0) as [|Hge]; [done|]. intros ->.
      rewrite He in Hover by done. change (slen "") with 0 in Hover. lia.
    + apply IH; cbn [bb_remaining bb_limit bb_source]; [lia|lia|lia|done].
Qed.

(** Reading a body that fits is reading it. *)
Lemma fitting_read caps body : bb_limit body = bb_remaining body + 1 ->
  slen (source_bytes (bb_source body)) <= bb_remaining body ->
  read_many caps body = source_many caps (bb_source body).
Proof.
  revert body. induction caps as [|cap caps IH]; intros body Hlim Hfit; cbn [read_many source_many]; [done|].
  unfold bounded_Read. rewrite (proj2 (Z.leb_gt (bb_limit body) 0)) by (unfold slen in Hfit; lia).
  assert (Hr : source_Read (Nat.min cap (Z.to_nat (bb_limit body))) (bb_source body) = source_Read cap (bb_source body)).
  { unfold source_Read. destruct (bb_source body) as [|[chunk e] rest]; [done|].
    unfold source_bytes in Hfit. cbn [delivered foldr fst] in Hfit. rewrite slen_append in Hfit. unfold slen in Hfit.
    destruct (Nat.leb_spec (String.length chunk) cap) as [Hle|Hgt].
    - by rewrite (proj2 (Nat.leb_le _ _)) by lia.
    - rewrite Nat.min_l by lia. by rewrite (proj2 (Nat.leb_gt _ _)) by lia. }
  rewrite Hr. destruct (source_Read cap (bb_source body)) as [[d e] src] eqn:E. apply source_Read_spec in E as [_ Hb].
  rewrite Hb, slen_append in Hfit. rewrite (proj2 (Z.ltb_ge _ _)) by (unfold slen in *; lia). f_equal.
  apply IH; cbn [bb_remaining bb_limit bb_source]; lia.
Qed.

(** ** Lemmas: special-purpose networks *)

Lemma number_from acc l : foldl (fun acc b => acc * 256 + b) acc l = acc * 256 ^ Z.of_nat (length l) + number l.
Proof.
  unfold number. revert acc. induction l as [|b l IH]; intros acc; cbn [foldl length]; [simpl; lia|].
  rewrite IH, (IH (0 * 256 + b)). rewrite Nat2Z.inj_succ, Z.pow_succ_r by lia. lia.
Qed.

Lemma number_cons b l : number (b :: l) = b * 256 ^ Z.of_nat (length l) + number l.
Proof. unfold number at 1. cbn [foldl]. rewrite number_from. lia. Qed.

Lemma number_range l : Forall (fun z => 0 <= z < 256) l -> 0 <= number l < 256 ^ Z.of_nat (length l).
Proof.
  induction 1 as [|b l Hb Hl IH]; [cbn; lia|]. rewrite number_cons. cbn [length].
  rewrite Nat2Z.inj_succ, Z.pow_succ_r by lia. nia.
Qed.

Lemma number_inj l m : Forall (fun z => 0 <= z < 256) l -> Forall (fun z => 0 <= z < 256) m ->
  length l = length m -> number l = number m -> l = m.
Proof.
  intros Hl. revert m. induction Hl as [|b l Hb Hl IH]; intros [|c m] Hm Hlen E; try done.
  inversion Hm as [|? ? Hc Hm']; subst. injection Hlen as Hlen. rewrite !number_cons, Hlen in E.
  pose proof (number_range l Hl) as Rl. pose proof (number_range m Hm') as Rm. rewrite Hlen in Rl.
  assert (b = c) as -> by nia. f_equal. apply IH; [done..|nia].
Qed.

(** Bits of a leading byte or word are its quotient. *)
Lemma forall_bytes (p : Z -> bool) : forallb p (seqZ 0 256) = true -> forall x, 0 <= x < 256 -> p x = true.
Proof. rewrite forallb_forall. intros H x Hx. apply H, list_elem_of_In, elem_of_seqZ. lia. Qed.

Lemma land_byte x : 0 <= x < 256 ->
  (Z.land x 240 =? 16) = (x / 16 =? 1) /\ (Z.land x 240 =? 224) = (x / 16 =? 14) /\
  (Z.land x 254 =? 252) = (x / 2 =? 126).
Proof.
  intros Hx. pose proof (forall_bytes (fun x =>
    Bool.eqb (Z.land x 240 =? 16) (x / 16 =? 1) && Bool.eqb (Z.land x 240 =? 224) (x / 16 =? 14)
    && Bool.eqb (Z.land x 254 =? 252) (x / 2 =? 126)) ltac:(vm_compute; reflexivity) x Hx) as H.
  simpl in H. rewrite !andb_true_iff, !Bool.eqb_true_iff in H. by destruct H as [[? ?] ?].
Qed.

Lemma land_word x y : 0 <= x < 256 -> 0 <= y < 256 ->
  (Z.land (x * 256 + y) 65472 =? 65152) = ((x * 256 + y) / 64 =? 1018) /\
  ((Z.land (x * 256 + y) 65295 =? 65282) = true -> x = 255).
Proof.
  intros Hx Hy.
  pose proof (forall_bytes (fun x => forallb (fun y =>
    Bool.eqb (Z.land (x * 256 + y) 65472 =? 65152) ((x * 256 + y) / 64 =? 1018)
    && implb (Z.land (x * 256 + y) 65295 =? 65282) (x =? 255)) (seqZ 0 256)) ltac:(vm_compute; reflexivity) x Hx) as H.
  apply (fun H => forall_bytes _ H y Hy) in H. simpl in H.
  rewrite andb_true_iff, Bool.eqb_true_iff in H. destruct H as [? H]. split; [done|].
  intros E. rewrite E in H. by apply Z.eqb_eq.
Qed.

Lemma two_digits x y base p q n : 0 <= y < base -> 0 <= q < base -> n = p * base + q ->
  (x * base + y =? n) = (x =? p) && (y =? q).
Proof.
  intros Hy Hq ->. apply eq_bool_prop_intro. rewrite !Is_true_true, andb_true_iff, !Z.eqb_eq.
  split; [|by intros [-> ->]]. intros E. assert (x = p) by nia. subst. lia.
Qed.

Lemma special4 b : addr_wf (Addr4 b) ->
  IsUnspecified (Addr4 b) || IsLoopback (Addr4 b) || IsPrivate (Addr4 b) || IsLinkLocalUnicast (Addr4 b)
    || IsLinkLocalMulticast (Addr4 b) || IsMulticast (Addr4 b) = existsb (in_network 32 b) prohibited4.
Proof.
  intros [Hlen Hf]. destruct b as [|x [|y [|z [|t [|]]]]]; try done.
  repeat match goal with H : Forall _ (_ :: _) |- _ => apply list.Forall_cons in H as [? H] end.
  destruct (land_byte x) as (_ & Hm & _); [done|]. destruct (land_byte y) as (Hp & _); [done|].
  unfold IsLoopback, IsPrivate, IsLinkLocalUnicast, IsLinkLocalMulticast, IsMulticast, nth_byte. cbn [nth].
  rewrite Hm, Hp. unfold prohibited4, in_network. cbn [existsb fst snd].
  change (number [x; y; z; t]) with ((((0 * 256 + x) * 256 + y) * 256 + z) * 256 + t). set (n := _ * 256 + t).
  change (32 - 32) with 0. change (32 - 8) with 24. change (32 - 16) with 16. change (32 - 12) with 20. change (32 - 4) with 28.
  assert (n / 2 ^ 24 = x) as -> by (subst n; symmetry; apply Z.div_unique with (y * 65536 + z * 256 + t); lia).
  assert (n / 2 ^ 16 = x * 256 + y) as -> by (subst n; symmetry; apply Z.div_unique with (z * 256 + t); lia).
  assert (n / 2 ^ 20 = x * 16 + y / 16) as ->
    by (subst n; pose proof (Z.div_mod y 16); pose proof (Z.mod_pos_bound y 16); symmetry; apply Z.div_unique with (y mod 16 * 65536 + z * 256 + t); lia).
  assert (n / 2 ^ 28 = x / 16) as ->
    by (subst n; pose proof (Z.div_mod x 16); pose proof (Z.mod_pos_bound x 16); symmetry; apply Z.div_unique with (x mod 16 * 16777216 + y * 65536 + z * 256 + t); lia).
  repeat match goal with |- context [number ?l / ?q] => let r := eval vm_compute in (number l / q) in change (number l / q) with r end.
  assert (IsUnspecified (Addr4 [x; y; z; t]) = (n / 2 ^ 0 =? 0)) as ->.
  { unfold IsUnspecified. change (2 ^ 0) with 1. rewrite Z.div_1_r. apply eq_bool_prop_intro.
    rewrite !Is_true_true, orb_true_iff, !bool_decide_eq_true, Z.eqb_eq. unfold n.
    split; [intros [[= -> -> -> ->]|?]; [done|done]|]. intros E. left. simpl. f_equal. repeat f_equal; lia. }
  assert (0 <= y / 16 < 16) by (split; [apply Z.div_pos|apply Z.div_lt_upper_bound]; lia).
  rewrite (two_digits x y 256 169 254 43518), (two_digits x (y / 16) 16 172 1 2753),
    (two_digits x y 256 192 168 49320) by lia.
  assert (Hmul : (x =? 224) && (y =? 0) && (z =? 0) || (x / 16 =? 14) = (x / 16 =? 14)).
  { destruct (Z.eqb_spec x 224) as [->|]; [by destruct (_ && _)|done]. }
  rewrite <- !orb_assoc, Hmul. clear.
  destruct (_ =? 0), (x =? 127), (x =? 10), ((x =? 172) && _), ((x =? 192) && _), ((x =? 169) && _), (x / 16 =? 14); reflexivity.
Qed.

(** A network of the full width holds one address. *)
Lemma in_full b m : length b = 16%nat -> Forall (fun z => 0 <= z < 256) b -> length m = 16%nat ->
  Forall (fun z => 0 <= z < 256) m -> in_network 128 b (m, 128) = bool_decide (b = m).
Proof.
  intros Hb Hfb Hm Hfm. unfold in_network. cbn [fst snd]. change (2 ^ (128 - 128)) with 1. rewrite !Z.div_1_r.
  apply eq_bool_prop_intro. rewrite !Is_true_true, Z.eqb_eq, bool_decide_eq_true.
  split; [|by intros ->]. apply number_inj; [done..|lia].
Qed.

(** A network of at most sixteen bits looks at the first two bytes only. *)
Lemma in_prefix6 x y rest net bits : 0 <= x < 256 -> 0 <= y < 256 -> length rest = 14%nat ->
  Forall (fun z => 0 <= z < 256) rest -> 0 <= bits <= 16 ->
  in_network 128 (x :: y :: rest) (net, bits) = ((x * 256 + y) / 2 ^ (16 - bits) =? number net / 2 ^ (128 - bits)).
Proof.
  intros Hx Hy Hlen Hf Hbits. pose proof (number_range rest Hf) as Hr. rewrite Hlen in Hr.
  change (256 ^ Z.of_nat 14) with (2 ^ 112) in Hr. unfold in_network. cbn [fst snd]. f_equal.
  assert (Hn : number (x :: y :: rest) = number rest + (x * 256 + y) * 2 ^ 112).
  { rewrite !number_cons. cbn [length]. rewrite Hlen. change (256 ^ Z.of_nat 15) with (256 * 2 ^ 112).
    change (256 ^ Z.of_nat 14) with (2 ^ 112). lia. }
  rewrite Hn. replace (128 - bits) with (112 + (16 - bits)) by lia. rewrite Z.pow_add_r by lia.
  rewrite <- Z.div_div by lia. rewrite Z.div_add by lia. by rewrite (Z.div_small (number rest)) by lia.
Qed.

Lemma special6 b zone : addr_wf (Addr6 b zone) ->
  IsUnspecified (Addr6 b zone) || IsLoopback (Addr6 b zone) || IsPrivate (Addr6 b zone)
    || IsLinkLocalUnicast (Addr6 b zone) || IsLinkLocalMulticast (Addr6 b zone) || IsMulticast (Addr6 b zone)
  = existsb (in_network 128 b) (prohibited6 zone).
Proof.
  intros [Hlen Hf].
  assert (Hun : IsUnspecified (Addr6 b zone) = (String.eqb zone "" && in_network 128 b (replicate 16 0, 128))).
  { rewrite in_full by (done || (repeat constructor; lia)). unfold IsUnspecified. apply eq_bool_prop_intro.
    rewrite !Is_true_true, orb_true_iff, andb_true_iff, !bool_decide_eq_true, String.eqb_eq.
    split; [intros [?|[= -> ->]]; done|intros [-> ->]; by right]. }
  assert (Hlo : IsLoopback (Addr6 b zone) = in_network 128 b (replicate 15 0 ++ [1], 128)).
  { rewrite in_full by (done || (repeat constructor; lia)). done. }
  destruct b as [|x [|y rest]]; [done|done|]. injection Hlen as Hlen.
  apply list.Forall_cons in Hf as [Hx Hf]. apply list.Forall_cons in Hf as [Hy Hf].
  destruct (land_byte x) as (_ & _ & Hp); [done|]. destruct (land_word x y) as [Hl Hm]; [done..|].
  assert (H7 : (x * 256 + y) / 2 ^ (16 - 7) = x / 2).
  { change (2 ^ (16 - 7)) with (256 * 2). rewrite <- Z.div_div, Z.div_add_l, (Z.div_small y) by lia. by rewrite Z.add_0_r. }
  assert (H8 : (x * 256 + y) / 2 ^ (16 - 8) = x).
  { change (2 ^ (16 - 8)) with 256. rewrite Z.div_add_l, (Z.div_small y) by lia. lia. }
  rewrite Hun, Hlo. unfold prohibited6. rewrite existsb_app. cbn [existsb].
  rewrite (in_prefix6 x y rest _ 7), (in_prefix6 x y rest _ 10), (in_prefix6 x y rest _ 8), H7, H8 by (done || lia).
  unfold IsPrivate, IsLinkLocalUnicast, IsLinkLocalMulticast, IsMulticast, word0, nth_byte. cbn [nth].
  rewrite Hp, Hl.
  assert (Hmul : (Z.land (x * 256 + y) 65295 =? 65282) || (x =? 255) = (x =? 255)).
  { destruct (Z.land (x * 256 + y) 65295 =? 65282) eqn:E; [|done]. specialize (Hm eq_refl).
    symmetry. by apply Z.eqb_eq. }
  change (number _ / 2 ^ (128 - 7)) with 126. change (number _ / 2 ^ (128 - 10)) with 1018.
  change (number _ / 2 ^ (128 - 8)) with 255. change (2 ^ (16 - 10)) with 64.
  rewrite <- !orb_assoc, Hmul. rewrite !orb_false_r. f_equal. destruct (String.eqb zone ""); cbn [existsb andb]; [|done].
  by rewrite orb_false_r.
Qed.

Lemma Unmap_wf a : addr_wf a -> addr_wf (Unmap a).
Proof.
  destruct a as [b|b z]; [done|]. unfold Unmap. case_bool_decide as E; [|done].
  intros [Hl Hf]. split; [rewrite length_drop; lia|]. by apply Forall_drop.
Qed.

Lemma prohibited_special a : addr_wf a -> prohibitedAddress a = special_address a.
Proof.
  intros Hwf%Unmap_wf. unfold prohibitedAddress, special_address.
  destruct (Unmap a) as [b|b z]; [by apply special4|by apply special6].
Qed.

Lemma secureDial_checked (policy : compiledPolicy) (lookup : string -> result (list (list Z)))
    (dial : Addr -> string -> result unit) (address : string) (Hprivate : allowPrivate policy = false) :
  let '(dialled, outcome) := secureDial policy lookup dial address in
  (forall a port, (a, port) ∈ dialled -> prohibitedAddress a = false) /\
  (forall host port addresses, SplitHostPort address = Some (host, port) -> ParseAddr host = None ->
     lookup host = Ok addresses ->
     Exists (fun slice => match AddrFromSlice slice with Some a => prohibitedAddress a = true | None => True end) addresses ->
     dialled = [] /\ outcome = Err ErrDestinationDenied).
Proof.
  unfold secureDial. destruct (SplitHostPort address) as [[host port]|].
  2:{ split; [intros a p H; by apply elem_of_nil in H|done]. }
  destruct (ParseAddr host) as [literal|] eqn:Hlit.
  { rewrite Hprivate. cbn [negb andb]. destruct (prohibitedAddress literal) eqn:E.
    - split; [intros a p H; by apply elem_of_nil in H|]. intros ? ? ? [= <- <-] ?. congruence.
    - split; [by intros a p [= -> _]%list_elem_of_singleton|]. intros ? ? ? [= <- <-] ?. congruence. }
  destruct (lookup host) as [[|c cs]|err] eqn:Hlook.
  - split; [intros a p H; by apply elem_of_nil in H|]. intros ? ? ? [= <- <-] _ Hl Hex.
    rewrite Hlook in Hl. injection Hl as <-. by apply Exists_nil in Hex.
  - pose proof (validate_addresses_ok policy (c :: cs)) as Hv.
    destruct (validate_addresses policy (c :: cs)) as [validated|] eqn:Hval.
    + destruct (dial_first dial port (ErrNew "") validated) as [dialled outcome] eqn:Hd. split.
      * intros a p Hin. pose proof (dial_first_incl dial port (ErrNew "") validated a p) as Hi.
        rewrite Hd in Hi. destruct (Hi Hin) as [Ha _]. specialize (Hv _ eq_refl Hprivate).
        rewrite List.Forall_forall in Hv. by apply Hv, list_elem_of_In.
      * intros ? ? ? [= <- <-] _ Hl Hex. rewrite Hlook in Hl. injection Hl as <-. exfalso.
        revert validated Hval Hv Hd. clear -Hprivate Hex. intros validated Hval _ _. revert validated Hval.
        induction Hex as [x l Hx|x l Hx IH]; cbn [validate_addresses]; intros validated.
        -- destruct (AddrFromSlice x); [|done]. by rewrite Hprivate, Hx.
        -- destruct (AddrFromSlice x); [|done]. case_match; [done|]. rewrite fmap_Some. intros (r & Hr & _). eauto.
    + split; [intros a p H; by apply elem_of_nil in H|done].
  - split; [intros a p H; by apply elem_of_nil in H|]. intros ? ? ? [= <- <-] _ Hl. congruence.
Qed.

(** ** Lemmas: compiled policies *)

Lemma compile_set_ok `{Countable K} (normalize : K -> K) refused message l s :
  compile_set normalize refused message l = Ok s -> forall x, x ∈ s -> refused x = false.
Proof.
  revert s. induction l as [|v l IH]; cbn [compile_set]; intros s; [intros [= <-]; set_solver|].
  case_match eqn:E; [done|]. rewrite result_bind_Ok. intros (rest & Hr & [= <-]) x.
  rewrite elem_of_union, elem_of_singleton. intros [->|Hx]; eauto.
Qed.

Lemma compile_set_from `{Countable K} (normalize : K -> K) refused message l s :
  compile_set normalize refused message l = Ok s -> forall x, x ∈ s -> exists y, y ∈ l /\ normalize y = x.
Proof.
  revert s. induction l as [|v l IH]; cbn [compile_set]; intros s; [intros [= <-]; set_solver|].
  case_match; [done|]. rewrite result_bind_Ok. intros (rest & Hr & [= <-]) x.
  rewrite elem_of_union, elem_of_singleton. intros [->|Hx]; [exists v; split; [left|done]|].
  destruct (IH _ Hr x Hx) as (y & Hy & <-). exists y. split; [by right|done].
Qed.

Lemma compile_from policy compiled : compilePolicy policy = Ok compiled ->
  (forall h, h ∈ hosts compiled -> exists host, host ∈ AllowedHosts policy /\ normalizeHost host = h) /\
  (forall p, p ∈ ports compiled -> p ∈ AllowedPorts policy) /\
  (forall h, h ∈ headers compiled -> exists header, header ∈ AllowedRequestHeaders policy /\
     CanonicalHeaderKey (TrimSpace header) = h) /\
  maxRedirects compiled = MaxRedirects policy.
Proof.
  unfold compilePolicy. case_match; [done|]. case_match; [done|].
  rewrite result_bind_Ok. intros (ss & _ & Hr). apply result_bind_Ok in Hr as (hh & Hh & Hr).
  apply result_bind_Ok in Hr as (pp & Hp & Hr). apply result_bind_Ok in Hr as (he & He & Hr).
  case_match; [done|]. injection Hr as <-. cbn [hosts ports headers maxRedirects]. split_and!; [| | |done].
  - exact (compile_set_from _ _ _ _ _ Hh).
  - intros p Hin. by destruct (compile_set_from _ _ _ _ _ Hp p Hin) as (y & Hy & <-).
  - exact (compile_set_from _ _ _ _ _ He).
Qed.

Lemma compile_limits policy compiled : compilePolicy policy = Ok compiled ->
  0 < RequestTimeout policy /\ 0 < ConnectTimeout policy /\ 0 < ResponseHeaderTimeout policy /\
  0 < MaxConnectionsPerHost policy.
Proof. unfold compilePolicy. case_match eqn:E1; [done|]. intros _. to_prop. lia. Qed.

Lemma compile_ok policy compiled : compilePolicy policy = Ok compiled ->
  (forall s, s ∈ schemes compiled -> s = "https"%string) /\ (forall p, p ∈ ports compiled -> p <> 0) /\
  (forall h, h ∈ headers compiled -> forbiddenHeader h = false) /\
  0 <= maxRedirects compiled <= maximumRedirects /\ 0 < maxBody compiled <= maximumResponseBody /\
  allowPrivate compiled = AllowPrivateAddresses policy.
Proof.
  unfold compilePolicy. case_match eqn:E1; [done|]. case_match eqn:E2; [done|].
  rewrite result_bind_Ok. intros (ss & Hs & H). apply result_bind_Ok in H as (hh & _ & H).
  apply result_bind_Ok in H as (pp & Hp & H). apply result_bind_Ok in H as (he & Hh & H).
  case_match; [done|]. injection H as <-. cbn [schemes ports headers maxRedirects maxBody allowPrivate].
  to_prop. split_and!; try lia; [| | |done].
  - intros s Hin. pose proof (compile_set_ok _ _ _ _ _ Hs s Hin) as E. simpl in E. to_prop. done.
  - intros p Hin. pose proof (compile_set_ok _ _ _ _ _ Hp p Hin) as E. simpl in E. to_prop. done.
  - intros h Hin. pose proof (compile_set_ok _ _ _ _ _ Hh h Hin) as E. simpl in E. to_prop. by destruct E.
Qed.

Lemma sent_allowed policy compiled first r : compilePolicy policy = Ok compiled -> sent_ok compiled first r ->
  allowed_request policy r.
Proof.
  intros Hc ((Hs & Hh & (port & Hp & Hin & Hnz) & Hu & Hq & Hf & Ha) & Hhead & _).
  pose proof (compile_ok _ _ Hc) as (Hschemes & _ & _ & _ & _ & Hpriv). pose proof (compile_from _ _ Hc) as (Hhosts & Hports & Hheaders & _).
  split; [by apply Hschemes|]. split; [|split_and!; try done].
  - destruct (Hhosts _ Hh) as (host & Hhost & E). exists host, port. split_and!; [done|by apply Hports|done|].
    split; [done|]. unfold effectivePort in Hp. destruct (String.eqb_spec (url_Port (hr_URL r)) "") as [E'|_].
    + left. destruct (EqualFold _ _) in Hp; [|done]. by injection Hp as <-.
    + right. destruct (ParseUintN 16 (url_Port (hr_URL r))); [|done]. destruct (_ =? 0) in Hp; [done|]. by injection Hp as <-.
  - intros Hprivate a Hparse. rewrite <- prohibited_special by (by eapply ParseAddr_wf). apply Ha; [congruence|done].
  - intros name values Hl. destruct (Hhead name values Hl) as (Hin' & Hforb & Hv). split_and!; [by apply Hheaders| |done].
    intros Hc'. unfold forbiddenHeader, one_of_str in Hforb. apply not_true_iff_false in Hforb. apply Hforb, existsb_exists.
    exists (ToLower (CanonicalHeaderKey name)). by rewrite String.eqb_refl, <- list_elem_of_In.
Qed.

(** ** Properties *)

(** C14: whatever a connector asks for and whatever the other side answers, the client
    only ever sends requests its policy allows.  A call always returns; it sends at
    most [MaxRedirects]+1 requests (so at most six); each goes over HTTPS to a host and
    a port of the allow-lists, without user information, query or fragment, and not to
    a special-purpose address written literally unless the policy allows private
    addresses; each carries headers of the allow-list only, none that controls the
    connection or names a proxy, and no line breaks.  When the names of the first
    request's headers are canonical, and [net/http] keeps them so, a redirected request
    carries no Referer, and no Authorization, Cookie or Proxy-Authorization to another
    host or port than the first request's. *)
Theorem only_allowed_destinations (policy : Policy) (compiled : compiledPolicy)
    (transport : nat -> hrequest -> result hresponse)
    (redirect : list hrequest -> hrequest -> hresponse -> option hrequest)
    (operation : string) (request : hrequest) (Hc : compilePolicy policy = Ok compiled) :
  exists sent event outcome, Do compiled transport redirect operation request = (sent, event, Some outcome) /\
    Z.of_nat (length sent) <= MaxRedirects policy + 1 <= 6 /\
    Forall (allowed_request policy) sent /\
    (canonical_names (hr_Header request) -> redirect_canonical redirect -> Forall (redirect_private request) sent).
Proof.
  pose proof (compile_from _ _ Hc) as (_ & _ & _ & Hmax).
  pose proof (compile_ok _ _ Hc) as (Hs & _ & _ & Hr & _). unfold maximumRedirects in Hr. unfold Do.
  destruct (stableName operation); [|by eexists [], _, _; split_and!; [done|simpl; lia|lia|constructor|constructor]]. cbn [negb].
  destruct (validateURL compiled (hr_URL request)) as [[]|err] eqn:Hu;
    [|by eexists [], _, _; split_and!; [done|simpl; lia|lia|constructor|constructor]].
  destruct (validateHeaders compiled (hr_Header request)) as [[]|err] eqn:Hh;
    [|by eexists [], _, _; split_and!; [done|simpl; lia|lia|constructor|constructor]].
  apply validateURL_ok in Hu. apply validateHeaders_ok in Hh.
  destruct (http_Do_spec compiled transport redirect request (do_fuel compiled) [] request)
    as (outcome & sent & HDo & Hall & Hl); [done|split_and!; auto|unfold do_fuel; simpl; lia|simpl; lia|].
  assert (Hallowed : Forall (allowed_request policy) sent)
    by (eapply List.Forall_impl; [|exact Hall]; intros r; by apply sent_allowed).
  assert (Hprivate : canonical_names (hr_Header request) -> redirect_canonical redirect -> Forall (redirect_private request) sent).
  { intros Hcan Hred. pose proof (http_Do_canonical _ _ _ _ Hred _ _ _ _ HDo ltac:(by apply Forall_singleton)) as Hnames.
    rewrite List.Forall_forall in Hall, Hnames |- *. intros r Hin. eapply sent_private; [by apply Hall|done|done|by apply Hnames]. }
  rewrite HDo. destruct outcome as [response|err]; [case_match|];
    (eexists _, _, _; split; [done|]; split_and!; [simpl in Hl; lia|lia|done|done]).
Qed.

Definition ex_policy : Policy :=
  mkPolicy ["https"] ["api.example.com"; "cdn.example.com"] [443] ["Authorization"] false 2 Second Second Second 10 1.
Definition ex_compiled : compiledPolicy :=
  mkCompiled {["https"%string]} {["api.example.com"%string; "cdn.example.com"%string]} {["Authorization"%string]} {[443]} false 2 10.
Definition ex_url (host : string) : URL := mkURL "https" false host "/x" "" "".
Definition ex_request : hrequest :=
  mkHRequest "GET" (ex_url "api.example.com") {["Authorization"%string := ["Bearer t"%string]]}.
Definition ex_transport (n : nat) (r : hrequest) : result hresponse := Ok (mkHResponse 302 ∅ 0 []).
(** A server that redirects to another allowed host, for ever. *)
Definition ex_redirect (via : list hrequest) (r : hrequest) (response : hresponse) : option hrequest :=
  Some (mkHRequest "GET" (ex_url "cdn.example.com") (hr_Header r)).

(** A redirect that keeps the headers keeps their names canonical. *)
Lemma ex_redirect_canonical : redirect_canonical ex_redirect.
Proof.
  intros via r response next [= <-] H. apply Forall_app in H as [_ H]. exact (List.Forall_inv H).
Qed.

Lemma only_allowed_destinations_witness :
  exists sent event outcome,
    Do ex_compiled ex_transport ex_redirect "pull.read" ex_request = (sent, event, Some outcome) /\
    Z.of_nat (length sent) <= 3 /\ Forall (redirect_private ex_request) sent /\ outcome = Err ErrDestinationDenied.
Proof.
  destruct (only_allowed_destinations ex_policy ex_compiled ex_transport ex_redirect "pull.read" ex_request)
    as (sent & event & outcome & HDo & [Hl _] & _ & Hp).
  - vm_compute. reflexivity.
  - exists sent, event, outcome. split; [exact HDo|]. split; [exact Hl|].
    split.
    { apply Hp; [|exact ex_redirect_canonical]. intros name values Hlook. unfold ex_request in Hlook. cbn [hr_Header] in Hlook.
      apply lookup_singleton_Some in Hlook as [<- _]. vm_compute. reflexivity. }
    assert (E : snd (Do ex_compiled ex_transport ex_redirect "pull.read" ex_request) = Some (Err ErrDestinationDenied))
      by (vm_compute; reflexivity).
    rewrite HDo in E. by injection E.
Defined.

(** Where names are stored in another spelling, the deletions of the redirect check miss
    them: the client accepts a header stored as [authorization], and it is sent on to
    another host with its value. *)
Example noncanonical_header_crosses :
  let request := mkHRequest "GET" (ex_url "api.example.com") {["authorization"%string := ["Bearer t"%string]]} in
  let '(sent, _, _) := Do ex_compiled ex_transport ex_redirect "pull.read" request in
  (fun r => (url_Host (hr_URL r), hr_Header r !! "authorization"%string)) <$> (sent !! 1%nat) =
    Some ("cdn.example.com", Some ["Bearer t"])%string.
Proof. vm_compute. reflexivity. Qed.

(** C15: a client that can be constructed never dials a special-purpose address.
    Unless its policy allows private addresses, whatever the resolver answers, every
    address handed to the dialer is outside the prohibited networks, and a name one of
    whose addresses is prohibited or malformed is refused before anything is dialled.
    No proxy can stand in for that dialer, TLS is at least 1.2, and every timeout and
    every connection limit of the client and its transport is positive, where zero
    would mean none; a dialer the client makes itself has a timeout and a keep-alive
    period too. *)
Theorem dials_checked_addresses (DefaultResolver : string -> result (list (list Z)))
    (net_Dialer : Z -> Z -> Addr -> string -> result unit) (policy : Policy) (options : Options) (client : Client)
    (Hnew : NewClient DefaultResolver net_Dialer policy options = Ok client)
    (Hprivate : AllowPrivateAddresses policy = false) (address : string) :
  let '(dialled, outcome) := tr_DialContext (cl_Transport client) address in
  (forall a port, (a, port) ∈ dialled -> prohibitedAddress a = false /\ (addr_wf a -> special_address a = false)) /\
  (forall host port addresses, SplitHostPort address = Some (host, port) -> ParseAddr host = None ->
     default DefaultResolver (opt_Resolver options) host = Ok addresses ->
     Exists (fun slice => match AddrFromSlice slice with Some a => prohibitedAddress a = true | None => True end) addresses ->
     dialled = [] /\ outcome = Err ErrDestinationDenied) /\
  tr_Proxy (cl_Transport client) = false /\ VersionTLS12 <= tr_MinVersion (cl_Transport client) /\
  Forall (fun limit => 0 < limit)
    [cl_Timeout client; tr_TLSHandshakeTimeout (cl_Transport client); tr_ResponseHeaderTimeout (cl_Transport client);
     tr_ExpectContinueTimeout (cl_Transport client); tr_MaxIdleConns (cl_Transport client);
     tr_MaxIdleConnsPerHost (cl_Transport client); tr_MaxConnsPerHost (cl_Transport client);
     tr_IdleConnTimeout (cl_Transport client)] /\
  (opt_Dialer options = None -> exists timeout keepAlive, 0 < timeout /\ 0 < keepAlive /\
     tr_DialContext (cl_Transport client) =
       secureDial (cl_policy client) (default DefaultResolver (opt_Resolver options)) (net_Dialer timeout keepAlive)).
Proof.
  unfold NewClient in Hnew. apply result_bind_Ok in Hnew as (compiled & Hc & [= <-]).
  pose proof (compile_limits _ _ Hc) as Hlimits. apply compile_ok in Hc as (_ & _ & _ & _ & _ & Hp).
  cbn [cl_Transport cl_Timeout tr_DialContext tr_Proxy tr_MinVersion tr_TLSHandshakeTimeout
       tr_ResponseHeaderTimeout tr_MaxConnsPerHost tr_ExpectContinueTimeout tr_MaxIdleConns tr_MaxIdleConnsPerHost
       tr_IdleConnTimeout cl_policy].
  pose proof (secureDial_checked compiled (default DefaultResolver (opt_Resolver options))
    (default (net_Dialer (ConnectTimeout policy) (30 * Second)) (opt_Dialer options)) address) as Hdial.
  rewrite Hp in Hdial. specialize (Hdial Hprivate). destruct (secureDial _ _ _ _) as [dialled outcome].
  destruct Hdial as [Ha Hrefused], Hlimits as (? & ? & ? & ?). split_and!; [|done..| |].
  - intros a port Hin. specialize (Ha a port Hin). split; [done|]. intros Hwf. by rewrite <- prohibited_special.
  - unfold maximumIdleConnections, Second. repeat (apply List.Forall_cons; [lia|]). apply List.Forall_nil.
  - intros ->. exists (ConnectTimeout policy), (30 * Second). unfold Second. split_and!; [lia|lia|done].
Qed.

(** A name that resolves to a public and to a loopback address. *)
Lemma dials_checked_addresses_witness : exists client,
  NewClient (fun _ => Ok [[93; 184; 216; 34]; [127; 0; 0; 1]]) (fun _ _ _ _ => Ok tt) ex_policy (mkOptions None None) = Ok client /\
  tr_DialContext (cl_Transport client) "api.example.com:443" = ([], Err ErrDestinationDenied).
Proof.
  assert (Hc : compilePolicy ex_policy = Ok ex_compiled) by (vm_compute; reflexivity).
  eexists. split; [unfold NewClient; rewrite Hc; reflexivity|].
  epose proof (dials_checked_addresses (fun _ => Ok [[93; 184; 216; 34]; [127; 0; 0; 1]]) (fun _ _ _ _ => Ok tt)
    ex_policy (mkOptions None None) _ ltac:(unfold NewClient; rewrite Hc; reflexivity) eq_refl "api.example.com:443") as H.
  destruct (tr_DialContext _ _) as [dialled outcome]. destruct H as (_ & H & _).
  destruct (H "api.example.com" "443" [[93; 184; 216; 34]; [127; 0; 0; 1]])%string as [-> ->];
    [vm_compute; reflexivity|vm_compute; reflexivity|reflexivity| |reflexivity].
  right. left. reflexivity.
Defined.

(** The prohibited addresses are the special-purpose networks.  For every parsed
    address the tests of the client agree with membership, by integer prefixes, in
    0.0.0.0, 10/8, 127/8, 169.254/16, 172.16/12, 192.168/16 and 224/4, in ::1, fc00::/7,
    fe80::/10 and ff00::/8, or in :: without a zone; v4 addresses mapped into v6 are
    judged as the v4 addresses they stand for. *)
Theorem prohibited_networks (s : string) (a : Addr) (Ha : ParseAddr s = Some a) :
  prohibitedAddress a = special_address a.
Proof.
  by eapply prohibited_special, ParseAddr_wf.
Qed.

Lemma prohibited_networks_witness :
  ParseAddr "::ffff:172.31.0.9" = Some (Addr6 [0; 0; 0; 0; 0; 0; 0; 0; 0; 0; 255; 255; 172; 31; 0; 9] "") /\
  prohibitedAddress (Addr6 [0; 0; 0; 0; 0; 0; 0; 0; 0; 0; 255; 255; 172; 31; 0; 9] "") = true.
Proof.
  assert (H : ParseAddr "::ffff:172.31.0.9" = Some (Addr6 [0; 0; 0; 0; 0; 0; 0; 0; 0; 0; 255; 255; 172; 31; 0; 9] ""))
    by (vm_compute; reflexivity).
  split; [exact H|]. rewrite (prohibited_networks "::ffff:172.31.0.9" _ H). vm_compute. reflexivity.
Defined.

(** C26: a response body is never read past its limit unnoticed, and never cut short.
    However the caller reads, in whatever pieces, it is given a prefix of the body of at
    most one byte more than the limit, and whenever it has been given more than the limit
    some read reported that the body is too large.  Of a body that is longer than the
    limit no read reports the end of file, so a caller that reads until an error is
    not left with a part of it; of a body within the limit every read answers what the
    body itself would. *)
Theorem body_bounded (policy : compiledPolicy) (response : hresponse) (caps : list nat) (Hmax : 0 < maxBody policy) :
  let replies := read_many caps (snd (bounded policy response)) in
  slen (delivered replies) <= maxBody policy + 1 /\
  (exists rest, source_bytes (hs_Body response) = delivered replies +:+ rest) /\
  (maxBody policy < slen (delivered replies) ->
   Exists (fun reply => snd reply = Some ErrResponseBodyTooLarge) replies) /\
  (maxBody policy < slen (source_bytes (hs_Body response)) -> eof_last (hs_Body response) ->
   Forall (fun reply => snd reply <> Some EOF) replies) /\
  (slen (source_bytes (hs_Body response)) <= maxBody policy -> replies = source_many caps (hs_Body response)).
Proof.
  intros replies. destruct (read_many_spec caps (snd (bounded policy response))) as (H1 & H2 & H3); [cbn; lia|].
  split; [exact H1|]. split; [exact H2|]. split; [intros H; apply H3; [exact H|cbn; lia]|]. split.
  - intros Hover Heof. apply oversized_read; [done|cbn; lia|exact Hover|exact Heof].
  - intros Hfit. by apply fitting_read.
Qed.

Lemma body_bounded_witness :
  let response := mkHResponse 200 ∅ (-1) [("0123456789abcdef", Some EOF)]%string in
  Forall (fun reply => snd reply <> Some EOF) (read_many [4; 4; 4; 4; 4]%nat (snd (bounded ex_compiled response))).
Proof.
  destruct (body_bounded ex_compiled (mkHResponse 200 ∅ (-1) [("0123456789abcdef", Some EOF)]%string) [4; 4; 4; 4; 4]%nat)
    as (_ & _ & _ & H & _); [reflexivity|]. apply H; [reflexivity|].
  intros [|x [|]] chunk after E; [injection E as <- <-; reflexivity|discriminate..].
Defined.

(** Errors and events of the client come from fixed sets.  Whatever error the
    transport, the resolver or the redirect check produces, a call reports one of six
    sentinel errors or the refusal of the operation name, so no text of the far side
    reaches the caller; and what is observed of a call has a method, an outcome and a
    status class of a fixed vocabulary. *)
Theorem client_errors_classified (policy : compiledPolicy) (transport : nat -> hrequest -> result hresponse)
    (redirect : list hrequest -> hrequest -> hresponse -> option hrequest) (operation : string) (request : hrequest) :
  let '(sent, event, outcome) := Do policy transport redirect operation request in
  (forall err, outcome = Some (Err err) ->
     err ∈ [ErrNew "downstream HTTP operation is invalid"; ErrDestinationDenied; ErrUnsafeHeader; ErrRequestFailed;
            ErrResponseBodyTooLarge; ErrCanceled; ErrDeadlineExceeded]) /\
  (forall ev, event = Some ev ->
     ev_Operation ev = operation /\ ev_Method ev ∈ ("OTHER"%string :: stable_methods) /\
     ev_Outcome ev ∈ ["transport_error"; "response_too_large"; "response"]%string /\
     ev_StatusClass ev ∈ [""; "unknown"; "1xx"; "2xx"; "3xx"; "4xx"; "5xx"]%string).
Proof.
  assert (Hpub : forall err, public_error err ∈ [ErrNew "downstream HTTP operation is invalid"; ErrDestinationDenied;
    ErrUnsafeHeader; ErrRequestFailed; ErrResponseBodyTooLarge; ErrCanceled; ErrDeadlineExceeded]).
  { intros err. unfold public_error. repeat case_match; set_solver. }
  assert (Hmethod : stableMethod (hr_Method request) ∈ ("OTHER"%string :: stable_methods)).
  { unfold stableMethod. case_match eqn:E; [|left]. right. unfold one_of_str in E.
    apply existsb_exists in E as (x & Hin & ->%String.eqb_eq). by apply list_elem_of_In. }
  assert (Hclass : forall status, statusClass status ∈ [""; "unknown"; "1xx"; "2xx"; "3xx"; "4xx"; "5xx"]%string).
  { intros status. unfold statusClass. case_match eqn:E; [set_solver|]. to_prop.
    assert (Hq : 1 <= Z.quot status 100 <= 5).
    { rewrite Z.quot_div_nonneg by lia. split; [apply Z.div_le_lower_bound|apply Z.lt_succ_r, Z.div_lt_upper_bound]; lia. }
    assert (Z.quot status 100 = 1 \/ Z.quot status 100 = 2 \/ Z.quot status 100 = 3 \/ Z.quot status 100 = 4 \/
            Z.quot status 100 = 5) as Hcases by lia. destruct_or! Hcases; rewrite Hcases; vm_compute; set_solver. }
  unfold Do. destruct (stableName operation); cbn [negb].
  2:{ split; [intros err [= <-]; set_solver|done]. }
  destruct (validateURL policy (hr_URL request)) as [[]|err] eqn:Hu.
  2:{ split; [|done]. intros e [= <-]. revert Hu. unfold validateURL. repeat case_match; intros [= <-]; set_solver. }
  destruct (validateHeaders policy (hr_Header request)) as [[]|err] eqn:Hh.
  2:{ split; [|done]. intros e [= <-]. revert Hh. unfold validateHeaders. case_match; intros [= <-]; set_solver. }
  destruct (http_Do _ _ _ _ _ _) as [sent [[response|err]|]].
  - cbv zeta. destruct (maxBody policy <? hs_ContentLength response).
    + split; [intros e [= <-]; apply Hpub|]. intros ev [= <-]. cbn. split_and!; auto. set_solver.
    + split; [done|]. intros ev [= <-]. cbn. split_and!; auto. set_solver.
  - split; [intros e [= <-]; apply Hpub|]. intros ev [= <-]. cbn. split_and!; auto; set_solver.
  - split; done.
Qed.
