(* ===== verification/GoUrl.v ===== *)
(** * More of Go's standard library: [url.Parse]

    The parts of a URL the configuration checks look at: scheme, opaque part, user
    information (whether there is any), host, path, query and fragment. *)
From Stdlib Require Import Ascii String.
From S2P Require Import Prelude GoStd Regex Json JsonParse Primitives ToolCatalog GoText Netip.

Record URL := mkURL {
  u_Scheme : string; u_Opaque : string; u_User : bool; u_Host : string; u_Path : string;
  u_RawQuery : string; u_ForceQuery : bool; u_Fragment : string;
}.

(** ** Escapes *)

Inductive encoding := encodePath | encodeHost | encodeZone | encodeUserPassword | encodeFragment.

Definition alnum (c : ascii) : bool := is_digit c || is_lower c || is_upper c.

(** [shouldEscape] in a host or zone. *)
Definition host_escape (c : ascii) : bool :=
  negb (alnum c || contains_byte c ("!$&'()*+,;=:[]<>-_.~" +:+ str_of [byte 34])).

Definition host_mode (mode : encoding) : bool := match mode with encodeHost | encodeZone => true | _ => false end.

(** One escape %XY. *)
Definition escape_ok (mode : encoding) (hi lo : Z) : bool :=
  let v := hi * 16 + lo in
  match mode with
  | encodeHost => negb (hi <? 8) || (v =? 37)
  | encodeZone => (v =? 37) || (v =? 32) || negb (host_escape (byte v))
  | _ => true
  end.

Fixpoint unescape (mode : encoding) (s : string) : option string :=
  match s with
  | EmptyString => Some EmptyString
  | String c s1 =>
      if Ascii.eqb c "%" then
        match s1 with
        | String a (String b s3) =>
            match hex_val a, hex_val b with
            | Some hi, Some lo =>
                if escape_ok mode hi lo then String (byte (hi * 16 + lo)) <$> unescape mode s3 else None
            | _, _ => None
            end
        | _ => None
        end
      else if host_mode mode && (byte_val c <? 128) && host_escape c then None
      else String c <$> unescape mode s1
  end.

(** ** Parts *)

(** [getScheme]: [None] for a missing scheme before a colon. *)
Fixpoint scheme_from (first : bool) (seen : string) (s whole : string) : option (string * string) :=
  match s with
  | EmptyString => Some (EmptyString, whole)
  | String c rest =>
      if is_lower c || is_upper c then scheme_from false (String c seen) rest whole
      else if is_digit c || contains_byte c "+-." then
        if first then Some (EmptyString, whole) else scheme_from false (String c seen) rest whole
      else if Ascii.eqb c ":" then
        if first then None else Some (str_rev seen, rest)
      else Some (EmptyString, whole)
  end.
Definition getScheme (s : string) : option (string * string) := scheme_from true EmptyString s s.

Definition validOptionalPort (port : string) : bool :=
  match port with
  | EmptyString => true
  | String c digits => Ascii.eqb c ":" && str_forallb is_digit digits
  end.

(** The text before and from the first occurrence of [%25]. *)
Fixpoint cut_zone (s : string) : string * string :=
  match s with
  | EmptyString => (EmptyString, EmptyString)
  | String c rest => if has_prefix s "%25" then (EmptyString, s)
                     else let '(a, b) := cut_zone rest in (String c a, b)
  end.

Definition parseHost (host : string) : option string :=
  match cut_last "[" host with
  | Some (EmptyString, literal) =>
      match cut_last "]" literal with
      | None => None
      | Some (hostname, colonPort) =>
          if negb (validOptionalPort colonPort) then None else
          unescape encodeHost colonPort ≫= fun port =>
          let '(plain, zone) := cut_zone hostname in
          unescape encodeHost plain ≫= fun plain =>
          unescape encodeZone zone ≫= fun zone =>
          match ParseAddr (plain +:+ zone) with
          | Some (Addr6 _ _) => Some ("[" +:+ plain +:+ zone +:+ "]" +:+ port)
          | _ => None
          end
      end
  | Some _ => None
  | None =>
      let '(_, digits, colon) := cut_on ":" host in
      if colon && negb (str_forallb is_digit digits) then None else unescape encodeHost host
  end.

Definition user_byte (c : ascii) : bool := alnum c || contains_byte c "-._:~!$&'()*+,;=%@".

(** [parseAuthority]: whether there is user information, and the host. *)
Definition parseAuthority (authority : string) : option (bool * string) :=
  match cut_last "@" authority with
  | None => (fun host => (false, host)) <$> parseHost authority
  | Some (userinfo, host) =>
      parseHost host ≫= fun host =>
      if negb (str_forallb user_byte userinfo) then None else
      let '(user, password, _) := cut_on ":" userinfo in
      unescape encodeUserPassword user ≫= fun _ =>
      unescape encodeUserPassword password ≫= fun _ => Some (true, host)
  end.

Definition ctl_byte (c : ascii) : bool := (byte_val c <? 32) || (byte_val c =? 127).

(** The query of what follows the scheme; a lone trailing question mark is a query
    that is forced but empty. *)
Definition cut_query (rest : string) : string * string * bool :=
  let '(before, query, found) := cut_on "?" rest in
  (before, query, found && String.eqb query "").

Definition parse_url (raw : string) : option URL :=
  if str_existsb ctl_byte raw then None
  else if String.eqb raw "*" then Some (mkURL "" "" false "" "*" "" false "")
  else
    match getScheme raw with
    | None => None
    | Some (scheme, rest) =>
        let scheme := ToLower scheme in
        let '(rest, query, force) := cut_query rest in
        let finish user host rest :=
          (fun path => mkURL scheme "" user host path query force "") <$> unescape encodePath rest in
        if negb (has_prefix rest "/") then
          if negb (String.eqb scheme "") then Some (mkURL scheme rest false "" "" query force "")
          else let '(segment, _, _) := cut_on "/" rest in
               if contains_byte ":" segment then None else finish false EmptyString rest
        else if (negb (String.eqb scheme "") || negb (has_prefix rest "///")) && has_prefix rest "//" then
          let '(authority, path, found) := cut_on "/" (TrimPrefix rest "//") in
          match parseAuthority authority with
          | None => None
          | Some (user, host) => finish user host (if found then String "/" path else EmptyString)
          end
        else finish false EmptyString rest
    end.

(** [url.Parse] *)
Definition url_Parse (raw : string) : option URL :=
  let '(u, fragment, found) := cut_on "#" raw in
  parse_url u ≫= fun url =>
  if String.eqb fragment "" then Some url
  else (fun fragment => mkURL (u_Scheme url) (u_Opaque url) (u_User url) (u_Host url) (u_Path url)
                          (u_RawQuery url) (u_ForceQuery url) fragment) <$> unescape encodeFragment fragment.

(** ** Examples *)

Example url_examples :
  map (fun s => (fun u => (u_Scheme u, u_Host u, u_Path u)) <$> url_Parse s)
    ["https://api.example.com:8443/a%20b"; "http://[::1]:80/x"; "https://user@h/p"; "HTTPS://h"; "://x"; "https://h:x/";
     "https://a b/"; "/rel"; "https://h/%zz"]%string =
  [Some ("https", "api.example.com:8443", "/a b"); Some ("http", "[::1]:80", "/x"); Some ("https", "h", "/p");
   Some ("https", "h", ""); None; None; None; Some ("", "", "/rel"); None]%string.
Proof. vm_compute. reflexivity. Qed.
