(* ===== verification/Oidc.v ===== *)
(** * Verification of bearer tokens

    [internal/authn/oidc.go]: compact JWTs of configured issuers, verified with keys
    that are discovered, bounded, cached and, within limits, used while the identity
    provider is down.

    [rsa_Verify], [ecdsa_Verify], [ed25519_Verify] and [on_curve] are the primitives
    of the standard library's cryptography; [get] is the reply of the HTTP client to
    a GET of a URL during one call (status and body; redirects are errors). *)
From Stdlib Require Import Ascii String.
From S2P Require Import Prelude GoStd Regex Sha256 Json JsonParse Primitives ToolCatalog GoText CanonicalJson JsonStruct Netip GoUrl.

(** ** Configuration and state *)

Definition maxTokenBytes : Z := 32768.

(** [VerificationError]: its code and cause. *)
Inductive verification_error :=
| InvalidToken (cause : goerror)
| UnsupportedIssuer
| DependencyUnavailable (cause : goerror).

Record IssuerConfig := mkIssuerConfig {
  Issuer : string; Audiences : list string; Resources : list string; Algorithms : list string;
  RefreshAfter : Z; MaxStale : Z; ClockSkew : Z; MaxKeys : Z;
}.

Inductive PublicKey :=
| RSAKey (n e : Z)
| ECKey (x y : string)
| EdKey (value : string).

Record issuer := mkIssuer {
  iss_config : IssuerConfig; iss_keys : gmap string PublicKey; iss_loaded : Z;
}.

Record Provider := mkProvider { prov_maxBody : Z; prov_issuers : gmap string issuer }.

Record Claims := mkClaims {
  cl_Issuer : string; cl_Subject : string; cl_Audience : list string; cl_Resources : list string;
  cl_ExpiresAt : Z; cl_NotBefore : Z; cl_Raw : list (string * jvalue);
}.

(** One profile of [NewOIDCProvider]: its key and its issuer. *)
Definition new_issuer (allowInsecure : bool) (profile : IssuerConfig) (issuers : gmap string issuer)
    : result (gmap string issuer) :=
  match url_Parse (Issuer profile) with
  | None => Err (ErrNew "invalid OIDC issuer")
  | Some parsed =>
      let secureScheme := String.eqb (u_Scheme parsed) "https"
                          || allowInsecure && String.eqb (u_Scheme parsed) "http" in
      if negb (String.eqb (u_RawQuery parsed) "") || negb (String.eqb (u_Fragment parsed) "") || u_User parsed
         || String.eqb (u_Host parsed) "" || negb secureScheme then Err (ErrNew "invalid OIDC issuer") else
      let name := TrimSuffix (Issuer profile) "/" in
      if is_some (issuers !! name) then Err (ErrNew "duplicate OIDC issuer")
      else if (llen (Audiences profile) =? 0) || (llen (Algorithms profile) =? 0) || (RefreshAfter profile <=? 0)
              || (MaxStale profile <? 0) || (ClockSkew profile <? 0) || (MaxKeys profile <? 1) then
        Err (ErrNew "OIDC issuer has invalid bounds")
      else if negb (forallb (fun algorithm => one_of_str algorithm ["RS256"; "ES256"; "EdDSA"]) (Algorithms profile)) then
        Err (ErrNew "OIDC issuer allows unsupported algorithm")
      else
        let config := mkIssuerConfig name (Audiences profile) (Resources profile) (Algorithms profile)
                        (RefreshAfter profile) (MaxStale profile) (ClockSkew profile) (MaxKeys profile) in
        Ok (<[name := mkIssuer config ∅ 0]> issuers)
  end.

(** [NewOIDCProvider]; [timeout] is that of the client, [None] without a client. *)
Definition NewOIDCProvider (profiles : list IssuerConfig) (timeout : option Z) (maxBody : Z) (allowInsecure : bool)
    : result Provider :=
  if llen profiles =? 0 then Err (ErrNew "at least one OIDC issuer is required") else
  match timeout with
  | None => Err (ErrNew "OIDC HTTP client is required")
  | Some timeout =>
      if timeout <=? 0 then Err (ErrNew "OIDC HTTP client timeout must be positive") else
      foldl (fun acc profile => acc ≫= new_issuer allowInsecure profile) (Ok ∅) profiles ≫= fun issuers =>
      Ok (mkProvider (if maxBody <=? 0 then 1048576 else maxBody) issuers)
  end.

(** ** Tokens *)

(** [splitToken]: header, payload, signature and the signed text. *)
Definition splitToken (token : string) : result (string * string * string * string) :=
  if (slen token =? 0) || (maxTokenBytes <? slen token) then Err (ErrNew "token size is invalid") else
  match split_on "." token with
  | [a; b; c] =>
      match b64_decode a, b64_decode b, b64_decode c with
      | Some header, Some payload, Some signature => Ok (header, payload, signature, a +:+ "." +:+ b)
      | _, _, _ => Err (ErrNew "illegal base64 data")
      end
  | _ => Err (ErrNew "compact JWT requires three segments")
  end.

Record jose := mkJose { jose_Alg : string; jose_Kid : string; jose_Typ : string }.
Definition jose_fields : list string := ["alg"; "kid"; "typ"]%string.
Definition set_jose (name : string) (m : member) (h : jose) : option jose :=
  let '(mkJose a k t) := h in
  if String.eqb name "alg" then set_string m a ≫= fun a => Some (mkJose a k t)
  else if String.eqb name "kid" then set_string m k ≫= fun k => Some (mkJose a k t)
  else set_string m t ≫= fun t => Some (mkJose a k t).

(** [decodeJSON] into a map: numbers stay text, a repeated member keeps its last
    value, [null] is the nil map. *)
Definition decode_claims (payload : string) : option (list (string * jvalue)) :=
  match json_parse payload with
  | Some v => match go_value v with JObject members => Some members | JNull => Some [] | _ => None end
  | None => None
  end.

(** [raw[name]] with its presence. *)
Definition claim (raw : list (string * jvalue)) (name : string) : option jvalue :=
  snd <$> List.find (fun kv => String.eqb kv.1 name) raw.

(** [time.Unix]: seconds since 1970 wrap as an [int64] when they are shifted to
    year 1. *)
Definition time_Unix (seconds : Z) : Z := wrap_int64 (seconds + 62135596800) * Second.

(** [Time.Add]: the seconds saturate. *)
Definition time_Add (t d : Z) : Z :=
  Z.max (- max_int64 * Second) (Z.min (max_int64 * Second + (Second - 1)) (t + d)).

Definition numericDate (value : option jvalue) : result Z :=
  match value with
  | Some (JNumber text) =>
      match ParseIntN 64 text with Some seconds => Ok (time_Unix seconds) | None => Err (ErrNew "invalid syntax") end
  | _ => Err (ErrNew "numeric date must be a JSON number")
  end.

Definition list_item (v : jvalue) : option string :=
  match v with JString s => if String.eqb s "" then None else Some s | _ => None end.

Definition stringList (value : option jvalue) : result (list string) :=
  match value with
  | Some (JString s) =>
      if String.eqb s "" then Err (ErrNew "claim must be a non-empty string or string array") else Ok [s]
  | Some (JArray (item :: items)) =>
      match mapM list_item (item :: items) with
      | Some l => Ok l
      | None => Err (ErrNew "claim array contains a non-string")
      end
  | _ => Err (ErrNew "claim must be a non-empty string or string array")
  end.

Definition contains (values : list string) (wanted : string) : bool := existsb (fun value => String.eqb value wanted) values.
Definition intersects (left_ right_ : list string) : bool := existsb (contains right_) left_.

(** An optional claim that must not lie in the future. *)
Definition not_future (raw : list (string * jvalue)) (name : string) (skew now : Z) : option Z :=
  match claim raw name with
  | None => Some 0
  | Some value =>
      match numericDate (Some value) with
      | Ok t => if time_Add now skew <? t then None else Some t
      | Err _ => None
      end
  end.

Definition validateClaims (raw : list (string * jvalue)) (config : IssuerConfig) (now : Z)
    : Claims + verification_error :=
  let refuse message := inr (InvalidToken (ErrNew message)) in
  match stringList (claim raw "aud") with
  | Err _ => refuse "audience is not allowed"%string
  | Ok audience =>
  if negb (intersects audience (Audiences config)) then refuse "audience is not allowed"%string else
  match (match claim raw "resource" with None => Ok [] | Some value => stringList (Some value) end) with
  | Err err => inr (InvalidToken err)
  | Ok resources =>
  if (0 <? llen (Resources config)) && negb (intersects resources (Resources config)) then
    refuse "resource is not allowed"%string else
  match numericDate (claim raw "exp") with
  | Err _ => refuse "token is expired or exp is missing"%string
  | Ok expires =>
  if negb (now <? time_Add expires (ClockSkew config)) then refuse "token is expired or exp is missing"%string else
  match not_future raw "nbf" (ClockSkew config) now with
  | None => refuse "token is not yet valid"%string
  | Some notBefore =>
  match not_future raw "iat" (ClockSkew config) now with
  | None => refuse "token issue time is in the future"%string
  | Some _ =>
      let subject := match claim raw "sub" with Some (JString s) => s | _ => EmptyString end in
      inl (mkClaims (Issuer config) subject audience resources expires notBefore raw)
  end
  end
  end
  end
  end.

(** ** Keys *)

(** [JWK]: the text members by name. *)
Definition jwk_fields : list string := ["kty"; "kid"; "use"; "alg"; "n"; "e"; "crv"; "x"; "y"]%string.
Definition set_jwk (name : string) (m : member) (key : gmap string string) : option (gmap string string) :=
  set_string m (default EmptyString (key !! name)) ≫= fun v => Some (<[name := v]> key).

(** [json.Unmarshal] of one element of the set. *)
Definition decode_jwk (v : jvalue) : option (gmap string string) :=
  match v with
  | JObject members =>
      set_members jwk_fields false set_jwk (map (fun kv => mkMember kv.1 kv.2 EmptyString) members) ∅
  | JNull => Some ∅
  | _ => None
  end.

(** The number big-endian bytes are. *)
Definition big_bytes (s : string) : Z := foldl (fun acc c => acc * 256 + byte_val c) 0 (bytes_of s).

Definition decodeBig (value : string) : option Z :=
  match b64_decode value with Some EmptyString => None | Some bytes => Some (big_bytes bytes) | None => None end.
Definition decodeFixed (value : string) (size : Z) : option string :=
  match b64_decode value with Some bytes => if slen bytes =? size then Some bytes else None | None => None end.

Section Verify.
Context (rsa_Verify : Z -> Z -> string -> string -> bool).
Context (ecdsa_Verify : string -> string -> string -> Z -> Z -> bool).
Context (ed25519_Verify : string -> string -> string -> bool).
Context (on_curve : string -> string -> bool).

(** The RSA, EC and OKP cases of [parseJWK]. *)
Definition rsa_key (n e : string) : result PublicKey :=
  match decodeBig n with
  | None => Err (ErrNew "invalid JWK integer")
  | Some n =>
      match b64_decode e with
      | Some bytes =>
          if (slen bytes =? 0) || (4 <? slen bytes) then Err (ErrNew "invalid RSA exponent") else
          let exponent := big_bytes bytes in
          if (exponent <? 3) || (n <? 2 ^ 2047) then Err (ErrNew "RSA signing key is too weak")
          else Ok (RSAKey n exponent)
      | None => Err (ErrNew "invalid RSA exponent")
      end
  end.
Definition ec_key (crv x y : string) : result PublicKey :=
  if negb (String.eqb crv "P-256") then Err (ErrNew "unsupported EC curve") else
  match decodeFixed x 32 with
  | None => Err (ErrNew "invalid JWK coordinate")
  | Some x =>
      match decodeFixed y 32 with
      | Some y => if on_curve x y then Ok (ECKey x y) else Err (ErrNew "invalid EC key")
      | None => Err (ErrNew "invalid EC key")
      end
  end.
Definition okp_key (crv x : string) : result PublicKey :=
  if negb (String.eqb crv "Ed25519") then Err (ErrNew "unsupported OKP curve") else
  match decodeFixed x 32 with Some value => Ok (EdKey value) | None => Err (ErrNew "invalid Ed25519 key") end.

Definition jwk_text (key : gmap string string) (name : string) : string := default EmptyString (key !! name).

(** A key names no algorithm, or the one of its type. *)
Definition jwk_algorithm (key : gmap string string) (algorithm message : string) : result unit :=
  let alg := jwk_text key "alg" in
  if negb (String.eqb alg "") && negb (String.eqb alg algorithm) then Err (ErrNew message) else Ok tt.

Definition parseJWK (v : jvalue) : result (string * PublicKey) :=
  match decode_jwk v with
  | None => Err (ErrNew "invalid signing JWK")
  | Some key =>
      let kid := jwk_text key "kid" in
      let use := jwk_text key "use" in
      let kty := jwk_text key "kty" in
      if String.eqb kid "" || (negb (String.eqb use "") && negb (String.eqb use "sig")) then
        Err (ErrNew "invalid signing JWK")
      else
        (if String.eqb kty "RSA" then
           jwk_algorithm key "RS256" "RSA JWK algorithm is not RS256" ≫= fun _ =>
           rsa_key (jwk_text key "n") (jwk_text key "e")
         else if String.eqb kty "EC" then
           jwk_algorithm key "ES256" "EC JWK algorithm is not ES256" ≫= fun _ =>
           ec_key (jwk_text key "crv") (jwk_text key "x") (jwk_text key "y")
         else if String.eqb kty "OKP" then
           jwk_algorithm key "EdDSA" "OKP JWK algorithm is not EdDSA" ≫= fun _ =>
           okp_key (jwk_text key "crv") (jwk_text key "x")
         else Err (ErrNew "unsupported JWK type")) ≫= fun public => Ok (kid, public)
  end.

(** [verifySignature]: the key must be of the algorithm's type. *)
Definition verifySignature (algorithm : string) (key : PublicKey) (signed signature : string) : bool :=
  let digest := sha256 signed in
  if String.eqb algorithm "RS256" then
    match key with RSAKey n e => rsa_Verify n e digest signature | _ => false end
  else if String.eqb algorithm "ES256" then
    match key with
    | ECKey x y =>
        (slen signature =? 64)
        && ecdsa_Verify x y digest (big_bytes (String.substring 0 32 signature)) (big_bytes (String.substring 32 32 signature))
    | _ => false
    end
  else if String.eqb algorithm "EdDSA" then
    match key with EdKey value => ed25519_Verify value signed signature | _ => false end
  else false.

(** ** Refreshing keys *)

Section Fetch.
Context (maxBody : Z) (get : string -> result (Z * string)).

(** [fetchJSON] *)
Definition fetchJSON {A} (endpoint : string) (decode : string -> option A) : result A :=
  get endpoint ≫= fun '(status, body) =>
  if negb (status =? 200) then Err (ErrNew "identity provider returned HTTP status")
  else if maxBody <? slen body then Err (ErrNew "identity provider response exceeds configured bound")
  else match decode body with Some a => Ok a | None => Err (ErrNew "invalid JSON") end.

Definition set_discovery_doc (name : string) (m : member) (d : string * string) : option (string * string) :=
  if String.eqb name "issuer" then set_string m d.1 ≫= fun i => Some (i, d.2)
  else set_string m d.2 ≫= fun u => Some (d.1, u).
Definition decode_discovery : string -> option (string * string) :=
  decode_document ["issuer"; "jwks_uri"]%string false set_discovery_doc (EmptyString, EmptyString).

Definition set_keys (name : string) (m : member) (old : list jvalue) : option (list jvalue) :=
  match m_value m with JArray items => Some items | JNull => Some [] | _ => None end.
Definition decode_jwks : string -> option (list jvalue) := decode_document ["keys"]%string false set_keys [].

Fixpoint collect_keys (items : list jvalue) (keys : gmap string PublicKey) : result (gmap string PublicKey) :=
  match items with
  | [] => Ok keys
  | encoded :: items =>
      parseJWK encoded ≫= fun '(kid, key) =>
      if is_some (keys !! kid) then Err (ErrNew "JWKS contains duplicate key IDs")
      else collect_keys items (<[kid := key]> keys)
  end.

(** [refresh]: the keys that replace the cached ones. *)
Definition refresh (config : IssuerConfig) : result (gmap string PublicKey) :=
  fetchJSON (Issuer config +:+ "/.well-known/openid-configuration") decode_discovery ≫= fun '(name, jwks) =>
  if negb (String.eqb name (Issuer config)) then Err (ErrNew "OIDC discovery issuer mismatch") else
  let '(scheme, _, _) := cut_on ":" (Issuer config) in
  match url_Parse jwks with
  | Some u =>
      if negb (String.eqb (u_Scheme u) scheme) || String.eqb (u_Host u) "" || u_User u
         || negb (String.eqb (u_Fragment u) "") then Err (ErrNew "OIDC discovery returned an invalid JWKS URI")
      else
        fetchJSON jwks decode_jwks ≫= fun items =>
        if (llen items =? 0) || (MaxKeys config <? llen items) then
          Err (ErrNew "JWKS key count is outside configured bounds")
        else collect_keys items ∅
  | None => Err (ErrNew "OIDC discovery returned an invalid JWKS URI")
  end.

(** [Provider.key], with the issuer it leaves. *)
Definition provider_key (profile : issuer) (kid : string) (now : Z) : issuer * (PublicKey + verification_error) :=
  let config := iss_config profile in
  let cached := iss_keys profile !! kid in
  let age := time_Sub now (iss_loaded profile) in
  let loaded := negb (IsZero (iss_loaded profile)) in
  let fetched :=
    match refresh config with
    | Ok keys =>
        (mkIssuer config keys now,
         match keys !! kid with
         | Some key => inl key
         | None => inr (InvalidToken (ErrNew "signing key not found"))
         end)
    | Err err =>
        (profile,
         match cached with
         | Some key => if loaded && (age <=? wrap_int64 (RefreshAfter config + MaxStale config)) then inl key
                       else inr (DependencyUnavailable err)
         | None => inr (DependencyUnavailable err)
         end)
    end in
  match cached with
  | Some key => if loaded && (age <=? RefreshAfter config) then (profile, inl key) else fetched
  | None => fetched
  end.

Definition set_issuers (provider : Provider) (issuers : gmap string issuer) : Provider :=
  mkProvider (prov_maxBody provider) issuers.
End Fetch.

(** [Verify], with the provider it leaves; the clock is read for the key and again
    for the claims. *)
Definition Verify (provider : Provider) (get : string -> result (Z * string)) (now now' : Z) (token : string)
    : Provider * (Claims + verification_error) :=
  match splitToken token with
  | Err err => (provider, inr (InvalidToken err))
  | Ok (header, payload, signature, signed) =>
  match decode_document jose_fields true set_jose (mkJose "" "" "") header with
  | None => (provider, inr (InvalidToken (ErrNew "missing or malformed JOSE header")))
  | Some metadata =>
  if String.eqb (jose_Alg metadata) "" || String.eqb (jose_Kid metadata) "" then
    (provider, inr (InvalidToken (ErrNew "missing or malformed JOSE header"))) else
  match decode_claims payload with
  | None => (provider, inr (InvalidToken (ErrNew "trailing JSON")))
  | Some raw =>
  match claim raw "iss" with
  | Some (JString issuerName) =>
      match prov_issuers provider !! issuerName with
      | None => (provider, inr UnsupportedIssuer)
      | Some profile =>
          if negb (contains (Algorithms (iss_config profile)) (jose_Alg metadata)) then
            (provider, inr (InvalidToken (ErrNew "algorithm is not allowed"))) else
          let '(profile', reply) := provider_key (prov_maxBody provider) get profile (jose_Kid metadata) now in
          let provider' := set_issuers provider (<[issuerName := profile']> (prov_issuers provider)) in
          (provider',
           match reply with
           | inr err => inr err
           | inl key =>
               if verifySignature (jose_Alg metadata) key signed signature
               then validateClaims raw (iss_config profile) now'
               else inr (InvalidToken (ErrNew "invalid signature"))
           end)
      end
  | _ => (provider, inr (InvalidToken (ErrNew "issuer claim is required")))
  end
  end
  end
  end.

(** ** Invariant *)

(** Keys a set may hold. *)
Definition key_ok (key : PublicKey) : Prop :=
  match key with
  | RSAKey n e => 2 ^ 2047 <= n /\ 3 <= e < 2 ^ 32
  | ECKey x y => slen x = 32 /\ slen y = 32 /\ on_curve x y = true
  | EdKey value => slen value = 32
  end.

Definition issuer_ok (name : string) (profile : issuer) : Prop :=
  Issuer (iss_config profile) = name /\ 0 < RefreshAfter (iss_config profile) /\
  0 <= MaxStale (iss_config profile) /\ 0 <= ClockSkew (iss_config profile) /\
  Audiences (iss_config profile) <> [] /\
  Forall (fun a => a ∈ ["RS256"; "ES256"; "EdDSA"]%string) (Algorithms (iss_config profile)) /\
  (forall kid key, iss_keys profile !! kid = Some key -> key_ok key /\ kid <> EmptyString) /\
  Z.of_nat (size (iss_keys profile)) <= MaxKeys (iss_config profile).

Definition provider_ok (provider : Provider) : Prop :=
  forall name profile, prov_issuers provider !! name = Some profile -> issuer_ok name profile.


(** Where the key of an accepted token comes from: the set fetched now, or a cached
    one that is not older than the stale window allows. *)
Definition key_source (maxBody : Z) (get : string -> result (Z * string)) (profile : issuer) (kid : string)
    (now : Z) (key : PublicKey) : Prop :=
  (exists keys, refresh maxBody get (iss_config profile) = Ok keys /\ keys !! kid = Some key) \/
  (iss_keys profile !! kid = Some key /\ iss_loaded profile <> 0 /\
   time_Sub now (iss_loaded profile) <=
     Z.max (RefreshAfter (iss_config profile)) (wrap_int64 (RefreshAfter (iss_config profile) + MaxStale (iss_config profile)))).

(** ** Lemmas *)

Lemma big_bytes_range s : 0 <= big_bytes s < 256 ^ slen s.
Proof.
  unfold big_bytes. assert (H : forall acc l, 0 <= acc -> 0 <= foldl (fun a c => a * 256 + byte_val c) acc l <
    (acc + 1) * 256 ^ Z.of_nat (length l)).
  { intros acc l. revert acc. induction l as [|c l IH]; intros acc Ha; cbn [foldl length]; [simpl; lia|].
    pose proof (byte_val_range c). destruct (IH (acc * 256 + byte_val c)) as [H1 H2]; [lia|].
    rewrite Nat2Z.inj_succ, Z.pow_succ_r by lia. split; [lia|].
    assert (0 < 256 ^ Z.of_nat (length l)) by (apply Z.pow_pos_nonneg; lia). nia. }
  specialize (H 0 (bytes_of s) ltac:(lia)). unfold slen.
  assert (Hl : length (bytes_of s) = String.length s) by (clear; induction s; simpl; auto). rewrite Hl in H. lia.
Qed.

Lemma rsa_key_ok n e key : rsa_key n e = Ok key -> key_ok key.
Proof.
  unfold rsa_key. destruct (decodeBig n) as [z|]; [|done]. destruct (b64_decode e) as [bytes|]; [|done].
  destruct (_ || _) eqn:Hl; [done|]. cbv zeta. destruct (_ || (z <? _)) eqn:Hw; [done|]. intros [= <-]. to_prop.
  pose proof (big_bytes_range bytes). split; [lia|]. split; [lia|].
  apply Z.lt_le_trans with (256 ^ slen bytes); [lia|]. change (2 ^ 32) with (256 ^ 4). apply Z.pow_le_mono_r; lia.
Qed.

Lemma decodeFixed_length value size bytes : decodeFixed value size = Some bytes -> slen bytes = size.
Proof. unfold decodeFixed. case_match; [|done]. case_match eqn:E; [|done]. intros [= <-]. by apply Z.eqb_eq. Qed.

Lemma parseJWK_ok v kid key : parseJWK v = Ok (kid, key) -> key_ok key /\ kid <> EmptyString.
Proof.
  unfold parseJWK. destruct (decode_jwk v) as [m|]; [|done]. cbv zeta. case_match eqn:Hk; [done|].
  rewrite result_bind_Ok. intros (public & Hp & [= <- <-]). to_prop. destruct Hk as [Hk _]. split; [|done].
  case_match; [by apply result_bind_Ok in Hp as (_ & _ & Hp%rsa_key_ok)|]. case_match.
  - apply result_bind_Ok in Hp as (_ & _ & Hp). unfold ec_key in Hp. case_match; [done|].
    destruct (decodeFixed (jwk_text m "x") 32) eqn:Hx; [|done]. destruct (decodeFixed (jwk_text m "y") 32) eqn:Hy; [|done].
    case_match; [|done]. injection Hp as <-. apply decodeFixed_length in Hx, Hy. done.
  - case_match; [|done]. apply result_bind_Ok in Hp as (_ & _ & Hp). unfold okp_key in Hp. case_match; [done|].
    destruct (decodeFixed (jwk_text m "x") 32) eqn:Hx; [|done]. injection Hp as <-. by apply decodeFixed_length in Hx.
Qed.

Lemma collect_keys_ok items keys keys' : collect_keys items keys = Ok keys' ->
  (forall kid key, keys !! kid = Some key -> key_ok key /\ kid <> EmptyString) ->
  (forall kid key, keys' !! kid = Some key -> key_ok key /\ kid <> EmptyString) /\
  (size keys' <= size keys + length items)%nat.
Proof.
  revert keys. induction items as [|v items IH]; cbn [collect_keys]; intros keys.
  { intros [= <-] H. split; [done|]. lia. }
  rewrite result_bind_Ok. intros ([kid key] & Hp & H) Hok. destruct (keys !! kid) eqn:Hk; [done|]. cbn [is_some] in H.
  apply parseJWK_ok in Hp. apply IH in H as [H1 H2].
  - split; [done|]. rewrite map_size_insert_None in H2 by done. simpl. lia.
  - intros k' key'. destruct (decide (kid = k')) as [<-|Hne].
    + rewrite lookup_insert_eq. by intros [= <-].
    + rewrite lookup_insert_ne by done. auto.
Qed.

Lemma refresh_ok maxBody get config keys : refresh maxBody get config = Ok keys ->
  (forall kid key, keys !! kid = Some key -> key_ok key /\ kid <> EmptyString) /\
  Z.of_nat (size keys) <= MaxKeys config.
Proof.
  unfold refresh. rewrite result_bind_Ok. intros ([name jwks] & _ & H). case_match; [done|].
  destruct (cut_on ":" (Issuer config)) as [[scheme ?] ?]. destruct (url_Parse jwks); [|done]. case_match; [done|].
  apply result_bind_Ok in H as (items & _ & H). destruct (_ || _) eqn:Hn in H; [done|]. to_prop.
  apply collect_keys_ok in H as [Hall Hsize].
  - split; [done|]. rewrite map_size_empty in Hsize. unfold llen in Hn. lia.
  - intros kid key. by rewrite lookup_empty.
Qed.

Lemma provider_key_spec maxBody get name profile kid now profile' reply :
  provider_key maxBody get profile kid now = (profile', reply) -> issuer_ok name profile ->
  iss_config profile' = iss_config profile /\ issuer_ok name profile' /\
  (forall key, reply = inl key -> key_source maxBody get profile kid now key) /\
  (forall err, refresh maxBody get (iss_config profile) = Err err -> profile' = profile).
Proof.
  intros H Hok. assert (Hok' := Hok). destruct Hok' as (Hi & Hr & Hs & Hc & Ha & Hal & Hk & Hn).
  assert (Hfresh : forall keys, refresh maxBody get (iss_config profile) = Ok keys ->
            issuer_ok name (mkIssuer (iss_config profile) keys now)).
  { intros keys [H1 H2]%refresh_ok. split_and!; done. }
  unfold provider_key in H. cbv zeta in H. unfold key_source.
  destruct (iss_keys profile !! kid) as [key|] eqn:Hkid.
  - destruct (negb (IsZero (iss_loaded profile)) && _) eqn:Hf in H.
    + injection H as <- <-. split_and!; try done. intros k [= <-]. right. unfold IsZero in Hf. to_prop.
      destruct Hf. split_and!; [done|done|lia].
    + destruct (refresh maxBody get (iss_config profile)) as [keys|err] eqn:Hrf; injection H as <- <-.
      * split_and!; [done|auto| |done]. intros k Hin. left. exists keys. split; [done|].
        destruct (keys !! kid); [|done]. congruence.
      * split_and!; [done|done| |done]. intros k Hin. right. case_match eqn:Hst; [|done]. injection Hin as <-.
        unfold IsZero in Hst. to_prop. destruct Hst. split_and!; [done|done|lia].
  - destruct (refresh maxBody get (iss_config profile)) as [keys|err] eqn:Hrf; injection H as <- <-.
    + split_and!; [done|auto| |done]. intros k Hin. left. exists keys. split; [done|].
      destruct (keys !! kid); [|done]. congruence.
    + split_and!; done.
Qed.







Lemma new_issuer_ok insecure profile issuers issuers' : new_issuer insecure profile issuers = Ok issuers' ->
  (forall name p, issuers !! name = Some p -> issuer_ok name p /\ iss_keys p = ∅) ->
  (forall name p, issuers' !! name = Some p -> issuer_ok name p /\ iss_keys p = ∅).
Proof.
  unfold new_issuer. destruct (url_Parse (Issuer profile)); [|done]. cbv zeta.
  destruct (_ || negb (_ || _)); [done|]. destruct (is_some _); [done|]. destruct (_ || _) eqn:Hb; [done|]. destruct (forallb _ _) eqn:Hal; [cbn [negb]|done]. intros [= <-] Hall name p.
  destruct (decide (TrimSuffix (Issuer profile) "/" = name)) as [<-|Hne].
  - rewrite lookup_insert_eq. intros [= <-]. split; [|done]. unfold issuer_ok. cbn [iss_config iss_keys Issuer RefreshAfter MaxStale
      ClockSkew Audiences Algorithms MaxKeys]. unfold llen in Hb. to_prop.
    destruct Hb as [[[[[Hau _] Hr] Hs] Hc] Hm]. split_and!; try done; try lia.
    + intros E. by rewrite E in Hau.
    + apply List.Forall_forall. intros a Hin. rewrite forallb_forall in Hal. specialize (Hal a Hin).
      unfold one_of_str in Hal. apply existsb_exists in Hal as (b & Hb & ->%String.eqb_eq). by apply list_elem_of_In.
    + rewrite map_size_empty. lia.
  - rewrite lookup_insert_ne by done. auto.
Qed.

Lemma new_provider_ok profiles timeout maxBody insecure p : NewOIDCProvider profiles timeout maxBody insecure = Ok p ->
  provider_ok p /\ (forall name profile, prov_issuers p !! name = Some profile -> iss_keys profile = ∅).
Proof.
  unfold NewOIDCProvider. case_match; [done|]. destruct timeout; [|done]. case_match; [done|].
  rewrite result_bind_Ok. intros (issuers & Hf & [= <-]). unfold provider_ok. cbn [prov_issuers].
  assert (Hempty : forall name p, (∅ : gmap string issuer) !! name = Some p -> issuer_ok name p /\ iss_keys p = ∅)
    by (intros ? ?; by rewrite lookup_empty).
  enough (forall name p, issuers !! name = Some p -> issuer_ok name p /\ iss_keys p = ∅) as Hall
    by (split; intros name p Hp; apply (Hall name p Hp)). revert Hf Hempty. generalize (∅ : gmap string issuer).
  clear. induction profiles as [|profile l IH]; cbn [foldl]; intros m Hf Hm; [by injection Hf as <-|].
  cbn [mbind result_bind] in Hf. destruct (new_issuer insecure profile m) as [m'|] eqn:E.
  - apply (IH m'); [done|]. by eapply new_issuer_ok.
  - exfalso. clear -Hf. induction l as [|q l IH]; cbn [foldl] in Hf; [done|]. auto.
Qed.

Lemma Verify_state provider get now now' token provider' reply :
  Verify provider get now now' token = (provider', reply) -> provider_ok provider ->
  provider_ok provider' /\
  (forall name, iss_config <$> prov_issuers provider' !! name = iss_config <$> prov_issuers provider !! name).
Proof.
  unfold Verify. intros H Hok.
  destruct (splitToken token) as [[[[header payload] signature] signed]|]; [|by injection H as <- <-].
  destruct (decode_document _ _ _ _ header) as [metadata|]; [|by injection H as <- <-].
  case_match; [by injection H as <- <-|]. destruct (decode_claims payload) as [raw|]; [|by injection H as <- <-].
  destruct (claim raw "iss") as [[| | |name| |]|]; try (by injection H as <- <-).
  destruct (prov_issuers provider !! name) as [profile|] eqn:Hp; [|by injection H as <- <-].
  case_match; [by injection H as <- <-|]. destruct (provider_key _ _ _ _ _) as [profile' r] eqn:Hk.
  injection H as <- <-. apply (provider_key_spec _ _ name) in Hk as (Hc & Ho & _); [|by apply Hok].
  split.
  - intros n q. unfold set_issuers. cbn [prov_issuers]. destruct (decide (name = n)) as [<-|Hne].
    + rewrite lookup_insert_eq. by intros [= <-].
    + rewrite lookup_insert_ne by done. apply Hok.
  - intros n. unfold set_issuers. cbn [prov_issuers]. destruct (decide (name = n)) as [<-|Hne].
    + rewrite lookup_insert_eq, Hp. cbn. by rewrite Hc.
    + by rewrite lookup_insert_ne.
Qed.

(** A sequence of verifications: for each the replies of the identity provider, the
    two clock readings and the token. *)
Definition run_verify (calls : list ((string -> result (Z * string)) * Z * Z * string)) (provider : Provider) : Provider :=
  foldl (fun p call => let '(get, now, now', token) := call in fst (Verify p get now now' token)) provider calls.

(** What the keys an issuer holds come from: none were ever loaded, or the replies to one
    of the verifications yielded exactly these keys, at the time they are stamped with. *)
Definition issuer_loaded (calls : list ((string -> result (Z * string)) * Z * Z * string)) (maxBody : Z)
    (profile : issuer) : Prop :=
  iss_keys profile = ∅ \/
  exists get now now' token, (get, now, now', token) ∈ calls /\
    refresh maxBody get (iss_config profile) = Ok (iss_keys profile) /\ iss_loaded profile = now.

Definition provider_loaded (calls : list ((string -> result (Z * string)) * Z * Z * string)) (provider : Provider) : Prop :=
  forall name profile, prov_issuers provider !! name = Some profile -> issuer_loaded calls (prov_maxBody provider) profile.


Lemma issuer_loaded_mono calls more maxBody profile :
  issuer_loaded calls maxBody profile -> issuer_loaded (calls ++ more) maxBody profile.
Proof.
  intros [He|(g & n & n' & t & Hin & H)]; [by left|]. right. exists g, n, n', t. split; [|done]. apply elem_of_app. by left.
Qed.


Lemma provider_key_loaded calls maxBody get profile kid now now' token profile' reply :
  provider_key maxBody get profile kid now = (profile', reply) -> issuer_loaded calls maxBody profile ->
  issuer_loaded (calls ++ [(get, now, now', token)]) maxBody profile'.
Proof.
  intros H Hl. apply (issuer_loaded_mono _ [(get, now, now', token)]) in Hl. unfold provider_key in H. cbv zeta in H.
  assert (Hnew : forall keys, refresh maxBody get (iss_config profile) = Ok keys ->
            issuer_loaded (calls ++ [(get, now, now', token)]) maxBody (mkIssuer (iss_config profile) keys now)).
  { intros keys Hr. right. exists get, now, now', token. split; [|done].
    apply elem_of_app. right. by apply list_elem_of_singleton. }
  destruct (iss_keys profile !! kid); [destruct (_ && _) in H; [by injection H as <- _|]|];
    (destruct (refresh maxBody get (iss_config profile)) as [keys|err]; injection H as <- _; [by apply Hnew|done]).
Qed.

Lemma Verify_loaded calls provider get now now' token provider' reply :
  Verify provider get now now' token = (provider', reply) -> provider_loaded calls provider ->
  prov_maxBody provider' = prov_maxBody provider /\ provider_loaded (calls ++ [(get, now, now', token)]) provider'.
Proof.
  unfold Verify. intros H Hl.
  assert (Hsame : provider_loaded (calls ++ [(get, now, now', token)]) provider)
    by (intros n q Hq; apply issuer_loaded_mono, (Hl n q Hq)).
  destruct (splitToken token) as [[[[header payload] signature] signed]|]; [|by injection H as <- <-].
  destruct (decode_document _ _ _ _ header) as [metadata|]; [|by injection H as <- <-].
  case_match; [by injection H as <- <-|]. destruct (decode_claims payload) as [raw|]; [|by injection H as <- <-].
  destruct (claim raw "iss") as [[| | |name| |]|]; try (by injection H as <- <-).
  destruct (prov_issuers provider !! name) as [profile|] eqn:Hp; [|by injection H as <- <-].
  case_match; [by injection H as <- <-|]. destruct (provider_key _ _ _ _ _) as [profile' r] eqn:Hk.
  injection H as <- <-. split; [done|]. intros n q. unfold set_issuers. cbn [prov_issuers prov_maxBody].
  destruct (decide (name = n)) as [<-|Hne].
  - rewrite lookup_insert_eq. intros [= <-]. eapply provider_key_loaded; [exact Hk|]. by apply (Hl name).
  - rewrite lookup_insert_ne by done. apply Hsame.
Qed.

(** A provider the constructor accepts, after any verifications. *)
Lemma run_verify_ok calls provider : provider_ok provider -> provider_loaded [] provider ->
  let provider' := run_verify calls provider in
  provider_ok provider' /\ provider_loaded calls provider' /\ prov_maxBody provider' = prov_maxBody provider /\
  (forall name, iss_config <$> prov_issuers provider' !! name = iss_config <$> prov_issuers provider !! name).
Proof.
  intros Hok Hl. induction calls as [|[[[get now] now'] token] calls IH] using rev_ind; [done|]. cbv zeta in *.
  unfold run_verify in *. rewrite foldl_app. cbn [foldl]. destruct IH as (Ho & Hld & Hm & Hc).
  set (p := foldl _ provider calls) in *. destruct (Verify p get now now' token) as [q reply] eqn:E. cbn [fst].
  pose proof (Verify_state _ _ _ _ _ _ _ E Ho) as [Ho' Hc']. pose proof (Verify_loaded _ _ _ _ _ _ _ _ E Hld) as [Hm' Hld'].
  split_and!; [done|done|congruence|]. intros name. by rewrite Hc'.
Qed.

(** ** Properties *)

(** C24: the keys a provider trusts stay bounded and strong.  Starting from a provider
    the constructor accepts, whatever tokens arrive and whatever the identity
    providers answer (or fail to), after any number of verifications the
    configuration of every issuer is what it was, each holds at most its maximum of
    keys under non-empty identifiers, and each key is an RSA key of at least 2048
    bits with an exponent of at least 3, a P-256 point on its curve, or an Ed25519
    key of 32 bytes. *)
Theorem provider_keys_bounded (profiles : list IssuerConfig) (timeout : option Z) (maxBody : Z) (insecure : bool)
    (provider : Provider) (calls : list ((string -> result (Z * string)) * Z * Z * string))
    (Hnew : NewOIDCProvider profiles timeout maxBody insecure = Ok provider) :
  let provider' := run_verify calls provider in
  (forall name, iss_config <$> prov_issuers provider' !! name = iss_config <$> prov_issuers provider !! name) /\
  (forall name profile, prov_issuers provider' !! name = Some profile ->
     Z.of_nat (size (iss_keys profile)) <= MaxKeys (iss_config profile) /\
     forall kid key, iss_keys profile !! kid = Some key -> key_ok key /\ kid <> EmptyString).
Proof.
  intros provider'. apply new_provider_ok in Hnew as [Hnew Hload].
  destruct (run_verify_ok calls provider Hnew (fun name p Hp => or_introl (Hload name p Hp))) as (Hok & _ & _ & Hc). split; [done|]. intros name profile Hp.
  destruct (Hok name profile Hp) as (_ & _ & _ & _ & _ & _ & Hk & Hn). done.
Qed.

End Verify.

(** A provider with one Ed25519 key; the primitive accepts one signature. *)
Definition ex_profile : IssuerConfig :=
  mkIssuerConfig "https://id.example.com" ["tg"] [] ["EdDSA"] Hour Hour Second 4.
Definition ex_ed25519 (key message signature : string) : bool := String.eqb signature "sig".
Definition ex_get (endpoint : string) : result (Z * string) :=
  if String.eqb endpoint "https://id.example.com/.well-known/openid-configuration" then
    Ok (200, quoted "{'issuer':'https://id.example.com','jwks_uri':'https://id.example.com/keys'}")
  else Ok (200, quoted ("{'keys':[{'kty':'OKP','kid':'k1','crv':'Ed25519','x':'" +:+
                 b64_encode (str_of (replicate 32 (byte 7))) +:+ "'}]}")).
Definition ex_provider : Provider :=
  mkProvider 1048576 {["https://id.example.com"%string := mkIssuer ex_profile ∅ 0]}.
Definition ex_token : string :=
  b64_encode (quoted "{'alg':'EdDSA','kid':'k1'}") +:+ "." +:+
  b64_encode (quoted "{'iss':'https://id.example.com','aud':'tg','exp':2000000000,'sub':'u'}") +:+ "." +:+
  b64_encode "sig".
Definition ex_now : Z := unix_epoch + 1700000000 * Second.

#[local] Notation ex_Verify := (Verify (fun _ _ _ _ => false) (fun _ _ _ _ _ => false) ex_ed25519 (fun _ _ => false)).

Lemma provider_keys_bounded_witness :
  let provider' := run_verify (fun _ _ _ _ => false) (fun _ _ _ _ _ => false) ex_ed25519 (fun _ _ => false)
                     [(ex_get, ex_now, ex_now, ex_token)] ex_provider in
  exists profile, prov_issuers provider' !! "https://id.example.com"%string = Some profile /\
    Z.of_nat (size (iss_keys profile)) <= MaxKeys (iss_config profile).
Proof.
  assert (H : NewOIDCProvider [ex_profile] (Some Second) 0 false = Ok ex_provider) by (vm_compute; reflexivity).
  destruct (provider_keys_bounded (fun _ _ _ _ => false) (fun _ _ _ _ _ => false) ex_ed25519 (fun _ _ => false)
    [ex_profile] (Some Second) 0 false ex_provider [(ex_get, ex_now, ex_now, ex_token)] H) as [Hc Hk].
  intros provider'. specialize (Hc "https://id.example.com"%string). fold provider' in Hc, Hk.
  destruct (prov_issuers provider' !! "https://id.example.com"%string) as [profile|] eqn:E; [|discriminate].
  exists profile. split; [reflexivity|]. exact (proj1 (Hk _ _ E)).
Defined.

