(* ===== verification/Projection.v ===== *)
(** * Resource projections

    [internal/resourceprojection/projection.go]: the compiled rules that select
    the members of the resource object from canonical arguments by JSON Pointer
    or literal, and the canonical bytes and digest of that object.  [jcs.Format]
    is a parameter, as in [CanonicalJson]. *)
From Stdlib Require Import Ascii String.
From S2P Require Import Prelude GoStd Regex Sha256 Json JsonParse Primitives ToolCatalog CanonicalJson.

Definition ErrInvalidDefinition : goerror := ErrNew "invalid resource projection definition".
Definition ErrInvalidArguments : goerror := ErrNew "invalid normalized arguments".
Definition ErrMissing : goerror := ErrNew "required resource projection value is missing".
Definition ErrType : goerror := ErrNew "resource projection value has the wrong type".
Definition ErrProjectionLimit : goerror := ErrNew "resource projection limit exceeded".

Definition defaultMaxFields : Z := 32.
Definition defaultMaxOutputSize : Z := Z.shiftl 16 10.

(** [Type]: any, string, number, boolean, object, array, null. *)
Definition projection_types : list string :=
  ["any"; "string"; "number"; "boolean"; "object"; "array"; "null"]%string.
Definition validType (value : string) : bool := one_of_str value projection_types.

Record Field := mkProjectionField {
  pf_Name : string;
  pf_Pointer : string;
  pf_Literal : jvalue;
  pf_Required : bool;
  pf_Type : string;
}.

Record ProjectionDefinition := mkProjectionDefinition {
  pd_Fields : list Field;
  pd_MaxFields : Z;
  pd_MaxOutputBytes : Z;
}.

Record Projection := mkProjected {
  prj_Value : list (string * jvalue);
  prj_Canonical : string;
  prj_Digest : Digest;
}.

Record compiledField := mkCompiled {
  cf_name : string;
  cf_tokens : list string;
  cf_literal : jvalue;
  cf_isLiteral : bool;
  cf_required : bool;
  cf_typeName : string;
}.

(** ** Pointers *)

(** The unescaped reference token. *)
Fixpoint unescape (part : string) : option string :=
  match part with
  | EmptyString => Some EmptyString
  | String c rest =>
      if Ascii.eqb c "~" then
        match rest with
        | String d rest =>
            if Ascii.eqb d "0" then String "~" <$> unescape rest
            else if Ascii.eqb d "1" then String "/" <$> unescape rest
            else None
        | EmptyString => None
        end
      else String c <$> unescape rest
  end.

Definition parsePointer (pointer : string) : result (list string) :=
  match pointer with
  | String c rest =>
      if Ascii.eqb c "/" then
        match mapM unescape (split_on "/" rest) with
        | Some tokens => Ok tokens
        | None => Err (ErrNew "invalid pointer escape")
        end
      else Err (ErrNew "pointer must be non-empty and start with slash")
  | EmptyString => Err (ErrNew "pointer must be non-empty and start with slash")
  end.

(** [strconv.Atoi]: an optional sign and digits, within [int]. *)
Definition Atoi (s : string) : option Z :=
  let '(sign, digits) :=
    match s with
    | String c r => if Ascii.eqb c "-" then (-1, r) else if Ascii.eqb c "+" then (1, r) else (1, s)
    | EmptyString => (1, s)
    end in
  if (slen digits =? 0) || negb (str_forallb is_digit digits) then None
  else
    let n := sign * digits_val digits in
    if (min_int64 <=? n) && (n <=? max_int64) then Some n else None.

Fixpoint lookup_member (key : string) (members : list (string * jvalue)) : option jvalue :=
  match members with
  | [] => None
  | (k, v) :: members => if String.eqb k key then Some v else lookup_member key members
  end.

Definition leading_zero (token : string) : bool :=
  match token with String c (String _ _) => Ascii.eqb c "0" | _ => false end.

Definition resolve_token (current : jvalue) (token : string) : option jvalue :=
  match current with
  | JObject members => lookup_member token members
  | JArray node =>
      if String.eqb token "-" || leading_zero token then None
      else
        match Atoi token with
        | None => None
        | Some index =>
            if (index <? 0) || (llen node <=? index) then None else node !! Z.to_nat index
        end
  | _ => None
  end.

Fixpoint resolve (current : jvalue) (tokens : list string) : option jvalue :=
  match tokens with
  | [] => Some current
  | token :: tokens =>
      match resolve_token current token with
      | Some next => resolve next tokens
      | None => None
      end
  end.

Definition matches_type (expected : string) (v : jvalue) : bool :=
  if String.eqb expected "any" then true
  else if String.eqb expected "string" then match v with JString _ => true | _ => false end
  else if String.eqb expected "number" then match v with JNumber _ => true | _ => false end
  else if String.eqb expected "boolean" then match v with JBool _ => true | _ => false end
  else if String.eqb expected "object" then match v with JObject _ => true | _ => false end
  else if String.eqb expected "array" then match v with JArray _ => true | _ => false end
  else if String.eqb expected "null" then is_nil v
  else false.

(** ** Projection *)

(** [errors.Is(err, target)] for a target made by [errors.New]. *)
Fixpoint wraps (target : string) (err : goerror) : bool :=
  match err with
  | ErrNew msg => String.eqb msg target
  | ErrDomain _ _ cause => match cause with Some inner => wraps target inner | None => false end
  | ErrWrap _ inner => wraps target inner
  end.

Definition only_bytes (n : Z) : CanonicalJson.Limits := CanonicalJson.mkLimits n 0 0 0 0.

Section Project.
Context (jcs_Format : jvalue -> result string).

Definition jsonSafe (v : jvalue) : bool :=
  is_ok (Canonicalize jcs_Format (json_Marshal v) (only_bytes defaultMaxOutputSize)).

Definition bad_definition {A} (detail : string) : result A := Err (ErrWrap detail ErrInvalidDefinition).

Fixpoint compile_fields (seen : gset string) (fields : list Field) : result (list compiledField) :=
  match fields with
  | [] => Ok []
  | field :: fields =>
      if String.eqb (pf_Name field) "" || (128 <? slen (pf_Name field))
         || contains_any (pf_Name field) NUL_CR_LF then bad_definition "invalid output field name"
      else if bool_decide (pf_Name field ∈ seen) then
        bad_definition "ambiguous duplicate output field"
      else
        let hasPointer := negb (String.eqb (pf_Pointer field) "") in
        let hasLiteral := negb (is_nil (pf_Literal field)) in
        let typeName := if String.eqb (pf_Type field) "" then "any"%string else pf_Type field in
        if Bool.eqb hasPointer hasLiteral then bad_definition "field must have exactly one source"
        else if negb (validType typeName) then bad_definition "field has unknown type"
        else
          (if hasPointer then
             match parsePointer (pf_Pointer field) with
             | Ok tokens => Ok tokens
             | Err _ => bad_definition "pointer"
             end
           else if jsonSafe (pf_Literal field) then Ok []
           else bad_definition "literal is not safe JSON") ≫= fun tokens =>
          compile_fields ({[pf_Name field]} ∪ seen) fields ≫= fun compiled =>
          Ok (mkCompiled (pf_Name field) tokens (pf_Literal field) hasLiteral (pf_Required field)
                typeName :: compiled)
  end.

Definition compile (definition : ProjectionDefinition) : result (list compiledField * Z) :=
  let maxFields := if pd_MaxFields definition =? 0 then defaultMaxFields else pd_MaxFields definition in
  let maxOutput := if pd_MaxOutputBytes definition =? 0 then defaultMaxOutputSize
                   else pd_MaxOutputBytes definition in
  if (maxFields <? 1) || (maxOutput <? 2) || (llen (pd_Fields definition) =? 0)
     || (maxFields <? llen (pd_Fields definition)) then
    bad_definition "invalid limits or field count"
  else
    compile_fields ∅ (pd_Fields definition) ≫= fun compiled => Ok (compiled, maxOutput).

(** The value a rule selects. *)
Definition select (root : jvalue) (field : compiledField) : option jvalue :=
  if cf_isLiteral field then Some (cf_literal field) else resolve root (cf_tokens field).

Fixpoint select_all (root : jvalue) (fields : list compiledField) : result (list (string * jvalue)) :=
  match fields with
  | [] => Ok []
  | field :: fields =>
      match select root field with
      | None =>
          if cf_required field then Err (ErrWrap (cf_name field) ErrMissing) else select_all root fields
      | Some selected =>
          if negb (matches_type (cf_typeName field) selected) then Err (ErrWrap (cf_name field) ErrType)
          else select_all root fields ≫= fun rest => Ok ((cf_name field, selected) :: rest)
      end
  end.

Definition Project (arguments : Result) (definition : ProjectionDefinition) : result Projection :=
  compile definition ≫= fun '(fields, maxOutput) =>
  let canonical := Canonical arguments in
  if negb (String.eqb (res_Profile arguments) Profile) || (slen canonical =? 0) then
    Err (ErrWrap "canonical profile" ErrInvalidArguments)
  else if negb match Canonicalize jcs_Format canonical (only_bytes (slen canonical)) with
               | Ok recanonical => String.eqb recanonical canonical
               | Err _ => false
               end
          || negb (String.eqb (domain_digest ArgumentDomain canonical) (res_Digest arguments)) then
    Err (ErrWrap "canonical bytes or digest" ErrInvalidArguments)
  else
    match Parse canonical (only_bytes (slen canonical)) with
    | Err _ => Err (ErrWrap "parse" ErrInvalidArguments)
    | Ok root =>
        select_all root fields ≫= fun selected =>
        match Canonicalize jcs_Format (json_Marshal (JObject selected)) (only_bytes maxOutput) with
        | Err err =>
            if wraps "canonical JSON limit exceeded" err
            then Err (ErrWrap "output bytes" ErrProjectionLimit)
            else Err (ErrWrap "canonicalize resource projection" err)
        | Ok output =>
            if maxOutput <? slen output then Err (ErrWrap "output bytes" ErrProjectionLimit)
            else
              match Parse output (only_bytes maxOutput) with
              | Err err => Err (ErrWrap "parse canonical resource projection" err)
              | Ok (JObject detached) =>
                  Ok (mkProjected detached output (domain_digest ResourceDomain output))
              | Ok _ => Err (ErrNew "canonical resource projection is not an object")
              end
        end
    end.
End Project.

(** ** Specification: the RFC 6901 text of a list of reference tokens *)

Fixpoint escape (token : string) : string :=
  match token with
  | EmptyString => EmptyString
  | String c rest =>
      if Ascii.eqb c "~" then "~0" +:+ escape rest
      else if Ascii.eqb c "/" then "~1" +:+ escape rest
      else String c (escape rest)
  end.

Definition pointer_of (tokens : list string) : string :=
  foldr (fun token text => "/" +:+ escape token +:+ text) EmptyString tokens.

(** The texts the code reads as the array index [i]: decimal digits without a leading
    zero, and, beyond RFC 6901, digits after a plus sign or zeros after a minus sign. *)
Definition index_token (token : string) (i : nat) : Prop :=
  exists digits, digits <> EmptyString /\ str_forallb is_digit digits = true /\
    digits_val digits = Z.of_nat i /\ digits_val digits <= max_int64 /\
    ((token = digits /\ forall c r, digits = String c r -> c = "0"%char -> r = EmptyString) \/
     token = ("+" +:+ digits)%string \/ (token = ("-" +:+ digits)%string /\ i = 0%nat)).

(** The value at the end of a path of reference tokens. *)
Inductive at_path : jvalue -> list string -> jvalue -> Prop :=
| at_here v : at_path v [] v
| at_member members name child path v :
    (list_to_map members : gmap string jvalue) !! name = Some child -> at_path child path v ->
    at_path (JObject members) (name :: path) v
| at_element items token i child path v :
    index_token token i -> items !! i = Some child -> at_path child path v ->
    at_path (JArray items) (token :: path) v.

(** The values of a declared type; an empty type is "any". *)
Inductive has_type : string -> jvalue -> Prop :=
| type_unset v : has_type "" v
| type_any v : has_type "any" v
| type_string s : has_type "string" (JString s)
| type_number n : has_type "number" (JNumber n)
| type_boolean b : has_type "boolean" (JBool b)
| type_object members : has_type "object" (JObject members)
| type_array items : has_type "array" (JArray items)
| type_null : has_type "null" JNull.

(** A rule finds its literal, or the value its pointer leads to. *)
Inductive finds (root : jvalue) (field : Field) : jvalue -> Prop :=
| finds_literal : pf_Pointer field = EmptyString -> pf_Literal field <> JNull ->
    finds root field (pf_Literal field)
| finds_pointer path v : pf_Literal field = JNull -> path <> [] ->
    pf_Pointer field = pointer_of path -> at_path root path v -> finds root field v.

(** The rule is met with this selection. *)
Definition rule_met (root : jvalue) (selected : list (string * jvalue)) (field : Field) : Prop :=
  (forall v, finds root field v -> has_type (pf_Type field) v /\ (pf_Name field, v) ∈ selected) /\
  (pf_Required field = true -> exists v, finds root field v).

Definition or_default (value fallback : Z) : Z := if decide (value = 0) then fallback else value.

(** ** Lemmas *)

Lemma unescape_escape token : unescape (escape token) = Some token.
Proof.
  induction token as [|c token IH]; [done|]. cbn [escape].
  destruct (Ascii.eqb_spec c "~") as [->|H1]; [simpl; by rewrite IH|].
  destruct (Ascii.eqb_spec c "/") as [->|H2]; [simpl; by rewrite IH|].
  cbn [unescape]. destruct (Ascii.eqb_spec c "~"); [done|]. by rewrite IH.
Qed.

Lemma split_escape token text : split_on "/" (escape token +:+ text) =
  match split_on "/" text with
  | [] => [escape token]
  | piece :: rest => (escape token +:+ piece) :: rest
  end.
Proof.
  assert (Hne : forall s, split_on "/" s <> []).
  { induction s as [|c s IH]; [done|]. simpl. case_match; [done|]. by case_match. }
  induction token as [|c token IH]; cbn [escape].
  - simpl. specialize (Hne text). by destruct (split_on "/" text).
  - destruct (Ascii.eqb_spec c "~") as [->|H1];
      [simpl; change (escape token +:+ text) with ((escape token ++ text)%string) in IH; rewrite IH;
       by destruct (split_on "/" text)|].
    destruct (Ascii.eqb_spec c "/") as [->|H2];
      [simpl; change (escape token +:+ text) with ((escape token ++ text)%string) in IH; rewrite IH;
       by destruct (split_on "/" text)|].
    change (String c (escape token) +:+ text) with (String c (escape token +:+ text)). cbn [split_on].
    destruct (Ascii.eqb_spec c "/"); [done|]. rewrite IH. by destruct (split_on "/" text).
Qed.

Lemma split_pointer token tokens :
  split_on "/" (escape token +:+ pointer_of tokens) = map escape (token :: tokens).
Proof.
  revert token. induction tokens as [|t tokens IH]; intros token; rewrite split_escape.
  - simpl. f_equal. induction (escape token) as [|c s IHs]; [done|]. simpl. by rewrite IHs.
  - cbn [pointer_of foldr]. fold (pointer_of tokens). cbn [split_on].
    change ("/" +:+ escape t +:+ pointer_of tokens) with (String "/" (escape t +:+ pointer_of tokens)).
    cbn [split_on]. rewrite Ascii.eqb_refl. rewrite IH. cbn [map]. f_equal.
    induction (escape token) as [|c s IHs]; [done|]. simpl. f_equal. exact IHs.
Qed.

Lemma unescape_all tokens : mapM unescape (map escape tokens) = Some tokens.
Proof.
  induction tokens as [|t tokens IH]; [done|]. cbn [map mapM]. rewrite unescape_escape. simpl.
  by rewrite IH.
Qed.

Lemma mapM_escape parts tokens : mapM unescape parts = Some tokens ->
  Forall (fun part => str_forallb (fun c => negb (Ascii.eqb c "/")) part = true) parts ->
  map escape tokens = parts.
Proof.
  intros H. apply mapM_Some in H. induction H as [|part token parts tokens Hu H IH]; [done|].
  intros [Hp Hps]%list.Forall_cons. cbn [map]. rewrite IH by done. f_equal. clear -Hu Hp.
  remember (String.length part) as n eqn:Hn. revert part token Hn Hu Hp.
  induction (lt_wf n) as [n _ IH]. intros [|c part] token -> Hu Hp; [by injection Hu as <-|].
  cbn [unescape] in Hu. cbn [str_forallb] in Hp. apply andb_true_iff in Hp as [Hc Hp].
  destruct (Ascii.eqb_spec c "~") as [->|Ht].
  - destruct part as [|d part]; [done|]. cbn [str_forallb] in Hp. apply andb_true_iff in Hp as [_ Hp].
    destruct (Ascii.eqb_spec d "0") as [->|]; [|destruct (Ascii.eqb_spec d "1") as [->|]; [|done]];
      apply fmap_Some in Hu as (rest & Hr & ->);
      cbn; f_equal; f_equal; (eapply IH; [|reflexivity|done|done]; simpl; lia).
  - apply fmap_Some in Hu as (rest & Hr & ->). cbn [escape].
    destruct (Ascii.eqb_spec c "~"); [done|]. destruct (Ascii.eqb_spec c "/"); [done|].
    f_equal. eapply IH; [|reflexivity|done|done]. simpl. lia.
Qed.

Lemma split_no_slash s :
  Forall (fun part => str_forallb (fun c => negb (Ascii.eqb c "/")) part = true) (split_on "/" s).
Proof.
  induction s as [|c s IH]; [by repeat constructor|]. cbn [split_on].
  destruct (Ascii.eqb c "/") eqn:Hc; [by constructor|].
  destruct (split_on "/" s) as [|part parts]; [by repeat constructor; cbn; rewrite Hc|].
  apply list.Forall_cons in IH as [Hp Hps]. constructor; [|done]. cbn. by rewrite Hc.
Qed.

Lemma join_split s : foldr (fun part text => "/" +:+ part +:+ text) EmptyString (split_on "/" s) = String "/" s.
Proof.
  assert (Hne : forall s, split_on "/" s <> []).
  { clear s. induction s as [|c s IH]; [done|]. simpl. case_match; [done|]. by case_match. }
  induction s as [|c s IH]; [done|]. cbn [split_on]. destruct (Ascii.eqb_spec c "/") as [->|Hc].
  - cbn [foldr]. rewrite IH. done.
  - specialize (Hne s). destruct (split_on "/" s) as [|part parts]; [done|]. cbn [foldr] in *.
    injection IH as IH. cbn. f_equal. f_equal. exact IH.
Qed.

(** The pointers that parse are the RFC 6901 texts, of one list of tokens each. *)
Lemma parsePointer_spec pointer tokens : parsePointer pointer = Ok tokens <->
  tokens <> [] /\ pointer = pointer_of tokens.
Proof.
  split.
  - unfold parsePointer. destruct pointer as [|c rest]; [done|].
    destruct (Ascii.eqb_spec c "/") as [->|]; [|done].
    destruct (mapM unescape (split_on "/" rest)) as [tokens'|] eqn:Hm; [|done]. intros [= ->].
    apply mapM_escape in Hm; [|apply split_no_slash]. rewrite <- join_split, <- Hm. split.
    + intros ->. specialize (join_split rest) as E. rewrite <- Hm in E. discriminate E.
    + clear. unfold pointer_of. induction tokens as [|x l IH]; [done|]. cbn in IH |- *. do 2 f_equal. exact IH.
  - intros [Hne ->]. destruct tokens as [|token tokens]; [done|].
    change (pointer_of (token :: tokens)) with (String "/" (escape token +:+ pointer_of tokens)).
    unfold parsePointer. rewrite Ascii.eqb_refl, split_pointer, unescape_all. done.
Qed.

Lemma lookup_member_map key members :
  lookup_member key members = (list_to_map members : gmap string jvalue) !! key.
Proof.
  induction members as [|[k v] members IH]; [done|]. cbn [lookup_member list_to_map foldr].
  cbn [uncurry fst snd]. destruct (String.eqb_spec k key) as [->|Hk].
  - by rewrite lookup_insert_eq.
  - rewrite lookup_insert_ne by done. exact IH.
Qed.

Lemma Atoi_sign token n : Atoi token = Some n -> exists sign digits,
  digits <> EmptyString /\ str_forallb is_digit digits = true /\ n = sign * digits_val digits /\
  min_int64 <= n <= max_int64 /\
  ((token = digits /\ sign = 1) \/ (token = ("+" +:+ digits)%string /\ sign = 1) \/
   (token = ("-" +:+ digits)%string /\ sign = -1)).
Proof.
  unfold Atoi. destruct (match token with EmptyString => _ | String c r => _ end) as [sign digits] eqn:Es.
  destruct (_ || _) eqn:Hd; [done|]. apply orb_false_iff in Hd as [Hl Hf]. apply negb_false_iff in Hf.
  destruct (_ && _) eqn:Hr; [|done]. intros [= <-]. apply andb_true_iff in Hr as [H1 H2].
  apply Z.leb_le in H1, H2. exists sign, digits. split_and!; [by intros ->|done|done|done|done|].
  destruct token as [|c r]; [injection Es as <- <-; by left|].
  destruct (Ascii.eqb_spec c "-") as [->|]; [injection Es as <- <-; by right; right|].
  destruct (Ascii.eqb_spec c "+") as [->|]; injection Es as <- <-; [by right; left|by left].
Qed.

Lemma digits_forall s : str_forallb is_digit s = true -> 0 <= digits_val s.
Proof.
  intros H. apply digits_val_nonneg. unfold bytes_of. induction s as [|c s IH]; [constructor|].
  cbn [str_forallb] in H. apply andb_true_iff in H as [Hc Hs]. cbn. constructor; [|by apply IH].
  unfold is_digit, byte_in in Hc. to_prop. lia.
Qed.

Lemma digit_not_sign c : is_digit c = true -> c <> "-"%char /\ c <> "+"%char.
Proof. intros H. split; intros ->; discriminate H. Qed.

Lemma Atoi_digits (sign : Z) digits token : digits <> EmptyString -> str_forallb is_digit digits = true ->
  min_int64 <= sign * digits_val digits <= max_int64 ->
  (token = digits /\ sign = 1) \/ (token = ("+" +:+ digits)%string /\ sign = 1) \/
  (token = ("-" +:+ digits)%string /\ sign = -1) ->
  Atoi token = Some (sign * digits_val digits).
Proof.
  intros Hne Hd [H1 H2] Ht. apply Z.leb_le in H1, H2.
  assert (Hl : (slen digits =? 0) = false) by (destruct digits; [done|]; apply Z.eqb_neq; unfold slen; simpl; lia).
  unfold Atoi. destruct Ht as [[-> ->]|[[-> ->]|[-> ->]]].
  - destruct digits as [|c r] eqn:E; [done|]. rewrite <- E in *.
    assert (Hc : is_digit c = true) by (rewrite E in Hd; cbn in Hd; by apply andb_true_iff in Hd as [? _]).
    apply digit_not_sign in Hc as [Hm Hp]. destruct (Ascii.eqb_spec c "-"); [done|].
    destruct (Ascii.eqb_spec c "+"); [done|]. by rewrite Hl, Hd, H1, H2.
  - cbn [append Ascii.eqb]. cbn -[slen digits_val Z.mul]. by rewrite Hl, Hd, H1, H2.
  - cbn -[slen digits_val Z.mul]. by rewrite Hl, Hd, H1, H2.
Qed.

Lemma resolve_element items token child :
  resolve_token (JArray items) token = Some child <->
  exists i, index_token token i /\ items !! i = Some child.
Proof.
  unfold resolve_token. split.
  - destruct (String.eqb token "-" || leading_zero token) eqn:Hz; [done|].
    apply orb_false_iff in Hz as [_ Hz]. destruct (Atoi token) as [n|] eqn:Ha; [|done].
    destruct (_ || _) eqn:Hb; [done|]. apply orb_false_iff in Hb as [Hb _]. apply Z.ltb_ge in Hb. intros Hi.
    exists (Z.to_nat n). split; [|done].
    apply Atoi_sign in Ha as (sign & digits & Hne & Hd & -> & Hr & Ht). pose proof (digits_forall _ Hd).
    exists digits. destruct Ht as [[-> ->]|[[-> ->]|[-> ->]]].
    + split_and!; [done|done|lia|lia|]. left. split; [done|]. intros c [|d r] -> ->; [done|discriminate Hz].
    + split_and!; [done|done|lia|lia|]. by right; left.
    + split_and!; [done|done|lia|unfold max_int64; lia|]. right; right. split; [done|lia].
  - intros (i & (digits & Hne & Hd & Hv & Hmax & Ht) & Hi).
    assert (Hz : (String.eqb token "-" || leading_zero token) = false).
    { destruct digits as [|c r]; [done|]. cbn in Hd. apply andb_true_iff in Hd as [Hc _].
      apply digit_not_sign in Hc as [Hm _]. destruct Ht as [[-> Hl]|[->|[-> _]]]; [|done|done].
      apply orb_false_iff. split; [by apply String.eqb_neq; intros [= -> ->]|].
      destruct r as [|d r]; [done|]. cbn [leading_zero].
      destruct (Ascii.eqb_spec c "0") as [->|]; [|done]. discriminate (Hl "0"%char (String d r) eq_refl eq_refl). }
    rewrite Hz. assert (Ha : Atoi token = Some (Z.of_nat i)).
    { destruct Ht as [[-> _]|[->|[-> ->]]].
      - rewrite (Atoi_digits 1 digits); [f_equal; lia|done|done|unfold min_int64; lia|by left].
      - rewrite (Atoi_digits 1 digits); [f_equal; lia|done|done|unfold min_int64; lia|by right; left].
      - rewrite (Atoi_digits (-1) digits); [f_equal; lia|done|done|unfold min_int64, max_int64; lia|by right; right]. }
    rewrite Ha, Nat2Z.id. apply lookup_lt_Some in Hi as Hlt. unfold llen.
    replace (Z.of_nat i <? 0) with false by (symmetry; apply Z.ltb_ge; lia).
    replace (Z.of_nat (length items) <=? Z.of_nat i) with false by (symmetry; apply Z.leb_gt; lia). exact Hi.
Qed.

(** Resolution finds the value at the end of the path, and only that one. *)
Lemma resolve_spec root path v : resolve root path = Some v <-> at_path root path v.
Proof.
  split.
  - revert root. induction path as [|token path IH]; intros root H; cbn [resolve] in H.
    { injection H as <-. constructor. }
    destruct (resolve_token root token) as [child|] eqn:Ht; [|done]. apply IH in H.
    destruct root as [| | | |items|members]; try done.
    + apply resolve_element in Ht as (i & Hi & Hc). by econstructor.
    + cbn in Ht. rewrite lookup_member_map in Ht. by econstructor.
  - induction 1 as [v|members name child path v Hc _ IH|items token i child path v Ht Hi _ IH]; [done| |].
    + cbn [resolve resolve_token]. by rewrite lookup_member_map, Hc.
    + cbn [resolve]. by rewrite (proj2 (resolve_element _ _ _) (ex_intro _ i (conj Ht Hi))).
Qed.

Lemma matches_type_spec typeName v : typeName <> EmptyString ->
  matches_type typeName v = true <-> has_type typeName v.
Proof.
  intros Hne. unfold matches_type. split.
  - repeat match goal with
           | |- context [String.eqb typeName ?name] =>
               destruct (String.eqb_spec typeName name) as [->|];
               [intros H; destruct v; try discriminate H; constructor|]
           end.
    intros H. discriminate H.
  - by destruct 1.
Qed.

(** ** Lemmas: rules *)

(** The compiled form of a rule. *)
Definition compiles_to (field : Field) (c : compiledField) : Prop :=
  cf_name c = pf_Name field /\ cf_required c = pf_Required field /\
  (forall v, matches_type (cf_typeName c) v = true <-> has_type (pf_Type field) v) /\
  (forall root v, select root c = Some v <-> finds root field v).

Lemma or_any_spec typeName v :
  matches_type (if String.eqb typeName "" then "any" else typeName) v = true <-> has_type typeName v.
Proof.
  destruct (String.eqb_spec typeName "") as [->|Hne]; [|by apply matches_type_spec].
  split; [constructor|done].
Qed.

Lemma select_literal field root v : pf_Pointer field = EmptyString -> pf_Literal field <> JNull ->
  Some (pf_Literal field) = Some v <-> finds root field v.
Proof.
  intros Hp Hl. split; [intros [= <-]; by constructor|].
  destruct 1 as [|path v Hn Hne Hq _]; [done|]. by destruct path.
Qed.

Lemma select_pointer field tokens root v : parsePointer (pf_Pointer field) = Ok tokens ->
  pf_Literal field = JNull -> resolve root tokens = Some v <-> finds root field v.
Proof.
  intros Hp Hl. pose proof (proj1 (parsePointer_spec _ _) Hp) as [Hne Ht]. rewrite resolve_spec. split.
  - intros Hv. by econstructor.
  - destruct 1 as [|path v _ Hne' Ht' Hv]; [done|].
    assert (E : parsePointer (pf_Pointer field) = Ok path) by (by apply parsePointer_spec).
    rewrite Hp in E. by injection E as ->.
Qed.

Lemma is_nil_spec v : is_nil v = true <-> v = JNull.
Proof. by destruct v. Qed.

Lemma compile_fields_spec jcs seen fields compiled : compile_fields jcs seen fields = Ok compiled ->
  Forall2 compiles_to fields compiled /\ NoDup (pf_Name <$> fields) /\
  (forall n, n ∈ pf_Name <$> fields -> n ∉ seen).
Proof.
  revert seen compiled. induction fields as [|f fields IH]; intros seen compiled H; cbn [compile_fields] in H.
  - injection H as <-. split_and!; [constructor|constructor|set_solver].
  - destruct (_ || _); [done|]. destruct (bool_decide _) eqn:Hn; [done|]. apply bool_decide_eq_false in Hn.
    destruct (Bool.eqb _ _) eqn:Hs; [done|]. destruct (negb (validType _)); [done|].
    apply result_bind_Ok in H as (tokens & Ht & H). apply result_bind_Ok in H as (rest & Hr & [= <-]).
    destruct (IH _ _ Hr) as (Hc & Hnd & Hseen). cbn [fmap list_fmap]. split_and!.
    + constructor; [|done]. unfold compiles_to. cbn [cf_name cf_required cf_typeName].
      split_and!; [done|done|intros v; apply or_any_spec|]. intros root v. unfold select.
      cbn [cf_isLiteral cf_literal cf_tokens].
      destruct (String.eqb_spec (pf_Pointer f) "") as [Hp|Hp], (is_nil (pf_Literal f)) eqn:Hl; try done;
        cbn [negb] in *.
      * apply select_literal; [done|]. intros E. by rewrite E in Hl.
      * apply is_nil_spec in Hl. destruct (parsePointer (pf_Pointer f)) as [tokens'|] eqn:Hq; [|done].
        injection Ht as <-. by apply select_pointer.
    + apply list.NoDup_cons. split; [|done]. intros Hin. apply Hseen in Hin. set_solver.
    + intros n [->|Hin]%elem_of_cons; [done|]. apply Hseen in Hin. set_solver.
Qed.

Lemma select_all_spec root fields compiled selected : Forall2 compiles_to fields compiled ->
  select_all root compiled = Ok selected ->
  selected.*1 `sublist_of` pf_Name <$> fields /\ Forall (rule_met root selected) fields /\
  forall n v, (n, v) ∈ selected -> exists field, field ∈ fields /\ n = pf_Name field /\ finds root field v.
Proof.
  intros H. revert selected.
  induction H as [|field c fields compiled (Hname & Hreq & Htype & Hsel) _ IH]; intros selected H; cbn [select_all] in H.
  { injection H as <-. split_and!; [constructor|constructor|set_solver]. }
  assert (Hmono : forall x l, Forall (rule_met root l) fields -> Forall (rule_met root (x :: l)) fields).
  { intros x l. apply Forall_impl. intros f [H1 H2]. split; [|done]. intros v Hv. apply H1 in Hv as [? ?].
    split; [done|]. by apply elem_of_cons; right. }
  destruct (select root c) as [v|] eqn:Hs.
  - destruct (matches_type (cf_typeName c) v) eqn:Hm; [|done]. cbn [negb] in H.
    apply result_bind_Ok in H as (rest & Hr & [= <-]). destruct (IH _ Hr) as (Hsub & Hmet & Hfrom).
    rewrite Hname. apply Hsel in Hs as Hf. apply Htype in Hm. cbn [fmap list_fmap fst]. split_and!.
    + by constructor.
    + constructor; [|by apply Hmono]. split; [|by eauto]. intros w Hw. apply Hsel in Hw.
      rewrite Hs in Hw. injection Hw as ->. split; [done|]. apply list_elem_of_here.
    + intros n w [E|Hin]%elem_of_cons.
      * injection E as -> ->. exists field. split_and!; [apply list_elem_of_here|done|done].
      * destruct (Hfrom _ _ Hin) as (f & Hf' & Hn & Hw). exists f. split_and!; [by apply elem_of_cons; right|done|done].
  - destruct (cf_required c) eqn:Hq; [done|]. destruct (IH _ H) as (Hsub & Hmet & Hfrom).
    assert (Hnone : forall v, ~ finds root field v) by (intros v Hv; apply Hsel in Hv; by rewrite Hs in Hv).
    split_and!; [by constructor| |].
    + constructor; [|done]. split; [intros v Hv; by apply Hnone in Hv|]. intros Hr. by rewrite <- Hreq in Hr.
    + intros n w Hin. destruct (Hfrom _ _ Hin) as (f & Hf & Hn & Hw).
      exists f. split_and!; [by apply elem_of_cons; right|done|done].
Qed.

Lemma compile_spec jcs definition fields maxOutput : compile jcs definition = Ok (fields, maxOutput) ->
  Forall2 compiles_to (pd_Fields definition) fields /\ NoDup (pf_Name <$> pd_Fields definition) /\
  maxOutput = or_default (pd_MaxOutputBytes definition) 16384 /\
  1 <= llen (pd_Fields definition) <= or_default (pd_MaxFields definition) 32.
Proof.
  unfold compile. intros H. destruct (_ || _) eqn:Hb; [done|].
  apply result_bind_Ok in H as (compiled & Hc & [= <- <-]).
  apply compile_fields_spec in Hc as (Hall & Hnd & _). split_and!; [done|done| | |].
  - unfold or_default. by destruct (Z.eqb_spec (pd_MaxOutputBytes definition) 0), (decide _).
  - apply orb_false_iff in Hb as [Hb _]. apply orb_false_iff in Hb as [_ Hb]. apply Z.eqb_neq in Hb.
    unfold llen in *. lia.
  - apply orb_false_iff in Hb as [_ Hb]. apply Z.ltb_ge in Hb. unfold or_default.
    by destruct (Z.eqb_spec (pd_MaxFields definition) 0), (decide _).
Qed.

(** The bytes digested for arguments and for resources never coincide. *)
Lemma domains_separate a b : ArgumentDomain +:+ a <> ResourceDomain +:+ b.
Proof. unfold ArgumentDomain, ResourceDomain. simpl. discriminate. Qed.

(** ** Theorems *)

(** C39: a projection that succeeds was given arguments of the canonical profile whose
    bytes are in canonical form under their own digest.  The selected object has
    distinct names and holds exactly the values the definition's rules find in the
    arguments, each under the name of its rule: a rule finds its literal, or the value
    at the end of its RFC 6901 pointer, array indices counted from zero (a plus sign
    before an index, and zeros after a minus sign, are accepted beyond RFC 6901).
    Every value found has the type its rule declares, every required rule finds one,
    and there are at most MaxFields rules (32 if 0).  The returned bytes are the
    canonical form of that object, at most MaxOutputBytes long (16 KiB if 0), read
    back to the returned value and digested under the resource domain. *)
Theorem projection_selects jcs arguments definition p :
  Project jcs arguments definition = Ok p ->
  let canonical := Canonical arguments in
  let maxOutput := or_default (pd_MaxOutputBytes definition) 16384 in
  res_Profile arguments = "tg-cjson-v1"%string /\
  Canonicalize jcs canonical (only_bytes (slen canonical)) = Ok canonical /\
  res_Digest arguments = domain_digest ArgumentDomain canonical /\
  1 <= llen (pd_Fields definition) <= or_default (pd_MaxFields definition) 32 /\
  exists root selected,
    Parse canonical (only_bytes (slen canonical)) = Ok root /\
    NoDup selected.*1 /\ Forall (rule_met root selected) (pd_Fields definition) /\
    (forall name v, (name, v) ∈ selected -> exists field,
       field ∈ pd_Fields definition /\ name = pf_Name field /\ finds root field v) /\
    Canonicalize jcs (json_Marshal (JObject selected)) (only_bytes maxOutput) = Ok (prj_Canonical p) /\
    slen (prj_Canonical p) <= maxOutput /\
    Parse (prj_Canonical p) (only_bytes maxOutput) = Ok (JObject (prj_Value p)) /\
    prj_Digest p = domain_digest ResourceDomain (prj_Canonical p).
Proof.
  intros H canonical maxOutput'. unfold Project in H. fold canonical in H.
  apply result_bind_Ok in H as ([fields maxOutput] & Hc & H).
  apply compile_spec in Hc as (Hcomp & Hnd & -> & Hcount). fold maxOutput' in H.
  destruct (_ || _) eqn:Hpr; [done|]. apply orb_false_iff in Hpr as [Hpr _].
  apply negb_false_iff, String.eqb_eq in Hpr. destruct (negb _ || _) eqn:Hd; [done|].
  apply orb_false_iff in Hd as [Hrec Hdig]. apply negb_false_iff in Hrec, Hdig.
  apply String.eqb_eq in Hdig.
  destruct (Canonicalize jcs canonical _) as [recanonical|] eqn:Hre; [|done].
  apply String.eqb_eq in Hrec. subst recanonical. split_and!; [done|done|done|lia|lia|].
  destruct (Parse canonical (only_bytes (slen canonical))) as [root|] eqn:Hroot; [|done].
  apply result_bind_Ok in H as (selected & Hsel & H). exists root, selected.
  destruct (select_all_spec _ _ _ _ Hcomp Hsel) as (Hsub & Hmet & Hfrom).
  destruct (Canonicalize jcs (json_Marshal _) _) as [output|] eqn:Hout; [|by case_match].
  destruct (Z.ltb_spec maxOutput' (slen output)); [done|].
  destruct (Parse output (only_bytes maxOutput')) as [[]|] eqn:Hp; try done. injection H as <-.
  split_and!; [done|by eapply sublist_NoDup|done|done|done|done|done|done].
Qed.

(** pointer parsing inverts the RFC 6901 encoding of every nonempty list of
    reference tokens. *)
Theorem pointer_roundtrip token tokens :
  parsePointer (pointer_of (token :: tokens)) = Ok (token :: tokens).
Proof. by apply parsePointer_spec. Qed.

(** ** Witness: with a formatter that sorts the members *)

Definition ex_jcs (v : jvalue) : result string := Ok (json_Marshal v).
Definition ex_canonical : string := quoted "{'owner':'acme','repo':{'id':7,'tags':['a','b']}}".
Definition ex_arguments : Result :=
  mkResult Profile ex_canonical (domain_digest ArgumentDomain ex_canonical).
Definition ex_definition : ProjectionDefinition :=
  mkProjectionDefinition
    [mkProjectionField "repository" "/repo/id" JNull true "number";
     mkProjectionField "second" "/repo/tags/1" JNull false "string";
     mkProjectionField "missing" "/nope" JNull false "";
     mkProjectionField "host" "" (JString "github") true "string"] 0 0.

Example project_runs :
  prj_Canonical <$> Project ex_jcs ex_arguments ex_definition =
  Ok (quoted "{'host':'github','repository':7,'second':'b'}").
Proof. vm_compute. reflexivity. Qed.

(** Indices that RFC 6901 does not allow are resolved. *)
Example signed_index_resolves :
  map (fun token => resolve (JArray [JBool true; JBool false]) [token]) ["1"; "+1"; "+01"; "-0"; "01"; "-"]%string =
  [Some (JBool false); Some (JBool false); Some (JBool false); Some (JBool true); None; None].
Proof. vm_compute. reflexivity. Qed.

Lemma projection_selects_witness : exists p root selected,
  Project ex_jcs ex_arguments ex_definition = Ok p /\
  Parse ex_canonical (only_bytes (slen ex_canonical)) = Ok root /\
  Forall (rule_met root selected) (pd_Fields ex_definition) /\
  prj_Digest p = domain_digest ResourceDomain (prj_Canonical p).
Proof.
  assert (H : is_ok (Project ex_jcs ex_arguments ex_definition) = true) by (vm_compute; reflexivity).
  destruct (Project ex_jcs ex_arguments ex_definition) as [p|] eqn:Hp; [|discriminate H].
  destruct (projection_selects ex_jcs ex_arguments ex_definition p Hp)
    as (_ & _ & _ & _ & root & selected & Hr & _ & Hm & _ & _ & _ & _ & Hd).
  exists p, root, selected. split; [reflexivity|]. split; [exact Hr|]. split; [exact Hm|exact Hd].
Defined.
