(* ===== verification/Schema.v ===== *)
(** * JSON Schema validation

    [internal/schema/schema.go]: bounds on schemas and instances, the refusal of
    non-local references, the bounded cache of compiled schemas and the
    deterministic report of violations.  The compiler and validator of
    [jsonschema] (third-party) are parameters.  A Go map is visited in the order
    of its association list; the conditions of [inspect_spec] on what is accepted do
    not depend on the order. *)
From Stdlib Require Import Ascii String.
From stdpp Require Import sorting.
From S2P Require Import Prelude GoStd Regex Sha256 Json JsonParse Primitives ToolCatalog CanonicalJson Projection.

Record Limits := mkSchemaLimits {
  MaxSchemaBytes : Z; MaxInstanceBytes : Z; MaxDepth : Z; MaxNodes : Z; MaxStringBytes : Z;
  MaxObjectMembers : Z; MaxCacheEntries : Z; MaxErrors : Z;
}.

Definition DefaultMaxSchemaBytes : Z := Z.shiftl 512 10.
Definition DefaultMaxInstanceBytes : Z := Z.shiftl 4 20.
Definition DefaultMaxDepth : Z := 64.
Definition DefaultMaxNodes : Z := 10000.
Definition DefaultMaxStringBytes : Z := Z.shiftl 256 10.
Definition DefaultMaxObjectMembers : Z := 10000.
Definition DefaultMaxCacheEntries : Z := 128.
Definition DefaultMaxErrors : Z := 32.
Definition maximumCacheEntries : Z := 1024.
Definition maximumErrors : Z := 128.

Definition ErrSchemaTooLarge : goerror := ErrNew "schema exceeds size limit".
Definition ErrInstanceTooLarge : goerror := ErrNew "JSON instance exceeds size limit".
Definition ErrMalformedSchema : goerror := ErrNew "schema is not valid JSON".
Definition ErrMalformedInstance : goerror := ErrNew "instance is not valid JSON".
Definition ErrSchemaComplexity : goerror := ErrNew "schema exceeds complexity limit".
Definition ErrInstanceComplexity : goerror := ErrNew "instance exceeds complexity limit".
Definition ErrExternalReference : goerror := ErrNew "schema contains a non-local reference".
Definition ErrInvalidSchema : goerror := ErrNew "schema is invalid".

Definition normalized (limits : Limits) : Limits :=
  let within value maximum fallback := if (value <=? 0) || (maximum <? value) then fallback else value in
  mkSchemaLimits
    (within (MaxSchemaBytes limits) DefaultMaxSchemaBytes DefaultMaxSchemaBytes)
    (within (MaxInstanceBytes limits) DefaultMaxInstanceBytes DefaultMaxInstanceBytes)
    (within (MaxDepth limits) DefaultMaxDepth DefaultMaxDepth)
    (within (MaxNodes limits) DefaultMaxNodes DefaultMaxNodes)
    (within (MaxStringBytes limits) DefaultMaxStringBytes DefaultMaxStringBytes)
    (within (MaxObjectMembers limits) DefaultMaxObjectMembers DefaultMaxObjectMembers)
    (within (MaxCacheEntries limits) maximumCacheEntries DefaultMaxCacheEntries)
    (within (MaxErrors limits) maximumErrors DefaultMaxErrors).

(** [decodeJSON]: one value, with the last of repeated members. *)
Definition decodeJSON (raw : string) : result jvalue :=
  match json_parse raw with
  | Some v => Ok (go_value v)
  | None => Err (ErrNew "malformed or multiple JSON values")
  end.

(** ** Inspection *)

Definition complexity (schemaDocument : bool) : goerror :=
  if schemaDocument then ErrSchemaComplexity else ErrInstanceComplexity.

(** A [$ref] or [$dynamicRef] member of a schema must point into the document. *)
Definition local_reference (kv : string * jvalue) : bool :=
  if String.eqb kv.1 "$ref" || String.eqb kv.1 "$dynamicRef" then
    match kv.2 with
    | JString reference => String.eqb reference "#" || has_prefix reference "#/"
    | _ => false
    end
  else true.

Definition children (v : jvalue) : list jvalue :=
  match v with
  | JObject members => map snd members
  | JArray items => items
  | _ => []
  end.

(** The checks on one popped node, after the counters. *)
Definition check_node (limits : Limits) (schemaDocument : bool) (v : jvalue) : result unit :=
  match v with
  | JObject members =>
      if MaxObjectMembers limits <? llen members then Err (complexity schemaDocument)
      else if schemaDocument && negb (forallb local_reference members) then Err ErrExternalReference
      else Ok tt
  | JString s => if MaxStringBytes limits <? slen s then Err (complexity schemaDocument) else Ok tt
  | _ => Ok tt
  end.

(** The loop over the stack, whose top is the head; [fuel] is the number of nodes
    that may still be counted. *)
Fixpoint inspect_loop (fuel : nat) (limits : Limits) (schemaDocument : bool)
    (stack : list (jvalue * Z)) : result unit :=
  match stack with
  | [] => Ok tt
  | (v, depth) :: stack =>
      match fuel with
      | O => Err (complexity schemaDocument)
      | S fuel =>
          if MaxDepth limits <? depth then Err (complexity schemaDocument)
          else
            check_node limits schemaDocument v ≫= fun _ =>
            inspect_loop fuel limits schemaDocument
              (rev (map (fun child => (child, depth + 1)) (children v)) ++ stack)
      end
  end.

Definition inspect (root : jvalue) (limits : Limits) (schemaDocument : bool) : result unit :=
  inspect_loop (Z.to_nat (MaxNodes limits)) limits schemaDocument [(root, 1)].

(** ** Violations *)

(** [jsonschema.ValidationError]: causes, instance location, keyword path. *)
Inductive validation_error :=
| ValidationCause (causes : list validation_error) (location keyword : list string).

Record Violation := mkViolation {
  InstanceLocation : string; KeywordLocation : string; vio_Code : string;
}.

(** [strings.ReplaceAll] for a one-byte pattern. *)
Fixpoint replace_byte (c : ascii) (by_ : string) (s : string) : string :=
  match s with
  | EmptyString => EmptyString
  | String d s => if Ascii.eqb d c then by_ +:+ replace_byte c by_ s else String d (replace_byte c by_ s)
  end.

Definition pointer (tokens : list string) : string :=
  foldr (fun token text => String "/" (replace_byte "/" "~1" (replace_byte "~" "~0" token) +:+ text))
    EmptyString tokens.

Fixpoint collect (err : validation_error) : list Violation :=
  match err with
  | ValidationCause causes location keyword =>
      match causes with
      | [] => [mkViolation (pointer location) (pointer keyword) (default "schema"%string (list.last keyword))]
      | _ => concat (map collect causes)
      end
  end.

Definition violation_before (a b : Violation) : Prop :=
  str_ltb (InstanceLocation b) (InstanceLocation a) = false /\
  (InstanceLocation a = InstanceLocation b ->
   str_ltb (KeywordLocation b) (KeywordLocation a) = false /\
   (KeywordLocation a = KeywordLocation b -> str_ltb (vio_Code b) (vio_Code a) = false)).
#[global] Instance violation_before_dec : RelDecision violation_before.
Proof. intros a b. unfold violation_before. apply _. Defined.

Definition deterministicValidationError (err : validation_error) (maximum : Z) : list Violation :=
  take (Z.to_nat maximum) (merge_sort violation_before (collect err)).

(** ** The validator *)

Section Validator.
Context {Schema : Type} (compile_document : jvalue -> option Schema)
  (schema_Validate : Schema -> jvalue -> option validation_error).

Record Compiled := mkCompiledSchema { cs_schema : Schema; cs_limits : Limits }.

(** The cache in the order of the LRU list, front first. *)
Record Validator := mkValidator { val_limits : Limits; val_cache : list (string * Compiled) }.

Definition NewValidator (limits : Limits) : Validator := mkValidator (normalized limits) [].

Fixpoint cache_lookup (key : string) (l : list (string * Compiled)) : option Compiled :=
  match l with
  | [] => None
  | (k, c) :: l => if String.eqb k key then Some c else cache_lookup key l
  end.

(** What a compilation without the cache does. *)
Definition compile_raw (limits : Limits) (raw : string) : result Compiled :=
  match decodeJSON raw with
  | Err _ => Err ErrMalformedSchema
  | Ok document =>
      inspect document limits true ≫= fun _ =>
      match compile_document document with
      | None => Err ErrInvalidSchema
      | Some schema => Ok (mkCompiledSchema schema limits)
      end
  end.

Definition Compile (validator : Validator) (raw : string) : Validator * result Compiled :=
  let limits := val_limits validator in
  if MaxSchemaBytes limits <? slen raw then (validator, Err ErrSchemaTooLarge)
  else
    let key := sha256 raw in
    match cache_lookup key (val_cache validator) with
    | Some compiled =>
        (mkValidator limits
           ((key, compiled) :: filter (fun kc => kc.1 <> key) (val_cache validator)), Ok compiled)
    | None =>
        match compile_raw limits raw with
        | Err err => (validator, Err err)
        | Ok compiled =>
            (mkValidator limits
               (take (Z.to_nat (MaxCacheEntries limits)) ((key, compiled) :: val_cache validator)),
             Ok compiled)
        end
    end.

Definition CompileSchema (validator : Validator) (raw : string) : Validator * result unit :=
  let '(validator, r) := Compile validator raw in (validator, r ≫= fun _ => Ok tt).

(** The violations of a failed validation are carried by the error. *)
Inductive validation_outcome :=
| Valid
| Invalid (violations : list Violation)
| Refused (err : goerror).

Definition ValidateJSON (compiled : Compiled) (raw : string) : validation_outcome :=
  let limits := cs_limits compiled in
  if MaxInstanceBytes limits <? slen raw then Refused ErrInstanceTooLarge
  else
    match decodeJSON raw with
    | Err _ => Refused ErrMalformedInstance
    | Ok v =>
        match inspect v limits false with
        | Err err => Refused err
        | Ok _ =>
            match schema_Validate (cs_schema compiled) v with
            | Some err => Invalid (deterministicValidationError err (MaxErrors limits))
            | None => Valid
            end
        end
    end.

Definition CacheLen (validator : Validator) : Z := llen (val_cache validator).
End Validator.
Arguments Validator : clear implicits.
Arguments Compiled : clear implicits.

(** ** Specification *)

Fixpoint node_count (v : jvalue) : nat :=
  S (match v with
     | JArray items => list_sum (map node_count items)
     | JObject members => list_sum (map (fun kv => node_count kv.2) members)
     | _ => 0
     end).

(** The values that occur in a value, with their depth, the value's own being [from]. *)
Inductive occurs (from : Z) (root : jvalue) : Z -> jvalue -> Prop :=
| occurs_root : occurs from root from root
| occurs_member depth members name v : occurs from root depth (JObject members) ->
    (name, v) ∈ members -> occurs from root (depth + 1) v
| occurs_item depth items v : occurs from root depth (JArray items) ->
    v ∈ items -> occurs from root (depth + 1) v.

(** A reference into its own document. *)
Definition points_inside (v : jvalue) : Prop :=
  v = JString "#" \/ exists path, v = JString ("#/" +:+ path).

(** One occurrence is within the limits. *)
Definition node_ok (limits : Limits) (schemaDocument : bool) (depth : Z) (v : jvalue) : Prop :=
  depth <= MaxDepth limits /\
  (forall s, v = JString s -> slen s <= MaxStringBytes limits) /\
  (forall members, v = JObject members -> llen members <= MaxObjectMembers limits /\
     (schemaDocument = true -> forall name target, (name, target) ∈ members ->
        name = "$ref"%string \/ name = "$dynamicRef"%string -> points_inside target)).

(** ** Lemmas *)

Lemma node_count_children v : node_count v = S (list_sum (map node_count (children v))).
Proof. destruct v; simpl; [done..|]. do 2 f_equal. induction members; [done|]. simpl. by f_equal. Qed.

Lemma list_sum_rev l : list_sum (rev l) = list_sum l.
Proof. induction l as [|x l IH]; [done|]. simpl. rewrite list_sum_app, IH. simpl. lia. Qed.

Lemma Forall_rev_iff {A} (P : A -> Prop) l : Forall P (rev l) <-> Forall P l.
Proof.
  split; intros H; [rewrite <- (rev_involutive l)|]; by apply Forall_rev.
Qed.

(** Every node of the value passes the checks of the loop. *)
Inductive within (limits : Limits) (schemaDocument : bool) : Z -> jvalue -> Prop :=
| within_node depth v : depth <= MaxDepth limits -> check_node limits schemaDocument v = Ok tt ->
    Forall (within limits schemaDocument (depth + 1)) (children v) ->
    within limits schemaDocument depth v.

Lemma inspect_loop_spec fuel limits sd stack :
  inspect_loop fuel limits sd stack = Ok tt <->
  (list_sum (map (fun vd => node_count vd.1) stack) <= fuel)%nat /\
  Forall (fun vd => within limits sd vd.2 vd.1) stack.
Proof.
  revert stack. induction fuel as [|fuel IH]; intros [|[v depth] stack]; simpl.
  - split; [|done]. intros _. split; [lia|constructor].
  - split; [done|]. intros [H _]. rewrite node_count_children in H. lia.
  - split; [|done]. intros _. split; [lia|constructor].
  - rewrite Forall_cons_iff. simpl.
    destruct (Z.ltb_spec (MaxDepth limits) depth) as [Hd|Hd].
    { split; [done|]. intros (_ & Hw & _). inversion Hw. lia. }
    destruct (check_node limits sd v) as [[]|e] eqn:Hc; simpl; cycle 1.
    { split; [done|]. intros (_ & Hw & _). inversion Hw. congruence. }
    rewrite IH, map_app, list_sum_app, map_rev, map_map, list_sum_rev, Forall_app, Forall_rev_iff.
    simpl. rewrite (node_count_children v), Forall_map. simpl. split.
    + intros (Hn & Hch & Hst). split_and!; [by apply le_n_S|by constructor|done].
    + intros (Hn & Hw & Hst). inversion Hw. split_and!; [by apply le_S_n|done|done].
Qed.

Lemma local_reference_spec name target : local_reference (name, target) = true <->
  (name = "$ref"%string \/ name = "$dynamicRef"%string -> points_inside target).
Proof.
  unfold local_reference, points_inside. cbn [fst snd].
  assert (Hn : (String.eqb name "$ref" || String.eqb name "$dynamicRef") = true <->
               name = "$ref"%string \/ name = "$dynamicRef"%string)
    by (rewrite orb_true_iff, !String.eqb_eq; done).
  destruct (_ || _); [|split; [intros _ H; apply Hn in H; discriminate H|done]].
  destruct target as [| | |reference| |];
    try (split; [done|intros H; destruct (H (proj1 Hn eq_refl)) as [E|[path E]]; discriminate E]).
  rewrite orb_true_iff, String.eqb_eq. unfold has_prefix. split.
  - intros [->|H] _; [by left|]. right. destruct (cut_prefix "#/" reference) as [path|] eqn:Hp; [|done].
    apply cut_prefix_split in Hp as ->. by exists path.
  - intros H. destruct (H (proj1 Hn eq_refl)) as [[= ->]|[path [= ->]]]; [by left|right]. done.
Qed.

Lemma check_node_spec limits sd depth v :
  depth <= MaxDepth limits /\ check_node limits sd v = Ok tt <-> node_ok limits sd depth v.
Proof.
  unfold node_ok, check_node. destruct v as [| | |s| |members]; try naive_solver.
  - destruct (Z.ltb_spec (MaxStringBytes limits) (slen s)); [|naive_solver].
    split; [by intros [_ ?]|]. intros (_ & Hs & _). specialize (Hs s eq_refl). lia.
  - destruct (Z.ltb_spec (MaxObjectMembers limits) (llen members)).
    { split; [by intros [_ ?]|]. intros (_ & _ & Hm). destruct (Hm members eq_refl). lia. }
    assert (Hrefs : forallb local_reference members = true <-> forall name target,
              (name, target) ∈ members -> name = "$ref"%string \/ name = "$dynamicRef"%string ->
              points_inside target).
    { rewrite forallb_forall. split.
      - intros Hall name target Hin. apply local_reference_spec, Hall. by apply list_elem_of_In.
      - intros Hall [name target] Hin. apply local_reference_spec, Hall. by apply list_elem_of_In. }
    destruct sd; cbn [andb]; [|naive_solver].
    destruct (forallb local_reference members) eqn:Hf; cbn [negb].
    + pose proof (proj1 Hrefs eq_refl) as Hall. split.
      * intros [Hd _]. split; [done|]. split; [done|]. intros ms [= <-]. split; [lia|intros _; exact Hall].
      * intros [Hd _]. done.
    + split; [by intros [_ ?]|]. intros (_ & _ & Hm). destruct (Hm members eq_refl) as [_ Hr].
      discriminate (proj2 Hrefs (Hr eq_refl)).
Qed.

Lemma within_occurs limits sd from root depth v : within limits sd from root ->
  occurs from root depth v -> within limits sd depth v.
Proof.
  intros Hw. induction 1 as [|depth members name v _ IH Hin|depth items v _ IH Hin]; [done|..].
  - inversion IH as [? ? _ _ Hc]; subst. cbn [children] in Hc. rewrite list.Forall_forall in Hc. apply Hc.
    change v with (name, v).2. by apply list_elem_of_fmap_2.
  - inversion IH as [? ? _ _ Hc]; subst. cbn [children] in Hc. rewrite list.Forall_forall in Hc. by apply Hc.
Qed.

Lemma occurs_child from root child depth v : child ∈ children root ->
  occurs (from + 1) child depth v -> occurs from root depth v.
Proof.
  intros Hc. induction 1 as [|depth members name v _ IH Hin|depth items v _ IH Hin].
  - destruct root as [| | | |items|members]; cbn [children] in Hc; try (by apply elem_of_nil in Hc).
    + eapply occurs_item; [constructor|done].
    + apply list_elem_of_fmap_1 in Hc as ([name v] & -> & Hin). eapply occurs_member; [constructor|exact Hin].
  - by eapply occurs_member.
  - by eapply occurs_item.
Qed.

Lemma child_smaller child v : child ∈ children v -> (node_count child < node_count v)%nat.
Proof.
  rewrite (node_count_children v). induction (children v) as [|c l IH]; [by intros ?%elem_of_nil|].
  cbn [map list_sum foldr]. intros [->|H]%elem_of_cons; [lia|]. specialize (IH H). unfold list_sum in *. lia.
Qed.

Lemma occurs_within limits sd from root :
  (forall depth v, occurs from root depth v -> node_ok limits sd depth v) -> within limits sd from root.
Proof.
  remember (node_count root) as n eqn:Hn. revert from root Hn.
  induction (lt_wf n) as [n _ IH]. intros from root -> H.
  destruct (proj2 (check_node_spec limits sd from root) (H _ _ (occurs_root _ _))) as [Hd Hc].
  constructor; [done|done|]. apply list.Forall_forall. intros child Hin.
  eapply IH; [by apply child_smaller|done|]. intros depth v Ho. apply H. by eapply occurs_child.
Qed.

Lemma replace_escape token : replace_byte "/" "~1" (replace_byte "~" "~0" token) = escape token.
Proof.
  induction token as [|c token IH]; [done|]. cbn [replace_byte escape].
  destruct (Ascii.eqb_spec c "~") as [->|Hne].
  - change ("~0" +:+ replace_byte "~" "~0" token) with (String "~" (String "0" (replace_byte "~" "~0" token))).
    cbn [replace_byte]. change (Ascii.eqb "~" "/") with false. change (Ascii.eqb "0" "/") with false.
    cbv iota. by rewrite IH.
  - cbn [replace_byte]. destruct (Ascii.eqb c "/"); by rewrite IH.
Qed.

(** The location of a violation is the RFC 6901 pointer of its tokens. *)
Lemma pointer_is_pointer_of tokens : pointer tokens = pointer_of tokens.
Proof.
  induction tokens as [|t tokens IH]; [done|]. unfold pointer in *. simpl. rewrite IH, replace_escape. done.
Qed.

Section Cache.
Context {Schema : Type} (compile_document : jvalue -> option Schema).
Implicit Types (l : list (string * Compiled Schema)).

(** The validator after compiling a list of schemas. *)
Definition after (limits : Limits) (raws : list string) : Validator Schema :=
  foldl (fun validator raw => (Compile compile_document validator raw).1) (NewValidator limits) raws.

(** What [Compile] returns without a cache. *)
Definition uncached (limits : Limits) (raw : string) : result (Compiled Schema) :=
  if MaxSchemaBytes limits <? slen raw then Err ErrSchemaTooLarge
  else compile_raw compile_document limits raw.

Definition cache_ok (limits : Limits) (raws : list string) (validator : Validator Schema) : Prop :=
  val_limits validator = limits /\ llen (val_cache validator) <= MaxCacheEntries limits /\
  forall key c, (key, c) ∈ val_cache validator ->
    exists raw, raw ∈ raws /\ key = sha256 raw /\ compile_raw compile_document limits raw = Ok c.

Lemma cache_lookup_elem key l c : cache_lookup key l = Some c -> (key, c) ∈ l.
Proof.
  induction l as [|[k d] l IH]; simpl; [done|]. destruct (String.eqb_spec k key) as [->|].
  - intros [= ->]. apply list_elem_of_here.
  - intros H. apply elem_of_cons. right. auto.
Qed.

Lemma normalized_cache limits : 0 < MaxCacheEntries (normalized limits).
Proof.
  unfold normalized. cbn [MaxCacheEntries].
  destruct (Z.leb_spec (MaxCacheEntries limits) 0); [vm_compute; reflexivity|]. simpl.
  case_match; [vm_compute; reflexivity|done].
Qed.

Lemma filter_key_length key l c : (key, c) ∈ l ->
  (length (filter (fun kc => kc.1 <> key) l) < length l)%nat.
Proof.
  induction l as [|[k d] l IH]; [set_solver|]. intros [E|H]%elem_of_cons.
  - injection E as <- <-. rewrite filter_cons_False by (simpl; tauto). simpl.
    pose proof (length_filter (fun kc : string * Compiled Schema => kc.1 <> key) l). lia.
  - rewrite filter_cons. specialize (IH H). destruct (decide _); simpl; lia.
Qed.

Lemma Compile_ok limits raws validator raw : 0 < MaxCacheEntries limits ->
  cache_ok limits raws validator -> cache_ok limits (raws ++ [raw]) (Compile compile_document validator raw).1.
Proof.
  intros Hpos (Hl & Hlen & Hin).
  assert (Hin' : forall key c, (key, c) ∈ val_cache validator ->
    exists raw', raw' ∈ raws ++ [raw] /\ key = sha256 raw' /\ compile_raw compile_document limits raw' = Ok c).
  { intros key c H. destruct (Hin _ _ H) as (raw' & ? & ? & ?). exists raw'. split_and!; [set_solver|done|done]. }
  unfold Compile. rewrite Hl. destruct (MaxSchemaBytes limits <? slen raw); [done|].
  destruct (cache_lookup (sha256 raw) (val_cache validator)) as [c|] eqn:Hc.
  - apply cache_lookup_elem in Hc. split_and!; simpl; [done| |].
    + pose proof (filter_key_length _ _ _ Hc). unfold llen in *. simpl. lia.
    + intros key d [[= -> ->]|H]%elem_of_cons; [by apply Hin'|].
      apply list_elem_of_filter in H as [_ H]. by apply Hin'.
  - destruct (compile_raw compile_document limits raw) as [c|] eqn:Hr; [|done].
    split_and!; simpl fst; [done| |].
    + unfold llen. cbn [val_cache]. rewrite length_take. lia.
    + cbn [val_cache]. intros key d H.
      assert (Hi : (key, d) ∈ (sha256 raw, c) :: val_cache validator)
        by (rewrite <- (take_drop (Z.to_nat (MaxCacheEntries limits)) (_ :: _)); apply elem_of_app; by left).
      apply elem_of_cons in Hi as [[= -> ->]|Hi]; [|by apply Hin'].
      exists raw. split_and!; [set_solver|done|done].
Qed.

Lemma after_ok limits raws : cache_ok (normalized limits) raws (after limits raws).
Proof.
  unfold after. induction raws as [|raw raws IH] using rev_ind.
  - split_and!; [done| |set_solver]. pose proof (normalized_cache limits). unfold llen. simpl in *. lia.
  - rewrite foldl_snoc. apply Compile_ok; [apply normalized_cache|done].
Qed.
End Cache.

(** ** Theorems *)

(** C40: the iterative inspection accepts a document exactly when it has at most
    MaxNodes nodes and every value that occurs in it is at most MaxDepth deep, a string
    at most MaxStringBytes long and an object of at most MaxObjectMembers members; in a
    schema document, moreover, every $ref and $dynamicRef is the string "#" or a string
    that starts with "#/". *)
Theorem inspect_spec root limits schemaDocument :
  inspect root limits schemaDocument = Ok tt <->
  (node_count root <= Z.to_nat (MaxNodes limits))%nat /\
  forall depth v, occurs 1 root depth v -> node_ok limits schemaDocument depth v.
Proof.
  unfold inspect. rewrite inspect_loop_spec. simpl. rewrite Nat.add_0_r. split.
  - intros [H1 H2]. split; [done|]. apply list.Forall_cons in H2 as [H2 _]. intros depth v Ho.
    apply (within_occurs _ _ _ _ _ _ H2) in Ho as [depth' v' Hd Hc _]. by apply check_node_spec.
  - intros [H1 H2]. split; [done|]. constructor; [|constructor]. by apply occurs_within.
Qed.

(** whatever was compiled before, the cache holds at most the configured
    number of schemas, and a compilation returns what it would return without a
    cache, unless another schema seen before has the same SHA-256 digest. *)
Theorem schema_cache_transparent {Schema} (compile_document : jvalue -> option Schema) limits raws raw :
  let validator := after compile_document limits raws in
  CacheLen validator <= MaxCacheEntries (normalized limits) /\
  ((Compile compile_document validator raw).2 = uncached compile_document (normalized limits) raw \/
   exists raw', raw' ∈ raws /\ raw' <> raw /\ sha256 raw' = sha256 raw).
Proof.
  intros validator. destruct (after_ok compile_document limits raws) as (Hl & Hlen & Hin).
  fold validator in Hl, Hlen, Hin. split; [exact Hlen|].
  unfold Compile, uncached. rewrite Hl. destruct (_ <? slen raw); [by left|].
  destruct (cache_lookup (sha256 raw) (val_cache validator)) as [c|] eqn:Hc.
  - apply cache_lookup_elem in Hc. destruct (Hin _ _ Hc) as (raw' & Hr & Hk & Hcomp).
    destruct (decide (raw' = raw)) as [->|Hne]; [left; by rewrite Hcomp|]. right. by exists raw'.
  - left. by destruct (compile_raw compile_document (normalized limits) raw).
Qed.

(** ** Examples *)

Example inspect_runs :
  map (fun text => decodeJSON (quoted text) ≫= fun v =>
                   inspect v (normalized (mkSchemaLimits 0 0 3 6 4 2 0 0)) true)
    ["{'$ref':'#/a'}"; "{'$ref':'a'}"; "{'$ref':1}"; "['12345']"; "[[[1]]]"; "[1,2,3,4,5]"; "[1,2,3,4,5,6]";
     "{'a':1,'b':2,'c':3}"]%string =
  [Ok tt; Err ErrExternalReference; Err ErrExternalReference; Err ErrSchemaComplexity;
   Err ErrSchemaComplexity; Ok tt; Err ErrSchemaComplexity; Err ErrSchemaComplexity].
Proof. vm_compute. reflexivity. Qed.
