(* ===== verification/ToolCalls.v ===== *)
(** * Tool calls

    [internal/app/tool_calls.go] and [authorized_execution.go]: the creation of a
    tool call, from the checks on the request through normalization, projection,
    acquisition, authorization and credentials to the connector, and the query of
    a call.  The dependencies (catalog, ledger, authorizer, credential broker,
    connector, clock, ids) are the environment: each is called at most once in a
    run, so their replies are functions of the call, and a run returns the calls
    it made in order with its result.  Deadlines of contexts and panics are not
    modelled. *)
From Stdlib Require Import Ascii String.
From stdpp Require Import sorting.
From S2P Require Import Prelude GoStd Regex Sha256 Json JsonParse Primitives CanonicalJson Projection Schema ToolCatalog Ports Authorization.

(** ** Checks *)

Definition validInvocationText (value : string) : bool :=
  negb (String.eqb value "") && (slen value <=? 512) && String.eqb (TrimSpace value) value
  && negb (contains_any value NUL_CR_LF).

Definition validInvocationIdentity (identity : InvocationIdentity) : bool :=
  forallb validInvocationText
    [id_TenantID identity; id_Subject identity; id_AgentID identity; id_AgentVersion identity;
     id_RunID identity; id_WorkloadID identity]
  && (String.eqb (id_Actor identity) "" || validInvocationText (id_Actor identity)).

Definition alphanumeric (c : ascii) : bool := byte_in 97 122 c || byte_in 65 90 c || byte_in 48 57 c.
Definition call_id_byte (c : ascii) : bool :=
  alphanumeric c || Ascii.eqb c "." || Ascii.eqb c "_" || Ascii.eqb c ":" || Ascii.eqb c "-".

Definition validToolCallID (value : string) : bool :=
  (8 <=? slen value) && (slen value <=? 128)
  && match value with
     | String c rest => alphanumeric c && str_forallb call_id_byte rest
     | EmptyString => false
     end.

Definition control_byte (c : ascii) : bool := (byte_val c <? 32) || (byte_val c =? 127).

Definition validConnectorEvidence (evidence : ConnectorEvidence) : bool :=
  if existsb (fun value => (256 <? slen value) || str_existsb control_byte value)
       [ProviderRequestID evidence; ProviderResultID evidence; ResourceVersion evidence] then false
  else if slen (SafeMetadata evidence) =? 0 then true
  else if 4096 <? slen (SafeMetadata evidence) then false
  else unmarshals_object (SafeMetadata evidence).

Definition connectorState (classification : string) : option string :=
  if String.eqb classification "confirmed_success" then Some "post_tool"%string
  else if one_of_str classification ["definitely_rejected"; "not_sent"; "cancelled_pre_send"]
  then Some "failed"%string
  else if String.eqb classification "transient_safe" then Some "retry_wait"%string
  else if String.eqb classification "unknown" then Some "ambiguous"%string
  else None.

Definition publicInvocationState (state : string) : bool :=
  one_of_str state
    ["received"; "validated"; "authorized"; "pre_tool_passed"; "waiting_for_approval"; "ready";
     "executing"; "retry_wait"; "reconciling"; "ambiguous"; "manual_review"; "post_tool";
     "succeeded"; "failed"; "denied"; "blocked"; "cancelled"].

Definition projectionDefinition (input : ResourceProjectionDefinition) : ProjectionDefinition :=
  mkProjectionDefinition
    (map (fun field => mkProjectionField (field_Name field) (field_Pointer field) (field_Literal field)
                         (field_Required field) (field_Type field)) (Fields input))
    (MaxFields input) (MaxOutputBytes input).

Definition text_before (a b : string) : Prop := str_ltb b a = false.
#[global] Instance text_before_dec : RelDecision text_before.
Proof. intros a b. unfold text_before. apply _. Defined.

Definition authorizationRequest (identity : InvocationIdentity) (invocation : LogicalInvocation)
    (tool : ToolVersionDefinition) (resource : list (string * jvalue)) (profile version : string)
    : AuthorizationRequest :=
  let resources := merge_sort text_before
                     (map (fun kv => kv.1 +:+ ":" +:+ json_Marshal kv.2) resource) in
  mkAuthRequest (inv_ID invocation) (id_TenantID identity) (id_Subject identity) (id_Actor identity)
    (id_AgentID identity) (id_AgentVersion identity) (id_RunID identity) (id_WorkloadID identity)
    (inv_ToolID invocation) (inv_ToolVersion invocation) (Risk tool)
    (if SideEffect tool then "true" else "false")%string (Approval tool) (Retry tool)
    (inv_ArgumentProfile invocation) (ConnectorType (Connector tool)) (Operation (Connector tool))
    (inv_ArgumentDigest invocation) (inv_ResourceDigest invocation) resources
    [Operation (Connector tool)] (Deadline (Limits tool)) profile version.

(** ** Creation *)

Record ToolCallRequest := mkToolCallRequest {
  tcr_ToolCallID : string; tcr_ToolID : string; tcr_Version : string;
  tcr_Arguments : string;
  tcr_Identity : InvocationIdentity;
}.

Record ToolCallResult := mkToolCallResult {
  tcres_Invocation : LogicalInvocation;
  tcres_State : string;
  tcres_Existing : bool;
}.

Section Create.
Context {Lease Schema : Type} (jcs_Format : jvalue -> result string)
  (compile_document : jvalue -> option Schema)
  (schema_Validate : Schema -> jvalue -> option validation_error).

Record ConnectorRequest := mkConnectorRequest {
  creq_InvocationID : string;
  creq_Tool : ToolVersionDefinition;
  creq_CanonicalArguments : string;
  creq_ResourceProjection : string;
  creq_Decision : AuthorizationDecision;
  creq_Credential : Lease;
}.

(** The calls a run makes to its dependencies. *)
Inductive call :=
| CallResolveTool (identity : InvocationIdentity) (toolID version : string)
| CallAcquire (identity : InvocationIdentity) (invocation : LogicalInvocation)
| CallAuthorize (request : AuthorizationRequest)
| CallRecord (identity : InvocationIdentity) (invocationID : string) (decision : AuthorizationDecision)
    (argumentDigest resourceDigest : Digest) (at_ : Z)
| CallCredentials (identity : InvocationIdentity) (tool : ToolVersionDefinition)
    (decision : AuthorizationDecision)
| CallExecute (request : ConnectorRequest)
| CallRelease (lease : Lease).

(** The replies of the dependencies, and the configuration of the service. *)
Record Service := mkService {
  ResolveInvocationTool : InvocationIdentity -> string -> string -> result ToolVersionDefinition;
  ledger_Acquire : InvocationIdentity -> LogicalInvocation -> result InvocationAcquisition;
  AuthorizeToolInvocation : AuthorizationRequest -> result AuthorizationDecision;
  ledger_RecordAuthorization : InvocationIdentity -> string -> AuthorizationDecision -> Digest ->
    Digest -> Z -> result unit;
  credentials_Resolve : InvocationIdentity -> ToolVersionDefinition -> AuthorizationDecision ->
    result (option Lease);
  connector_Execute : ConnectorRequest -> result ConnectorResult;
  svc_validator : Validator Schema;
  svc_now : Z;
  svc_newID : result UUID;
  svc_policyProfile : string;
  svc_policyVersion : string;
}.

(** A run: the calls made, in order, and the result. *)
Definition run (A : Type) : Type := list call * result A.
Definition done_ {A} (r : result A) : run A := ([], r).
Definition perform {A} (c : call) (reply : result A) : run A := ([c], reply).
Definition andThen {A B} (m : run A) (f : A -> run B) : run B :=
  match m.2 with
  | Ok a => let r := f a in (m.1 ++ r.1, r.2)
  | Err e => (m.1, Err e)
  end.
(** [defer]: the call is made when the body has returned. *)
Definition deferred {A} (c : call) (m : run A) : run A := (m.1 ++ [c], m.2).
Definition map_error {A} (f : goerror -> goerror) (r : result A) : result A :=
  match r with Ok a => Ok a | Err e => Err (f e) end.
Definition require (ok : bool) (e : goerror) : result unit := if ok then Ok tt else Err e.

Definition because (code : ErrorCode) (message : string) (err : goerror) : goerror :=
  NewError code message (Some err).
Definition plain (code : ErrorCode) (message : string) : goerror := NewError code message None.

(** The checks before anything is called. *)
Definition check_request (request : ToolCallRequest) : result unit :=
  require (negb (String.eqb (tcr_ToolCallID request) "") && validInvocationIdentity (tcr_Identity request))
    (plain CodeInvalidContext "tool-call context is invalid") ≫= fun _ =>
  require (validToolCallID (tcr_ToolCallID request))
    (plain CodeInvalidArguments "idempotency key is invalid") ≫= fun _ =>
  require (is_ok (ParseToolID (tcr_ToolID request)))
    (plain CodeToolNotFound "tool version is not available") ≫= fun _ =>
  require (String.eqb (tcr_Version request) "" || is_ok (ParseSemanticVersion (tcr_Version request)))
    (plain CodeToolNotFound "tool version is not available").

(** The resolved version must be publishable and be the one that was asked for;
    the cached compiler answers as it would without its cache
    ([schema_cache_transparent]). *)
Definition check_tool (service : Service) (request : ToolCallRequest) (tool : ToolVersionDefinition)
    : result (Compiled Schema) :=
  map_error (because CodeInternal "resolved tool version is invalid")
    (ValidateToolPublication tool
       (Some (fun raw => (CompileSchema compile_document (svc_validator service) raw).2))) ≫= fun _ =>
  require (String.eqb (def_ToolID tool) (tcr_ToolID request)
           && (String.eqb (tcr_Version request) "" || String.eqb (raw (def_Version tool)) (tcr_Version request)))
    (plain CodeInternal "resolved tool version is invalid") ≫= fun _ =>
  map_error (because CodeInternal "published input schema is invalid")
    (Compile compile_document (svc_validator service) (InputSchema tool)).2.

Definition validate_arguments (compiled : Compiled Schema) (v : jvalue) : result unit :=
  match ValidateJSON schema_Validate compiled (json_Marshal v) with
  | Valid => Ok tt
  | Invalid _ => Err (ErrNew "JSON instance failed schema validation")
  | Refused err => Err err
  end.

(** Canonical arguments and their projection. *)
Definition normalize (tool : ToolVersionDefinition) (compiled : Compiled Schema) (arguments : string)
    : result (Result * Projection) :=
  map_error (because CodeInvalidArguments "arguments are invalid")
    (NormalizeArguments jcs_Format arguments (only_bytes (RequestBytes (Limits tool)))
       (Some (validate_arguments compiled))) ≫= fun normalized =>
  map_error (because CodeInvalidArguments "resource projection failed")
    (Project jcs_Format normalized (projectionDefinition (ResourceProjection tool))) ≫= fun projection =>
  Ok (normalized, projection).

Definition new_invocation (service : Service) (request : ToolCallRequest) (tool : ToolVersionDefinition)
    (normalized : Result) (projection : Projection) (id : UUID) : LogicalInvocation :=
  mkInvocation (UUID_String id) (id_RunID (tcr_Identity request)) (tcr_ToolCallID request)
    (tcr_ToolID request) (raw (def_Version tool)) (res_Profile normalized) (res_Digest normalized)
    (prj_Digest projection) (prj_Canonical projection) (Retry tool) "validated" (svc_now service)
    (svc_now service).

Definition ceiling (tool : ToolVersionDefinition) (authRequest : AuthorizationRequest) : ConstraintCeiling :=
  mkConstraints [] (req_Resources authRequest) (req_Actions authRequest) ∅ (ResultBytes (Limits tool))
    (Deadline (Limits tool)).

(** From a valid allow decision on: credentials, connector, release. *)
Definition execute_call (service : Service) (request : ToolCallRequest) (tool : ToolVersionDefinition)
    (normalized : Result) (projection : Projection) (invocation : LogicalInvocation)
    (decision : AuthorizationDecision) : run ToolCallResult :=
  andThen
    (perform (CallCredentials (tcr_Identity request) tool decision)
       (map_error (because CodeCredentialUnavailable "credential could not be resolved")
          (credentials_Resolve service (tcr_Identity request) tool decision)))
    (fun resolved =>
       match resolved with
       | None => done_ (Err (plain CodeInternal "credential broker returned no capability"))
       | Some lease =>
           let creq := mkConnectorRequest (inv_ID invocation) tool (Canonical normalized)
                         (prj_Canonical projection) decision lease in
           deferred (CallRelease lease)
             (andThen
                (perform (CallExecute creq)
                   (map_error (because CodeConnectorError "connector execution failed")
                      (connector_Execute service creq)))
                (fun output =>
                   done_ (
                     require (validConnectorEvidence (Evidence output))
                       (plain CodeInternal "connector returned invalid evidence") ≫= fun _ =>
                     match connectorState (Classification output) with
                     | None => Err (plain CodeInternal "connector returned an invalid public state")
                     | Some state => Ok (mkToolCallResult invocation state false)
                     end)))
       end).

(** From an owned invocation on: authorization, its record, the narrowed
    decision. *)
Definition authorize_call (service : Service) (request : ToolCallRequest) (tool : ToolVersionDefinition)
    (normalized : Result) (projection : Projection) (invocation : LogicalInvocation)
    : run ToolCallResult :=
  let identity := tcr_Identity request in
  let authRequest := authorizationRequest identity invocation tool (prj_Value projection)
                       (svc_policyProfile service) (svc_policyVersion service) in
  andThen
    (perform (CallAuthorize authRequest)
       (map_error (because CodeServiceUnavailable "authorization could not be established")
          (AuthorizeToolInvocation service authRequest)))
    (fun decision =>
       andThen (done_ (map_error (because CodeAuthorizationDenied "authorization decision is invalid")
                         (ValidateFor decision authRequest)))
         (fun _ =>
            andThen
              (perform (CallRecord identity (inv_ID invocation) decision (res_Digest normalized)
                          (prj_Digest projection) (svc_now service))
                 (ledger_RecordAuthorization service identity (inv_ID invocation) decision
                    (res_Digest normalized) (prj_Digest projection) (svc_now service)))
              (fun _ =>
                 andThen
                   (done_ (
                      require (String.eqb (Outcome decision) AuthorizationAllow)
                        (plain CodeAuthorizationDenied "tool invocation is not authorized") ≫= fun _ =>
                      map_error (because CodeAuthorizationDenied
                                   "authorization constraints cannot be enforced")
                        (NarrowAuthorizationConstraints decision (ceiling tool authRequest))))
                   (fun narrowed =>
                      execute_call service request tool normalized projection invocation
                        (with_constraints decision narrowed))))).

Definition Create (service : Service) (request : ToolCallRequest) : run ToolCallResult :=
  let identity := tcr_Identity request in
  andThen (done_ (check_request request)) (fun _ =>
  andThen (perform (CallResolveTool identity (tcr_ToolID request) (tcr_Version request))
             (ResolveInvocationTool service identity (tcr_ToolID request) (tcr_Version request))) (fun tool =>
  andThen (done_ (check_tool service request tool)) (fun compiled =>
  andThen (done_ (normalize tool compiled (tcr_Arguments request))) (fun '(normalized, projection) =>
  andThen (done_ (map_error (because CodeInternal "invocation identity could not be created")
                    (svc_newID service))) (fun id =>
  let provisional := new_invocation service request tool normalized projection id in
  andThen (perform (CallAcquire identity provisional) (ledger_Acquire service identity provisional))
    (fun acquired =>
       if String.eqb (acq_Kind acquired) InvocationConflict then
         done_ (Err (plain CodeReplayConflict "logical invocation does not match its original request"))
       else if negb (String.eqb (acq_Kind acquired) InvocationOwned) then
         done_ (Ok (mkToolCallResult (acq_Invocation acquired) (inv_State (acq_Invocation acquired)) true))
       else
         authorize_call service request tool normalized projection (acq_Invocation acquired))))))).

End Create.

(** ** Queries and gated execution *)

(** [ToolCallQueryService.Get]; [reader] is the reply of the ledger. *)
Definition ToolCall_Get (identity : InvocationIdentity) (toolCallID : string)
    (reader : result ToolCallView) : result ToolCallView :=
  if negb (validInvocationIdentity identity) || negb (validToolCallID toolCallID) then
    Err (plain CodeToolCallNotFound "tool call was not found")
  else
    match reader with
    | Err err =>
        match as_domain err with
        | Some (code, _) =>
            if String.eqb code CodeNotFound
            then Err (because CodeToolCallNotFound "tool call was not found" err) else Err err
        | None => Err err
        end
    | Ok view =>
        if negb (String.eqb (view_ToolCallID view) toolCallID) then
          Err (plain CodeInternal "tool-call reader returned a mismatched projection")
        else if negb (publicInvocationState (view_State view)) then
          Err (plain CodeInternal "tool-call reader returned an invalid state")
        else if negb (String.eqb (view_State view) "succeeded") then
          Ok (mkView (view_ToolCallID view) (view_ToolID view) (view_ToolVersion view) (view_State view)
                EmptyString (view_ErrorCode view) (view_CreatedAt view) (view_UpdatedAt view))
        else if negb (slen (view_Result view) =? 0) && negb (json_Valid (view_Result view)) then
          Err (plain CodeInternal "tool-call reader returned an invalid safe result")
        else Ok view
    end.

(** [AuthorizedExecutor.Execute]: the callbacks it makes and its error. *)
Inductive gate_call {Lease : Type} :=
| GateResolve (decision : AuthorizationDecision)
| GateExecute (decision : AuthorizationDecision) (lease : Lease)
| GateRelease (lease : Lease).
Arguments gate_call : clear implicits.

Definition Gate_Execute {Lease} (request : AuthorizationRequest)
    (authorize : AuthorizationRequest -> result AuthorizationDecision)
    (resolve : option (AuthorizationDecision -> result (option Lease)))
    (execute : option (AuthorizationDecision -> Lease -> result unit))
    : list (gate_call Lease) * result unit :=
  match resolve, execute with
  | Some resolve, Some execute =>
      match authorize request with
      | Err err => ([], Err (because CodeUnavailable "authorization could not be established" err))
      | Ok decision =>
          match ValidateFor decision request with
          | Err err => ([], Err (because CodeForbidden "authorization decision is invalid" err))
          | Ok _ =>
              if negb (String.eqb (Outcome decision) AuthorizationAllow) then
                ([], Err (plain CodeForbidden "tool invocation is not authorized"))
              else
                match resolve decision with
                | Err err => ([GateResolve decision], Err err)
                | Ok None =>
                    ([GateResolve decision],
                     Err (plain CodeInternal "credential resolver returned no capability"))
                | Ok (Some lease) =>
                    ([GateResolve decision; GateExecute decision lease; GateRelease lease],
                     execute decision lease)
                end
          end
      end
  | _, _ => ([], Err (plain CodeInternal "protected execution is not configured"))
  end.

(** ** Lemmas *)

Lemma require_ok b e : require b e = Ok tt <-> b = true.
Proof. by destruct b. Qed.

Lemma map_error_ok {A} f (r : result A) a : map_error f r = Ok a <-> r = Ok a.
Proof. destruct r; simpl; [done|]. by split. Qed.

Section Traces.
Context {Lease Schema : Type} (jcs : jvalue -> result string)
  (compile_document : jvalue -> option Schema)
  (schema_Validate : Schema -> jvalue -> option validation_error).
Implicit Types (service : @Service Lease Schema) (m : list (@call Lease)).

(** A step that makes no call runs its continuation or stops. *)
Lemma andThen_done {A B} (r : result A) (f : A -> run B) :
  @andThen Lease A B (done_ r) f = match r with Ok a => f a | Err e => ([], Err e) end.
Proof. unfold andThen, done_. simpl. destruct r; [by destruct (f a)|done]. Qed.

Lemma andThen_perform {A B} c (r : result A) (f : A -> run B) :
  @andThen Lease A B (perform c r) f =
  match r with Ok a => (c :: (f a).1, (f a).2) | Err e => ([c], Err e) end.
Proof. unfold andThen, perform. simpl. by destruct r. Qed.

(** The calls of a run from an owned invocation on. *)
Inductive authorized_trace service request tool normalized projection invocation :
    list (@call Lease) -> Prop :=
| trace_authorize :
    let ar := authorizationRequest (tcr_Identity request) invocation tool (prj_Value projection)
                (svc_policyProfile service) (svc_policyVersion service) in
    authorized_trace service request tool normalized projection invocation [CallAuthorize ar]
| trace_record decision :
    let ar := authorizationRequest (tcr_Identity request) invocation tool (prj_Value projection)
                (svc_policyProfile service) (svc_policyVersion service) in
    AuthorizeToolInvocation service ar = Ok decision -> ValidateFor decision ar = Ok tt ->
    authorized_trace service request tool normalized projection invocation
      [CallAuthorize ar;
       CallRecord (tcr_Identity request) (inv_ID invocation) decision (res_Digest normalized)
         (prj_Digest projection) (svc_now service)]
| trace_execute decision narrowed rest :
    let ar := authorizationRequest (tcr_Identity request) invocation tool (prj_Value projection)
                (svc_policyProfile service) (svc_policyVersion service) in
    let granted := with_constraints decision narrowed in
    AuthorizeToolInvocation service ar = Ok decision -> ValidateFor decision ar = Ok tt ->
    Outcome decision = AuthorizationAllow ->
    ledger_RecordAuthorization service (tcr_Identity request) (inv_ID invocation) decision
      (res_Digest normalized) (prj_Digest projection) (svc_now service) = Ok tt ->
    NarrowAuthorizationConstraints decision (ceiling tool ar) = Ok narrowed ->
    (rest = [] \/ exists lease,
       credentials_Resolve service (tcr_Identity request) tool granted = Ok (Some lease) /\
       rest = [CallExecute (mkConnectorRequest (inv_ID invocation) tool (Canonical normalized)
                              (prj_Canonical projection) granted lease); CallRelease lease]) ->
    authorized_trace service request tool normalized projection invocation
      (CallAuthorize ar
       :: CallRecord (tcr_Identity request) (inv_ID invocation) decision (res_Digest normalized)
            (prj_Digest projection) (svc_now service)
       :: CallCredentials (tcr_Identity request) tool granted :: rest).

Lemma execute_call_trace service request tool normalized projection invocation decision :
  let calls := (execute_call service request tool normalized projection invocation decision).1 in
  exists rest, calls = CallCredentials (tcr_Identity request) tool decision :: rest /\
  (match credentials_Resolve service (tcr_Identity request) tool decision with
   | Ok (Some lease) =>
       rest = [CallExecute (mkConnectorRequest (inv_ID invocation) tool (Canonical normalized)
                              (prj_Canonical projection) decision lease); CallRelease lease]
   | _ => rest = []
   end).
Proof.
  unfold execute_call. rewrite andThen_perform.
  destruct (credentials_Resolve service (tcr_Identity request) tool decision) as [[lease|]|e]; simpl; eauto.
  unfold deferred. rewrite andThen_perform.
  destruct (map_error _ (connector_Execute service _)); simpl; eauto.
Qed.

Lemma authorize_call_trace service request tool normalized projection invocation :
  authorized_trace service request tool normalized projection invocation
    (authorize_call service request tool normalized projection invocation).1.
Proof.
  unfold authorize_call. rewrite andThen_perform.
  set (ar := authorizationRequest _ _ _ _ _ _).
  destruct (AuthorizeToolInvocation service ar) as [decision|] eqn:Ha; simpl; [|apply trace_authorize].
  rewrite andThen_done. destruct (ValidateFor decision ar) as [[]|] eqn:Hv; simpl; [|apply trace_authorize].
  rewrite andThen_perform.
  destruct (ledger_RecordAuthorization service _ _ _ _ _ _) as [[]|] eqn:Hr; simpl; [|by apply trace_record].
  rewrite andThen_done.
  destruct (String.eqb (Outcome decision) AuthorizationAllow) eqn:Ho; simpl; [|by apply trace_record].
  apply String.eqb_eq in Ho.
  destruct (NarrowAuthorizationConstraints decision _) as [narrowed|] eqn:Hn; simpl; [|by apply trace_record].
  destruct (execute_call_trace service request tool normalized projection invocation
              (with_constraints decision narrowed)) as (rest & -> & Hrest).
  apply trace_execute; auto.
  destruct (credentials_Resolve _ _ _ _) as [[lease|]|]; eauto.
Qed.

(** What a run did before it owned the invocation. *)
Inductive create_trace service request : list (@call Lease) -> Prop :=
| trace_nothing : create_trace service request []
| trace_resolve :
    create_trace service request
      [CallResolveTool (tcr_Identity request) (tcr_ToolID request) (tcr_Version request)]
| trace_acquire tool compiled normalized projection id rest :
    let provisional := new_invocation service request tool normalized projection id in
    ResolveInvocationTool service (tcr_Identity request) (tcr_ToolID request) (tcr_Version request) = Ok tool ->
    check_tool compile_document service request tool = Ok compiled ->
    normalize jcs schema_Validate tool compiled (tcr_Arguments request) = Ok (normalized, projection) ->
    (rest = [] \/ exists acquired,
       ledger_Acquire service (tcr_Identity request) provisional = Ok acquired /\
       acq_Kind acquired = InvocationOwned /\
       authorized_trace service request tool normalized projection (acq_Invocation acquired) rest) ->
    create_trace service request
      (CallResolveTool (tcr_Identity request) (tcr_ToolID request) (tcr_Version request)
       :: CallAcquire (tcr_Identity request) provisional :: rest).

Lemma Create_trace service request :
  create_trace service request (Create jcs compile_document schema_Validate service request).1.
Proof.
  unfold Create. rewrite andThen_done. destruct (check_request request); simpl; [|apply trace_nothing].
  rewrite andThen_perform. destruct (ResolveInvocationTool service _ _ _) as [tool|] eqn:Ht; simpl;
    [|apply trace_resolve].
  rewrite andThen_done. destruct (check_tool _ service request tool) as [compiled|] eqn:Hc; simpl;
    [|apply trace_resolve].
  rewrite andThen_done. destruct (normalize _ _ tool compiled _) as [[normalized projection]|] eqn:Hn;
    simpl; [|apply trace_resolve].
  rewrite andThen_done. destruct (map_error _ (svc_newID service)) as [id|]; simpl; [|apply trace_resolve].
  rewrite andThen_perform.
  destruct (ledger_Acquire service _ _) as [acquired|] eqn:Ha; simpl; [|by eapply trace_acquire; eauto].
  eapply trace_acquire; eauto.
  destruct (String.eqb (acq_Kind acquired) InvocationConflict); simpl; [by left|].
  destruct (String.eqb (acq_Kind acquired) InvocationOwned) eqn:Ho; simpl; [|by left].
  apply String.eqb_eq in Ho. right. exists acquired. split_and!; [done|done|apply authorize_call_trace].
Qed.

(** What a run that executed returns. *)
Definition executed service (calls : list (@call Lease)) (invocation : LogicalInvocation)
    (res : ToolCallResult) : Prop :=
  tcres_Existing res = false /\ tcres_Invocation res = invocation /\
  exists creq output, CallExecute creq ∈ calls /\ creq_InvocationID creq = inv_ID invocation /\
    connector_Execute service creq = Ok output /\ validConnectorEvidence (Evidence output) = true /\
    connectorState (Classification output) = Some (tcres_State res).

Lemma execute_call_result service request tool normalized projection invocation decision res :
  let r := execute_call service request tool normalized projection invocation decision in
  r.2 = Ok res -> executed service r.1 invocation res.
Proof.
  unfold execute_call. rewrite andThen_perform.
  destruct (credentials_Resolve _ _ _ _) as [[lease|]|]; simpl; [|done|done].
  unfold deferred. rewrite andThen_perform.
  destruct (connector_Execute service _) as [output|] eqn:He; simpl; [|done]. intros H.
  apply result_bind_Ok in H as ([] & Hv%require_ok & H).
  destruct (connectorState (Classification output)) as [state|] eqn:Hs; [|done]. injection H as <-.
  split_and!; [done|done|]. eexists _, output.
  split; [apply elem_of_cons; right; apply list_elem_of_here|]. split_and!; [done|exact He|done|done].
Qed.

Lemma executed_cons service c calls invocation res :
  executed service calls invocation res -> executed service (c :: calls) invocation res.
Proof.
  intros (H1 & H2 & creq & output & Hin & H). split_and!; [done|done|]. exists creq, output.
  split; [set_solver|done].
Qed.

Lemma authorize_call_result service request tool normalized projection invocation res :
  let r := authorize_call service request tool normalized projection invocation in
  r.2 = Ok res -> executed service r.1 invocation res.
Proof.
  unfold authorize_call. rewrite andThen_perform.
  destruct (map_error _ (AuthorizeToolInvocation service _)) as [decision|]; simpl; [|done].
  rewrite andThen_done. destruct (map_error _ (ValidateFor decision _)) as [[]|]; simpl; [|done].
  rewrite andThen_perform. destruct (ledger_RecordAuthorization service _ _ _ _ _ _) as [[]|]; simpl; [|done].
  rewrite andThen_done. destruct (require _ _ ≫= _) as [narrowed|]; simpl; [|done].
  intros H. by apply executed_cons, executed_cons, execute_call_result.
Qed.

Lemma Create_result service request res :
  let r := Create jcs compile_document schema_Validate service request in
  r.2 = Ok res ->
  exists provisional acquired,
    ledger_Acquire service (tcr_Identity request) provisional = Ok acquired /\
    tcres_Invocation res = acq_Invocation acquired /\ acq_Kind acquired <> InvocationConflict /\
    if String.eqb (acq_Kind acquired) InvocationOwned
    then executed service r.1 (acq_Invocation acquired) res
    else tcres_Existing res = true /\ tcres_State res = inv_State (acq_Invocation acquired).
Proof.
  unfold Create. rewrite andThen_done. destruct (check_request request); simpl; [|done].
  rewrite andThen_perform. destruct (ResolveInvocationTool service _ _ _) as [tool|]; simpl; [|done].
  rewrite andThen_done. destruct (check_tool _ service request tool) as [compiled|]; simpl; [|done].
  rewrite andThen_done. destruct (normalize _ _ tool compiled _) as [[normalized projection]|]; simpl; [|done].
  rewrite andThen_done. destruct (map_error _ (svc_newID service)) as [id|]; simpl; [|done].
  rewrite andThen_perform.
  destruct (ledger_Acquire service _ _) as [acquired|] eqn:Ha; simpl; [|done].
  destruct (String.eqb (acq_Kind acquired) InvocationConflict) eqn:Hc; simpl; [done|].
  apply String.eqb_neq in Hc. intros H. eexists _, acquired. split; [exact Ha|].
  destruct (String.eqb (acq_Kind acquired) InvocationOwned); simpl in *.
  - pose proof (authorize_call_result _ _ _ _ _ _ _ H) as He. split_and!; [by destruct He as (_ & -> & _)|done|].
    by do 2 apply executed_cons.
  - injection H as <-. by split_and!.
Qed.

Lemma normalize_digests tool compiled arguments normalized projection :
  normalize jcs schema_Validate tool compiled arguments = Ok (normalized, projection) ->
  res_Digest normalized = domain_digest ArgumentDomain (Canonical normalized) /\
  prj_Digest projection = domain_digest ResourceDomain (prj_Canonical projection).
Proof.
  unfold normalize. intros H. apply result_bind_Ok in H as (n & Hn%map_error_ok & H).
  apply result_bind_Ok in H as (p & Hp%map_error_ok & [= -> ->]). split.
  - unfold NormalizeArguments in Hn. apply result_bind_Ok in Hn as (v & _ & Hn).
    destruct (validate_arguments _ _ _); [|done]. by apply result_bind_Ok in Hn as (c & _ & [= <-]).
  - unfold Project in Hp. apply result_bind_Ok in Hp as ([fields maximum] & _ & Hp).
    do 2 (destruct (_ || _); [done|]). destruct (Parse _ _); [|done].
    apply result_bind_Ok in Hp as (selected & _ & Hp).
    destruct (Canonicalize _ _ _); [|by case_match]. destruct (_ <? _); [done|].
    destruct (Parse _ _) as [[]|]; try done. by injection Hp as <-.
Qed.
End Traces.

(** ** Theorems *)

(** C1: whatever the dependencies reply, the connector is called only in a run
    whose calls are exactly these, in this order: resolve the tool, acquire the
    invocation and own it, obtain a decision that is valid for the request and
    allows it, record that decision durably, narrow it by the local ceiling,
    resolve a credential, execute, and release the credential.  The argument and
    resource bytes that are executed have the digests that were recorded with the
    decision and that the invocation was to be acquired with; the digests that were
    authorized are those of the acquired invocation, so that they are the digests of
    the executed bytes whenever the ledger returns the digests it was asked for. *)
Theorem connector_requires_authorization {Lease Schema} jcs compile_document schema_Validate
    (service : @Service Lease Schema) request creq :
  let identity := tcr_Identity request in
  let calls := (Create jcs compile_document schema_Validate service request).1 in
  CallExecute creq ∈ calls ->
  exists tool normalized projection provisional acquired ar decision narrowed lease,
    let invocation := acq_Invocation acquired in
    let granted := with_constraints decision narrowed in
    calls =
      [CallResolveTool identity (tcr_ToolID request) (tcr_Version request);
       CallAcquire identity provisional; CallAuthorize ar;
       CallRecord identity (inv_ID invocation) decision (res_Digest normalized) (prj_Digest projection)
         (svc_now service);
       CallCredentials identity tool granted; CallExecute creq; CallRelease lease] /\
    ledger_Acquire service identity provisional = Ok acquired /\ acq_Kind acquired = InvocationOwned /\
    ar = authorizationRequest identity invocation tool (prj_Value projection)
           (svc_policyProfile service) (svc_policyVersion service) /\
    AuthorizeToolInvocation service ar = Ok decision /\ ValidateFor decision ar = Ok tt /\
    Outcome decision = AuthorizationAllow /\
    ledger_RecordAuthorization service identity (inv_ID invocation) decision (res_Digest normalized)
      (prj_Digest projection) (svc_now service) = Ok tt /\
    NarrowAuthorizationConstraints decision (ceiling tool ar) = Ok narrowed /\
    credentials_Resolve service identity tool granted = Ok (Some lease) /\
    creq = mkConnectorRequest (inv_ID invocation) tool (Canonical normalized) (prj_Canonical projection)
             granted lease /\
    res_Digest normalized = domain_digest ArgumentDomain (creq_CanonicalArguments creq) /\
    prj_Digest projection = domain_digest ResourceDomain (creq_ResourceProjection creq) /\
    inv_ArgumentDigest provisional = res_Digest normalized /\ inv_ResourceDigest provisional = prj_Digest projection /\
    (inv_ArgumentDigest invocation = inv_ArgumentDigest provisional ->
       req_ArgumentDigest ar = domain_digest ArgumentDomain (creq_CanonicalArguments creq)) /\
    (inv_ResourceDigest invocation = inv_ResourceDigest provisional ->
       req_ResourceDigest ar = domain_digest ResourceDomain (creq_ResourceProjection creq)).
Proof.
  intros identity calls Hin. unfold calls in *.
  destruct (Create_trace jcs compile_document schema_Validate service request)
    as [| |tool compiled normalized projection id rest provisional Ht Hc Hn Hrest]; [set_solver..|].
  destruct Hrest as [->|(acquired & Ha & Ho & Htr)]; [set_solver|].
  destruct Htr as [|decision|decision narrowed rest ar granted Hau Hv Hal Hrec Hnar Hex]; [set_solver..|].
  destruct Hex as [->|(lease & Hcr & ->)]; [set_solver|].
  destruct (normalize_digests _ _ _ _ _ _ _ Hn) as [Hd1 Hd2].
  assert (creq = mkConnectorRequest (inv_ID (acq_Invocation acquired)) tool (Canonical normalized)
                   (prj_Canonical projection) granted lease) as -> by set_solver.
  exists tool, normalized, projection, provisional, acquired, ar, decision, narrowed, lease.
  assert (inv_ArgumentDigest provisional = res_Digest normalized) as Hp1 by reflexivity.
  assert (inv_ResourceDigest provisional = prj_Digest projection) as Hp2 by reflexivity.
  split_and!; auto; intros Hd; cbn [creq_CanonicalArguments creq_ResourceProjection];
    [rewrite <- Hd1, <- Hp1, <- Hd|rewrite <- Hd2, <- Hp2, <- Hd]; reflexivity.
Qed.

(** C5: a call whose invocation is not owned, because it exists already or its
    request conflicts, is never authorized or executed again: nothing but the tool
    and the ledger is asked, and a result is the stored invocation as it is. *)
Theorem replay_never_executes {Lease Schema} jcs compile_document schema_Validate
    (service : @Service Lease Schema) request :
  (forall invocation acquired, ledger_Acquire service (tcr_Identity request) invocation = Ok acquired ->
     acq_Kind acquired <> InvocationOwned) ->
  let r := Create jcs compile_document schema_Validate service request in
  (forall c, c ∈ r.1 ->
     match c with CallResolveTool _ _ _ | CallAcquire _ _ => True | _ => False end) /\
  (forall res, r.2 = Ok res -> tcres_Existing res = true /\
     exists invocation acquired,
       ledger_Acquire service (tcr_Identity request) invocation = Ok acquired /\
       acq_Kind acquired <> InvocationConflict /\ tcres_Invocation res = acq_Invocation acquired /\
       tcres_State res = inv_State (acq_Invocation acquired)).
Proof.
  intros Hno r. split.
  - intros c. unfold r. destruct (Create_trace jcs compile_document schema_Validate service request)
      as [| |tool compiled normalized projection id rest provisional Ht Hc Hn Hrest]; [set_solver| |].
    + intros ->%list_elem_of_singleton. done.
    + destruct Hrest as [->|(acquired & Ha & Ho & _)]; [|by destruct (Hno _ _ Ha)].
      intros [->|[->|[]%elem_of_nil]%elem_of_cons]%elem_of_cons; done.
  - intros res Hr. destruct (Create_result _ _ _ _ _ _ Hr) as (provisional & acquired & Ha & Hi & Hk & Hif).
    rewrite (proj2 (String.eqb_neq _ _) (Hno _ _ Ha)) in Hif. destruct Hif as [He Hs].
    split; [done|]. by exists provisional, acquired.
Qed.

(** A new result always comes from a connector call for the owned invocation,
    with bounded evidence, and its state is one that the classification of the
    connector maps to: a call is never reported as succeeded by its creation. *)
Theorem created_state_is_classified {Lease Schema} jcs compile_document schema_Validate
    (service : @Service Lease Schema) request res :
  let r := Create jcs compile_document schema_Validate service request in
  r.2 = Ok res -> tcres_Existing res = false ->
  exists creq output, CallExecute creq ∈ r.1 /\ creq_InvocationID creq = inv_ID (tcres_Invocation res) /\
    connector_Execute service creq = Ok output /\ validConnectorEvidence (Evidence output) = true /\
    connectorState (Classification output) = Some (tcres_State res) /\
    tcres_State res ∈ ["post_tool"; "failed"; "retry_wait"; "ambiguous"]%string.
Proof.
  intros r Hr Hex. destruct (Create_result _ _ _ _ _ _ Hr) as (provisional & acquired & _ & Hi & _ & Hif).
  destruct (String.eqb _ _); [|destruct Hif; congruence].
  destruct Hif as (_ & _ & creq & output & Hin & Hid & He & Hv & Hs).
  exists creq, output. rewrite Hi. split_and!; auto.
  revert Hs. unfold connectorState. repeat case_match; intros [= <-]; set_solver.
Qed.

(** the query of a call returns only views of that call in a public state,
    shows a result only of a call that succeeded, and then only valid JSON, and
    reports every miss as one and the same code. *)
Theorem query_is_safe identity toolCallID reader :
  match ToolCall_Get identity toolCallID reader with
  | Ok view =>
      validInvocationIdentity identity = true /\ validToolCallID toolCallID = true /\
      view_ToolCallID view = toolCallID /\ publicInvocationState (view_State view) = true /\
      (view_Result view <> EmptyString ->
         view_State view = "succeeded"%string /\ json_Valid (view_Result view) = true /\ reader = Ok view)
  | Err err =>
      validInvocationIdentity identity = false \/ validToolCallID toolCallID = false \/
      (exists e message, reader = Err e /\ as_domain e = Some (CodeNotFound, message)) ->
      as_domain err = Some (CodeToolCallNotFound, "tool call was not found"%string)
  end.
Proof.
  unfold ToolCall_Get. destruct (validInvocationIdentity identity) eqn:Hi; simpl; [|done].
  destruct (validToolCallID toolCallID) eqn:Ht; simpl; [|done].
  destruct reader as [view|err].
  - destruct (String.eqb_spec (view_ToolCallID view) toolCallID) as [Hid|Hid]; simpl; [|by intros [|[|(? & ? & ? & _)]]].
    destruct (publicInvocationState (view_State view)) eqn:Hp; simpl; [|by intros [|[|(? & ? & ? & _)]]].
    destruct (String.eqb_spec (view_State view) "succeeded") as [Hs|Hs]; simpl; [|by split_and!].
    destruct (slen (view_Result view) =? 0) eqn:Hl; simpl.
    + split_and!; auto. intros Hne. apply Z.eqb_eq in Hl. unfold slen in Hl.
      by destruct (view_Result view).
    + destruct (json_Valid (view_Result view)) eqn:Hj; simpl; [|by intros [|[|(? & ? & ? & _)]]].
      by split_and!.
  - destruct (as_domain err) as [[code message]|] eqn:Hd.
    + destruct (String.eqb_spec code CodeNotFound) as [->|Hne]; simpl; [done|].
      intros [|[|(e & m & [= <-] & He)]]; [done..|]. congruence.
    + intros [|[|(e & m & [= <-] & He)]]; [done..|]. congruence.
Qed.

(** ** Witnesses: a call that is authorized and executed *)

Definition ex_jcs (v : jvalue) : result string := Ok (json_Marshal v).
Definition ex_compile (_ : jvalue) : option unit := Some tt.
Definition ex_validate (_ : unit) (_ : jvalue) : option validation_error := None.
Definition ex_identity : InvocationIdentity := mkIdentity "tenant" "subject" "" "agent" "1" "run" "workload".
Definition ex_request : ToolCallRequest :=
  mkToolCallRequest "call-0001" (def_ToolID sample_definition) "" (quoted "{'repository':'acme/x'}") ex_identity.
Definition ex_decide (r : AuthorizationRequest) : result AuthorizationDecision :=
  Ok (mkDecision "d-1" (req_RequestID r) "ctx" "pol" (req_PolicyVersion r) AuthorizationAllow
        [ReasonAllowed] 100 100 200 7 "cp" no_constraints (mkApproval false "") "ev").
Definition ex_service (kind : string) : @Service nat unit :=
  mkService (fun _ _ _ => Ok sample_definition) (fun _ v => Ok (mkAcquisition kind v)) ex_decide
    (fun _ _ _ _ _ _ => Ok tt) (fun _ _ _ => Ok (Some 5%nat))
    (fun _ => Ok (mkConnectorResult "confirmed_success" "{}" (mkEvidence "r" "" "" "")))
    (NewValidator (mkSchemaLimits 0 0 0 0 0 0 0 0)) 100 (Ok (str_of (replicate 16 (byte 7)))) "prof" "1".
Definition ex_run (kind : string) := Create ex_jcs ex_compile ex_validate (ex_service kind) ex_request.

Example owned_call_runs :
  length (ex_run InvocationOwned).1 = 7%nat /\
  tcres_State <$> (ex_run InvocationOwned).2 = Ok "post_tool"%string.
Proof. vm_compute. split; reflexivity. Qed.

Fixpoint find_execute {Lease} (calls : list (@call Lease)) : option (@ConnectorRequest Lease) :=
  match calls with
  | [] => None
  | CallExecute creq :: _ => Some creq
  | _ :: calls => find_execute calls
  end.

Lemma find_execute_elem {Lease} (calls : list (@call Lease)) creq :
  find_execute calls = Some creq -> CallExecute creq ∈ calls.
Proof.
  induction calls as [|c calls IH]; [done|]. destruct c; simpl; intros H; apply elem_of_cons; auto.
  injection H as <-. by left.
Qed.

Lemma connector_requires_authorization_witness : exists creq,
  CallExecute creq ∈ (ex_run InvocationOwned).1 /\
  exists ar decision, ex_decide ar = Ok decision /\ ValidateFor decision ar = Ok tt /\
    Outcome decision = AuthorizationAllow /\
    req_ArgumentDigest ar = domain_digest ArgumentDomain (creq_CanonicalArguments creq) /\
    req_ResourceDigest ar = domain_digest ResourceDomain (creq_ResourceProjection creq).
Proof.
  assert (H : is_some (find_execute (ex_run InvocationOwned).1) = true) by (vm_compute; reflexivity).
  destruct (find_execute (ex_run InvocationOwned).1) as [creq|] eqn:E; [|discriminate H].
  pose proof (find_execute_elem _ _ E) as Hin. exists creq. split; [exact Hin|].
  destruct (connector_requires_authorization ex_jcs ex_compile ex_validate (ex_service InvocationOwned)
              ex_request creq Hin)
    as (tool & normalized & projection & provisional & acquired & ar & decision & narrowed & lease &
        _ & Hacq & _ & _ & Ha & Hv & Ho & _ & _ & _ & _ & _ & _ & _ & _ & Harg & Hres).
  injection Hacq as <-.
  exists ar, decision. split; [exact Ha|]. split; [exact Hv|]. split; [exact Ho|].
  split; [exact (Harg eq_refl)|exact (Hres eq_refl)].
Defined.

Lemma replay_never_executes_witness :
  is_ok (ex_run InvocationExisting).2 = true /\
  forall c, c ∈ (ex_run InvocationExisting).1 ->
    match c with CallResolveTool _ _ _ | CallAcquire _ _ => True | _ => False end.
Proof.
  split; [vm_compute; reflexivity|].
  refine (proj1 (replay_never_executes ex_jcs ex_compile ex_validate (ex_service InvocationExisting)
                   ex_request _)).
  intros invocation acquired H. injection H as <-. simpl. discriminate.
Defined.

Lemma created_state_is_classified_witness : exists res,
  (ex_run InvocationOwned).2 = Ok res /\
  tcres_State res ∈ ["post_tool"; "failed"; "retry_wait"; "ambiguous"]%string.
Proof.
  assert (H : is_ok (ex_run InvocationOwned).2 = true) by (vm_compute; reflexivity).
  assert (He : tcres_Existing <$> (ex_run InvocationOwned).2 = Ok false) by (vm_compute; reflexivity).
  destruct (ex_run InvocationOwned).2 as [res|] eqn:E; [|discriminate H]. exists res.
  split; [reflexivity|]. injection He as He.
  destruct (created_state_is_classified ex_jcs ex_compile ex_validate (ex_service InvocationOwned)
              ex_request res E He) as (creq & output & _ & _ & _ & _ & _ & Hs).
  exact Hs.
Defined.

(** A reviewed definition with a null literal is publishable but never projects. *)
Lemma null_literal_never_projects jcs name required :
  let d := mkProjection [mkField name "" JNull true required ProjectionNull] 0 0 in
  validateProjection d = Ok tt -> is_ok (compile jcs (projectionDefinition d)) = false.
Proof.
  intros d _. assert (Hc : is_ok (compile_fields jcs ∅ (pd_Fields (projectionDefinition d))) = false).
  { cbn [d projectionDefinition pd_Fields map Fields compile_fields]. by repeat (case_match; [done|]). }
  unfold compile. case_match; [done|]. by destruct (compile_fields _ _ _).
Qed.

Example null_literal_is_valid :
  validateProjection (mkProjection [mkField "n" "" JNull true true ProjectionNull] 0 0) = Ok tt.
Proof. vm_compute. reflexivity. Qed.
