(* ===== verification/HttpCalls.v ===== *)
(** * The tool-call and administration endpoints, and the router

    [internal/adapters/http/tool_calls.go], [administration.go] and the routing of
    [server.go]: what of a request reaches the application, under which
    authentication, and how its answer is rendered.  Handlers return the calls they
    made to the application next to the response.  The services, the authorizer and
    the rendering of instants in the zone of the server are arguments. *)
From Stdlib Require Import Ascii String.
From S2P Require Import Prelude GoStd Regex Json JsonParse Primitives ToolCatalog GoText Ports Http CanonicalJson JsonStruct Projection Schema ToolCalls.

(** ** [mime.ParseMediaType] *)

Definition trim_left (s : string) : string := str_of (strip space2 space3 (bytes_of s)).

(** The bytes of RFC 2045 tokens and special characters. *)
Definition tspecials : string :=
  str_of (map byte [40; 41; 60; 62; 64; 44; 59; 58; 92; 34; 47; 91; 93; 63; 61]).
Definition token_byte (c : ascii) : bool := byte_in 33 126 c && negb (contains_byte c tspecials).

Fixpoint consumeToken (s : string) : string * string :=
  match s with
  | String c rest =>
      if token_byte c then let '(token, rest) := consumeToken rest in (String c token, rest) else (EmptyString, s)
  | EmptyString => (EmptyString, EmptyString)
  end.

(** The rest of a quoted string after its opening quote. *)
Fixpoint consume_quoted (s : string) : option (string * string) :=
  match s with
  | EmptyString => None
  | String c s1 =>
      if byte_val c =? 34 then Some (EmptyString, s1)
      else match s1 with
           | String d s2 =>
               if (byte_val c =? 92) && contains_byte d tspecials then
                 match consume_quoted s2 with Some (value, rest) => Some (String d value, rest) | None => None end
               else if (byte_val c =? 13) || (byte_val c =? 10) then None
               else match consume_quoted s1 with Some (value, rest) => Some (String c value, rest) | None => None end
           | EmptyString => None
           end
  end.
Definition consumeValue (s : string) : string * string :=
  match s with
  | String c rest =>
      if byte_val c =? 34 then match consume_quoted rest with Some r => r | None => (EmptyString, s) end
      else consumeToken s
  | EmptyString => (EmptyString, EmptyString)
  end.

(** [consumeMediaParam]: [None] for an empty key. *)
Definition consumeMediaParam (v : string) : option (string * string * string) :=
  match cut_prefix ";" (trim_left v) with
  | None => None
  | Some rest =>
      let '(param, rest) := consumeToken (trim_left rest) in
      if String.eqb param "" then None else
      match cut_prefix "=" (trim_left rest) with
      | None => None
      | Some rest =>
          let rest := trim_left rest in
          let '(value, rest2) := consumeValue rest in
          if String.eqb value "" && String.eqb rest2 rest then None else Some (ToLower param, value, rest2)
      end
  end.

(** Every parameter consumes text, so the length is enough fuel. *)
Fixpoint media_params (fuel : nat) (seen : list (string * string)) (v : string) : bool :=
  match fuel with
  | O => false
  | S fuel =>
      let v := trim_left v in
      if String.eqb v "" then true else
      match consumeMediaParam v with
      | None => String.eqb (TrimSpace v) ";"
      | Some (key, value, rest) =>
          if existsb (fun kv => String.eqb kv.1 key && negb (String.eqb kv.2 value)) seen then false
          else media_params fuel ((key, value) :: seen) rest
      end
  end.

Definition check_media_type (s : string) : bool :=
  let '(typ, rest) := consumeToken s in
  if String.eqb typ "" then false
  else if String.eqb rest "" then true
  else match cut_prefix "/" rest with
       | Some rest => let '(subtype, rest) := consumeToken rest in negb (String.eqb subtype "") && String.eqb rest ""
       | None => false
       end.

(** The media type, or [None] for an error. *)
Definition ParseMediaType (v : string) : option string :=
  let '(base, rest, found) := cut_on ";" v in
  let mediatype := TrimSpace (ToLower base) in
  if check_media_type mediatype && media_params (S (S (String.length v))) [] (if found then String ";" rest else EmptyString)
  then Some mediatype else None.

Definition json_content (request : Request) : bool :=
  bool_decide (ParseMediaType (value_of (rq_Header request) "Content-Type") = Some "application/json"%string).

(** The idempotency key of a request: one header, not blank, no list. *)
Definition idempotency_key (request : Request) : option string :=
  match values_of (rq_Header request) "Idempotency-Key" with
  | [key] => if String.eqb (TrimSpace key) "" || contains_byte "," key then None else Some key
  | _ => None
  end.

(** ** Rendering *)

(** [json.Compact] of a [json.RawMessage] inside a marshalled value; [quoted_] is set
    inside strings, [escaped] after a backslash. *)
Fixpoint compact_from (quoted_ escaped : bool) (s : string) : string :=
  match s with
  | EmptyString => EmptyString
  | String c s1 =>
      let n := byte_val c in
      let quoted' := if quoted_ then if escaped then true else negb (n =? 34) else n =? 34 in
      let escaped' := quoted_ && negb escaped && (n =? 92) in
      if (n =? 60) || (n =? 62) || (n =? 38) then escape_ascii c +:+ compact_from quoted' escaped' s1
      else if negb quoted_ && ((n =? 32) || (n =? 9) || (n =? 13) || (n =? 10)) then compact_from quoted' escaped' s1
      else match s1 with
           | String d (String e s3) =>
               if (n =? 226) && (byte_val d =? 128) && ((byte_val e =? 168) || (byte_val e =? 169)) then
                 "\u202" +:+ String (hex_digit (byte_val e - 160)) (compact_from quoted' escaped' s3)
               else String c (compact_from quoted' escaped' s1)
           | _ => String c (compact_from quoted' escaped' s1)
           end
  end.
Definition raw_json (raw : string) : option string :=
  if json_Valid raw then Some (compact_from false false raw) else None.

(** What cannot be marshalled is blocked like a result that is too large. *)
Definition write_marshalled (correlation : string) (status : Z) (encoded : option string) : Response :=
  match encoded with
  | Some encoded => writeJSONContentType correlation status "application/json" encoded
  | None => writeBlocked correlation
  end.

Section ToolCalls.
Context (render_time : Z -> string).

Definition created_json (r : ToolCallResult) : string :=
  let inv := tcres_Invocation r in
  json_object [("created_at", render_time (inv_CreatedAt inv)); ("state", json_string (tcres_State r));
    ("tool_call_id", json_string (inv_ToolCallID inv)); ("tool_id", json_string (inv_ToolID inv));
    ("updated_at", render_time (inv_UpdatedAt inv)); ("version", json_string (inv_ToolVersion inv))]%string.

Definition view_json (v : ToolCallView) : option string :=
  let fields result :=
    json_object ([("created_at"%string, render_time (view_CreatedAt v))]
      ++ match view_ErrorCode v with Some code => [("error_code"%string, json_string code)] | None => [] end
      ++ match result with Some r => [("result"%string, r)] | None => [] end
      ++ [("state", json_string (view_State v)); ("tool_call_id", json_string (view_ToolCallID v));
          ("tool_id", json_string (view_ToolID v)); ("updated_at", render_time (view_UpdatedAt v));
          ("version", json_string (view_ToolVersion v))]%string) in
  if slen (view_Result v) =? 0 then Some (fields None)
  else match raw_json (view_Result v) with Some r => Some (fields (Some r)) | None => None end.

(** ** The tool-call handler *)

(** [createToolCallDocument]; no arguments are the empty text. *)
Record createToolCallDocument := mkCallDocument {
  cd_ToolID : string; cd_Version : option string; cd_Arguments : string;
}.
Definition call_fields : list string := ["tool_id"; "version"; "arguments"]%string.
Definition set_call (name : string) (m : member) (d : createToolCallDocument) : option createToolCallDocument :=
  let '(mkCallDocument t v a) := d in
  if String.eqb name "tool_id" then set_string m t ≫= fun t => Some (mkCallDocument t v a)
  else if String.eqb name "version" then set_string_ptr m v ≫= fun v => Some (mkCallDocument t v a)
  else Some (mkCallDocument t v (m_raw m)).

Definition max_call_bytes : Z := 1048576.

(** The document of a body: strict JSON of at most 1 MiB, one object without unknown
    members, with arguments. *)
Definition call_document (body : result string) : option createToolCallDocument :=
  match body with
  | Err _ => None
  | Ok body =>
      if max_call_bytes <? slen body then None
      else if negb (is_ok (Parse body (only_bytes max_call_bytes))) then None
      else match decode_document call_fields true set_call (mkCallDocument "" None "") body with
           | Some d => if slen (cd_Arguments d) =? 0 then None else Some d
           | None => None
           end
  end.

Section Handler.
Context (identity : result InvocationIdentity).
Context (create : ToolCallRequest -> result ToolCallResult).
(** [reader], [None] when it is nil: its reply to the identity and tool-call ID. *)
Context (reader : option (InvocationIdentity -> string -> result ToolCallView)).
Context (correlation : string).

Definition writeToolCallProblem (request : Request) (code : ErrorCode) : Response :=
  writePublicProblem correlation (rq_Path request) code.
Definition writeToolCallError (request : Request) (err : goerror) : Response :=
  writeDomainProblem correlation (rq_Path request) err CodeServiceUnavailable.

(** The POST branch of [ServeHTTP], with the request it passed on. *)
Definition post_call (request : Request) : option ToolCallRequest * Response :=
  if negb (json_content request) then (None, writeToolCallProblem request CodeInvalidArguments) else
  match idempotency_key request with
  | None => (None, writeToolCallProblem request CodeInvalidArguments)
  | Some key =>
  match identity with
  | Err _ => (None, writeToolCallProblem request CodeInvalidContext)
  | Ok identity =>
  match call_document (rq_Body request) with
  | None => (None, writeToolCallProblem request CodeInvalidArguments)
  | Some document =>
      let call := mkToolCallRequest key (cd_ToolID document) (default EmptyString (cd_Version document))
                    (cd_Arguments document) identity in
      (Some call,
       match create call with
       | Err err => writeToolCallError request err
       | Ok result => writeJSONContentType correlation (if tcres_Existing result then 200 else 202)
                        "application/json" (created_json result)
       end)
  end
  end
  end.

(** [toolCallHandler.get] *)
Definition get_call (toolCallID : string) (request : Request) : Response :=
  match identity with
  | Err _ => writeToolCallProblem request CodeInvalidContext
  | Ok identity =>
  match reader with
  | None => writeToolCallProblem request CodeServiceUnavailable
  | Some get =>
      if negb (String.eqb (rq_RawQuery request) "") then writeToolCallProblem request CodeToolCallNotFound else
      match get identity toolCallID with
      | Err err =>
          match as_domain err with
          | Some (code, _) =>
              if String.eqb code CodeNotFound || String.eqb code CodeToolCallNotFound
              then writeToolCallProblem request CodeToolCallNotFound
              else writeToolCallProblem request CodeServiceUnavailable
          | None => writeToolCallProblem request CodeServiceUnavailable
          end
      | Ok view => write_marshalled correlation 200 (view_json view)
      end
  end
  end.

Definition serve_call (toolCallID : string) (request : Request) : option ToolCallRequest * Response :=
  if String.eqb (rq_Method request) "GET" then (None, get_call toolCallID request) else post_call request.
End Handler.
End ToolCalls.

(** ** Administration *)

(** [ports.AdministrativeAction] and [ports.AdministrativeMutation] *)
Definition AdminPublishToolVersion : string := "tool_version.publish".
Definition AdminSetTenantExposure : string := "tenant_tool_exposure.set".

Record AdministrativeMutation := mkMutation {
  mut_IdempotencyKey : string; mut_Definition : option ToolVersionDefinition;
  mut_TenantID : string; mut_ToolID : string; mut_Version : string; mut_Enabled : bool;
}.

(** An [any] field. *)
Definition set_any (m : member) (old : jvalue) : option jvalue :=
  if numbers_fit (m_value m) then Some (with_floats (go_value (m_value m))) else None.

Definition set_projection_field (name : string) (m : member) (f : ResourceProjectionField)
    : option ResourceProjectionField :=
  let '(mkField n p l s r t) := f in
  if String.eqb name "name" then set_string m n ≫= fun n => Some (mkField n p l s r t)
  else if String.eqb name "pointer" then set_string m p ≫= fun p => Some (mkField n p l s r t)
  else if String.eqb name "literal" then set_any m l ≫= fun l => Some (mkField n p l s r t)
  else if String.eqb name "literal_set" then set_bool m s ≫= fun s => Some (mkField n p l s r t)
  else if String.eqb name "required" then set_bool m r ≫= fun r => Some (mkField n p l s r t)
  else set_string m t ≫= fun t => Some (mkField n p l s r t).
Definition projection_field_names : list string :=
  ["name"; "pointer"; "literal"; "literal_set"; "required"; "type"]%string.

Definition set_projection (name : string) (m : member) (d : ResourceProjectionDefinition)
    : option ResourceProjectionDefinition :=
  let '(mkProjection f n o) := d in
  if String.eqb name "fields" then
    match m_value m with
    | JArray items =>
        set_slice (set_struct projection_field_names set_projection_field) (mkField "" "" JNull false false "") items f
        ≫= fun f => Some (mkProjection f n o)
    | JNull => Some (mkProjection [] n o)
    | _ => None
    end
  else if String.eqb name "max_fields" then set_int 64 m n ≫= fun n => Some (mkProjection f n o)
  else set_int 64 m o ≫= fun o => Some (mkProjection f n o).

Definition set_connector (name : string) (m : member) (c : ConnectorBinding) : option ConnectorBinding :=
  let '(mkBinding t o i) := c in
  if String.eqb name "type" then set_string m t ≫= fun t => Some (mkBinding t o i)
  else if String.eqb name "operation" then set_string m o ≫= fun o => Some (mkBinding t o i)
  else set_string m i ≫= fun i => Some (mkBinding t o i).

(** The deadline of the document is in milliseconds. *)
Definition set_limits (name : string) (m : member) (l : ToolLimits) : option ToolLimits :=
  let '(ToolCatalog.mkLimits q r d c a) := l in
  if String.eqb name "request_bytes" then set_int 64 m q ≫= fun q => Some (ToolCatalog.mkLimits q r d c a)
  else if String.eqb name "result_bytes" then set_int 64 m r ≫= fun r => Some (ToolCatalog.mkLimits q r d c a)
  else if String.eqb name "deadline_ms" then set_int 64 m d ≫= fun d => Some (ToolCatalog.mkLimits q r d c a)
  else if String.eqb name "concurrency" then set_int 64 m c ≫= fun c => Some (ToolCatalog.mkLimits q r d c a)
  else set_int 64 m a ≫= fun a => Some (ToolCatalog.mkLimits q r d c a).

Definition set_metering (name : string) (m : member) (r : MeteringRule) : option MeteringRule :=
  let '(mkMetering d u c s) := r in
  if String.eqb name "dimension" then set_string m d ≫= fun d => Some (mkMetering d u c s)
  else if String.eqb name "units" then set_string m u ≫= fun u => Some (mkMetering d u c s)
  else if String.eqb name "charge_point" then set_string m c ≫= fun c => Some (mkMetering d u c s)
  else set_string m s ≫= fun s => Some (mkMetering d u c s).

(** [publishToolVersionDocument]: the text members by name, the others as fields. *)
Record publishDocument := mkPublish {
  pd_text : gmap string string;
  pd_SideEffect : option bool; pd_OpenWorldResult : option bool;
  pd_InputSchema : string; pd_OutputSchema : string;
  pd_Connector : ConnectorBinding; pd_ResourceProjection : ResourceProjectionDefinition;
  pd_Limits : ToolLimits; pd_Metering : MeteringRule;
}.
Definition text_fields : list string :=
  ["tool_id"; "version"; "title"; "description"; "review_reference"; "risk"; "retry_class"; "retry_qualification";
   "approval"; "canonicalization_profile"; "credential_binding_selector"]%string.
Definition publish_fields : list string :=
  (text_fields ++ ["input_schema"; "output_schema"; "side_effect"; "open_world_result"; "connector";
                   "resource_projection"; "limits"; "metering"])%list%string.
Definition zero_publish : publishDocument :=
  mkPublish ∅ None None "" "" (mkBinding "" "" "") (mkProjection [] 0 0) (ToolCatalog.mkLimits 0 0 0 0 0) (mkMetering "" "" "" "").
Definition text_of (d : publishDocument) (name : string) : string := default EmptyString (pd_text d !! name).

Definition set_publish (name : string) (m : member) (d : publishDocument) : option publishDocument :=
  let '(mkPublish t s w i o c p l r) := d in
  if one_of_str name text_fields then
    set_string m (text_of d name) ≫= fun v => Some (mkPublish (<[name := v]> t) s w i o c p l r)
  else if String.eqb name "input_schema" then Some (mkPublish t s w (m_raw m) o c p l r)
  else if String.eqb name "output_schema" then Some (mkPublish t s w i (m_raw m) c p l r)
  else if String.eqb name "side_effect" then set_bool_ptr m s ≫= fun s => Some (mkPublish t s w i o c p l r)
  else if String.eqb name "open_world_result" then set_bool_ptr m w ≫= fun w => Some (mkPublish t s w i o c p l r)
  else if String.eqb name "connector" then
    set_struct ["type"; "operation"; "instance_selector"]%string set_connector (m_value m) c
    ≫= fun c => Some (mkPublish t s w i o c p l r)
  else if String.eqb name "resource_projection" then
    set_struct ["fields"; "max_fields"; "max_output_bytes"]%string set_projection (m_value m) p
    ≫= fun p => Some (mkPublish t s w i o c p l r)
  else if String.eqb name "limits" then
    set_struct ["request_bytes"; "result_bytes"; "deadline_ms"; "concurrency"; "max_attempts"]%string set_limits
      (m_value m) l ≫= fun l => Some (mkPublish t s w i o c p l r)
  else
    set_struct ["dimension"; "units"; "charge_point"; "deduplication_scope"]%string set_metering (m_value m) r
    ≫= fun r => Some (mkPublish t s w i o c p l r).

(** [decodeAdministrativeJSON] *)
Definition decodeAdministrativeJSON {A} (names : list string) (set : string -> member -> A -> option A) (zero : A)
    (body : result string) : option A :=
  match body with
  | Err _ => None
  | Ok body => if maxPublicRequestBytes <? slen body then None else decode_document names true set zero body
  end.

Record exposureDocument := mkExposureDocument {
  xd_TenantID : string; xd_ToolID : string; xd_Version : string; xd_Enabled : option bool;
}.
Definition exposure_fields : list string := ["tenant_id"; "tool_id"; "version"; "enabled"]%string.
Definition set_exposure (name : string) (m : member) (d : exposureDocument) : option exposureDocument :=
  let '(mkExposureDocument n t v e) := d in
  if String.eqb name "tenant_id" then set_string m n ≫= fun n => Some (mkExposureDocument n t v e)
  else if String.eqb name "tool_id" then set_string m t ≫= fun t => Some (mkExposureDocument n t v e)
  else if String.eqb name "version" then set_string m v ≫= fun v => Some (mkExposureDocument n t v e)
  else set_bool_ptr m e ≫= fun e => Some (mkExposureDocument n t v e).

(** [administrativeRequest] *)
Definition administrativeRequest (request : Request) : option string :=
  if negb (json_content request) then None else
  match idempotency_key request with
  | Some key => if 128 <? slen key then None else Some key
  | None => None
  end.

(** The definition a document describes. *)
Definition document_definition (d : publishDocument) (version : SemanticVersion) (sideEffect openWorld : bool)
    : ToolVersionDefinition :=
  let l := pd_Limits d in
  mkDefinition (text_of d "tool_id") version (text_of d "risk") sideEffect (text_of d "retry_class")
    (text_of d "approval") openWorld
    (mkDescription (text_of d "title") (text_of d "description") (text_of d "review_reference"))
    (pd_InputSchema d) (pd_OutputSchema d) (text_of d "canonicalization_profile") (pd_Connector d)
    (text_of d "credential_binding_selector") (text_of d "retry_qualification") (pd_ResourceProjection d)
    (pd_Metering d)
    (ToolCatalog.mkLimits (RequestBytes l) (ResultBytes l) (Deadline l * Millisecond) (Concurrency l) (MaxAttempts l)).

Section Administration.
(** [AuthorizeAdministration] on an action and a tenant. *)
Context (authorize : string -> string -> result unit).
Context (publish_tool set_tenant_exposure : AdministrativeMutation -> result unit).
Context (compiler : SchemaCompiler).
Context (correlation : string).

Definition admin_problem (request : Request) (code : ErrorCode) : Response :=
  writePublicProblem correlation (rq_Path request) code.

(** The answer to a publication. *)
Definition published_json (d : publishDocument) (sideEffect openWorld : bool) : option string :=
  match raw_json (pd_InputSchema d), raw_json (pd_OutputSchema d) with
  | Some input, Some output =>
      Some (json_object [("approval", json_string (text_of d "approval")); ("description", json_string (text_of d "description"));
        ("input_schema", input); ("open_world_result", (if openWorld then "true" else "false")); ("output_schema", output);
        ("retry_class", json_string (text_of d "retry_class")); ("risk", json_string (text_of d "risk"));
        ("side_effect", (if sideEffect then "true" else "false")); ("tool_id", json_string (text_of d "tool_id"));
        ("version", json_string (text_of d "version"))]%string)
  | _, _ => None
  end.

(** [publish], with the mutation it performed. *)
Definition publish (request : Request) (key : string) : option AdministrativeMutation * Response :=
  if negb (is_ok (authorize AdminPublishToolVersion "")) then (None, admin_problem request CodeAuthorizationDenied) else
  match decodeAdministrativeJSON publish_fields set_publish zero_publish (rq_Body request) with
  | None => (None, admin_problem request CodeInvalidArguments)
  | Some d =>
      if negb (is_ok (ParseToolID (text_of d "tool_id"))) then (None, admin_problem request CodeInvalidArguments) else
      match ParseSemanticVersion (text_of d "version"), pd_SideEffect d, pd_OpenWorldResult d with
      | Ok version, Some sideEffect, Some openWorld =>
          if (Deadline (pd_Limits d) <? 1) || (30000 <? Deadline (pd_Limits d)) then
            (None, admin_problem request CodeInvalidArguments) else
          let definition := document_definition d version sideEffect openWorld in
          if negb (is_ok (ValidateToolPublication definition compiler)) then
            (None, admin_problem request CodeInvalidArguments)
          else
            let mutation := mkMutation key (Some definition) "" "" "" false in
            (Some mutation,
             match publish_tool mutation with
             | Err err => writeDomainProblem correlation (rq_Path request) err CodeServiceUnavailable
             | Ok _ => write_marshalled correlation 201 (published_json d sideEffect openWorld)
             end)
      | _, _, _ => (None, admin_problem request CodeInvalidArguments)
      end
  end.

(** [setExposure] *)
Definition setExposure (request : Request) (key : string) : option AdministrativeMutation * Response :=
  match decodeAdministrativeJSON exposure_fields set_exposure (mkExposureDocument "" "" "" None) (rq_Body request) with
  | None => (None, admin_problem request CodeInvalidArguments)
  | Some d =>
      if negb (is_ok (ParseUUID (xd_TenantID d))) || negb (is_ok (ParseToolID (xd_ToolID d)))
         || negb (is_ok (ParseSemanticVersion (xd_Version d))) then (None, admin_problem request CodeInvalidArguments) else
      match xd_Enabled d with
      | None => (None, admin_problem request CodeInvalidArguments)
      | Some enabled =>
          if negb (is_ok (authorize AdminSetTenantExposure (xd_TenantID d))) then
            (None, admin_problem request CodeAuthorizationDenied) else
          let mutation := mkMutation key None (xd_TenantID d) (xd_ToolID d) (xd_Version d) enabled in
          (Some mutation,
           match set_tenant_exposure mutation with
           | Err err => writeDomainProblem correlation (rq_Path request) err CodeServiceUnavailable
           | Ok _ => mkResponse 200 "" false ""
           end)
      end
  end.

Definition serve_admin (request : Request) : option AdministrativeMutation * Response :=
  match administrativeRequest request with
  | None => (None, admin_problem request CodeInvalidArguments)
  | Some key => if String.eqb (rq_Path request) "/v1/admin/tool-versions" then publish request key
                else setExposure request key
  end.
End Administration.

(** ** Routing *)

(** What [http.ServeMux] answers itself: no pattern, or no pattern for the method. *)
Definition mux_not_found : Response := mkResponse 404 "text/plain; charset=utf-8" false ("404 page not found" +:+ newline).
Definition mux_not_allowed : Response := mkResponse 405 "text/plain; charset=utf-8" false ("Method Not Allowed" +:+ newline).

(** The patterns of [NewAdministrationHandler]; [serve] is its handler. *)
Definition admin_mux {A} (serve : Request -> option A * Response) (request : Request) : option A * Response :=
  if String.eqb (rq_Path request) "/v1/admin/tool-versions" then
    if String.eqb (rq_Method request) "POST" then serve request else (None, mux_not_allowed)
  else if String.eqb (rq_Path request) "/v1/admin/tenant-tool-exposures" then
    if String.eqb (rq_Method request) "PUT" then serve request else (None, mux_not_allowed)
  else (None, mux_not_found).

(** The patterns of [NewToolCallHandler]; a GET pattern also matches HEAD. *)
Definition call_mux {A} (serve : string -> Request -> option A * Response) (request : Request) : option A * Response :=
  if String.eqb (rq_Path request) "/v1/tool-calls" then
    if String.eqb (rq_Method request) "POST" then serve EmptyString request else (None, mux_not_allowed)
  else match cut_prefix "/v1/tool-calls/" (rq_Path request) with
       | Some id =>
           if String.eqb id "" || contains_byte "/" id then (None, mux_not_found)
           else if one_of_str (rq_Method request) ["GET"; "HEAD"] then serve id request
           else (None, mux_not_allowed)
       | None => (None, mux_not_found)
       end.

(** [New] with its defaults: the application and its authenticator, and the
    administration with its own; [None] is an application that is not configured. *)
Section Router.
Context {Ctx Call : Type}.
Context (authenticate admin_authenticate : Request -> Ctx + option Z).
Context (application : Ctx -> Request -> option Call * Response).
Context (admin_application : option (Ctx -> Request -> option AdministrativeMutation * Response)).
Context (readiness : result unit) (metrics : Response) (correlation : string).

(** [authentication] around a handler that reports what it did. *)
Definition authenticated {A} (auth : Request -> Ctx + option Z) (next : Ctx -> Request -> option A * Response)
    (request : Request) : option A * Response :=
  match auth request with
  | inl ctx => next ctx request
  | inr _ => (None, authentication auth (fun ctx r => snd (next ctx r)) correlation request)
  end.

Definition admin_handler (request : Request) : option AdministrativeMutation * Response :=
  match admin_application with
  | None => (None, writePublicProblem correlation (rq_Path request) CodeUnauthenticated)
  | Some app => authenticated admin_authenticate app request
  end.

(** The patterns of [New], on a clean path; the effect is a call of the application
    or an administrative mutation. *)
Definition dispatch (request : Request) : option (Call + AdministrativeMutation) * Response :=
  let get := one_of_str (rq_Method request) ["GET"; "HEAD"] in
  if get && String.eqb (rq_Path request) "/livez" then
    (None, writeJSON correlation 200 (json_object [("status", json_string "ok")]%string))
  else if get && String.eqb (rq_Path request) "/readyz" then
    (None, match readiness with
           | Err _ => writePublicProblem correlation (rq_Path request) CodeNotReady
           | Ok _ => writeJSON correlation 200 (json_object [("status", json_string "ready")]%string)
           end)
  else if get && String.eqb (rq_Path request) "/metrics" then (None, metrics)
  else if has_prefix (rq_Path request) "/v1/admin/" then
    let '(m, r) := admin_handler request in (inr <$> m, r)
  else
    let '(c, r) := authenticated authenticate application request in (inl <$> c, r).
End Router.

(** The handlers of a server behind the admission and body limits. *)
Section Server.
Context {Ctx : Type}.
Context (authenticate admin_authenticate : Request -> Ctx + option Z).
Context (identity : Ctx -> result InvocationIdentity) (create : ToolCallRequest -> result ToolCallResult).
Context (reader : option (InvocationIdentity -> string -> result ToolCallView)).
Context (authorize : Ctx -> string -> string -> result unit).
Context (publish_tool set_tenant_exposure : AdministrativeMutation -> result unit) (compiler : SchemaCompiler).
Context (render_time : Z -> string) (readiness : result unit) (metrics : Response) (correlation : string).
Context (maxBodyBytes : Z).

Definition call_application (ctx : Ctx) : Request -> option ToolCallRequest * Response :=
  call_mux (serve_call render_time (identity ctx) create reader correlation).
Definition admin_application_ (ctx : Ctx) : Request -> option AdministrativeMutation * Response :=
  admin_mux (serve_admin (authorize ctx) publish_tool set_tenant_exposure compiler correlation).

(** What one request does, given how it entered. *)
Definition serve (e : entry) (request : Request) : option (ToolCallRequest + AdministrativeMutation) * Response :=
  let next r := dispatch authenticate admin_authenticate call_application (Some admin_application_)
                  readiness metrics correlation r in
  let request := bodyLimit maxBodyBytes request in
  let response := public_serve maxBodyBytes (fun r => snd (next r)) correlation request e in
  match e with
  | Full => (None, response)
  | Exempt => (fst (next request), response)
  | Permit =>
      if (maxBodyBytes <? rq_ContentLength request)
         || ((String.eqb (rq_Method request) "GET" || String.eqb (rq_Method request) "HEAD")
             && (0 <? rq_ContentLength request)) then (None, response)
      else (fst (next request), response)
  end.
End Server.

(** ** Lemmas *)

Lemma post_call_some render identity create correlation request call r :
  post_call render identity create correlation request = (Some call, r) <->
  json_content request = true /\
  (exists key id d, idempotency_key request = Some key /\ identity = Ok id /\
     call_document (rq_Body request) = Some d /\
     call = mkToolCallRequest key (cd_ToolID d) (default EmptyString (cd_Version d)) (cd_Arguments d) id) /\
  r = match create call with
      | Err err => writeDomainProblem correlation (rq_Path request) err CodeServiceUnavailable
      | Ok result => writeJSONContentType correlation (if tcres_Existing result then 200 else 202)
                       "application/json" (created_json render result)
      end.
Proof.
  unfold post_call. split.
  - destruct (json_content request); [cbn [negb]|done]. destruct (idempotency_key request) as [key|]; [|done].
    destruct identity as [id|]; [|done]. destruct (call_document (rq_Body request)) as [d|]; [|done].
    intros [= <- <-]. split; [done|]. split; [by exists key, id, d|done].
  - intros (-> & (key & id & d & -> & -> & -> & ->) & ->). done.
Qed.

Lemma authenticated_some {Ctx A} correlation (auth : Request -> Ctx + option Z) (next : Ctx -> Request -> option A * Response)
    request a r : authenticated correlation auth next request = (Some a, r) ->
  exists ctx, auth request = inl ctx /\ next ctx request = (Some a, r).
Proof. unfold authenticated. destruct (auth request) as [ctx|]; [|done]. eauto. Qed.

Lemma admin_mux_some {A} (serve : Request -> option A * Response) request a r :
  admin_mux serve request = (Some a, r) -> serve request = (Some a, r).
Proof. unfold admin_mux. by repeat (case_match; try done). Qed.

(** What a mutation of the administration rests on. *)
Definition mutation_ok (authorize : string -> string -> result unit) (compiler : SchemaCompiler)
    (m : AdministrativeMutation) : Prop :=
  slen (mut_IdempotencyKey m) <= 128 /\ TrimSpace (mut_IdempotencyKey m) <> EmptyString /\
  match mut_Definition m with
  | Some definition =>
      authorize AdminPublishToolVersion EmptyString = Ok tt /\ ValidateToolPublication definition compiler = Ok tt /\
      Millisecond <= Deadline (ToolCatalog.Limits definition) <= 30 * Second
  | None =>
      authorize AdminSetTenantExposure (mut_TenantID m) = Ok tt /\ is_ok (ParseUUID (mut_TenantID m)) = true /\
      is_ok (ParseToolID (mut_ToolID m)) = true /\ is_ok (ParseSemanticVersion (mut_Version m)) = true
  end.

Lemma is_ok_tt (r : result unit) : is_ok r = true -> r = Ok tt.
Proof. destruct r as [[]|]; done. Qed.

Lemma publish_some authorize publish_tool compiler correlation request key m r :
  publish authorize publish_tool compiler correlation request key = (Some m, r) ->
  exists definition, m = mkMutation key (Some definition) "" "" "" false /\
    authorize AdminPublishToolVersion EmptyString = Ok tt /\ ValidateToolPublication definition compiler = Ok tt /\
    Millisecond <= Deadline (ToolCatalog.Limits definition) <= 30 * Second.
Proof.
  unfold publish. destruct (is_ok (authorize _ _)) eqn:Ha; [cbn [negb]|done].
  destruct (decodeAdministrativeJSON _ _ _ _) as [d|]; [|done]. case_match; [done|].
  destruct (ParseSemanticVersion _) as [version|]; [|done]. destruct (pd_SideEffect d) as [se|]; [|done].
  destruct (pd_OpenWorldResult d) as [ow|]; [|done]. destruct (_ || _) eqn:Hd; [done|]. cbv zeta.
  destruct (is_ok (ValidateToolPublication _ _)) eqn:Hv; [cbn [negb]|done]. intros [= <- <-].
  eexists. split; [done|]. split_and!; [by apply is_ok_tt|by apply is_ok_tt|..];
    cbn [document_definition ToolCatalog.Limits Deadline]; to_prop; unfold Millisecond, Second; lia.
Qed.

Lemma setExposure_some authorize set_exposure_ correlation request key m r :
  setExposure authorize set_exposure_ correlation request key = (Some m, r) ->
  mut_IdempotencyKey m = key /\ mut_Definition m = None /\
  authorize AdminSetTenantExposure (mut_TenantID m) = Ok tt /\ is_ok (ParseUUID (mut_TenantID m)) = true /\
  is_ok (ParseToolID (mut_ToolID m)) = true /\ is_ok (ParseSemanticVersion (mut_Version m)) = true.
Proof.
  unfold setExposure. destruct (decodeAdministrativeJSON _ _ _ _) as [d|]; [|done].
  destruct (_ || _) eqn:E; [done|]. destruct (xd_Enabled d) as [enabled|]; [|done].
  destruct (is_ok (authorize _ _)) eqn:Ha; [cbn [negb]|done]. intros [= <- <-].
  cbn [mut_IdempotencyKey mut_Definition mut_TenantID mut_ToolID mut_Version]. to_prop.
  destruct E as [[? ?] ?]. split_and!; try done. by apply is_ok_tt.
Qed.

Lemma administrativeRequest_some request key : administrativeRequest request = Some key ->
  slen key <= 128 /\ TrimSpace key <> EmptyString.
Proof.
  unfold administrativeRequest, idempotency_key. case_match; [done|].
  destruct (values_of _ _) as [|k [|]]; try done. destruct (_ || contains_byte "," k) eqn:E; [done|].
  destruct (128 <? slen k) eqn:Hl; [done|]. intros [= <-]. to_prop. destruct E. split; [lia|done].
Qed.

Lemma serve_admin_some authorize publish_tool set_exposure_ compiler correlation request m r :
  serve_admin authorize publish_tool set_exposure_ compiler correlation request = (Some m, r) ->
  mutation_ok authorize compiler m.
Proof.
  unfold serve_admin. destruct (administrativeRequest request) as [key|] eqn:Hk; [|done].
  apply administrativeRequest_some in Hk as [Hl Hb]. case_match.
  - intros (definition & -> & Hs)%publish_some. split_and!; done.
  - intros (Hkey & Hd & Hs)%setExposure_some. unfold mutation_ok. rewrite Hd, Hkey. done.
Qed.

(** ** Properties *)

Section Statements.
Context {Ctx : Type}.
Context (authenticate admin_authenticate : Request -> Ctx + option Z).
Context (identity : Ctx -> result InvocationIdentity) (create : ToolCallRequest -> result ToolCallResult).
Context (reader : option (InvocationIdentity -> string -> result ToolCallView)).
Context (authorize : Ctx -> string -> string -> result unit).
Context (publish_tool set_tenant_exposure : AdministrativeMutation -> result unit) (compiler : SchemaCompiler).
Context (render_time : Z -> string) (readiness : result unit) (metrics : Response) (correlation : string).
Context (maxBodyBytes : Z).

#[local] Notation server := (serve authenticate admin_authenticate identity create reader authorize publish_tool
  set_tenant_exposure compiler render_time readiness metrics correlation maxBodyBytes).

#[local] Notation route := (dispatch authenticate admin_authenticate
  (call_application identity create reader render_time correlation)
  (Some (admin_application_ authorize publish_tool set_tenant_exposure compiler correlation))
  readiness metrics correlation).

Lemma serve_effect e request effect r : server e request = (Some effect, r) ->
  e <> Full /\ route (bodyLimit maxBodyBytes request) = (Some effect, r).
Proof.
  unfold serve, public_serve. cbv zeta.
  destruct (route (bodyLimit maxBodyBytes request)) as [eff r'] eqn:E. destruct e; [by intros [= -> <-]| |done].
  destruct (maxBodyBytes <? _); [done|]. cbn [orb]. destruct (_ && _); [done|]. by intros [= -> <-].
Qed.

Lemma route_effect request effect r : route request = (Some effect, r) ->
  match effect with
  | inr m => has_prefix (rq_Path request) "/v1/admin/" = true /\ exists ctx,
      admin_authenticate request = inl ctx /\ mutation_ok (authorize ctx) compiler m
  | inl call => has_prefix (rq_Path request) "/v1/admin/" = false /\ exists ctx,
      authenticate request = inl ctx /\
      call_application identity create reader render_time correlation ctx request = (Some call, r)
  end.
Proof.
  unfold dispatch. cbv zeta. destruct (_ && String.eqb (rq_Path request) "/livez"); [done|].
  destruct (_ && String.eqb (rq_Path request) "/readyz"); [done|].
  destruct (_ && String.eqb (rq_Path request) "/metrics"); [done|].
  destruct (has_prefix (rq_Path request) "/v1/admin/") eqn:Hp.
  - unfold admin_handler. destruct (authenticated _ _ _ _) as [[m|] r'] eqn:E; [|done]. intros [= <- <-].
    split; [done|]. apply authenticated_some in E as (ctx & Hc & E). exists ctx. split; [done|].
    apply admin_mux_some in E. by eapply serve_admin_some.
  - destruct (authenticated _ _ _ _) as [[c|] r'] eqn:E; [|done]. intros [= <- <-]. split; [done|].
    apply authenticated_some in E as (ctx & Hc & E). by exists ctx.
Qed.

Lemma call_application_post ctx request call r :
  call_application identity create reader render_time correlation ctx request = (Some call, r) ->
  post_call render_time (identity ctx) create correlation request = (Some call, r).
Proof.
  unfold call_application, call_mux, serve_call. intros Hc. destruct (String.eqb (rq_Path request) "/v1/tool-calls").
  - destruct (String.eqb (rq_Method request) "POST"); [|done]. by destruct (String.eqb (rq_Method request) "GET").
  - destruct (cut_prefix _ _) as [id|]; [|done]. destruct (_ || _); [done|]. destruct (one_of_str _ _); [|done].
    by destruct (String.eqb (rq_Method request) "GET").
Qed.

Lemma call_document_some body d : call_document (bodyLimit maxBodyBytes body).(rq_Body) = Some d ->
  exists text, rq_Body body = Ok text /\ slen text <= maxBodyBytes /\ slen text <= max_call_bytes /\
    is_ok (Parse text (only_bytes max_call_bytes)) = true /\
    decode_document call_fields true set_call (mkCallDocument "" None "") text = Some d /\ cd_Arguments d <> EmptyString.
Proof.
  unfold call_document, bodyLimit. cbn [rq_Body]. destruct (rq_Body body) as [text|]; [|done]. cbn [mbind result_bind].
  destruct (Z.ltb_spec maxBodyBytes (slen text)); [done|]. destruct (Z.ltb_spec max_call_bytes (slen text)); [done|].
  destruct (is_ok (Parse text _)) eqn:Hp; [cbn [negb]|done]. destruct (decode_document _ _ _ _ _) as [d'|] eqn:Hdec; [|done].
  destruct (Z.eqb_spec (slen (cd_Arguments d')) 0) as [|Hne]; [done|]. intros [= <-]. exists text.
  do 5 (split; [done|]). intros E. apply Hne. by rewrite E.
Qed.

Lemma idempotency_key_some request key : idempotency_key request = Some key ->
  values_of (rq_Header request) "Idempotency-Key" = [key] /\ TrimSpace key <> EmptyString.
Proof.
  unfold idempotency_key. destruct (values_of _ _) as [|k [|]]; try done. destruct (_ || _) eqn:E; [done|].
  intros [= <-]. to_prop. by destruct E.
Qed.

(** C11: what the server passes to the tool-call service.  A call reaches the service
    only for a request that was admitted, is outside the administration, carries
    credentials the public authenticator accepts and exactly one non-blank
    idempotency key, and whose body, within both limits, is one strict JSON document
    with a [tool_id], optional version and arguments and nothing else; the call has
    this key, this document and the identity derived from the credentials, whatever
    else the request says.  For a POST the answer is 202 for a new call, 200 for an
    existing one, with the call it is about, and otherwise the problem of the
    service's error. *)
Theorem call_reaches_service (e : entry) (request : Request) (call : ToolCallRequest) (r : Response)
    (H : server e request = (Some (inl call), r)) :
  e <> Full /\ has_prefix (rq_Path request) "/v1/admin/" = false /\
  json_content request = true /\
  (exists ctx key id d body, authenticate (bodyLimit maxBodyBytes request) = inl ctx /\ identity ctx = Ok id /\
     values_of (rq_Header request) "Idempotency-Key" = [key] /\ TrimSpace key <> EmptyString /\
     rq_Body request = Ok body /\ slen body <= maxBodyBytes /\ slen body <= max_call_bytes /\
     is_ok (Parse body (only_bytes max_call_bytes)) = true /\
     decode_document call_fields true set_call (mkCallDocument "" None "") body = Some d /\
     cd_Arguments d <> EmptyString /\
     call = mkToolCallRequest key (cd_ToolID d) (default EmptyString (cd_Version d)) (cd_Arguments d) id) /\
  r = match create call with
      | Err err => writeDomainProblem correlation (rq_Path request) err CodeServiceUnavailable
      | Ok result => writeJSONContentType correlation (if tcres_Existing result then 200 else 202)
                       "application/json" (created_json render_time result)
      end.
Proof.
  apply serve_effect in H as [He Hr]. apply route_effect in Hr as (Hp & ctx & Ha & Hc).
  apply call_application_post, post_call_some in Hc as (Hj & (key & id & d & Hk & Hid & Hd & ->) & ->).
  split_and!; try done. apply call_document_some in Hd as (body & Hb & H1 & H2 & H3 & H4 & H5).
  apply idempotency_key_some in Hk as [Hk1 Hk2]. exists ctx, key, id, d, body. done.
Qed.

(** C17: administration is guarded three times.  A mutation of the catalog is handed to
    the administrator only for an admitted request below the administration path
    whose credentials the administration's own authenticator accepts (the public
    authenticator is not asked), only when the authorizer allows this action for
    the tenant it concerns, with a usable idempotency key, and only for a tool
    version that passes publication validation with a deadline of at most 30 seconds,
    or an exposure with a well-formed tenant, tool and version. *)
Theorem administration_guarded (e : entry) (request : Request) (m : AdministrativeMutation) (r : Response)
    (H : server e request = (Some (inr m), r)) :
  e <> Full /\ has_prefix (rq_Path request) "/v1/admin/" = true /\
  exists ctx, admin_authenticate (bodyLimit maxBodyBytes request) = inl ctx /\ mutation_ok (authorize ctx) compiler m.
Proof.
  apply serve_effect in H as [He Hr]. apply route_effect in Hr as (Hp & Hc). done.
Qed.
End Statements.

(** A server with one caller and one administrator. *)
Definition ex_identity : InvocationIdentity := mkIdentity "t" "s" "" "agent" "1.0.0" "run-1" "w".
Definition ex_create (call : ToolCallRequest) : result ToolCallResult :=
  Ok (mkToolCallResult (mkInvocation "i" "run-1" (tcr_ToolCallID call) (tcr_ToolID call) "1.0.0" "jcs-v1" "" "" "{}"
        "safe" "validated" 1 1) "validated" false).
Definition ex_headers : gmap string (list string) :=
  {["Content-Type" := ["application/json; charset=utf-8"]; "Idempotency-Key" := ["call-0001"]]}%string.
Definition ex_call_request : Request :=
  mkRequest "POST" "/v1/tool-calls" "" ∅ ex_headers (-1)
    (Ok (quoted "{'tool_id':'a.tool','version':'1.0.0','arguments':{'n': 1}}")).
Definition ex_admin_request : Request :=
  mkRequest "PUT" "/v1/admin/tenant-tool-exposures" "" ∅ ex_headers (-1)
    (Ok (quoted "{'tenant_id':'01890f3e-7b6d-7cc0-98c4-dc0c0c073990','tool_id':'a.tool','version':'1.0.0','enabled':true}")).
Definition ex_serve : entry -> Request -> option (ToolCallRequest + AdministrativeMutation) * Response :=
  serve (fun _ => inl tt) (fun _ => inl tt) (fun _ => Ok ex_identity) ex_create None (fun _ _ _ => Ok tt)
    (fun _ => Ok tt) (fun _ => Ok tt) None (fun _ => json_string "time") (Ok tt) mux_not_found "id" max_call_bytes.

Lemma call_reaches_service_witness : exists call r,
  ex_serve Permit ex_call_request = (Some (inl call), r) /\ json_content ex_call_request = true /\
  call = mkToolCallRequest "call-0001" "a.tool" "1.0.0" (quoted "{'n': 1}") ex_identity.
Proof.
  exists (mkToolCallRequest "call-0001" "a.tool" "1.0.0" (quoted "{'n': 1}") ex_identity),
    (snd (ex_serve Permit ex_call_request)).
  assert (H : ex_serve Permit ex_call_request =
    (Some (inl (mkToolCallRequest "call-0001" "a.tool" "1.0.0" (quoted "{'n': 1}") ex_identity)),
     snd (ex_serve Permit ex_call_request))) by (vm_compute; reflexivity).
  split; [exact H|]. split; [|reflexivity].
  exact (proj1 (proj2 (proj2 (call_reaches_service _ _ _ _ _ _ _ _ _ _ _ _ _ _ _ _ _ _ H)))).
Defined.

Lemma administration_guarded_witness : exists m r,
  ex_serve Permit ex_admin_request = (Some (inr m), r) /\ mut_Enabled m = true /\
  has_prefix (rq_Path ex_admin_request) "/v1/admin/" = true.
Proof.
  exists (mkMutation "call-0001" None "01890f3e-7b6d-7cc0-98c4-dc0c0c073990" "a.tool" "1.0.0" true),
    (snd (ex_serve Permit ex_admin_request)).
  assert (H : ex_serve Permit ex_admin_request =
    (Some (inr (mkMutation "call-0001" None "01890f3e-7b6d-7cc0-98c4-dc0c0c073990" "a.tool" "1.0.0" true)),
     snd (ex_serve Permit ex_admin_request))) by (vm_compute; reflexivity).
  split; [exact H|]. split; [reflexivity|].
  exact (proj1 (proj2 (administration_guarded _ _ _ _ _ _ _ _ _ _ _ _ _ _ _ _ _ _ H))).
Defined.

(** A HEAD request for a tool call with a chunked body is taken as a POST: the
    handler distinguishes GET only, and the admission check looks at announced
    lengths. *)
Lemma head_request_creates_call : exists call,
  fst (ex_serve Permit (mkRequest "HEAD" "/v1/tool-calls/any" "" ∅ ex_headers (-1) (rq_Body ex_call_request))) =
  Some (inl call) /\ tcr_ToolID call = "a.tool"%string.
Proof. eexists. split; [vm_compute; reflexivity|reflexivity]. Qed.

(** Members that differ in case only are the same field, and the last one counts. *)
Lemma folded_members_override :
  cd_ToolID <$> call_document (Ok (quoted "{'tool_id':'a.tool','arguments':{},'TOOL_ID':'b.tool'}")) =
  Some "b.tool"%string.
Proof. vm_compute. reflexivity. Qed.
