(* ===== verification/Authn.v ===== *)
(** * Authentication of requests

    [internal/authn/http.go], [workload.go] and [context.go], with the identity
    functions of [internal/adapters/http]: the governed identity of a request is
    derived from the verified credential and the verified workload certificate
    alone; headers and body members that name an identity are refused or must agree.

    [verify] is the reply of the token verifier; a request comes with the verified
    certificate chains of its connection. *)
From Stdlib Require Import Ascii String.
From S2P Require Import Prelude GoStd Regex Json JsonParse Primitives ToolCatalog GoText Ports Http CanonicalJson JsonStruct Netip GoUrl Oidc Projection Schema ToolCalls HttpCalls.

(** ** Principals and workloads *)

Definition maxIdentityValueBytes : Z := 512.

Record Principal := mkPrincipal {
  pri_Issuer : string; pri_Subject : string; pri_Actor : string; pri_TenantID : string;
  pri_AgentID : string; pri_AgentVersion : string; pri_RunID : string;
}.
Record WorkloadIdentity := mkWorkload { wl_ID : string; wl_Source : string }.

(** What the authenticator puts into the request context. *)
Record auth_context := mkContext { ctx_principal : option Principal; ctx_workload : option WorkloadIdentity }.
Definition no_context : auth_context := mkContext None None.

Definition validIdentityValue (value : string) : bool :=
  negb (String.eqb value "") && (slen value <=? maxIdentityValueBytes) && String.eqb (TrimSpace value) value.

(** A certificate: its bytes and its URIs, parsed and as text. *)
Record certificate := mkCertificate { cert_Raw : string; cert_URIs : list (URL * string) }.

Fixpoint verifiedLeaf (leaf : option certificate) (chains : list (list certificate)) : result (option certificate) :=
  match chains with
  | [] => Ok leaf
  | chain :: chains =>
      match chain with
      | [] => Err (ErrNew "verified certificate chain is empty")
      | first :: _ =>
          match leaf with
          | None => verifiedLeaf (Some first) chains
          | Some l => if String.eqb (cert_Raw l) (cert_Raw first) then verifiedLeaf leaf chains
                      else Err (ErrNew "verified certificate chains disagree on leaf")
          end
      end
  end.

Definition validSPIFFEID (id : URL * string) (trustDomains : gset string) : bool :=
  let u := id.1 in
  String.eqb (u_Scheme u) "spiffe" && negb (String.eqb (u_Host u) "") && negb (u_User u)
  && String.eqb (u_RawQuery u) "" && String.eqb (u_Fragment u) "" && negb (String.eqb (u_Path u) "")
  && negb (String.eqb (u_Path u) "/") && bool_decide (ToLower (u_Host u) ∈ trustDomains)
  && String.eqb id.2 (TrimSpace id.2).

(** [NewLocalWorkloadSource] and [NewMTLSWorkloadSource] *)
Inductive WorkloadSource := LocalSource (identity : WorkloadIdentity) | MTLSSource (trustDomains : gset string).

Definition NewLocalWorkloadSource (id : string) : result WorkloadSource :=
  if negb (validIdentityValue id) then Err (ErrNew "local workload identity is required")
  else Ok (LocalSource (mkWorkload id "local")).

Fixpoint trust_domains (domains : list string) : option (gset string) :=
  match domains with
  | [] => Some ∅
  | domain :: domains =>
      if String.eqb domain "" || negb (String.eqb (TrimSpace domain) domain) || contains_any domain "/:@" then None
      else (fun rest => {[ToLower domain]} ∪ rest) <$> trust_domains domains
  end.
Definition NewMTLSWorkloadSource (domains : list string) : result WorkloadSource :=
  match trust_domains domains with
  | None => Err (ErrNew "invalid SPIFFE trust domain")
  | Some configured => if Nat.eqb (size configured) 0 then Err (ErrNew "at least one SPIFFE trust domain is required")
                       else Ok (MTLSSource configured)
  end.

Definition Resolve (source : WorkloadSource) (chains : list (list certificate)) : result WorkloadIdentity :=
  match source with
  | LocalSource identity => Ok identity
  | MTLSSource trustDomains =>
      match chains with
      | [] => Err (ErrNew "verified workload certificate is required")
      | _ =>
          verifiedLeaf None chains ≫= fun leaf =>
          match leaf with
          | Some leaf =>
              match cert_URIs leaf with
              | [id] => if validSPIFFEID id trustDomains then Ok (mkWorkload id.2 "spiffe-mtls")
                        else Err (ErrNew "exactly one allowed SPIFFE ID is required")
              | _ => Err (ErrNew "exactly one allowed SPIFFE ID is required")
              end
          | None => Err (ErrNew "verified workload certificate is required")
          end
      end
  end.

(** ** Claims *)

(** [uniqueStringClaim]: the names that are present must agree. *)
Fixpoint unique_from (claims : list (string * jvalue)) (value : string) (names : list string) : result string :=
  match names with
  | [] => Ok value
  | name :: names =>
      match claim claims name with
      | None => unique_from claims value names
      | Some (JString text) =>
          if negb (validIdentityValue text) || (negb (String.eqb value "") && negb (String.eqb value text)) then
            Err (ErrNew "identity claim is malformed or ambiguous")
          else unique_from claims text names
      | Some _ => Err (ErrNew "identity claim is malformed or ambiguous")
      end
  end.
Definition uniqueStringClaim (claims : list (string * jvalue)) (names : list string) : result string :=
  unique_from claims EmptyString names.

Definition actorClaim (value : option jvalue) : result string :=
  match value with
  | None | Some JNull => Ok EmptyString
  | Some (JString text) => if validIdentityValue text then Ok text else Err (ErrNew "actor claim is malformed")
  | Some (JObject object) =>
      match uniqueStringClaim object ["sub"]%string with
      | Ok actor => if String.eqb actor "" then Err (ErrNew "actor claim is malformed") else Ok actor
      | Err _ => Err (ErrNew "actor claim is malformed")
      end
  | Some _ => Err (ErrNew "actor claim is malformed")
  end.

Definition principalFromClaims (claims : Claims) : result Principal :=
  if negb (validIdentityValue (cl_Issuer claims)) || negb (validIdentityValue (cl_Subject claims)) then
    Err (ErrNew "issuer and subject are required") else
  match uniqueStringClaim (cl_Raw claims) ["tenant_id"; "tenant"]%string with
  | Err _ => Err (ErrNew "unambiguous tenant claim is required")
  | Ok tenant =>
      if String.eqb tenant "" then Err (ErrNew "unambiguous tenant claim is required") else
      uniqueStringClaim (cl_Raw claims) ["run"; "run_id"]%string ≫= fun run =>
      uniqueStringClaim (cl_Raw claims) ["agent"; "agent_id"]%string ≫= fun agent =>
      uniqueStringClaim (cl_Raw claims) ["agent_version"]%string ≫= fun version =>
      actorClaim (claim (cl_Raw claims) "act") ≫= fun actor =>
      Ok (mkPrincipal (cl_Issuer claims) (cl_Subject claims) actor tenant agent version run)
  end.

(** ** Requests *)

(** [bearerToken] *)
Definition bearerToken (values : list string) : option string :=
  match values with
  | [value] =>
      if contains_byte "," value then None else
      match GoText.Fields value with
      | [scheme; token] => if negb (EqualFold scheme "Bearer") || String.eqb token "" then None else Some token
      | _ => None
      end
  | _ => None
  end.

Definition governanceHeaders : list string :=
  ["X-Tenant-Id"; "X-Principal-Id"; "X-Subject-Id"; "X-Actor-Id"; "X-Agent-Id"; "X-Agent-Version"; "X-Run-Id";
   "X-Workload-Id"]%string.
Definition forged_header (name : string) : bool :=
  let canonical := CanonicalHeaderKey name in
  String.eqb canonical "Forwarded" || has_prefix canonical "X-Forwarded-" || one_of_str canonical governanceHeaders.
Definition hasForgedHeader (headers : gmap string (list string)) : bool :=
  existsb (fun kv => forged_header kv.1) (map_to_list headers).

(** The members a body may repeat the identity in, and what they must say. *)
Definition trusted_hints (p : Principal) : list (string * string) :=
  [("tenant_id", pri_TenantID p); ("principal_id", pri_Subject p); ("subject", pri_Subject p);
   ("subject_id", pri_Subject p); ("actor_id", pri_Actor p); ("agent_id", pri_AgentID p);
   ("agent_version", pri_AgentVersion p); ("run_id", pri_RunID p)]%string.

(** The last member of a name, as a map keeps it. *)
Definition last_member (l : list member) (name : string) : option jvalue :=
  m_value <$> List.find (fun m => String.eqb (m_name m) name) (rev l).

Definition hint_ok (l : list member) (hint : string * string) : bool :=
  match last_member l hint.1 with
  | None => true
  | Some (JString supplied) => negb (String.eqb hint.2 "") && String.eqb supplied hint.2
  | Some JNull => negb (String.eqb hint.2 "") && String.eqb EmptyString hint.2
  | Some _ => false
  end.

(** [checkBodyIdentityHints] *)
Definition checkBodyIdentityHints (request : Request) (principal : Principal) : bool :=
  if negb (has_prefix (ToLower (value_of (rq_Header request) "Content-Type")) "application/json") then true else
  match rq_Body request with
  | Err _ => false
  | Ok body =>
      if slen (TrimSpace body) =? 0 then true else
      match read_top body with
      | Some (TObject l, _) => forallb (hint_ok l) (trusted_hints principal)
      | _ => true
      end
  end.

Section Authenticate.
Context (verify : string -> Claims + verification_error).
Context (source : option WorkloadSource) (exempt : gset string).

(** [Authenticate]: the context, or the HTTP status of the error. *)
Definition Authenticate (request : Request) (chains : list (list certificate)) : auth_context + option Z :=
  if bool_decide (rq_Path request ∈ exempt) then inl no_context
  else if hasForgedHeader (rq_Header request) then inr (Some 401) else
  match bearerToken (values_of (rq_Header request) "Authorization") with
  | None => inr (Some 401)
  | Some token =>
  match verify token with
  | inr (DependencyUnavailable _) => inr (Some 503)
  | inr _ => inr (Some 401)
  | inl claims =>
  match principalFromClaims claims with
  | Err _ => inr (Some 401)
  | Ok principal =>
      if negb (checkBodyIdentityHints request principal) then inr (Some 401) else
      match source with
      | None => inl (mkContext (Some principal) None)
      | Some source =>
          match Resolve source chains with
          | Err _ => inr (Some 401)
          | Ok identity =>
              if negb (validIdentityValue (wl_ID identity)) || String.eqb (wl_Source identity) "" then inr (Some 401)
              else inl (mkContext (Some principal) (Some identity))
          end
      end
  end
  end
  end.
End Authenticate.

(** [NewHTTPAuthenticatorWithWorkload]: the exempt paths it accepts. *)
Fixpoint NewHTTPAuthenticator (exemptPaths : list string) : result (gset string) :=
  match exemptPaths with
  | [] => Ok ∅
  | path :: rest =>
      if negb (has_prefix path "/") then Err (ErrNew "invalid authentication-exempt path")
      else NewHTTPAuthenticator rest ≫= fun rest => Ok ({[path]} ∪ rest)
  end.

(** ** The governed identity *)

Record GovernedContext := mkGoverned {
  gov_TenantID : string; gov_Subject : string; gov_Actor : string; gov_AgentID : string;
  gov_AgentVersion : string; gov_RunID : string;
}.

Definition DeriveGovernedContext (ctx : auth_context) : result GovernedContext :=
  match ctx_principal ctx with
  | None => Err (ErrNew "authenticated principal is required")
  | Some p =>
      if negb (validIdentityValue (pri_TenantID p)) || negb (validIdentityValue (pri_Subject p))
         || negb (validIdentityValue (pri_AgentID p)) || negb (validIdentityValue (pri_AgentVersion p))
         || negb (validIdentityValue (pri_RunID p))
         || (negb (String.eqb (pri_Actor p) "") && negb (validIdentityValue (pri_Actor p))) then
        Err (ErrNew "complete governed identity is required")
      else Ok (mkGoverned (pri_TenantID p) (pri_Subject p) (pri_Actor p) (pri_AgentID p) (pri_AgentVersion p) (pri_RunID p))
  end.

(** [invocationIdentityFromAuthentication] of the tool-call handler. *)
Definition invocationIdentityFromAuthentication (ctx : auth_context) : result InvocationIdentity :=
  DeriveGovernedContext ctx ≫= fun g =>
  match ctx_workload ctx with
  | Some workload =>
      if String.eqb (wl_ID workload) "" then Err (ErrNew "authenticated workload identity is required")
      else Ok (mkIdentity (gov_TenantID g) (gov_Subject g) (gov_Actor g) (gov_AgentID g) (gov_AgentVersion g)
                 (gov_RunID g) (wl_ID workload))
  | None => Err (ErrNew "authenticated workload identity is required")
  end.

(** [discoveryIdentityFromAuthentication] of the discovery handler. *)
Definition discoveryIdentityFromAuthentication (ctx : auth_context) : result DiscoveryAuthorizationRequest :=
  DeriveGovernedContext ctx ≫= fun g =>
  match ctx_workload ctx with
  | Some workload =>
      if String.eqb (wl_ID workload) "" then Err (ErrNew "authenticated workload identity is required")
      else Ok (mkDiscoveryRequest (gov_TenantID g) (gov_Subject g) (gov_Actor g) (gov_AgentID g)
                 (gov_AgentVersion g) (gov_RunID g) (wl_ID workload) [])
  | None => Err (ErrNew "authenticated workload identity is required")
  end.

(** ** Lemmas *)

(** The names that are present among the claims all say [value], and one of them is
    present when it is not empty. *)
Definition claims_say (claims : list (string * jvalue)) (names : list string) (value : string) : Prop :=
  (forall name v, name ∈ names -> claim claims name = Some v -> v = JString value) /\
  (value <> EmptyString -> exists name, name ∈ names /\ claim claims name = Some (JString value)).

(** The actor is the text of the claim, or of the subject in it; without a claim there is none. *)
Definition actor_says (value : option jvalue) (actor : string) : Prop :=
  match value with
  | None | Some JNull => actor = EmptyString
  | Some (JString text) => actor = text
  | Some (JObject object) => actor <> EmptyString /\ claim object "sub" = Some (JString actor)
  | Some _ => False
  end.

(** The identity that claims and a workload stand for. *)
Definition identity_matches (claims : Claims) (workload : WorkloadIdentity) (id : InvocationIdentity) : Prop :=
  id_Subject id = cl_Subject claims /\
  claims_say (cl_Raw claims) ["tenant_id"; "tenant"]%string (id_TenantID id) /\
  claims_say (cl_Raw claims) ["run"; "run_id"]%string (id_RunID id) /\
  claims_say (cl_Raw claims) ["agent"; "agent_id"]%string (id_AgentID id) /\
  claims_say (cl_Raw claims) ["agent_version"]%string (id_AgentVersion id) /\
  actor_says (claim (cl_Raw claims) "act") (id_Actor id) /\
  id_WorkloadID id = wl_ID workload.

(** A member of the body that names a part of the identity says what the identity says:
    of several members of one name the last one, as a map keeps it. *)
Definition hints_agree (request : Request) (id : InvocationIdentity) : Prop :=
  forall body before m after rest,
    has_prefix (ToLower (value_of (rq_Header request) "Content-Type")) "application/json" = true ->
    rq_Body request = Ok body -> TrimSpace body <> EmptyString -> read_top body = Some (TObject (before ++ m :: after), rest) ->
    (forall m', m' ∈ after -> m_name m' <> m_name m) ->
    let says value := m_value m = JString value /\ value <> EmptyString in
    (m_name m = "tenant_id"%string -> says (id_TenantID id)) /\
    (m_name m ∈ ["principal_id"; "subject"; "subject_id"]%string -> says (id_Subject id)) /\
    (m_name m = "actor_id"%string -> says (id_Actor id)) /\ (m_name m = "agent_id"%string -> says (id_AgentID id)) /\
    (m_name m = "agent_version"%string -> says (id_AgentVersion id)) /\ (m_name m = "run_id"%string -> says (id_RunID id)).

Definition identity_complete (id : InvocationIdentity) : Prop :=
  Forall (fun v => validIdentityValue v = true)
    [id_TenantID id; id_Subject id; id_AgentID id; id_AgentVersion id; id_RunID id; id_WorkloadID id] /\
  (id_Actor id = EmptyString \/ validIdentityValue (id_Actor id) = true).

Lemma unique_from_says claims names : forall value got, unique_from claims value names = Ok got ->
  (value <> EmptyString -> got = value) /\
  (forall name v, name ∈ names -> claim claims name = Some v -> v = JString got) /\
  (got = value \/ exists name, name ∈ names /\ claim claims name = Some (JString got)).
Proof.
  induction names as [|name names IH]; cbn [unique_from]; intros value got.
  { intros [= ->]. split_and!; [done|set_solver|by left]. }
  destruct (claim claims name) as [v|] eqn:Hc.
  - destruct v as [| | |text| |]; try done. destruct (_ || _) eqn:E; [done|]. intros Hu.
    rewrite orb_false_iff, negb_false_iff, andb_false_iff, !negb_false_iff, !String.eqb_eq in E. destruct E as [Hv Hsame].
    assert (text <> EmptyString) as Hne by (by destruct text).
    destruct (IH _ _ Hu) as (Hg & Hall & _). specialize (Hg Hne). subst got. split_and!.
    + intros Hvne. destruct Hsame as [-> | ->]; done.
    + intros n v [->|Hn]%elem_of_cons Hl; [congruence|by eapply Hall].
    + right. exists name. split; [apply list_elem_of_here|done].
  - intros Hu. destruct (IH _ _ Hu) as (Hg & Hall & Hex). split_and!; [done| |].
    + intros n v [->|Hn]%elem_of_cons Hl; [congruence|by eapply Hall].
    + destruct Hex as [->|(n & Hn & Hl)]; [by left|]. right. exists n. split; [by apply elem_of_cons; right|done].
Qed.

Lemma unique_says claims names value : uniqueStringClaim claims names = Ok value -> claims_say claims names value.
Proof.
  intros (_ & Hall & Hex)%unique_from_says. split; [done|]. intros Hne. by destruct Hex.
Qed.

Lemma actor_says_ok value actor : actorClaim value = Ok actor -> actor_says value actor.
Proof.
  unfold actorClaim. destruct value as [[| | |text| |object]|]; cbn [actor_says]; try done; try (by intros [= <-]).
  - destruct (validIdentityValue text); [|done]. by intros [= <-].
  - destruct (uniqueStringClaim object ["sub"]%string) as [a|] eqn:E; [|done].
    destruct (String.eqb_spec a "") as [|Hne]; [done|]. intros [= <-]. split; [done|].
    destruct (unique_says _ _ _ E) as [_ Hex]. destruct (Hex Hne) as (n & Hn & Hl).
    by apply list_elem_of_singleton in Hn as ->.
Qed.

Lemma principal_ok claims p : principalFromClaims claims = Ok p ->
  pri_Subject p = cl_Subject claims /\
  claims_say (cl_Raw claims) ["tenant_id"; "tenant"]%string (pri_TenantID p) /\
  claims_say (cl_Raw claims) ["run"; "run_id"]%string (pri_RunID p) /\
  claims_say (cl_Raw claims) ["agent"; "agent_id"]%string (pri_AgentID p) /\
  claims_say (cl_Raw claims) ["agent_version"]%string (pri_AgentVersion p) /\
  actor_says (claim (cl_Raw claims) "act") (pri_Actor p).
Proof.
  unfold principalFromClaims. case_match; [done|].
  destruct (uniqueStringClaim _ ["tenant_id"; "tenant"]%string) as [tenant|] eqn:Ht; [|done]. case_match; [done|].
  rewrite result_bind_Ok. intros (run & Hr & H1). apply result_bind_Ok in H1 as (agent & Ha & H1).
  apply result_bind_Ok in H1 as (version & Hv & H1). apply result_bind_Ok in H1 as (actor & Hact & [= <-]).
  cbn. split_and!; [done|by apply unique_says..|by apply actor_says_ok].
Qed.

(** The last member of a name, in a list split at it. *)
Lemma last_member_split before m after : (forall m', m' ∈ after -> m_name m' <> m_name m) ->
  last_member (before ++ m :: after) (m_name m) = Some (m_value m).
Proof.
  intros Hlast. unfold last_member. rewrite rev_app_distr. cbn [rev]. rewrite <- app_assoc. cbn [app].
  assert (Hin : forall m', m' ∈ rev after -> m_name m' <> m_name m)
    by (intros m' Hm'%list_elem_of_In; apply Hlast, list_elem_of_In, in_rev; done).
  induction (rev after) as [|x l IH]; cbn [app List.find].
  - by rewrite String.eqb_refl.
  - rewrite (proj2 (String.eqb_neq _ _)); [apply IH; set_solver|]. apply Hin. set_solver.
Qed.

Lemma hint_says before m after hint : hint_ok (before ++ m :: after) hint = true ->
  (forall m', m' ∈ after -> m_name m' <> m_name m) -> m_name m = hint.1 ->
  m_value m = JString hint.2 /\ hint.2 <> EmptyString.
Proof.
  intros Hok Hlast Hn. unfold hint_ok in Hok. rewrite <- Hn, last_member_split in Hok by done.
  destruct (m_value m); try done; apply andb_true_iff in Hok as [Hne He]; apply negb_true_iff, String.eqb_neq in Hne;
    apply String.eqb_eq in He; [congruence|]. by subst.
Qed.

Lemma hints_ok request p id : checkBodyIdentityHints request p = true ->
  pri_TenantID p = id_TenantID id -> pri_Subject p = id_Subject id -> pri_Actor p = id_Actor id ->
  pri_AgentID p = id_AgentID id -> pri_AgentVersion p = id_AgentVersion id -> pri_RunID p = id_RunID id ->
  hints_agree request id.
Proof.
  intros Hc Ht Hs Ha Hg Hv Hu body before m after rest Hj Hb Hne Hr Hlast says. rewrite <- Ht, <- Hs, <- Ha, <- Hg, <- Hv, <- Hu. clear Ht Hs Ha Hg Hv Hu.
  unfold checkBodyIdentityHints in Hc. rewrite Hj, Hb in Hc. cbn [negb] in Hc.
  rewrite (proj2 (Z.eqb_neq (slen (TrimSpace body)) 0)) in Hc by (unfold slen; by destruct (TrimSpace body)).
  rewrite Hr in Hc. rewrite forallb_forall in Hc.
  assert (Hs : forall name value, In (name, value) (trusted_hints p) -> m_name m = name -> says value)
    by (intros name value Hin Hn; exact (hint_says _ _ _ (name, value) (Hc _ Hin) Hlast Hn)).
  split_and!; try (intros Hn; eapply Hs; [|exact Hn]; cbn; tauto).
  rewrite !elem_of_cons, elem_of_nil. intros [Hn|[Hn|[Hn|[]]]]; (eapply Hs; [|exact Hn]; cbn; tauto).
Qed.

Lemma identity_from_context ctx id : invocationIdentityFromAuthentication ctx = Ok id ->
  exists p w, ctx_principal ctx = Some p /\ ctx_workload ctx = Some w /\
    id = mkIdentity (pri_TenantID p) (pri_Subject p) (pri_Actor p) (pri_AgentID p) (pri_AgentVersion p) (pri_RunID p) (wl_ID w) /\
    (validIdentityValue (wl_ID w) = true -> identity_complete id).
Proof.
  unfold invocationIdentityFromAuthentication, DeriveGovernedContext. rewrite result_bind_Ok.
  intros (g & Hg & H). destruct (ctx_principal ctx) as [p|]; [|done]. destruct (_ || _) eqn:E in Hg; [done|].
  injection Hg as <-. destruct (ctx_workload ctx) as [w|]; [|done]. case_match; [done|]. injection H as <-.
  exists p, w. split_and!; try done. intros Hw. rewrite !orb_false_iff, !negb_false_iff, andb_false_iff, !negb_false_iff in E.
  destruct E as [[[[[Ht Hs] Ha] Hv] Hr] Hact]. split.
  - cbn. repeat (apply List.Forall_cons; [done|]). apply List.Forall_nil.
  - cbn. destruct Hact as [Hact|Hact]; [left; by apply String.eqb_eq|by right].
Qed.

Section Identity.
Context (verify : string -> Claims + verification_error) (source : option WorkloadSource) (exempt : gset string).

(** What a successful authentication that yields an identity rests on. *)
Definition authenticated_by (request : Request) (chains : list (list certificate)) (id : InvocationIdentity) : Prop :=
  exists value token claims p src w,
    values_of (rq_Header request) "Authorization" = [value] /\ bearerToken [value] = Some token /\
    verify token = inl claims /\ principalFromClaims claims = Ok p /\
    identity_matches claims w id /\ identity_complete id /\
    source = Some src /\ Resolve src chains = Ok w /\ rq_Path request ∉ exempt /\
    (forall name values, rq_Header request !! name = Some values -> forged_header name = false) /\
    hints_agree request id.

Lemma Authenticate_identity request chains ctx id :
  Authenticate verify source exempt request chains = inl ctx ->
  invocationIdentityFromAuthentication ctx = Ok id -> authenticated_by request chains id.
Proof.
  intros Ha (p & w & Hp & Hw & -> & Hc)%identity_from_context. unfold Authenticate in Ha.
  case_bool_decide as Hex. { injection Ha as <-. done. }
  destruct (hasForgedHeader (rq_Header request)) eqn:Hf; [done|].
  destruct (values_of (rq_Header request) "Authorization") as [|value [|]] eqn:Hv; try done.
  destruct (bearerToken [value]) as [token|] eqn:Hb; [|done].
  destruct (verify token) as [claims|[| |]] eqn:Hver; try done.
  destruct (principalFromClaims claims) as [p'|] eqn:Hpr; [|done].
  destruct (checkBodyIdentityHints request p') eqn:Hh; [cbn [negb] in Ha|done].
  destruct source as [src|] eqn:Hsrc; [|injection Ha as <-; done].
  destruct (Resolve src chains) as [w'|] eqn:Hres; [|done]. destruct (_ || _) eqn:Hwl in Ha; [done|].
  injection Ha as <-. cbn in Hp, Hw. injection Hp as <-. injection Hw as <-.
  pose proof (principal_ok _ _ Hpr) as (? & ? & ? & ? & ? & ?). rewrite orb_false_iff, negb_false_iff in Hwl.
  assert (Hforged : forall name values, rq_Header request !! name = Some values -> forged_header name = false).
  { intros name values Hl. unfold hasForgedHeader in Hf. destruct (forged_header name) eqn:E; [|done].
    rewrite <- Hf. symmetry. apply existsb_exists. exists (name, values). split; [|done].
    by apply list_elem_of_In, elem_of_map_to_list. }
  assert (Hcomplete := Hc (proj1 Hwl)).
  assert (Hagree : hints_agree request (mkIdentity (pri_TenantID p') (pri_Subject p') (pri_Actor p') (pri_AgentID p')
    (pri_AgentVersion p') (pri_RunID p') (wl_ID w'))) by (by apply (hints_ok _ p')).
  exists value, token, claims, p', src, w'. do 4 (split; [done|]). split; [|done].
  unfold identity_matches. cbn. done.
Qed.
End Identity.

(** ** Properties *)

(** C12: the identity a tool call runs under comes from its credentials.  When a
    request makes the server call the tool-call service, it presented exactly one
    bearer token which the verifier accepts, and the tenant, subject, actor, agent,
    agent version and run of the call are the unambiguous claims of that token,
    its workload the one the connection's certificate identifies; every part is
    present and well-formed; no header that names an identity or a forwarding proxy
    was sent, and a JSON body that repeats any of these names repeats their values.
    Paths exempt from authentication never get this far. *)
Theorem identity_from_credentials (verify : string -> Claims + verification_error)
    (source : option WorkloadSource) (exempt : gset string) (chains : list (list certificate))
    (admin_authenticate : Request -> auth_context + option Z)
    (create : ToolCallRequest -> result ToolCallResult)
    (reader : option (InvocationIdentity -> string -> result ToolCallView))
    (authorize : auth_context -> string -> string -> result unit)
    (publish_tool set_tenant_exposure : AdministrativeMutation -> result unit) (compiler : SchemaCompiler)
    (render_time : Z -> string) (readiness : result unit) (metrics : Response) (correlation : string)
    (maxBodyBytes : Z) (e : entry) (request : Request) (call : ToolCallRequest) (r : Response)
    (Hserve : serve (fun request => Authenticate verify source exempt request chains) admin_authenticate
                invocationIdentityFromAuthentication create reader authorize publish_tool set_tenant_exposure
                compiler render_time readiness metrics correlation maxBodyBytes e request = (Some (inl call), r)) :
  authenticated_by verify source exempt (bodyLimit maxBodyBytes request) chains (tcr_Identity call).
Proof.
  apply serve_effect in Hserve as [_ Hr]. apply route_effect in Hr as (_ & ctx & Ha & Hc).
  apply call_application_post, post_call_some in Hc as (_ & (key & id & d & _ & Hid & _ & ->) & _).
  cbn [tcr_Identity]. by eapply Authenticate_identity.
Qed.

Definition ex_claims : Claims :=
  mkClaims "https://id.example.com" "user-1" ["tg"] [] (unix_epoch + Hour) 0
    [("tenant_id", JString "tenant-1"); ("run", JString "run-1"); ("agent", JString "agent-1");
     ("agent_version", JString "1.0.0")]%string.
Definition ex_workload : WorkloadSource := LocalSource (mkWorkload "pod-1" "local").
Definition ex_request : Request :=
  mkRequest "POST" "/v1/tool-calls" "" ∅ (<["Authorization"%string := ["Bearer token-1"%string]]> ex_headers) (-1)
    (rq_Body ex_call_request).
Definition ex_call : ToolCallRequest :=
  mkToolCallRequest "call-0001" "a.tool" "1.0.0" (quoted "{'n': 1}")
    (mkIdentity "tenant-1" "user-1" "" "agent-1" "1.0.0" "run-1" "pod-1").

Lemma identity_from_credentials_witness :
  authenticated_by (fun _ => inl ex_claims) (Some ex_workload) ∅ (bodyLimit max_call_bytes ex_request) []
    (tcr_Identity ex_call).
Proof.
  pose (response := snd (serve (fun request => Authenticate (fun _ => inl ex_claims) (Some ex_workload) ∅ request [])
    (fun _ => inr None) invocationIdentityFromAuthentication ex_create None (fun _ _ _ => Ok tt) (fun _ => Ok tt)
    (fun _ => Ok tt) None (fun _ => json_string "time") (Ok tt) mux_not_found "id" max_call_bytes Permit ex_request)).
  apply (identity_from_credentials (fun _ => inl ex_claims) (Some ex_workload) ∅ [] (fun _ => inr None) ex_create None
    (fun _ _ _ => Ok tt) (fun _ => Ok tt) (fun _ => Ok tt) None (fun _ => json_string "time") (Ok tt) mux_not_found "id"
    max_call_bytes Permit ex_request ex_call response).
  vm_compute. reflexivity.
Defined.
