(* ===== verification/AgClient.v ===== *)
(** * The ThinkPixelAG authorization client

    [internal/adapters/thinkpixelag/authorization.go]: one request for a decision
    to the authorization service, and the checks of what comes back.  The exchange
    itself is an argument: it is given the request that is sent and answers with a
    response or a transport error. *)
From Stdlib Require Import Ascii String.
From S2P Require Import Prelude GoStd Regex Sha256 Json JsonParse Primitives ToolCatalog GoText Ports Database Acquisition Ledger Http CanonicalJson JsonStruct GoTime GoUrl.

(** ** Construction *)

Definition authorizationMediaType : string :=
  "application/vnd.thinkpixel.authorization+json;profile=tg.ag.authorization/v1alpha1".

Record AuthorizationConfig := mkAgConfig {
  ag_Endpoint : string; ag_Client : bool; ag_Timeout : Z; ag_MaxBodyBytes : Z; ag_AllowInsecure : bool;
}.

(** The clock is an argument of each call. *)
Record AuthorizationClient := mkAgClient { endpoint : string; timeout : Z; maxBody : Z }.

Definition NewAuthorizationClient (config : AuthorizationConfig) : result AuthorizationClient :=
  match url_Parse (ag_Endpoint config) with
  | None => Err (ErrNew "ThinkPixelAG authorization endpoint is invalid")
  | Some u =>
      if String.eqb (u_Host u) "" || u_User u || negb (String.eqb (u_RawQuery u) "")
         || negb (String.eqb (u_Fragment u) "")
         || (negb (String.eqb (u_Scheme u) "https")
             && (negb (ag_AllowInsecure config) || negb (String.eqb (u_Scheme u) "http"))) then
        Err (ErrNew "ThinkPixelAG authorization endpoint is invalid")
      else if negb (ag_Client config) || (ag_Timeout config <=? 0) then
        Err (ErrNew "ThinkPixelAG client and positive deadline are required")
      else Ok (mkAgClient (TrimSuffix (ag_Endpoint config) "/") (ag_Timeout config)
                 (if ag_MaxBodyBytes config <=? 0 then 2 ^ 20 else ag_MaxBodyBytes config))
  end.

(** ** The request on the wire *)

(** [wireContext] *)
Definition context_members (input : AuthorizationRequest) : list (string * string) :=
  [("tenant_id", json_string (req_TenantID input)); ("subject", json_string (req_Subject input))]%string
  ++ (if String.eqb (req_Actor input) "" then [] else [("actor"%string, json_string (req_Actor input))])
  ++ [("agent_id", json_string (req_AgentID input)); ("agent_version", json_string (req_AgentVersion input));
      ("run_id", json_string (req_RunID input)); ("workload_id", json_string (req_WorkloadID input))]%string.
Definition wireContext (input : AuthorizationRequest) : string := json_object (context_members input).

(** [digestJSON] of an encoded value *)
Definition digestJSON (encoded : string) : string := "sha256:" +:+ hex_encode (sha256 encoded).

(** [wireTool] *)
Definition wireTool (input : AuthorizationRequest) : string :=
  json_object [("id", json_string (req_ToolID input)); ("version", json_string (req_ToolVersion input));
    ("risk", json_string (req_Risk input)); ("side_effect", json_string (req_SideEffect input));
    ("approval_mode", json_string (req_ApprovalMode input)); ("retry_mode", json_string (req_RetryMode input))]%string.

(** [wireRequest]; the slices are never nil. *)
Definition wireRequest (input : AuthorizationRequest) (contextDigest currentTime : string) : string :=
  json_object [("request_id", json_string (req_RequestID input));
    ("current_time", String quote_byte (currentTime +:+ String quote_byte EmptyString));
    ("context", wireContext input); ("context_digest", json_string contextDigest); ("tool", wireTool input);
    ("argument_profile", json_string (req_ArgumentProfile input));
    ("argument_digest", json_string (Digest_String (req_ArgumentDigest input)));
    ("resource_digest", json_string (Digest_String (req_ResourceDigest input)));
    ("resources", json_array (map json_string (req_Resources input)));
    ("actions", json_array (map json_string (req_Actions input)));
    ("operation", json_string (req_Operation input)); ("connector_type", json_string (req_ConnectorType input));
    ("requested_deadline_ms", json_int (Z.quot (req_RequestedDeadline input) Millisecond));
    ("policy_profile", json_string (req_PolicyProfile input));
    ("policy_version", json_string (req_PolicyVersion input))]%string.

(** What is handed to the transport, with the time it may take. *)
Record ag_request := mkAgRequest {
  agr_Method : string; agr_URL : string; agr_Header : list (string * string); agr_Body : string; agr_Deadline : Z;
}.

(** What comes back: [agp_Broken] when reading the body ends in an error. *)
Record ag_response := mkAgResponse {
  agp_Status : Z; agp_Location : option string; agp_ContentType : string; agp_Body : string; agp_Broken : bool;
}.

(** [client.Do] with redirects forbidden: a redirection that names a location is an
    error. *)
Definition ag_Do (exchange : ag_request -> result ag_response) (request : ag_request) : result ag_response :=
  exchange request ≫= fun response =>
  if existsb (Z.eqb (agp_Status response)) [301; 302; 303; 307; 308] && is_some (agp_Location response) then
    Err (ErrNew "ThinkPixelAG redirects are forbidden")
  else Ok response.

(** ** The response on the wire *)

Definition set_time (m : member) (old : Z) : option Z :=
  match m_value m with
  | JNull => Some old
  | JString _ => parse_rfc3339 (String.substring 1 (String.length (m_raw m) - 2) (m_raw m))
  | _ => None
  end.

Definition set_text (v : jvalue) (old : string) : option string :=
  match v with JNull => Some old | JString s => Some s | _ => None end.
Definition set_texts (m : member) (old : list string) : option (list string) :=
  match m_value m with
  | JNull => Some [] | JArray items => set_slice set_text EmptyString items old | _ => None
  end.

(** A [map[string]int64] field: members are added to the map that is there, and
    [null] is the zero value. *)
Fixpoint set_amounts (members : list (string * jvalue)) (old : gmap string Z) : option (gmap string Z) :=
  match members with
  | [] => Some old
  | (k, v) :: members =>
      match v with
      | JNull => set_amounts members (<[k := 0]> old)
      | JNumber text => match ParseIntN 64 text with Some z => set_amounts members (<[k := z]> old) | None => None end
      | _ => None
      end
  end.

(** [wireConstraints], with the duration still in milliseconds *)
Definition set_constraints (name : string) (m : member) (c : AuthorizationConstraints)
    : option AuthorizationConstraints :=
  let '(mkConstraints p r a x b d) := c in
  if String.eqb name "repositories" then set_texts m p ≫= fun p => Some (mkConstraints p r a x b d)
  else if String.eqb name "resources" then set_texts m r ≫= fun r => Some (mkConstraints p r a x b d)
  else if String.eqb name "actions" then set_texts m a ≫= fun a => Some (mkConstraints p r a x b d)
  else if String.eqb name "argument_max" then
    match m_value m with
    | JNull => Some (mkConstraints p r a ∅ b d)
    | JObject members => set_amounts members x ≫= fun x => Some (mkConstraints p r a x b d)
    | _ => None
    end
  else if String.eqb name "max_result_bytes" then set_int 64 m b ≫= fun b => Some (mkConstraints p r a x b d)
  else set_int 64 m d ≫= fun d => Some (mkConstraints p r a x b d).
Definition constraint_fields : list string :=
  ["repositories"; "resources"; "actions"; "argument_max"; "max_result_bytes"; "max_duration_ms"]%string.

(** [wireApproval] *)
Definition set_approval (name : string) (m : member) (a : ApprovalRequirement) : option ApprovalRequirement :=
  let '(mkApproval r o) := a in
  if String.eqb name "required" then set_bool m r ≫= fun r => Some (mkApproval r o)
  else set_string m o ≫= fun o => Some (mkApproval r o).

(** [wireResponse]: a decision whose maximum duration is in milliseconds. *)
Definition wireResponse : Type := AuthorizationDecision.
Definition zero_response : wireResponse :=
  mkDecision "" "" "" "" "" "" [] 0 0 0 0 "" no_constraints (mkApproval false "") "".
Definition response_fields : list string :=
  ["decision_id"; "request_id"; "context_digest"; "outcome"; "reason_codes"; "policy_id"; "policy_version";
   "issued_at"; "not_before"; "expires_at"; "revocation_epoch"; "revocation_checkpoint"; "constraints";
   "approval_requirement"; "evidence_ref"]%string.

Definition set_response (name : string) (m : member) (d : wireResponse) : option wireResponse :=
  let '(mkDecision i q x p v o r ia nb ea re rc c a e) := d in
  if String.eqb name "decision_id" then set_string m i ≫= fun i => Some (mkDecision i q x p v o r ia nb ea re rc c a e)
  else if String.eqb name "request_id" then set_string m q ≫= fun q => Some (mkDecision i q x p v o r ia nb ea re rc c a e)
  else if String.eqb name "context_digest" then set_string m x ≫= fun x => Some (mkDecision i q x p v o r ia nb ea re rc c a e)
  else if String.eqb name "outcome" then set_string m o ≫= fun o => Some (mkDecision i q x p v o r ia nb ea re rc c a e)
  else if String.eqb name "reason_codes" then set_texts m r ≫= fun r => Some (mkDecision i q x p v o r ia nb ea re rc c a e)
  else if String.eqb name "policy_id" then set_string m p ≫= fun p => Some (mkDecision i q x p v o r ia nb ea re rc c a e)
  else if String.eqb name "policy_version" then set_string m v ≫= fun v => Some (mkDecision i q x p v o r ia nb ea re rc c a e)
  else if String.eqb name "issued_at" then set_time m ia ≫= fun ia => Some (mkDecision i q x p v o r ia nb ea re rc c a e)
  else if String.eqb name "not_before" then set_time m nb ≫= fun nb => Some (mkDecision i q x p v o r ia nb ea re rc c a e)
  else if String.eqb name "expires_at" then set_time m ea ≫= fun ea => Some (mkDecision i q x p v o r ia nb ea re rc c a e)
  else if String.eqb name "revocation_epoch" then set_uint 64 m re ≫= fun re => Some (mkDecision i q x p v o r ia nb ea re rc c a e)
  else if String.eqb name "revocation_checkpoint" then set_string m rc ≫= fun rc => Some (mkDecision i q x p v o r ia nb ea re rc c a e)
  else if String.eqb name "constraints" then
    set_struct constraint_fields set_constraints (m_value m) c ≫= fun c => Some (mkDecision i q x p v o r ia nb ea re rc c a e)
  else if String.eqb name "approval_requirement" then
    set_struct ["required"; "mode"]%string set_approval (m_value m) a ≫= fun a => Some (mkDecision i q x p v o r ia nb ea re rc c a e)
  else set_string m e ≫= fun e => Some (mkDecision i q x p v o r ia nb ea re rc c a e).

(** The decision of a response: [time.Duration(ms) * time.Millisecond] wraps. *)
Definition response_decision (w : wireResponse) : AuthorizationDecision :=
  let '(mkDecision i q x p v o r ia nb ea re rc (mkConstraints cp cr ca cx cb cd) a e) := w in
  mkDecision i q x p v o r ia nb ea re rc (mkConstraints cp cr ca cx cb (wrap_int64 (cd * Millisecond))) a e.

(** What a limit reader of [maxBody]+1 bytes gives the decoder, and whether it ends. *)
Definition limited (maxBody : Z) (response : ag_response) : option string :=
  if maxBody <? slen (agp_Body response) then
    Some (String.substring 0 (Z.to_nat (maxBody + 1)) (agp_Body response))
  else if agp_Broken response then None
  else Some (agp_Body response).

(** [decoder.Decode] and [ensureJSONEOF] *)
Definition decode_response (maxBody : Z) (response : ag_response) : result wireResponse :=
  match limited maxBody response with
  | None => Err (ErrNew "ThinkPixelAG returned malformed authorization data")
  | Some body =>
      match decode_struct response_fields true set_response zero_response body with
      | None => Err (ErrNew "ThinkPixelAG returned malformed authorization data")
      | Some (output, rest) =>
          if String.eqb (skip_ws rest) "" then Ok output
          else Err (ErrNew "ThinkPixelAG returned trailing or oversized authorization data")
      end
  end.

(** ** The call *)

Section Call.
Context (client : AuthorizationClient) (exchange : ag_request -> result ag_response) (now : Z).

Definition build_request (input : AuthorizationRequest) (currentTime : string) : ag_request :=
  mkAgRequest "POST" (endpoint client)
    [("Content-Type", authorizationMediaType); ("Accept", authorizationMediaType);
     ("X-Request-ID", req_RequestID input)]%string
    (wireRequest input (digestJSON (wireContext input)) currentTime)
    (Z.min (timeout client) (req_RequestedDeadline input)).

Definition accept_response (input : AuthorizationRequest) (response : ag_response) : result AuthorizationDecision :=
  if negb (agp_Status response =? 200) then Err (ErrNew "ThinkPixelAG authorization failed with status")
  else if negb (has_prefix (agp_ContentType response) "application/vnd.thinkpixel.authorization+json") then
    Err (ErrNew "ThinkPixelAG returned an unexpected media type")
  else
    decode_response (maxBody client) response ≫= fun output =>
    let decision := response_decision output in
    if negb (String.eqb (ContextDigest decision) (digestJSON (wireContext input))) then
      Err (ErrNew "ThinkPixelAG authorization context correlation mismatch")
    else match ValidateFor decision input with
         | Err err => Err (ErrWrap "validate ThinkPixelAG decision" err)
         | Ok _ => Ok decision
         end.

(** The requests sent, and the outcome. *)
Definition AuthorizeToolInvocation (input : AuthorizationRequest) : list ag_request * result AuthorizationDecision :=
  match Request_Validate input with
  | Err err => ([], Err (ErrWrap "validate authorization request" err))
  | Ok _ =>
      match format_rfc3339 now with
      | None => ([], Err (ErrNew "encode authorization request"))
      | Some currentTime =>
          match url_Parse (endpoint client) with
          | None => ([], Err (ErrNew "create authorization request"))
          | Some _ =>
              let request := build_request input currentTime in
              match ag_Do exchange request with
              | Err err => ([request], Err (ErrWrap "authorize with ThinkPixelAG" err))
              | Ok response => ([request], accept_response input response)
              end
          end
      end
  end.
End Call.

(** ** The context behind a digest *)

Definition context_texts (input : AuthorizationRequest) : list string :=
  [req_TenantID input; req_Subject input; req_Actor input; req_AgentID input; req_AgentVersion input;
   req_RunID input; req_WorkloadID input].

Definition context_values (input : AuthorizationRequest) : list jvalue :=
  [JString (req_TenantID input); JString (req_Subject input)]
  ++ (if String.eqb (req_Actor input) "" then [] else [JString (req_Actor input)])
  ++ [JString (req_AgentID input); JString (req_AgentVersion input); JString (req_RunID input);
      JString (req_WorkloadID input)].

Lemma context_read input : Forall (fun s => utf8_Valid s = true) (context_texts input) ->
  read_top (wireContext input) =
  Some (TObject (zip_with (fun f v => mkMember f.1 v f.2) (context_members input) (context_values input)), EmptyString).
Proof.
  unfold context_texts. rewrite !list.Forall_cons. intros (? & ? & ? & ? & ? & ? & ? & _).
  apply read_top_encoded; [unfold context_members; by destruct (String.eqb _ _)|].
  unfold context_members, context_values.
  destruct (String.eqb (req_Actor input) ""); simpl app; repeat constructor; by apply reads_string.
Qed.

(** The encoded context determines the context. *)
Lemma wireContext_inj i j :
  Forall (fun s => utf8_Valid s = true) (context_texts i) ->
  Forall (fun s => utf8_Valid s = true) (context_texts j) ->
  wireContext i = wireContext j -> context_texts i = context_texts j.
Proof.
  intros Hi Hj E. pose proof (context_read i Hi) as Ri. rewrite E, (context_read j Hj) in Ri.
  apply (f_equal (fun o => match o with Some (TObject l, _) => map m_value l | _ => [] end)) in Ri.
  revert Ri. clear.
  unfold context_members, context_values, context_texts.
  destruct (String.eqb_spec (req_Actor i) "") as [Ai|Ai], (String.eqb_spec (req_Actor j) "") as [Aj|Aj];
    simpl; intros [=]; rewrite ?Ai, ?Aj; congruence.
Qed.

Lemma digestJSON_inj a b : digestJSON a = digestJSON b -> a = b \/ (a <> b /\ sha256 a = sha256 b).
Proof.
  intros E. assert (sha256 a = sha256 b).
  { apply hex_encode_inj. by apply append_inj_length in E as [_ E]. }
  destruct (decide (a = b)); auto.
Qed.

(** ** What an accepted response is *)

Section Accepted.
Context (client : AuthorizationClient) (exchange : ag_request -> result ag_response) (now : Z).

Lemma accept_response_ok input response decision : accept_response client input response = Ok decision ->
  agp_Status response = 200 /\
  (exists body output, limited (maxBody client) response = Some body /\
     decode_document response_fields true set_response zero_response body = Some output /\
     decision = response_decision output) /\
  ContextDigest decision = digestJSON (wireContext input) /\ ValidateFor decision input = Ok tt.
Proof.
  unfold accept_response, decode_response, decode_document.
  destruct (Z.eqb_spec (agp_Status response) 200) as [Hs|]; [|done]. simpl.
  destruct (has_prefix _ _); [|done]. simpl.
  destruct (limited (maxBody client) response) as [body|]; [|done].
  destruct (decode_struct _ _ _ _ body) as [[output rest]|] eqn:Ed; [|done].
  destruct (String.eqb (skip_ws rest) "") eqn:Er; [|done]. cbn [mbind result_bind].
  destruct (String.eqb_spec (ContextDigest (response_decision output)) (digestJSON (wireContext input))) as [Hx|]; [|done].
  cbn [negb]. destruct (ValidateFor (response_decision output) input) as [[]|] eqn:Hv; [|done].
  intros [= <-]. split_and!; [done| |done|done]. exists body, output. by rewrite Ed, Er.
Qed.

Lemma authorized_ok input sent decision :
  AuthorizeToolInvocation client exchange now input = (sent, Ok decision) ->
  exists currentTime response, format_rfc3339 now = Some currentTime /\
    sent = [build_request client input currentTime] /\
    exchange (build_request client input currentTime) = Ok response /\
    accept_response client input response = Ok decision.
Proof.
  unfold AuthorizeToolInvocation, ag_Do. destruct (Request_Validate input); [|done].
  destruct (format_rfc3339 now) as [text|]; [|done]. destruct (url_Parse _); [|done].
  destruct (exchange _) as [response|] eqn:Ex; [|done]. cbn [mbind result_bind].
  destruct (_ && _); [done|]. intros [= <- H]. eauto 10.
Qed.
End Accepted.

Definition same_subject (i j : AuthorizationRequest) : Prop :=
  context_texts i = context_texts j /\ req_RequestID i = req_RequestID j /\ req_PolicyVersion i = req_PolicyVersion j.

Lemma Request_deadline input : Request_Validate input = Ok tt -> 0 < req_RequestedDeadline input.
Proof.
  unfold Request_Validate. destruct (negb _); [done|].
  destruct (req_RequestedDeadline input <=? 0) eqn:E; [rewrite orb_true_r; done|]. intros _. to_prop. lia.
Qed.

Lemma ValidateFor_correlated decision input : ValidateFor decision input = Ok tt ->
  dec_RequestID decision = req_RequestID input /\ dec_PolicyVersion decision = req_PolicyVersion input.
Proof.
  unfold ValidateFor. destruct (Request_Validate input); [|done]. cbn [mbind result_bind].
  destruct (_ || _) eqn:E; [done|]. intros _. rewrite !orb_false_iff, !negb_false_iff, !String.eqb_eq in E. tauto.
Qed.

(** ** Properties *)

(** C20: a decision is the answer to the request it is returned for.  When the client
    returns a decision it sent exactly one request: a POST to the configured endpoint
    (HTTPS unless insecure endpoints were allowed, without credentials, query or
    fragment) that had to be answered within both the configured timeout and the
    requested deadline; the answer had status 200 and its body, cut one byte after the
    configured bound, is one strict document that carries this decision, the digest of
    this very context, the identity of this request and its policy version; and the
    decision passed every check of the port. *)
Theorem ag_decision_answers_request (config : AuthorizationConfig) (client : AuthorizationClient)
    (exchange : ag_request -> result ag_response) (now : Z) (input : AuthorizationRequest)
    (sent : list ag_request) (decision : AuthorizationDecision)
    (Hnew : NewAuthorizationClient config = Ok client)
    (Hok : AuthorizeToolInvocation client exchange now input = (sent, Ok decision)) :
  exists request response u body output,
    sent = [request] /\ agr_Method request = "POST"%string /\
    agr_URL request = TrimSuffix (ag_Endpoint config) "/" /\ url_Parse (ag_Endpoint config) = Some u /\
    (u_Scheme u = "https" \/ (u_Scheme u = "http" /\ ag_AllowInsecure config = true))%string /\
    u_User u = false /\ u_RawQuery u = EmptyString /\ u_Fragment u = EmptyString /\
    0 < agr_Deadline request <= ag_Timeout config /\ agr_Deadline request <= req_RequestedDeadline input /\
    exchange request = Ok response /\ agp_Status response = 200 /\
    limited (maxBody client) response = Some body /\
    decode_document response_fields true set_response zero_response body = Some output /\
    decision = response_decision output /\
    ContextDigest decision = digestJSON (wireContext input) /\ dec_RequestID decision = req_RequestID input /\
    dec_PolicyVersion decision = req_PolicyVersion input /\ ValidateFor decision input = Ok tt.
Proof.
  destruct (authorized_ok _ _ _ _ _ _ Hok) as (text & response & _ & -> & Hex & Hacc).
  destruct (accept_response_ok _ _ _ _ Hacc) as (Hs & (body & output & Hl & Hd & ->) & Hx & Hv).
  destruct (ValidateFor_correlated _ _ Hv) as [Hr Hp].
  assert (Hdead : 0 < req_RequestedDeadline input).
  { apply Request_deadline. revert Hv. unfold ValidateFor. destruct (Request_Validate input) as [[]|]; done. }
  unfold NewAuthorizationClient in Hnew. destruct (url_Parse (ag_Endpoint config)) as [u|]; [|done].
  destruct (_ || _) eqn:E in Hnew; [done|]. destruct (_ || _) eqn:E' in Hnew; [done|]. injection Hnew as <-.
  rewrite !orb_false_iff, !negb_false_iff, andb_false_iff, !negb_false_iff, !orb_false_iff, !negb_false_iff,
    !String.eqb_eq, String.eqb_neq in E. rewrite orb_false_iff, Z.leb_gt in E'.
  exists (build_request (mkAgClient (TrimSuffix (ag_Endpoint config) "/") (ag_Timeout config)
            (if ag_MaxBodyBytes config <=? 0 then 2 ^ 20 else ag_MaxBodyBytes config)) input text),
    response, u, body, output.
  cbn [build_request agr_Method agr_URL agr_Deadline endpoint timeout]. split_and!; try tauto; lia.
Qed.

(** A decision speaks for one context.  If the client accepts the same decision
    for two requests, whatever the exchanges, then both have the same tenant, subject,
    actor, agent, agent version, run and workload, and the same request identity and
    policy version, or two different texts with the same SHA-256 are exhibited.  (The
    texts of the contexts are valid UTF-8, as decoded claims are.) *)
Theorem ag_decision_bound_to_context (client client' : AuthorizationClient)
    (exchange exchange' : ag_request -> result ag_response) (now now' : Z) (i j : AuthorizationRequest)
    (sent sent' : list ag_request) (decision : AuthorizationDecision)
    (Hi : Forall (fun s => utf8_Valid s = true) (context_texts i))
    (Hj : Forall (fun s => utf8_Valid s = true) (context_texts j))
    (Hoki : AuthorizeToolInvocation client exchange now i = (sent, Ok decision))
    (Hokj : AuthorizeToolInvocation client' exchange' now' j = (sent', Ok decision)) :
  same_subject i j \/ (exists a b : string, a <> b /\ sha256 a = sha256 b).
Proof.
  destruct (authorized_ok _ _ _ _ _ _ Hoki) as (? & ? & _ & _ & _ & Hacci).
  destruct (authorized_ok _ _ _ _ _ _ Hokj) as (? & ? & _ & _ & _ & Haccj).
  destruct (accept_response_ok _ _ _ _ Hacci) as (_ & _ & Hxi & Hvi).
  destruct (accept_response_ok _ _ _ _ Haccj) as (_ & _ & Hxj & Hvj).
  destruct (ValidateFor_correlated _ _ Hvi), (ValidateFor_correlated _ _ Hvj).
  rewrite Hxi in Hxj. destruct (digestJSON_inj _ _ Hxj) as [E|]; [|right; eauto].
  left. split_and!; [by apply wireContext_inj|congruence|congruence].
Qed.

(** The two ends of an authorization disagree on the form of a digest.  Every
    decision the client returns carries its context digest with the prefix [sha256:],
    and the ledger refuses to record a decision whose digest has a prefix: it answers
    an error and changes nothing, so that a call authorized by this client is never
    executed. *)
Theorem ag_decision_never_recorded (client : AuthorizationClient) (exchange : ag_request -> result ag_response)
    (now : Z) (input : AuthorizationRequest) (sent : list ag_request) (decision : AuthorizationDecision)
    (ledger : InvocationLedger) (identity : InvocationIdentity) (invocationID : string)
    (argumentDigest resourceDigest : Digest) (at_ now1 now2 : Z) (random1 random2 : nat -> result string)
    (begin : result unit) (commit : commit_reply) (db : database)
    (Hok : AuthorizeToolInvocation client exchange now input = (sent, Ok decision)) :
  exists e, Ledger_RecordAuthorization ledger identity invocationID decision argumentDigest resourceDigest
              at_ now1 now2 random1 random2 begin commit db = (db, Err e).
Proof.
  destruct (authorized_ok _ _ _ _ _ _ Hok) as (? & ? & _ & _ & _ & Hacc).
  destruct (accept_response_ok _ _ _ _ Hacc) as (_ & _ & Hx & _).
  exact (prefixed_context_digest_refused _ _ _ _ _ _ _ _ _ _ _ _ _ _ _ Hx).
Qed.

(** ** Witnesses *)

Definition ex_config : AuthorizationConfig := mkAgConfig "https://ag.example/v1/authorize/" true (5 * Second) 0 false.
Definition ex_client : AuthorizationClient := mkAgClient "https://ag.example/v1/authorize" (5 * Second) (2 ^ 20).
Definition ex_input : AuthorizationRequest :=
  mkAuthRequest "r-1" "tenant" "subject" "" "agent" "1" "run" "workload" "acme.read" "1.0.0" "read" "false" "never"
    "safe" "tg-cjson-v1" "mock" "read" (sha256 "a") (sha256 "r") [] ["read"%string] (2 * Second) "prof" "7".
Definition ex_document : string :=
  json_object [("decision_id", json_string "d-1"); ("request_id", json_string "r-1");
    ("context_digest", json_string (digestJSON (wireContext ex_input)));
    ("outcome", json_string "allow"); ("reason_codes", json_array [json_string "allowed"]);
    ("policy_id", json_string "pol"); ("policy_version", json_string "7");
    ("issued_at", json_string "2026-01-02T03:04:05Z"); ("not_before", json_string "2026-01-02T03:04:05Z");
    ("expires_at", json_string "2026-01-02T03:05:05.5+00:00"); ("revocation_epoch", "7");
    ("revocation_checkpoint", json_string "cp");
    ("constraints", json_object [("actions", json_array [json_string "read"]); ("max_duration_ms", "1500")]);
    ("evidence_ref", json_string "ev")]%string.
Definition ex_exchange (_ : ag_request) : result ag_response :=
  Ok (mkAgResponse 200 None "application/vnd.thinkpixel.authorization+json" ex_document false).
Definition ex_run_ag := Eval vm_compute in AuthorizeToolInvocation ex_client ex_exchange unix_epoch ex_input.
Definition ex_decision_ag : AuthorizationDecision :=
  match ex_run_ag.2 with Ok d => d | Err _ => zero_response end.

Lemma ex_run_ag_ok :
  AuthorizeToolInvocation ex_client ex_exchange unix_epoch ex_input = (ex_run_ag.1, Ok ex_decision_ag).
Proof. vm_compute. reflexivity. Qed.

Lemma ag_decision_answers_request_witness :
  AuthorizeToolInvocation ex_client ex_exchange unix_epoch ex_input = (ex_run_ag.1, Ok ex_decision_ag) /\
  MaxDuration (Constraints ex_decision_ag) = 1500 * Millisecond /\
  ContextDigest ex_decision_ag = digestJSON (wireContext ex_input).
Proof.
  pose proof ex_run_ag_ok as H. split_and!; [exact H|reflexivity|].
  destruct (ag_decision_answers_request ex_config ex_client ex_exchange unix_epoch ex_input ex_run_ag.1 ex_decision_ag
              eq_refl H) as (? & ? & ? & ? & ? & Hall). apply Hall.
Defined.

Lemma ag_decision_bound_to_context_witness :
  same_subject ex_input ex_input \/ (exists a b : string, a <> b /\ sha256 a = sha256 b).
Proof.
  apply (ag_decision_bound_to_context ex_client ex_client ex_exchange ex_exchange unix_epoch unix_epoch ex_input ex_input
           ex_run_ag.1 ex_run_ag.1 ex_decision_ag); try exact ex_run_ag_ok; repeat constructor.
Defined.

Lemma ag_decision_never_recorded_witness :
  exists e, Ledger_RecordAuthorization Ledger.ex_ledger Ledger.ex_identity "i" ex_decision_ag (sha256 "a") (sha256 "r")
              15 ex_now ex_now (ex_random 1) (ex_random 2) (Ok tt) Committed ex_db = (ex_db, Err e).
Proof.
  apply (ag_decision_never_recorded ex_client ex_exchange unix_epoch ex_input ex_run_ag.1 ex_decision_ag).
  exact ex_run_ag_ok.
Defined.
