(* ===== verification/Github.v ===== *)
(** * The GitHub connectors

    [internal/adapters/connectors/github]: reading a pull request and commenting on
    one, over the downstream client and a credential capability.  The client is an
    argument: it is given the operation, the request and its payload, and answers
    with a response or an error; an execution returns what it handed to the client
    next to its outcome.  A response body is [None] when reading it ends in an error. *)
From Stdlib Require Import Ascii String.
From S2P Require Import Prelude GoStd Regex Sha256 Json JsonParse Primitives ToolCatalog GoText Ports CredentialBinding CredentialCache Http Registry CanonicalJson JsonStruct Netip DownstreamHttp GoUrl Projection ToolCalls.

(** ** Destinations *)

Definition ConnectorTypeName : string := "github".
Definition PullGet : string := "pull.get".
Definition PullComment : string := "pull.comment".
Definition maximumOwner : Z := 39.
Definition maximumRepo : Z := 100.
Definition maximumCommentBytes : Z := 65536.

Definition word_byte : list (ascii -> bool) := [is_upper; is_lower; is_digit].
Definition ownerPattern : regex :=
  RSeq (one_of word_byte) (ROpt (RSeq (RStar (one_of (Ascii.eqb "-" :: word_byte))) (one_of word_byte))).
Definition repositoryPattern : regex :=
  RPlus (one_of ([Ascii.eqb "_"; Ascii.eqb "."; Ascii.eqb "-"] ++ word_byte)).

Definition ErrInvalidRequest : goerror := ErrNew "GitHub connector request is invalid".
Definition ErrCredential : goerror := ErrNew "GitHub credential capability is invalid".
Definition ErrExecution : goerror := ErrNew "GitHub request execution failed".
Definition ErrResponse : goerror := ErrNew "GitHub response is invalid".

Definition validOwner (value : string) : bool :=
  (0 <? slen value) && (slen value <=? maximumOwner) && matches ownerPattern value && negb (str_contains value "--").
Definition validRepository (value : string) : bool :=
  (0 <? slen value) && (slen value <=? maximumRepo) && negb (String.eqb value ".") && negb (String.eqb value "..")
  && matches repositoryPattern value.

Record destinationConfig := mkDestination { dst_BaseURL : string; dst_Owner : string }.
Definition set_destination (name : string) (m : member) (d : destinationConfig) : option destinationConfig :=
  let '(mkDestination b o) := d in
  if String.eqb name "base_url" then set_string m b ≫= fun b => Some (mkDestination b o)
  else set_string m o ≫= fun o => Some (mkDestination b o).

(** [PullReader]; a [CommentWriter] has the same fields. *)
Record PullReader := mkReader { rd_baseURL : GoUrl.URL; rd_owner : string; rd_instanceSelector : string }.

Definition newPullReader (instance : ConnectorInstance) : result PullReader :=
  let definition := ci_definition instance in
  if negb (is_ok (ValidateConnectorInstanceDefinition definition))
     || negb (String.eqb (ci_ConnectorType definition) ConnectorTypeName) || negb (ci_Enabled definition) then
    Err (ErrNew "GitHub connector instance is invalid")
  else
    match decode_document ["base_url"; "owner"]%string true set_destination (mkDestination "" "")
            (ci_DestinationConfig definition) with
    | None => Err (ErrNew "GitHub destination configuration is invalid")
    | Some destination =>
        match url_Parse (dst_BaseURL destination) with
        | None => Err (ErrNew "GitHub base URL is invalid")
        | Some u =>
            if negb (String.eqb (u_Scheme u) "https") || String.eqb (u_Host u) "" || u_User u
               || negb (String.eqb (u_RawQuery u) "") || negb (String.eqb (u_Fragment u) "")
               || negb (String.eqb (u_Path u) (TrimSuffix (u_Path u) "/")) then
              Err (ErrNew "GitHub base URL is invalid")
            else if negb (validOwner (dst_Owner destination)) then Err (ErrNew "GitHub owner is invalid")
            else Ok (mkReader u (dst_Owner destination) (ci_Selector definition))
        end
    end.

(** [newCommentWriter] *)
Definition newCommentWriter (instance : ConnectorInstance) : result PullReader :=
  newPullReader instance ≫= fun reader =>
  Ok (mkReader (rd_baseURL reader) (rd_owner reader) (rd_instanceSelector reader)).

(** ** Arguments *)

(** A [json.Number] field takes a number, or a string that is one. *)
Definition is_number_text (s : string) : bool :=
  match lex_number s with Some (_, rest) => String.eqb rest "" | None => false end.
Definition set_number (m : member) (old : string) : option string :=
  match m_value m with
  | JNull => Some old
  | JNumber text => Some text
  | JString s => if is_number_text s then Some s else None
  | _ => None
  end.

Record targetDocument := mkTarget { tgt_Repository : string; tgt_PullNumber : string }.
Definition set_target (name : string) (m : member) (t : targetDocument) : option targetDocument :=
  let '(mkTarget r n) := t in
  if String.eqb name "repository" then set_string m r ≫= fun r => Some (mkTarget r n)
  else set_number m n ≫= fun n => Some (mkTarget r n).

Definition decodeTarget (document : string) : result targetDocument :=
  match decode_document ["repository"; "pull_number"]%string true set_target (mkTarget "" "") document with
  | Some target => Ok target
  | None => Err ErrInvalidRequest
  end.

Section Connector.
Context (jcs_Format : jvalue -> result string).

Definition canonicalDocument (document : string) : bool :=
  match Canonicalize jcs_Format document (only_bytes (slen document)) with
  | Ok canonical => String.eqb canonical document
  | Err _ => false
  end.

(** The number of a pull request: a positive [int32]. *)
Definition pull_number (text : string) : option Z :=
  match ParseIntN 64 text with
  | Some number => if (number <? 1) || (2 ^ 31 - 1 <? number) then None else Some number
  | None => None
  end.

Definition validateTarget (arguments projection : string) : result (string * Z) :=
  if negb (canonicalDocument arguments) || negb (canonicalDocument projection) then Err ErrInvalidRequest else
  decodeTarget arguments ≫= fun argumentTarget =>
  match decodeTarget projection with
  | Err _ => Err ErrInvalidRequest
  | Ok projectedTarget =>
      if negb (String.eqb (tgt_Repository argumentTarget) (tgt_Repository projectedTarget)
               && String.eqb (tgt_PullNumber argumentTarget) (tgt_PullNumber projectedTarget)) then
        Err ErrInvalidRequest
      else
        match pull_number (tgt_PullNumber argumentTarget) with
        | None => Err ErrInvalidRequest
        | Some number =>
            if negb (validRepository (tgt_Repository argumentTarget)) then Err ErrInvalidRequest
            else Ok (tgt_Repository argumentTarget, number)
        end
  end.

Record commentArguments := mkComment { cmt_Repository : string; cmt_PullNumber : string; cmt_Body : string }.
Definition set_comment (name : string) (m : member) (c : commentArguments) : option commentArguments :=
  let '(mkComment r n b) := c in
  if String.eqb name "repository" then set_string m r ≫= fun r => Some (mkComment r n b)
  else if String.eqb name "pull_number" then set_number m n ≫= fun n => Some (mkComment r n b)
  else set_string m b ≫= fun b => Some (mkComment r n b).

Definition validateComment (arguments projection : string) : result (string * Z * string) :=
  if negb (canonicalDocument arguments) || negb (canonicalDocument projection) then Err ErrInvalidRequest else
  match decode_document ["repository"; "pull_number"; "body"]%string true set_comment (mkComment "" "" "") arguments with
  | None => Err ErrInvalidRequest
  | Some comment =>
      if String.eqb (cmt_Body comment) "" || (maximumCommentBytes <? slen (cmt_Body comment)) then Err ErrInvalidRequest
      else
        match decodeTarget projection with
        | Err _ => Err ErrInvalidRequest
        | Ok projected =>
            if negb (String.eqb (cmt_Repository comment) (tgt_Repository projected))
               || negb (String.eqb (cmt_PullNumber comment) (tgt_PullNumber projected)) then Err ErrInvalidRequest
            else
              match pull_number (cmt_PullNumber comment) with
              | None => Err ErrInvalidRequest
              | Some number =>
                  if negb (validRepository (cmt_Repository comment)) then Err ErrInvalidRequest
                  else Ok (cmt_Repository comment, number, cmt_Body comment)
              end
        end
  end.

Definition validCredential (metadata : CredentialCapabilityMetadata) (audience resource : string) : bool :=
  (String.eqb (md_Kind metadata) CapabilityOAuthAccessToken || String.eqb (md_Kind metadata) CapabilityAPIToken)
  && existsb (fun candidate => EqualFold (TrimSuffix candidate ".") (TrimSuffix audience ".")) (md_Audiences metadata)
  && existsb (fun candidate => String.eqb candidate resource) (md_Resources metadata).

(** ** Responses *)

Record gresponse := mkGResponse { gp_Status : Z; gp_Header : gmap string (list string); gp_Body : option string }.

Definition classifyStatus (status : Z) : string :=
  if status =? 200 then "confirmed_success"
  else if (status =? 429) || ((500 <=? status) && (status <=? 599)) then "transient_safe"
  else "definitely_rejected".

Definition classifyCommentStatus (status : Z) : string :=
  if status =? 201 then "confirmed_success"
  else if existsb (Z.eqb status) [403; 404; 410; 422; 429] then "definitely_rejected"
  else "unknown".

Definition maximumProviderEvidenceValueBytes : Z := 256.

Definition boundedHeader (value : string) : string :=
  if String.eqb value "" || (maximumProviderEvidenceValueBytes <? slen value) || str_existsb control_byte value
  then EmptyString else value.

Definition responseEvidence (response : gresponse) : ConnectorEvidence :=
  mkEvidence (boundedHeader (value_of (gp_Header response) "X-Github-Request-Id")) EmptyString
    (boundedHeader (value_of (gp_Header response) "Etag"))
    (json_object [("status_code"%string, json_int (gp_Status response))]).

Definition with_result_id (e : ConnectorEvidence) (id : string) : ConnectorEvidence :=
  mkEvidence (ProviderRequestID e) id (ResourceVersion e) (SafeMetadata e).

Record githubPull := mkPull {
  pl_Number : Z; pl_NodeID : string; pl_Title : string; pl_State : string; pl_HTMLURL : string; pl_UpdatedAt : string;
}.
Definition set_pull (name : string) (m : member) (p : githubPull) : option githubPull :=
  let '(mkPull n i t s h u) := p in
  if String.eqb name "number" then set_int 64 m n ≫= fun n => Some (mkPull n i t s h u)
  else if String.eqb name "node_id" then set_string m i ≫= fun i => Some (mkPull n i t s h u)
  else if String.eqb name "title" then set_string m t ≫= fun t => Some (mkPull n i t s h u)
  else if String.eqb name "state" then set_string m s ≫= fun s => Some (mkPull n i t s h u)
  else if String.eqb name "html_url" then set_string m h ≫= fun h => Some (mkPull n i t s h u)
  else set_string m u ≫= fun u => Some (mkPull n i t s h u).

(** [pullResult] *)
Definition pull_json (repository : string) (pull : githubPull) : string :=
  json_object [("repository", json_string repository); ("number", json_int (pl_Number pull));
    ("title", json_string (pl_Title pull)); ("state", json_string (pl_State pull));
    ("url", json_string (pl_HTMLURL pull)); ("updated_at", json_string (pl_UpdatedAt pull))]%string.

Definition decodePull (body : option string) (repository : string) (pullNumber : Z) : result (string * string) :=
  match body ≫= decode_document ["number"; "node_id"; "title"; "state"; "html_url"; "updated_at"]%string false set_pull
                  (mkPull 0 "" "" "" "" "") with
  | None => Err ErrResponse
  | Some pull =>
      if negb (pl_Number pull =? pullNumber) || String.eqb (pl_Title pull) "" || String.eqb (pl_State pull) ""
         || String.eqb (pl_HTMLURL pull) "" || String.eqb (pl_UpdatedAt pull) "" then Err ErrResponse
      else Ok (pull_json repository pull, boundedHeader (pl_NodeID pull))
  end.

Record githubComment := mkGComment { gc_ID : Z; gc_HTMLURL : string; gc_CreatedAt : string }.
Definition set_gcomment (name : string) (m : member) (c : githubComment) : option githubComment :=
  let '(mkGComment i h c) := c in
  if String.eqb name "id" then set_int 64 m i ≫= fun i => Some (mkGComment i h c)
  else if String.eqb name "html_url" then set_string m h ≫= fun h => Some (mkGComment i h c)
  else set_string m c ≫= fun c => Some (mkGComment i h c).

(** [commentResult] *)
Definition comment_json (repository : string) (pullNumber : Z) (comment : githubComment) : string :=
  json_object [("repository", json_string repository); ("pull_number", json_int pullNumber);
    ("comment_id", json_int (gc_ID comment)); ("url", json_string (gc_HTMLURL comment));
    ("created_at", json_string (gc_CreatedAt comment))]%string.

Definition decodeComment (body : option string) (repository : string) (pullNumber : Z) : result (string * string) :=
  match body ≫= decode_document ["id"; "html_url"; "created_at"]%string false set_gcomment (mkGComment 0 "" "") with
  | None => Err ErrResponse
  | Some comment =>
      if (gc_ID comment <? 1) || String.eqb (gc_HTMLURL comment) "" || String.eqb (gc_CreatedAt comment) "" then
        Err ErrResponse
      else Ok (comment_json repository pullNumber comment, json_int (gc_ID comment))
  end.

(** ** Execution *)

(** The operation, the request and its payload, as handed to the client. *)
Definition client_call : Type := string * hrequest * string.
(** No response is [None]. *)
Definition httpClient : Type := client_call -> result (option gresponse).

Section Execute.
Context (client : httpClient) (connector : PullReader) (cancelled : bool) (now : Z).

Definition reader_Hostname : string := fst (url_split (u_Host (rd_baseURL connector))).

(** The URL of a path below the base; the text of a URL with a host reads back as
    that URL, less an empty port. *)
Definition target_url (suffix : string) : DownstreamHttp.URL :=
  let u := rd_baseURL connector in
  DownstreamHttp.mkURL (u_Scheme u) false (TrimSuffix (u_Host u) ":") (TrimSuffix (u_Path u) "/" +:+ suffix)
    EmptyString EmptyString.

Definition repository_path (repository : string) : string := "/repos/" +:+ rd_owner connector +:+ "/" +:+ repository.

(** The request with the secret in its header, as it is while the client has it. *)
Definition with_secret (headers : list (string * string)) (secret : string) : gmap string (list string) :=
  list_to_map (map (fun kv => (kv.1, [kv.2])) (headers ++ [("Authorization"%string, ("Bearer " +:+ secret)%string)])).

Definition accepts (request : @ConnectorRequest (option Capability)) (operation : string) : bool :=
  negb (String.eqb (creq_InvocationID request) "") && is_some (creq_Credential request)
  && String.eqb (ConnectorType (Connector (creq_Tool request))) ConnectorTypeName
  && String.eqb (Operation (Connector (creq_Tool request))) operation
  && String.eqb (InstanceSelector (Connector (creq_Tool request))) (rd_instanceSelector connector).

Definition no_result (classification : string) : ConnectorResult :=
  mkConnectorResult classification EmptyString (mkEvidence "" "" "" "").

(** [PullReader.Execute] *)
Definition PullReader_Execute (request : @ConnectorRequest (option Capability))
    : list client_call * result ConnectorResult :=
  match accepts request PullGet, creq_Credential request with
  | true, Some credential =>
      if cancelled then ([], Ok (no_result "cancelled_pre_send")) else
      match validateTarget (creq_CanonicalArguments request) (creq_ResourceProjection request) with
      | Err err => ([], Err err)
      | Ok (repository, pullNumber) =>
          if negb (validCredential (metadata credential) reader_Hostname
                     ("repository:" +:+ rd_owner connector +:+ "/" +:+ repository)) then ([], Err ErrCredential)
          else
            match UseSecret credential now Ok with
            | Err _ => ([], Err ErrCredential)
            | Ok secret =>
                let c := (PullGet, mkHRequest "GET"
                            (target_url (repository_path repository +:+ "/pulls/" +:+ json_int pullNumber))
                            (with_secret [("Accept", "application/vnd.github+json"); ("User-Agent", "ThinkPixelTG")]%string
                               secret), EmptyString) in
                ([c],
                 match client c with
                 | Err err => if errors_Is err ErrCanceled || errors_Is err ErrDeadlineExceeded then Err err
                              else Err ErrExecution
                 | Ok None => Err ErrResponse
                 | Ok (Some response) =>
                     let classification := classifyStatus (gp_Status response) in
                     let evidence := responseEvidence response in
                     if negb (String.eqb classification "confirmed_success") then
                       Ok (mkConnectorResult classification EmptyString evidence)
                     else
                       decodePull (gp_Body response) repository pullNumber ≫= fun '(result, providerResultID) =>
                       Ok (mkConnectorResult classification result (with_result_id evidence providerResultID))
                 end)
            end
      end
  | _, _ => ([], Err ErrInvalidRequest)
  end.

(** [CommentWriter.Execute] *)
Definition CommentWriter_Execute (request : @ConnectorRequest (option Capability))
    : list client_call * result ConnectorResult :=
  match accepts request PullComment && SideEffect (creq_Tool request)
        && String.eqb (Retry (creq_Tool request)) RetryNonRetryable, creq_Credential request with
  | true, Some credential =>
      if cancelled then ([], Ok (no_result "cancelled_pre_send")) else
      match validateComment (creq_CanonicalArguments request) (creq_ResourceProjection request) with
      | Err err => ([], Err err)
      | Ok (repository, pullNumber, body) =>
          if negb (validCredential (metadata credential) reader_Hostname
                     ("repository:" +:+ rd_owner connector +:+ "/" +:+ repository)) then ([], Err ErrCredential)
          else
            match UseSecret credential now Ok with
            | Err _ => ([], Err ErrCredential)
            | Ok secret =>
                let c := (PullComment, mkHRequest "POST"
                            (target_url (repository_path repository +:+ "/issues/" +:+ json_int pullNumber
                                         +:+ "/comments"))
                            (with_secret [("Accept", "application/vnd.github+json"); ("Content-Type", "application/json");
                                          ("User-Agent", "ThinkPixelTG")]%string secret),
                          json_object [("body"%string, json_string body)]) in
                ([c],
                 match client c with
                 | Err _ | Ok None => Ok (no_result "unknown")
                 | Ok (Some response) =>
                     let classification := classifyCommentStatus (gp_Status response) in
                     let evidence := responseEvidence response in
                     if negb (String.eqb classification "confirmed_success") then
                       Ok (mkConnectorResult classification EmptyString evidence)
                     else
                       decodeComment (gp_Body response) repository pullNumber ≫= fun '(result, providerResultID) =>
                       Ok (mkConnectorResult classification result (with_result_id evidence providerResultID))
                 end)
            end
      end
  | _, _ => ([], Err ErrInvalidRequest)
  end.
End Execute.
End Connector.

(** ** Lemmas *)

(** A path segment: no separator, not a reference to another directory. *)
Definition path_segment (s : string) : Prop :=
  s <> EmptyString /\ s <> "."%string /\ s <> ".."%string /\ contains_byte "/" s = false.

Lemma no_slash (r : regex) s :
  (forall c, re_bytes r c = true -> negb (Ascii.eqb "/" c) = true) -> matches r s = true -> contains_byte "/" s = false.
Proof.
  intros Hr Hm. apply (matches_bytes_in r s (fun c => negb (Ascii.eqb "/" c)) Hr) in Hm.
  unfold contains_byte, str_existsb. apply negb_false_iff.
  revert Hm. apply str_forallb_mono. done.
Qed.

Lemma not_slash_bytes (r : regex) :
  all_from (fun z => negb (re_bytes r (byte z)) || negb (Ascii.eqb "/" (byte z))) 256 0 = true ->
  forall c, re_bytes r c = true -> negb (Ascii.eqb "/" c) = true.
Proof.
  intros H c Hc. pose proof (byte_val_range c) as B.
  pose proof (all_from_spec _ _ 256 _ H eq_refl (byte_val c) ltac:(lia)) as E. cbv beta in E.
  by rewrite byte_byte_val, Hc in E.
Qed.

Lemma repository_segment s : validRepository s = true -> path_segment s.
Proof.
  unfold validRepository. rewrite !andb_true_iff, !negb_true_iff, !String.eqb_neq. intros [[[[Hl _] H1] H2] Hm].
  split_and!; [by intros ->|done|done|]. revert Hm. apply no_slash, not_slash_bytes. vm_compute. reflexivity.
Qed.

Lemma owner_segment s : validOwner s = true -> path_segment s.
Proof.
  unfold validOwner. rewrite !andb_true_iff. intros [[[Hl _] Hm] _].
  split_and!; [intros ->|intros ->|intros ->|]; [discriminate Hl|discriminate Hm|discriminate Hm|].
  revert Hm. apply no_slash, not_slash_bytes. vm_compute. reflexivity.
Qed.

Lemma newPullReader_ok instance connector : newPullReader instance = Ok connector ->
  u_Scheme (rd_baseURL connector) = "https"%string /\ u_Host (rd_baseURL connector) <> EmptyString /\
  path_segment (rd_owner connector) /\ rd_instanceSelector connector = ci_Selector (ci_definition instance) /\
  exists destination, decode_document ["base_url"; "owner"]%string true set_destination (mkDestination "" "")
      (ci_DestinationConfig (ci_definition instance)) = Some destination /\
    url_Parse (dst_BaseURL destination) = Some (rd_baseURL connector) /\ rd_owner connector = dst_Owner destination.
Proof.
  unfold newPullReader. destruct (_ || _); [done|]. destruct (decode_document _ _ _ _ _) as [d|]; [|done].
  destruct (url_Parse (dst_BaseURL d)) as [u|] eqn:Eu; [|done]. destruct (_ || _) eqn:E; [done|].
  destruct (validOwner (dst_Owner d)) eqn:Eo; [|done]. intros [= <-]. cbn [rd_baseURL rd_owner rd_instanceSelector].
  rewrite !orb_false_iff, !negb_false_iff, String.eqb_eq, String.eqb_neq in E.
  split_and!; try tauto; [by apply owner_segment|]. exists d. auto.
Qed.

Lemma pull_number_range text number : pull_number text = Some number -> 1 <= number < 2 ^ 31.
Proof. unfold pull_number. repeat case_match; try done. intros [= <-]. to_prop. lia. Qed.

(** The target of a call: named alike by the arguments and the projection. *)
Definition target_of (projection repository : string) (number : Z) : Prop :=
  exists text, decodeTarget projection = Ok (mkTarget repository text) /\ pull_number text = Some number /\
    validRepository repository = true.

Lemma validateTarget_ok jcs arguments projection repository number :
  validateTarget jcs arguments projection = Ok (repository, number) ->
  target_of arguments repository number /\ target_of projection repository number /\
  canonicalDocument jcs arguments = true /\ canonicalDocument jcs projection = true.
Proof.
  unfold validateTarget, target_of. destruct (canonicalDocument jcs arguments); [|done].
  destruct (canonicalDocument jcs projection); [|done]. cbn [negb orb].
  destruct (decodeTarget arguments) as [[ra na]|]; [|done]. cbn [mbind result_bind].
  destruct (decodeTarget projection) as [[rp np]|]; [|done]. cbn [tgt_Repository tgt_PullNumber].
  destruct (String.eqb_spec ra rp) as [->|]; [|done]. destruct (String.eqb_spec na np) as [->|]; [|done]. cbn [andb negb].
  destruct (pull_number np) eqn:En; [|done]. destruct (validRepository rp) eqn:Er; [|done].
  intros [= <- <-]. split_and!; eauto.
Qed.

Lemma validateComment_ok jcs arguments projection repository number body :
  validateComment jcs arguments projection = Ok (repository, number, body) ->
  (exists text, decode_document ["repository"; "pull_number"; "body"]%string true set_comment (mkComment "" "" "") arguments
                = Some (mkComment repository text body) /\ pull_number text = Some number) /\
  target_of projection repository number /\ body <> EmptyString /\ slen body <= maximumCommentBytes /\
  canonicalDocument jcs arguments = true /\ canonicalDocument jcs projection = true.
Proof.
  unfold validateComment, target_of. destruct (canonicalDocument jcs arguments); [|done].
  destruct (canonicalDocument jcs projection); [|done]. cbn [negb orb].
  destruct (decode_document _ _ _ _ arguments) as [[ra na ba]|]; [|done]. cbn [cmt_Repository cmt_PullNumber cmt_Body].
  destruct (String.eqb_spec ba "") as [|Hb]; [done|]. destruct (Z.ltb_spec maximumCommentBytes (slen ba)); [done|]. cbn [orb].
  destruct (decodeTarget projection) as [[rp np]|]; [|done]. cbn [tgt_Repository tgt_PullNumber].
  destruct (String.eqb_spec ra rp) as [->|]; [|done]. destruct (String.eqb_spec na np) as [->|]; [|done]. cbn [orb negb].
  destruct (pull_number np) eqn:En; [|done]. destruct (validRepository rp) eqn:Er; [|done].
  intros [= <- <- <-]. split_and!; eauto.
Qed.

Lemma UseSecret_ok credential now secret' : UseSecret credential now Ok = Ok secret' ->
  secret' = secret credential /\ released credential = false /\ now < md_ExpiresAt (metadata credential).
Proof.
  unfold UseSecret. destruct (released credential); [done|]. destruct (Z.ltb_spec now (md_ExpiresAt (metadata credential)));
    [|done]. by intros [= <-].
Qed.

(** A credential that may be used for a repository of the owner at this host. *)
Definition credential_for (connector : PullReader) (repository : string) (now : Z) (credential : Capability) : Prop :=
  md_Kind (metadata credential) ∈ [CapabilityOAuthAccessToken; CapabilityAPIToken] /\
  Exists (fun audience => EqualFold (TrimSuffix audience ".") (TrimSuffix (reader_Hostname connector) ".") = true)
    (md_Audiences (metadata credential)) /\
  ("repository:" +:+ rd_owner connector +:+ "/" +:+ repository)%string ∈ md_Resources (metadata credential) /\
  released credential = false /\ now < md_ExpiresAt (metadata credential).

Lemma credential_ok connector repository now credential secret' :
  validCredential (metadata credential) (reader_Hostname connector)
    ("repository:" +:+ rd_owner connector +:+ "/" +:+ repository) = true ->
  UseSecret credential now Ok = Ok secret' ->
  credential_for connector repository now credential /\ secret' = secret credential.
Proof.
  intros Hv (-> & Hr & Hn)%UseSecret_ok. split; [|done]. revert Hv. unfold validCredential, credential_for.
  rewrite !andb_true_iff, orb_true_iff, !String.eqb_eq, !existsb_exists. intros [[Hk (a & Ha & Hf)] (r & Hr' & ->%String.eqb_eq)].
  split_and!; auto.
  - set_solver.
  - apply Exists_exists. by exists a.
  - by rewrite list_elem_of_In.
Qed.

(** ** Properties *)

(** What an execution may hand to the client. *)
Definition call_bound (connector : PullReader) (now : Z) (request : @ConnectorRequest (option Capability))
    (c : client_call) : Prop :=
  let '(operation, r, payload) := c in
  exists credential repository number body,
    creq_Credential request = Some credential /\ credential_for connector repository now credential /\
    hr_Header r !! "Authorization"%string = Some [("Bearer " +:+ secret credential)%string] /\
    target_of (creq_ResourceProjection request) repository number /\ 1 <= number < 2 ^ 31 /\
    path_segment (rd_owner connector) /\ path_segment repository /\
    operation = Operation (Connector (creq_Tool request)) /\
    rd_instanceSelector connector = InstanceSelector (Connector (creq_Tool request)) /\
    ((operation = PullGet /\ hr_Method r = "GET"%string /\ payload = EmptyString /\
      target_of (creq_CanonicalArguments request) repository number /\
      hr_URL r = target_url connector (repository_path connector repository +:+ "/pulls/" +:+ json_int number)) \/
     (operation = PullComment /\ hr_Method r = "POST"%string /\ SideEffect (creq_Tool request) = true /\
      Retry (creq_Tool request) = RetryNonRetryable /\
      payload = json_object [("body"%string, json_string body)] /\ slen body <= maximumCommentBytes /\
      (exists text, decode_document ["repository"; "pull_number"; "body"]%string true set_comment (mkComment "" "" "")
         (creq_CanonicalArguments request) = Some (mkComment repository text body)) /\
      hr_URL r = target_url connector (repository_path connector repository +:+ "/issues/" +:+ json_int number
                                       +:+ "/comments"))).

Lemma accepts_ok connector request operation : accepts connector request operation = true ->
  Operation (Connector (creq_Tool request)) = operation /\
  InstanceSelector (Connector (creq_Tool request)) = rd_instanceSelector connector.
Proof. unfold accepts. rewrite !andb_true_iff, !String.eqb_eq. tauto. Qed.

Section Bound.
Context (jcs : jvalue -> result string) (client : httpClient) (instance : ConnectorInstance) (connector : PullReader)
  (cancelled : bool) (now : Z) (request : @ConnectorRequest (option Capability)).
Context (Hnew : newPullReader instance = Ok connector).

Lemma reader_calls calls outcome :
  PullReader_Execute jcs client connector cancelled now request = (calls, outcome) ->
  calls = [] \/ exists c, calls = [c] /\ call_bound connector now request c.
Proof.
  unfold PullReader_Execute. destruct (accepts _ _ _) eqn:Ea; [|intros [= <- _]; auto].
  apply accepts_ok in Ea as [Eop Esel].
  destruct (creq_Credential request) as [credential|] eqn:Ec; [|intros [= <- _]; auto].
  destruct cancelled; [intros [= <- _]; auto|].
  destruct (validateTarget _ _ _) as [[repository number]|] eqn:Et; [|intros [= <- _]; auto].
  apply validateTarget_ok in Et as (Hta & Htp & _).
  destruct (validCredential _ _ _) eqn:Ev; [|intros [= <- _]; auto]. cbn [negb].
  destruct (UseSecret credential now Ok) as [s|] eqn:Es; [|intros [= <- _]; auto].
  destruct (credential_ok _ _ _ _ _ Ev Es) as [Hcred ->]. intros [= <- _]. right. eexists. split; [reflexivity|].
  destruct (newPullReader_ok _ _ Hnew) as (_ & _ & Howner & _).
  pose proof Htp as (text & _ & Hn & Hr). apply pull_number_range in Hn. apply repository_segment in Hr.
  exists credential, repository, number, EmptyString. split_and!; try done; [lia|lia|]. left. split_and!; done.
Qed.

Lemma writer_calls calls outcome :
  CommentWriter_Execute jcs client connector cancelled now request = (calls, outcome) ->
  calls = [] \/ exists c, calls = [c] /\ call_bound connector now request c.
Proof.
  unfold CommentWriter_Execute. destruct (_ && _) eqn:Ea; [|intros [= <- _]; auto].
  rewrite !andb_true_iff, String.eqb_eq in Ea. destruct Ea as [[[Eop Esel]%accepts_ok Eside] Eretry].
  destruct (creq_Credential request) as [credential|] eqn:Ec; [|intros [= <- _]; auto].
  destruct cancelled; [intros [= <- _]; auto|].
  destruct (validateComment _ _ _) as [[[repository number] body]|] eqn:Et; [|intros [= <- _]; auto].
  apply validateComment_ok in Et as ((text & Hta & _) & Htp & _ & Hb & _).
  destruct (validCredential _ _ _) eqn:Ev; [|intros [= <- _]; auto]. cbn [negb].
  destruct (UseSecret credential now Ok) as [s|] eqn:Es; [|intros [= <- _]; auto].
  destruct (credential_ok _ _ _ _ _ Ev Es) as [Hcred ->]. intros [= <- _]. right. eexists. split; [reflexivity|].
  destruct (newPullReader_ok _ _ Hnew) as (_ & _ & Howner & _).
  pose proof Htp as (text' & _ & Hn & Hr). apply pull_number_range in Hn. apply repository_segment in Hr.
  exists credential, repository, number, body. split_and!; try done; [lia|lia|]. right. split_and!; eauto.
Qed.

End Bound.

(** A decimal text of an [int64] is short and has no control characters. *)
Lemma natural_text_length s : natural_text s -> dec_val s < 10 ^ 20 -> slen s <= 20.
Proof.
  intros [->|(c & d & -> & Hc & Hd)] Hv; [done|]. rewrite dec_val_cons in Hv.
  assert (0 <= dec_val d).
  { clear -Hd. induction d as [|a d IH]; [done|]. rewrite dec_val_cons. simpl in Hd. apply andb_true_iff in Hd as [Ha Hd].
    specialize (IH Hd). unfold is_digit, byte_in in Ha. to_prop. pose proof (Z.pow_nonneg 10 (slen d)). nia. }
  assert (10 ^ slen d < 10 ^ 20) as Hlt by nia.
  apply Z.pow_lt_mono_r_iff in Hlt; [|lia|lia]. change (slen (String c d)) with (Z.of_nat (S (String.length d))).
  unfold slen in *. lia.
Qed.

Lemma digits_no_control s : all_digits s = true -> str_existsb control_byte s = false.
Proof.
  unfold all_digits, str_existsb. rewrite andb_true_iff. intros [_ H]. apply negb_false_iff. revert H.
  apply str_forallb_mono. intros c Hc. unfold is_digit, byte_in, control_byte in *. to_prop. lia.
Qed.

Lemma json_int_evidence z : 0 <= z <= max_int64 -> slen (json_int z) <= 256 /\ str_existsb control_byte (json_int z) = false.
Proof.
  intros Hz. destruct (json_int_text z) as (s & E & Hn & Hv). rewrite E.
  replace (z <? 0) with false by (symmetry; apply Z.ltb_ge; lia). change (EmptyString +:+ s) with s.
  split; [|by apply digits_no_control, natural_all_digits].
  pose proof (natural_text_length s Hn). unfold max_int64 in Hz. lia.
Qed.

Lemma boundedHeader_evidence value :
  slen (boundedHeader value) <= 256 /\ str_existsb control_byte (boundedHeader value) = false.
Proof.
  unfold boundedHeader. destruct (_ || _) eqn:E; [done|]. rewrite !orb_false_iff in E.
  unfold maximumProviderEvidenceValueBytes in E. to_prop. tauto.
Qed.

Lemma status_metadata status : 0 <= status < 1000 ->
  let m := json_object [("status_code"%string, json_int status)] in
  slen m <= 4096 /\ unmarshals_object m = true.
Proof.
  intros H. assert (E : all_from (fun z => let m := json_object [("status_code"%string, json_int z)] in
    (slen m <=? 4096) && unmarshals_object m) 1000 0 = true) by (vm_compute; reflexivity).
  pose proof (all_from_spec _ _ 1000 _ E eq_refl status ltac:(lia)) as Hs. cbv zeta beta in Hs.
  rewrite andb_true_iff, Z.leb_le in Hs. done.
Qed.

Lemma evidence_valid status a b c : 0 <= status < 1000 ->
  (slen a <= 256 /\ str_existsb control_byte a = false) ->
  (slen b <= 256 /\ str_existsb control_byte b = false) ->
  (slen c <= 256 /\ str_existsb control_byte c = false) ->
  validConnectorEvidence (mkEvidence a b c (json_object [("status_code"%string, json_int status)])) = true.
Proof.
  intros Hs [Ha Ha'] [Hb Hb'] [Hc Hc']. destruct (status_metadata status Hs) as [Hl Hu].
  unfold validConnectorEvidence. cbn [existsb ProviderRequestID ProviderResultID ResourceVersion SafeMetadata].
  rewrite Ha', Hb', Hc', !orb_false_r.
  replace (256 <? slen a) with false by (symmetry; apply Z.ltb_ge; lia).
  replace (256 <? slen b) with false by (symmetry; apply Z.ltb_ge; lia).
  replace (256 <? slen c) with false by (symmetry; apply Z.ltb_ge; lia).
  replace (4096 <? slen _) with false by (symmetry; apply Z.ltb_ge; exact Hl). cbn [orb].
  rewrite Hu. by destruct (_ =? 0).
Qed.

Lemma set_int_range bits m old z : set_int bits m old = Some z -> z = old \/ z <= 2 ^ (bits - 1) - 1.
Proof.
  unfold set_int. destruct (m_value m); try done; [intros [= <-]; auto|].
  unfold ParseIntN. repeat case_match; try done; intros [= <-]; to_prop; lia.
Qed.

Lemma decodeComment_id body repository number result id : decodeComment body repository number = Ok (result, id) ->
  slen id <= 256 /\ str_existsb control_byte id = false.
Proof.
  unfold decodeComment. destruct body as [body|]; [|done]. cbn [mbind option_bind].
  destruct (decode_document _ _ _ _ body) as [c|] eqn:Ed; [|done]. destruct (_ || _) eqn:E; [done|].
  intros [= _ <-]. apply json_int_evidence. rewrite !orb_false_iff in E. to_prop. split; [lia|].
  revert Ed. apply (decode_document_inv _ _ _ (fun c => gc_ID c <= max_int64)); [done|].
  intros name m [i h t] y Hx. unfold set_gcomment.
  destruct (String.eqb name "id"); [|destruct (String.eqb name "html_url")].
  - destruct (set_int 64 m i) as [z|] eqn:Ez; [|done]. intros [= <-]. cbn in *.
    destruct (set_int_range _ _ _ _ Ez) as [->|Hz]; [done|]. exact Hz.
  - destruct (set_string m h); [|done]. by intros [= <-].
  - destruct (set_string m t); [|done]. by intros [= <-].
Qed.

Lemma decodePull_id body repository number result id : decodePull body repository number = Ok (result, id) ->
  slen id <= 256 /\ str_existsb control_byte id = false.
Proof.
  unfold decodePull. destruct body as [body|]; [|done]. cbn [mbind option_bind].
  destruct (decode_document _ _ _ _ body) as [c|] eqn:Ed; [|done]. destruct (_ || _); [done|].
  intros [= _ <-]. apply boundedHeader_evidence.
Qed.

Lemma classifyStatus_public status : is_some (connectorState (classifyStatus status)) = true.
Proof. unfold classifyStatus. destruct (status =? 200); [done|]. by destruct (_ || _). Qed.
Lemma classifyCommentStatus_public status : is_some (connectorState (classifyCommentStatus status)) = true.
Proof. unfold classifyCommentStatus. destruct (status =? 201); [done|]. by destruct (existsb _ _). Qed.

Definition three_digits (client : httpClient) : Prop :=
  forall c response, client c = Ok (Some response) -> 0 <= gp_Status response < 1000.

(** C21: a GitHub connector does what was authorized and nothing else.  Whatever the
    arguments, the credential and the provider, an execution hands at most one request
    to the client.  It goes to the base URL of the administrator's instance, below the
    configured owner; the repository and the number are those of the canonical
    arguments and, alike, of the authorized resource projection, and none of the three
    can leave its segment of the path.  It carries the secret of the given credential,
    which is live, meant for this host and names this very repository.  A comment is
    posted only for a tool version that declares a side effect and is never retried,
    with the comment of the arguments as its payload. *)
Theorem github_request_bound (jcs : jvalue -> result string) (client : httpClient) (instance : ConnectorInstance)
    (connector : PullReader) (cancelled : bool) (now : Z) (request : @ConnectorRequest (option Capability))
    (calls : list client_call) (outcome : result ConnectorResult)
    (Hnew : newPullReader instance = Ok connector)
    (Hrun : PullReader_Execute jcs client connector cancelled now request = (calls, outcome) \/
            CommentWriter_Execute jcs client connector cancelled now request = (calls, outcome)) :
  calls = [] \/ exists c, calls = [c] /\ call_bound connector now request c.
Proof. destruct Hrun; [eapply reader_calls|eapply writer_calls]; eauto. Qed.

(** An uncertain comment is never offered for a retry.  A run of the comment
    writer is classified as rejected only when the provider answered with a status that
    proves it (403, 404, 410, 422 or 429), as successful only on a 201, as cancelled
    only when nothing was handed to the client; everything else that happens after
    that is unknown, so that the call becomes ambiguous and is never put into the retry
    state.  An error is returned only before anything is sent, or for a 201 whose body
    cannot be read. *)
Theorem comment_outcome_proven (jcs : jvalue -> result string) (client : httpClient) (connector : PullReader)
    (cancelled : bool) (now : Z) (request : @ConnectorRequest (option Capability)) :
  let '(calls, outcome) := CommentWriter_Execute jcs client connector cancelled now request in
  let answered status := exists c response, calls = [c] /\ client c = Ok (Some response) /\ gp_Status response = status in
  match outcome with
  | Ok r =>
      ((Classification r = "confirmed_success" /\ answered 201) \/
       (Classification r = "definitely_rejected" /\ exists status, status ∈ [403; 404; 410; 422; 429] /\ answered status) \/
       (Classification r = "cancelled_pre_send" /\ calls = []) \/
       (Classification r = "unknown" /\ calls <> [] /\ connectorState (Classification r) = Some "ambiguous"))%string /\
      connectorState (Classification r) <> Some "retry_wait"%string
  | Err e => calls = [] \/ (e = ErrResponse /\ answered 201)
  end.
Proof.
  unfold CommentWriter_Execute. destruct (_ && _); [|by left].
  destruct (creq_Credential request) as [credential|]; [|by left].
  destruct cancelled; [split; [auto|done]|].
  destruct (validateComment _ _ _) as [[[repository number] body]|]; [|by left].
  destruct (validCredential _ _ _); [|by left]. cbn [negb].
  destruct (UseSecret credential now Ok); [|by left]. cbv zeta. set (c := (_, _, _)).
  destruct (client c) as [[response|]|] eqn:Ec; [|split; [naive_solver|done]..].
  unfold classifyCommentStatus. destruct (Z.eqb_spec (gp_Status response) 201) as [Hs|Hs].
  { cbn [String.eqb negb]. change (String.eqb "confirmed_success" "confirmed_success") with true. cbn [negb].
    destruct (decodeComment _ _ _) as [[result id]|e] eqn:Ed; cbn [mbind result_bind].
    - split; [left; eauto 10|done].
    - right. split; [|eauto 10]. revert Ed. unfold decodeComment. repeat case_match; congruence. }
  destruct (existsb _ _) eqn:Ex.
  - change (negb (String.eqb "definitely_rejected" "confirmed_success")) with true. cbv iota. split; [|done].
    right; left. split; [done|]. exists (gp_Status response). split; [|eauto 10].
    apply existsb_exists in Ex as (s & Hin & ->%Z.eqb_eq). by rewrite list_elem_of_In.
  - change (negb (String.eqb "unknown" "confirmed_success")) with true. cbv iota. split; [naive_solver|done].
Qed.

(** What the connectors report is what the service accepts.  For a client whose
    responses have three-digit statuses, the evidence of every result of either
    connector passes the checks of the service (bounded identifiers without control
    characters, bounded metadata that is an object), and its classification has a
    public state: a completed execution is never turned into an internal error. *)
Theorem github_evidence_accepted (jcs : jvalue -> result string) (client : httpClient) (connector : PullReader)
    (cancelled : bool) (now : Z) (request : @ConnectorRequest (option Capability)) (calls : list client_call)
    (r : ConnectorResult) (Hclient : three_digits client)
    (Hrun : PullReader_Execute jcs client connector cancelled now request = (calls, Ok r) \/
            CommentWriter_Execute jcs client connector cancelled now request = (calls, Ok r)) :
  validConnectorEvidence (Evidence r) = true /\ is_some (connectorState (Classification r)) = true.
Proof.
  destruct Hrun as [Hrun|Hrun]; revert Hrun.
  - unfold PullReader_Execute. destruct (accepts _ _ _); [|done]. destruct (creq_Credential request) as [credential|]; [|done].
    destruct cancelled; [by intros [= _ <-]|]. destruct (validateTarget _ _ _) as [[]|]; [|done].
    destruct (negb _); [done|]. destruct (UseSecret _ _ _); [|done]. cbv zeta. set (c := (_, _, _)).
    destruct (client c) as [[response|]|] eqn:Ec; [|done|by destruct (_ || _)]. apply Hclient in Ec.
    destruct (negb _) eqn:En.
    + intros [= _ <-]. split; [apply evidence_valid; auto using boundedHeader_evidence; by split|].
      apply classifyStatus_public.
    + destruct (decodePull _ _ _) as [[result id]|] eqn:Ed; [|done]. intros [= _ <-].
      split; [unfold with_result_id, responseEvidence; apply evidence_valid; eauto using boundedHeader_evidence, decodePull_id|].
      apply classifyStatus_public.
  - unfold CommentWriter_Execute. destruct (_ && _); [|done]. destruct (creq_Credential request) as [credential|]; [|done].
    destruct cancelled; [by intros [= _ <-]|]. destruct (validateComment _ _ _) as [[[]]|]; [|done].
    destruct (negb _); [done|]. destruct (UseSecret _ _ _); [|done]. cbv zeta. set (c := (_, _, _)).
    destruct (client c) as [[response|]|] eqn:Ec; [|by intros [= _ <-]..]. apply Hclient in Ec.
    destruct (negb _) eqn:En.
    + intros [= _ <-]. split; [apply evidence_valid; auto using boundedHeader_evidence; by split|].
      apply classifyCommentStatus_public.
    + destruct (decodeComment _ _ _) as [[result id]|] eqn:Ed; [|done]. intros [= _ <-].
      split; [unfold with_result_id, responseEvidence; apply evidence_valid; eauto using boundedHeader_evidence, decodeComment_id|].
      apply classifyCommentStatus_public.
Qed.

(** A comment that was created is reported as an error when the body of the 201 cannot
    be decoded. *)
Lemma created_comment_can_error jcs client connector now request c response :
  (CommentWriter_Execute jcs client connector false now request).1 = [c] ->
  client c = Ok (Some response) -> gp_Status response = 201 -> gp_Body response = None ->
  (CommentWriter_Execute jcs client connector false now request).2 = Err ErrResponse.
Proof.
  unfold CommentWriter_Execute. destruct (_ && _); [|done]. destruct (creq_Credential request) as [credential|]; [|done].
  destruct (validateComment _ _ _) as [[[]]|]; [|done]. destruct (negb _); [done|]. destruct (UseSecret _ _ _); [|done].
  cbv zeta. set (c0 := (_, _, _)). clearbody c0. cbn [fst snd]. intros [= ->] -> Hs Hb. unfold classifyCommentStatus. rewrite Hs, Hb. done.
Qed.

(** ** Witnesses *)

Definition ex_destination : string := quoted "{'base_url':'https://api.github.test/v3','owner':'acme'}".
Definition ex_instance : ConnectorInstance :=
  mkConnectorInstance (mkInstance (str_of (replicate 16 (byte 1))) (str_of (replicate 16 (byte 2))) "default" "github"
    ex_destination (DigestBytes ex_destination) true).
Definition ex_connector : PullReader :=
  mkReader (GoUrl.mkURL "https" "" false "api.github.test" "/v3" "" false "") "acme" "default".
Definition ex_tool (operation retry : string) : ToolVersionDefinition :=
  mkDefinition "github.pull" (mkSemVer "1.0.0" 1 0 0 []) RiskBoundedWrite true retry ApprovalPolicy false
    (mkDescription "t" "d" "r") "{}" "{}" "jcs-v1" (mkBinding "github" operation "default") "github.app" ""
    (mkProjection [] 0 0) (mkMetering "tool.calls" "1" MeterAtAttempt MeterPerLogicalInvocation)
    (ToolCatalog.mkLimits 65536 65536 (10 * Second) 10 3).
Definition ex_capability : Capability :=
  mkCapability (mkMetadata CapabilityAPIToken "p" "" ["API.github.test."%string] ["repository:acme/site"%string] [] 1 200 "" "" "e")
    "s3cret" false.
Definition ex_grant : AuthorizationDecision :=
  mkDecision "d" "r" "x" "p" "1" AuthorizationAllow [ReasonAllowed] 1 1 9 0 "c" no_constraints (mkApproval false "") "e".
Definition ex_call (operation arguments : string) : @ConnectorRequest (option Capability) :=
  mkConnectorRequest "i-1" (ex_tool operation RetryNonRetryable) (quoted arguments)
    (quoted "{'pull_number':7,'repository':'site'}") ex_grant (Some ex_capability).
Definition ex_read := ex_call PullGet "{'pull_number':7,'repository':'site'}".
Definition ex_write := ex_call PullComment "{'body':'hi','pull_number':7,'repository':'site'}".
Definition ex_provider (c : client_call) : result (option gresponse) :=
  Ok (Some (if String.eqb c.1.1 PullGet
            then mkGResponse 200 {["Etag"%string := ["W/1"%string]]}
                   (Some (quoted "{'number':7,'node_id':'N','title':'t','state':'open','html_url':'u','updated_at':'now'}"))
            else mkGResponse 201 ∅ (Some (quoted "{'id':42,'html_url':'u','created_at':'now'}")))).

Example read_call : (fun c => (url_Host (hr_URL c.1.2), url_Path (hr_URL c.1.2))) <$>
    (PullReader_Execute ex_jcs ex_provider ex_connector false 100 ex_read).1 =
  [("api.github.test", "/v3/repos/acme/site/pulls/7")]%string.
Proof. vm_compute. reflexivity. Qed.

Lemma github_request_bound_witness :
  exists calls outcome, CommentWriter_Execute ex_jcs ex_provider ex_connector false 100 ex_write = (calls, outcome) /\
    length calls = 1%nat /\ (calls = [] \/ exists c, calls = [c] /\ call_bound ex_connector 100 ex_write c).
Proof.
  do 2 eexists. split; [reflexivity|]. split; [vm_compute; reflexivity|].
  apply (github_request_bound ex_jcs ex_provider ex_instance ex_connector false 100 ex_write _
           (CommentWriter_Execute ex_jcs ex_provider ex_connector false 100 ex_write).2).
  - vm_compute. reflexivity.
  - right. vm_compute. reflexivity.
Defined.

Lemma github_evidence_accepted_witness :
  exists r, (PullReader_Execute ex_jcs ex_provider ex_connector false 100 ex_read).2 = Ok r /\
    Classification r = "confirmed_success"%string /\
    validConnectorEvidence (Evidence r) = true /\ is_some (connectorState (Classification r)) = true.
Proof.
  eexists. split; [vm_compute; reflexivity|]. split; [reflexivity|].
  apply (github_evidence_accepted ex_jcs ex_provider ex_connector false 100 ex_read
           (PullReader_Execute ex_jcs ex_provider ex_connector false 100 ex_read).1).
  - intros c response H. unfold ex_provider in H. injection H as <-. destruct (String.eqb _ _); done.
  - left. vm_compute. reflexivity.
Defined.
