(* ===== verification/Config.v ===== *)
(** * Configuration

    [internal/config/config.go]: defaults, an optional JSON file, environment
    variables and flags, applied in that order, and the validation of the result;
    the pool settings made of it ([cmd/thinkpixeltg/main.go]) and their validation
    ([internal/adapters/postgres/pool.go]).  Files are an argument.  Package [flag]
    is modelled as far as it is used. *)
From Stdlib Require Import Ascii String.
From S2P Require Import Prelude GoStd Regex Json JsonParse Primitives ToolCatalog GoText Http CanonicalJson JsonStruct GoTime.

(** ** The settings *)

Definition ModeDevelopment : string := "development".
Definition ModeProduction : string := "production".

Record Telemetry := mkTelemetry { tel_Mode : string; tel_Endpoint : string }.

Record Database := mkDatabase {
  db_URL : string; db_MaxConnections : Z; db_MinConnections : Z;
  db_MaxConnectionLifetime : Z; db_MaxConnectionIdleTime : Z; db_HealthCheckPeriod : Z; db_ConnectTimeout : Z;
  db_ReadinessTimeout : Z; db_StatementTimeout : Z; db_LockTimeout : Z; db_IdleTransactionTimeout : Z;
  db_TransactionTimeout : Z; db_ShutdownTimeout : Z;
}.

Record Config := mkConfiguration {
  cfg_Mode : string; cfg_HTTP : HTTPConfig; cfg_Telemetry : Telemetry; cfg_Database : Database;
  cfg_DevAuth : bool; cfg_ConfigFile : string;
}.

Definition Default : Config :=
  mkConfiguration ModeDevelopment
    (mkHTTPConfig "127.0.0.1:8080" (5 * Second) (15 * Second) (30 * Second) (60 * Second) (15 * Second) (2 ^ 20) (2 ^ 20))
    (mkTelemetry "noop" "")
    (mkDatabase "" 20 0 Hour (30 * Minute) Minute (5 * Second) (2 * Second) (5 * Second) (2 * Second) (15 * Second)
       (10 * Second) (5 * Second))
    false "".

(** The settings by type, and what assigns one. *)
Inductive text_setting := TMode | TAddress | TTelemetryMode | TTelemetryEndpoint | TURL | TConfigFile.
Inductive http_duration := ReadHeader | Read | Write | Idle | Shutdown.
Inductive db_duration :=
  | Lifetime | IdleTime | HealthCheck | Connect | Readiness | Statement | Lock | IdleTransaction | Transaction
  | DbShutdown.
Inductive int_setting :=
  | IHttp (f : http_duration) | IMaxHeaderBytes | IMaxBodyBytes | IMaxConnections | IMinConnections
  | IDatabase (f : db_duration).
Inductive assignment := SetText (t : text_setting) (v : string) | SetInt (i : int_setting) (v : Z) | SetDevAuth (v : bool).

#[global] Instance text_setting_eq_dec : EqDecision text_setting.
Proof. solve_decision. Defined.
#[global] Instance http_duration_eq_dec : EqDecision http_duration.
Proof. solve_decision. Defined.
#[global] Instance db_duration_eq_dec : EqDecision db_duration.
Proof. solve_decision. Defined.
#[global] Instance int_setting_eq_dec : EqDecision int_setting.
Proof. solve_decision. Defined.

Definition set_http_int (i : int_setting) (v : Z) (h : HTTPConfig) : HTTPConfig :=
  let '(mkHTTPConfig a rh r w id sd mh mb) := h in
  match i with
  | IHttp ReadHeader => mkHTTPConfig a v r w id sd mh mb
  | IHttp Read => mkHTTPConfig a rh v w id sd mh mb
  | IHttp Write => mkHTTPConfig a rh r v id sd mh mb
  | IHttp Idle => mkHTTPConfig a rh r w v sd mh mb
  | IHttp Shutdown => mkHTTPConfig a rh r w id v mh mb
  | IMaxHeaderBytes => mkHTTPConfig a rh r w id sd v mb
  | IMaxBodyBytes => mkHTTPConfig a rh r w id sd mh v
  | _ => h
  end.

Definition set_database_int (i : int_setting) (v : Z) (d : Database) : Database :=
  let '(mkDatabase u mx mn lt it hc ct rt st lk ix tx sd) := d in
  match i with
  | IMaxConnections => mkDatabase u v mn lt it hc ct rt st lk ix tx sd
  | IMinConnections => mkDatabase u mx v lt it hc ct rt st lk ix tx sd
  | IDatabase Lifetime => mkDatabase u mx mn v it hc ct rt st lk ix tx sd
  | IDatabase IdleTime => mkDatabase u mx mn lt v hc ct rt st lk ix tx sd
  | IDatabase HealthCheck => mkDatabase u mx mn lt it v ct rt st lk ix tx sd
  | IDatabase Connect => mkDatabase u mx mn lt it hc v rt st lk ix tx sd
  | IDatabase Readiness => mkDatabase u mx mn lt it hc ct v st lk ix tx sd
  | IDatabase Statement => mkDatabase u mx mn lt it hc ct rt v lk ix tx sd
  | IDatabase Lock => mkDatabase u mx mn lt it hc ct rt st v ix tx sd
  | IDatabase IdleTransaction => mkDatabase u mx mn lt it hc ct rt st lk v tx sd
  | IDatabase Transaction => mkDatabase u mx mn lt it hc ct rt st lk ix v sd
  | IDatabase DbShutdown => mkDatabase u mx mn lt it hc ct rt st lk ix tx v
  | _ => d
  end.

Definition set_text_setting (t : text_setting) (v : string) (c : Config) : Config :=
  let '(mkConfiguration m h te d a f) := c in
  match t with
  | TMode => mkConfiguration v h te d a f
  | TAddress =>
      let '(mkHTTPConfig _ rh r w id sd mh mb) := h in mkConfiguration m (mkHTTPConfig v rh r w id sd mh mb) te d a f
  | TTelemetryMode => mkConfiguration m h (mkTelemetry v (tel_Endpoint te)) d a f
  | TTelemetryEndpoint => mkConfiguration m h (mkTelemetry (tel_Mode te) v) d a f
  | TURL =>
      let '(mkDatabase _ mx mn lt it hc ct rt st lk ix tx sd) := d in
      mkConfiguration m h te (mkDatabase v mx mn lt it hc ct rt st lk ix tx sd) a f
  | TConfigFile => mkConfiguration m h te d a v
  end.

Definition assign (c : Config) (a : assignment) : Config :=
  match a with
  | SetText t v => set_text_setting t v c
  | SetInt i v =>
      mkConfiguration (cfg_Mode c) (set_http_int i v (cfg_HTTP c)) (cfg_Telemetry c) (set_database_int i v (cfg_Database c))
        (cfg_DevAuth c) (cfg_ConfigFile c)
  | SetDevAuth v =>
      mkConfiguration (cfg_Mode c) (cfg_HTTP c) (cfg_Telemetry c) (cfg_Database c) v (cfg_ConfigFile c)
  end.

Definition text_of (t : text_setting) (c : Config) : string :=
  match t with
  | TMode => cfg_Mode c | TAddress => http_Address (cfg_HTTP c) | TTelemetryMode => tel_Mode (cfg_Telemetry c)
  | TTelemetryEndpoint => tel_Endpoint (cfg_Telemetry c) | TURL => db_URL (cfg_Database c)
  | TConfigFile => cfg_ConfigFile c
  end.

Definition http_int (i : http_duration) (h : HTTPConfig) : Z :=
  match i with
  | ReadHeader => http_ReadHeaderTimeout h | Read => http_ReadTimeout h | Write => http_WriteTimeout h
  | Idle => http_IdleTimeout h | Shutdown => http_ShutdownTimeout h
  end.
Definition database_int (i : db_duration) (d : Database) : Z :=
  match i with
  | Lifetime => db_MaxConnectionLifetime d | IdleTime => db_MaxConnectionIdleTime d
  | HealthCheck => db_HealthCheckPeriod d | Connect => db_ConnectTimeout d | Readiness => db_ReadinessTimeout d
  | Statement => db_StatementTimeout d | Lock => db_LockTimeout d | IdleTransaction => db_IdleTransactionTimeout d
  | Transaction => db_TransactionTimeout d | DbShutdown => db_ShutdownTimeout d
  end.
Definition int_of (i : int_setting) (c : Config) : Z :=
  match i with
  | IHttp f => http_int f (cfg_HTTP c)
  | IMaxHeaderBytes => http_MaxHeaderBytes (cfg_HTTP c)
  | IMaxBodyBytes => http_MaxBodyBytes (cfg_HTTP c)
  | IMaxConnections => db_MaxConnections (cfg_Database c)
  | IMinConnections => db_MinConnections (cfg_Database c)
  | IDatabase f => database_int f (cfg_Database c)
  end.

(** The text of a setting's value, parsed to its assignment. *)
Definition parse_duration (i : int_setting) (v : string) : result assignment :=
  match ParseDuration v with Some d => Ok (SetInt i d) | None => Err (ErrNew "time: invalid duration") end.
Definition parse_int32 (i : int_setting) (v : string) : result assignment :=
  match ParseIntN 32 v with Some z => Ok (SetInt i z) | None => Err (ErrNew "strconv.ParseInt: parsing failed") end.
Definition ParseBool (v : string) : option bool :=
  if one_of_str v ["1"; "t"; "T"; "TRUE"; "true"; "True"] then Some true
  else if one_of_str v ["0"; "f"; "F"; "FALSE"; "false"; "False"] then Some false
  else None.
Definition parse_dev_auth (v : string) : result assignment :=
  match ParseBool v with Some b => Ok (SetDevAuth b) | None => Err (ErrNew "strconv.ParseBool: parsing failed") end.

(** ** The file *)

Definition http_names : list (string * http_duration) :=
  [("read_header_timeout", ReadHeader); ("read_timeout", Read); ("write_timeout", Write); ("idle_timeout", Idle);
   ("shutdown_timeout", Shutdown)]%string.
Definition database_names : list (string * db_duration) :=
  [("max_connection_lifetime", Lifetime); ("max_connection_idle_time", IdleTime); ("health_check_period", HealthCheck);
   ("connect_timeout", Connect); ("readiness_timeout", Readiness); ("statement_timeout", Statement);
   ("lock_timeout", Lock); ("idle_transaction_timeout", IdleTransaction); ("transaction_timeout", Transaction);
   ("shutdown_timeout", DbShutdown)]%string.

(** The durations of a section are kept by name. *)
Record fileHTTP := mkFileHTTP {
  fh_Address : option string; fh_MaxHeaderBytes : option Z; fh_MaxBodyBytes : option Z;
  fh_Durations : string -> option string;
}.
Record fileDatabase := mkFileDatabase {
  fd_URL : option string; fd_MaxConnections : option Z; fd_MinConnections : option Z;
  fd_Durations : string -> option string;
}.
Record fileTelemetry := mkFileTelemetry { ft_Mode : option string; ft_Endpoint : option string }.
Record fileConfig := mkFileConfig {
  fc_Mode : option string; fc_HTTP : option fileHTTP; fc_Telemetry : option fileTelemetry;
  fc_Database : option fileDatabase; fc_DevAuth : option bool;
}.

Definition set_int_ptr (bits : Z) (m : member) (old : option Z) : option (option Z) :=
  match m_value m with JNull => Some None | JNumber text => Some <$> ParseIntN bits text | _ => None end.
Definition update_name (f : string -> option string) (name : string) (v : option string) : string -> option string :=
  fun n => if String.eqb n name then v else f n.
(** A pointer to a struct: [null] resets it, an object is decoded into what it
    points to, or into a new one. *)
Definition set_struct_ptr {A} (names : list string) (set : string -> member -> A -> option A) (zero : A) (m : member)
    (old : option A) : option (option A) :=
  match m_value m with JNull => Some None | v => Some <$> set_struct names set v (default zero old) end.

Definition set_file_http (name : string) (m : member) (h : fileHTTP) : option fileHTTP :=
  let '(mkFileHTTP a mh mb ds) := h in
  if String.eqb name "address" then set_string_ptr m a ≫= fun a => Some (mkFileHTTP a mh mb ds)
  else if String.eqb name "max_header_bytes" then set_int_ptr 64 m mh ≫= fun mh => Some (mkFileHTTP a mh mb ds)
  else if String.eqb name "max_body_bytes" then set_int_ptr 64 m mb ≫= fun mb => Some (mkFileHTTP a mh mb ds)
  else set_string_ptr m (ds name) ≫= fun d => Some (mkFileHTTP a mh mb (update_name ds name d)).
Definition set_file_database (name : string) (m : member) (d : fileDatabase) : option fileDatabase :=
  let '(mkFileDatabase u mx mn ds) := d in
  if String.eqb name "url" then set_string_ptr m u ≫= fun u => Some (mkFileDatabase u mx mn ds)
  else if String.eqb name "max_connections" then set_int_ptr 32 m mx ≫= fun mx => Some (mkFileDatabase u mx mn ds)
  else if String.eqb name "min_connections" then set_int_ptr 32 m mn ≫= fun mn => Some (mkFileDatabase u mx mn ds)
  else set_string_ptr m (ds name) ≫= fun v => Some (mkFileDatabase u mx mn (update_name ds name v)).
Definition set_file_telemetry (name : string) (m : member) (t : fileTelemetry) : option fileTelemetry :=
  if String.eqb name "mode" then set_string_ptr m (ft_Mode t) ≫= fun v => Some (mkFileTelemetry v (ft_Endpoint t))
  else set_string_ptr m (ft_Endpoint t) ≫= fun v => Some (mkFileTelemetry (ft_Mode t) v).

Definition no_durations (_ : string) : option string := None.
Definition zero_file : fileConfig := mkFileConfig None None None None None.
Definition set_file (name : string) (m : member) (f : fileConfig) : option fileConfig :=
  let '(mkFileConfig mo h t d a) := f in
  if String.eqb name "mode" then set_string_ptr m mo ≫= fun mo => Some (mkFileConfig mo h t d a)
  else if String.eqb name "http" then
    set_struct_ptr (["address"; "max_header_bytes"; "max_body_bytes"]%string ++ map fst http_names) set_file_http
      (mkFileHTTP None None None no_durations) m h ≫= fun h => Some (mkFileConfig mo h t d a)
  else if String.eqb name "telemetry" then
    set_struct_ptr ["mode"; "endpoint"]%string set_file_telemetry (mkFileTelemetry None None) m t
    ≫= fun t => Some (mkFileConfig mo h t d a)
  else if String.eqb name "database" then
    set_struct_ptr (["url"; "max_connections"; "min_connections"]%string ++ map fst database_names) set_file_database
      (mkFileDatabase None None None no_durations) m d ≫= fun d => Some (mkFileConfig mo h t d a)
  else set_bool_ptr m a ≫= fun a => Some (mkFileConfig mo h t d a).

(** [fileConfig.apply]: assignments in the order of the code. *)
Definition assign_opt {A} (make : A -> assignment) (v : option A) (c : Config) : Config :=
  match v with Some v => assign c (make v) | None => c end.
Fixpoint apply_durations {F} (section : string) (make : F -> int_setting) (values : string -> option string)
    (names : list (string * F)) (c : Config) : result Config :=
  match names with
  | [] => Ok c
  | (name, f) :: names =>
      match values name with
      | None => apply_durations section make values names c
      | Some v =>
          match parse_duration (make f) v with
          | Ok a => apply_durations section make values names (assign c a)
          | Err err => Err (ErrWrap (section +:+ "." +:+ name) err)
          end
      end
  end.

Definition apply_http (h : fileHTTP) (c : Config) : result Config :=
  apply_durations "http" IHttp (fh_Durations h) http_names
    (assign_opt (SetInt IMaxBodyBytes) (fh_MaxBodyBytes h)
       (assign_opt (SetInt IMaxHeaderBytes) (fh_MaxHeaderBytes h)
          (assign_opt (SetText TAddress) (fh_Address h) c))).
Definition apply_telemetry (t : fileTelemetry) (c : Config) : Config :=
  assign_opt (SetText TTelemetryEndpoint) (ft_Endpoint t) (assign_opt (SetText TTelemetryMode) (ft_Mode t) c).
Definition apply_database (d : fileDatabase) (c : Config) : result Config :=
  apply_durations "database" IDatabase (fd_Durations d) database_names
    (assign_opt (SetInt IMinConnections) (fd_MinConnections d)
       (assign_opt (SetInt IMaxConnections) (fd_MaxConnections d) (assign_opt (SetText TURL) (fd_URL d) c))).

Definition file_apply (f : fileConfig) (c : Config) : result Config :=
  let c := assign_opt SetDevAuth (fc_DevAuth f) (assign_opt (SetText TMode) (fc_Mode f) c) in
  match fc_HTTP f with Some h => apply_http h c | None => Ok c end ≫= fun c =>
  let c := match fc_Telemetry f with Some t => apply_telemetry t c | None => c end in
  match fc_Database f with Some d => apply_database d c | None => Ok c end.

(** [applyFile]: what is read of the file is its first mebibyte. *)
Definition applyFile (contents : result string) (c : Config) : result Config :=
  match contents with
  | Err err => Err (ErrWrap "open config file" err)
  | Ok text =>
      match decode_document ["mode"; "http"; "telemetry"; "database"; "dev_auth"]%string true set_file zero_file
              (if slen text <=? 2 ^ 20 then text else String.substring 0 (Z.to_nat (2 ^ 20)) text) with
      | None => Err (ErrNew "decode config file")
      | Some input => file_apply input c
      end
  end.

(** ** The environment *)

Definition env_setters : list (string * (string -> result assignment)) :=
  [("TPTG_MODE", fun v => Ok (SetText TMode v)); ("TPTG_HTTP_ADDRESS", fun v => Ok (SetText TAddress v));
   ("TPTG_DATABASE_URL", fun v => Ok (SetText TURL v)); ("TPTG_TELEMETRY_MODE", fun v => Ok (SetText TTelemetryMode v));
   ("TPTG_TELEMETRY_ENDPOINT", fun v => Ok (SetText TTelemetryEndpoint v)); ("TPTG_DEV_AUTH", parse_dev_auth);
   ("TPTG_DATABASE_MAX_CONNECTIONS", parse_int32 IMaxConnections);
   ("TPTG_DATABASE_MIN_CONNECTIONS", parse_int32 IMinConnections);
   ("TPTG_DATABASE_MAX_CONNECTION_LIFETIME", parse_duration (IDatabase Lifetime));
   ("TPTG_DATABASE_MAX_CONNECTION_IDLE_TIME", parse_duration (IDatabase IdleTime));
   ("TPTG_DATABASE_HEALTH_CHECK_PERIOD", parse_duration (IDatabase HealthCheck));
   ("TPTG_DATABASE_CONNECT_TIMEOUT", parse_duration (IDatabase Connect));
   ("TPTG_DATABASE_READINESS_TIMEOUT", parse_duration (IDatabase Readiness));
   ("TPTG_DATABASE_STATEMENT_TIMEOUT", parse_duration (IDatabase Statement));
   ("TPTG_DATABASE_LOCK_TIMEOUT", parse_duration (IDatabase Lock));
   ("TPTG_DATABASE_IDLE_TRANSACTION_TIMEOUT", parse_duration (IDatabase IdleTransaction));
   ("TPTG_DATABASE_TRANSACTION_TIMEOUT", parse_duration (IDatabase Transaction));
   ("TPTG_DATABASE_SHUTDOWN_TIMEOUT", parse_duration (IDatabase DbShutdown))]%string.

Definition named {A} (table : list (string * A)) (name : string) : option A :=
  match List.find (fun kv => String.eqb kv.1 name) table with Some kv => Some kv.2 | None => None end.

Fixpoint applyEnvironment (environ : list string) (c : Config) : result Config :=
  match environ with
  | [] => Ok c
  | entry :: environ =>
      let '(name, value, found) := cut_on "=" entry in
      if negb found || negb (has_prefix name "TPTG_") then applyEnvironment environ c else
      match named env_setters name with
      | None => Err (ErrNew ("unknown environment variable " +:+ name))
      | Some setter =>
          match setter value with
          | Err err => Err (ErrWrap ("invalid " +:+ name) err)
          | Ok a => applyEnvironment environ (assign c a)
          end
      end
  end.

(** ** Flags *)

Definition text_flag (t : text_setting) (v : string) : result assignment := Ok (SetText t v).
(** The flags; a boolean flag needs no value. *)
Definition flags : list (string * (bool * (string -> result assignment))) :=
  [("config", (false, text_flag TConfigFile)); ("mode", (false, text_flag TMode));
   ("http-address", (false, text_flag TAddress)); ("telemetry-mode", (false, text_flag TTelemetryMode));
   ("telemetry-endpoint", (false, text_flag TTelemetryEndpoint)); ("database-url", (false, text_flag TURL));
   ("database-max-connections", (false, parse_int32 IMaxConnections));
   ("database-min-connections", (false, parse_int32 IMinConnections));
   ("database-max-connection-lifetime", (false, parse_duration (IDatabase Lifetime)));
   ("database-max-connection-idle-time", (false, parse_duration (IDatabase IdleTime)));
   ("database-health-check-period", (false, parse_duration (IDatabase HealthCheck)));
   ("database-connect-timeout", (false, parse_duration (IDatabase Connect)));
   ("database-readiness-timeout", (false, parse_duration (IDatabase Readiness)));
   ("database-statement-timeout", (false, parse_duration (IDatabase Statement)));
   ("database-lock-timeout", (false, parse_duration (IDatabase Lock)));
   ("database-idle-transaction-timeout", (false, parse_duration (IDatabase IdleTransaction)));
   ("database-transaction-timeout", (false, parse_duration (IDatabase Transaction)));
   ("database-shutdown-timeout", (false, parse_duration (IDatabase DbShutdown)));
   ("dev-auth", (true, parse_dev_auth))]%string.

(** What an argument is to [FlagSet.parseOne]. *)
Inductive flag_arg := NotFlag | Terminator | BadFlag | Flag (name : string) (value : option string).
Definition flag_name (rest : string) : flag_arg :=
  match rest with
  | EmptyString => BadFlag
  | String c _ =>
      if Ascii.eqb c "-" || Ascii.eqb c "=" then BadFlag
      else let '(name, value, found) := cut_on "=" rest in Flag name (if found then Some value else None)
  end.
Definition classify_arg (arg : string) : flag_arg :=
  match arg with
  | String c (String d rest) =>
      if negb (Ascii.eqb c "-") then NotFlag
      else if Ascii.eqb d "-" then (if String.eqb rest "" then Terminator else flag_name rest)
      else flag_name (String d rest)
  | _ => NotFlag
  end.

(** [FlagSet.Parse]: the configuration and the arguments that are left. *)
Fixpoint parse_flags (args : list string) (c : Config) : result (Config * list string) :=
  match args with
  | [] => Ok (c, [])
  | arg :: rest =>
      match classify_arg arg with
      | NotFlag => Ok (c, args)
      | Terminator => Ok (c, rest)
      | BadFlag => Err (ErrNew "bad flag syntax")
      | Flag name value =>
          match named flags name with
          | None => Err (ErrNew "flag provided but not defined")
          | Some (boolean, setter) =>
              match value, boolean with
              | Some v, _ => setter v ≫= fun a => parse_flags rest (assign c a)
              | None, true => setter "true"%string ≫= fun a => parse_flags rest (assign c a)
              | None, false =>
                  match rest with
                  | [] => Err (ErrNew "flag needs an argument")
                  | v :: rest' => setter v ≫= fun a => parse_flags rest' (assign c a)
                  end
              end
          end
      end
  end.

Definition applyFlags (args : list string) (c : Config) : result Config :=
  match parse_flags args c with
  | Err err => Err (ErrWrap "parse flags" err)
  | Ok (c, []) => Ok c
  | Ok (_, _) => Err (ErrNew "unexpected arguments")
  end.

(** [configFileArg]: the first argument that looks like the flag. *)
Fixpoint configFileArg (args : list string) : result string :=
  match args with
  | [] => Ok EmptyString
  | arg :: rest =>
      if String.eqb arg "--config" || String.eqb arg "-config" then
        match rest with v :: _ => Ok v | [] => Err (ErrNew "flag --config requires a value") end
      else if has_prefix arg "--config=" || has_prefix arg "-config=" then
        let '(_, value, _) := cut_on "=" arg in Ok value
      else configFileArg rest
  end.

(** ** Validation *)

Definition http_durations : list http_duration := [ReadHeader; Read; Write; Idle; Shutdown].
Definition database_durations : list db_duration :=
  [Lifetime; IdleTime; HealthCheck; Connect; Readiness; Statement; Lock; IdleTransaction; Transaction; DbShutdown].

Definition Validate (c : Config) : result unit :=
  let h := cfg_HTTP c in
  let d := cfg_Database c in
  if negb (String.eqb (cfg_Mode c) ModeDevelopment) && negb (String.eqb (cfg_Mode c) ModeProduction) then
    Err (ErrNew "invalid mode")
  else if String.eqb (TrimSpace (http_Address h)) "" then Err (ErrNew "http address is required")
  else if existsb (fun f => http_int f h <=? 0) http_durations then Err (ErrNew "http timeout must be positive")
  else if (http_MaxHeaderBytes h <? 1024) || (http_MaxBodyBytes h <? 1) || (2 ^ 20 <? http_MaxBodyBytes h)
          || (30 * Second <? http_WriteTimeout h) then Err (ErrNew "http limits must be positive and bounded")
  else if negb (one_of_str (tel_Mode (cfg_Telemetry c)) ["noop"; "local"; "otlp"]) then
    Err (ErrNew "invalid telemetry mode")
  else if String.eqb (tel_Mode (cfg_Telemetry c)) "otlp"
          && String.eqb (TrimSpace (tel_Endpoint (cfg_Telemetry c))) "" then
    Err (ErrNew "OTLP telemetry requires an endpoint")
  else if String.eqb (cfg_Mode c) ModeProduction && cfg_DevAuth c then
    Err (ErrNew "development authentication is forbidden in production")
  else if (db_MinConnections d <? 0) || (db_MaxConnections d <? 1) || (db_MaxConnections d <? db_MinConnections d) then
    Err (ErrNew "database connection limits are invalid")
  else if existsb (fun f => database_int f d <=? 0) database_durations then
    Err (ErrNew "database timeout must be positive")
  else if String.eqb (cfg_Mode c) ModeProduction && String.eqb (TrimSpace (db_URL d)) "" then
    Err (ErrNew "database URL is required in production")
  else Ok tt.

(** [Load] *)
Definition Load (files : string -> result string) (args environ : list string) : result Config :=
  configFileArg args ≫= fun fileName =>
  (if String.eqb fileName "" then Ok Default
   else applyFile (files fileName) Default ≫= fun c => Ok (assign c (SetText TConfigFile fileName))) ≫= fun c =>
  applyEnvironment environ c ≫= fun c =>
  applyFlags args c ≫= fun c =>
  Validate c ≫= fun _ => Ok c.

(** [Config.String] *)
Definition Config_String (c : Config) : string :=
  "mode=" +:+ cfg_Mode c +:+ " http_address=" +:+ http_Address (cfg_HTTP c) +:+ " telemetry_mode="
  +:+ tel_Mode (cfg_Telemetry c) +:+ " telemetry_endpoint=" +:+ tel_Endpoint (cfg_Telemetry c) +:+ " database_url="
  +:+ (if String.eqb (db_URL (cfg_Database c)) "" then "unset" else "[REDACTED]")
  +:+ " dev_auth=" +:+ (if cfg_DevAuth c then "true" else "false").

(** ** The pool *)

Record PoolConfig := mkPoolConfig {
  pc_URL : string; pc_MaxConnections : Z; pc_MinConnections : Z;
  pc_MaxConnectionLifetime : Z; pc_MaxConnectionIdleTime : Z; pc_HealthCheckPeriod : Z; pc_ConnectTimeout : Z;
  pc_ReadinessTimeout : Z; pc_StatementTimeout : Z; pc_LockTimeout : Z; pc_IdleTransactionTimeout : Z;
  pc_TransactionTimeout : Z; pc_ShutdownTimeout : Z;
}.

(** The pool settings [run] makes of a configuration. *)
Definition pool_config (d : Database) : PoolConfig :=
  mkPoolConfig (db_URL d) (db_MaxConnections d) (db_MinConnections d) (db_MaxConnectionLifetime d)
    (db_MaxConnectionIdleTime d) (db_HealthCheckPeriod d) (db_ConnectTimeout d) (db_ReadinessTimeout d)
    (db_StatementTimeout d) (db_LockTimeout d) (db_IdleTransactionTimeout d) (db_TransactionTimeout d)
    (db_ShutdownTimeout d).

Definition validatePoolConfig (p : PoolConfig) : result unit :=
  if String.eqb (TrimSpace (pc_URL p)) "" then Err (ErrNew "PostgreSQL URL is required")
  else if (pc_MinConnections p <? 0) || (pc_MaxConnections p <? 1) || (pc_MaxConnections p <? pc_MinConnections p) then
    Err (ErrNew "PostgreSQL connection limits are invalid")
  else if existsb (fun v => v <=? 0)
            [pc_MaxConnectionLifetime p; pc_MaxConnectionIdleTime p; pc_HealthCheckPeriod p; pc_ConnectTimeout p;
             pc_ReadinessTimeout p; pc_StatementTimeout p; pc_LockTimeout p; pc_IdleTransactionTimeout p;
             pc_TransactionTimeout p; pc_ShutdownTimeout p] then
    Err (ErrNew "PostgreSQL timeout must be positive")
  else Ok tt.

(** [milliseconds], and the session parameters [Open] sets with it. *)
Definition milliseconds (value : Z) : string := json_int (Z.quot value Millisecond).
Definition runtime_params (p : PoolConfig) : list (string * string) :=
  [("statement_timeout", milliseconds (pc_StatementTimeout p)); ("lock_timeout", milliseconds (pc_LockTimeout p));
   ("idle_in_transaction_session_timeout", milliseconds (pc_IdleTransactionTimeout p))]%string.

(** [NewTransactorWithTimeout], on the timeouts of the pool *)
Definition NewTransactorWithTimeout (timeout rollbackTimeout : Z) : result unit :=
  if (timeout <=? 0) || (rollbackTimeout <=? 0) then Err (ErrNew "postgres transaction timeouts must be positive")
  else Ok tt.

(** [queryOperation] *)
Definition queryOperation (sql : string) : string :=
  match Fields sql with
  | [] => "other"
  | field :: _ =>
      let operation := ToLower field in
      if one_of_str operation ["select"; "insert"; "update"; "delete"; "begin"; "commit"; "rollback"] then operation
      else "other"
  end.

(** ** What each source assigns *)

Definition env_assignment (entry : string) : option assignment :=
  let '(name, value, found) := cut_on "=" entry in
  if negb found || negb (has_prefix name "TPTG_") then None
  else match named env_setters name with
       | Some setter => match setter value with Ok a => Some a | Err _ => None end
       | None => None
       end.

Fixpoint flag_assignments (args : list string) : list assignment :=
  match args with
  | [] => []
  | arg :: rest =>
      match classify_arg arg with
      | Flag name value =>
          match named flags name with
          | None => []
          | Some (boolean, setter) =>
              let use v tail := match setter v with Ok a => a :: tail | Err _ => tail end in
              match value, boolean with
              | Some v, _ => use v (flag_assignments rest)
              | None, true => use "true"%string (flag_assignments rest)
              | None, false => match rest with [] => [] | v :: rest' => use v (flag_assignments rest') end
              end
          end
      | _ => []
      end
  end.

Definition opt_assignment {A} (make : A -> assignment) (v : option A) : list assignment :=
  match v with Some v => [make v] | None => [] end.
Definition duration_assignments {F} (make : F -> int_setting) (values : string -> option string)
    (names : list (string * F)) : list assignment :=
  omap (fun nf => values nf.1 ≫= fun v => SetInt (make nf.2) <$> ParseDuration v) names.
Definition file_assignments (f : fileConfig) : list assignment :=
  opt_assignment (SetText TMode) (fc_Mode f) ++ opt_assignment SetDevAuth (fc_DevAuth f)
  ++ match fc_HTTP f with
     | Some h => opt_assignment (SetText TAddress) (fh_Address h) ++ opt_assignment (SetInt IMaxHeaderBytes) (fh_MaxHeaderBytes h)
                 ++ opt_assignment (SetInt IMaxBodyBytes) (fh_MaxBodyBytes h)
                 ++ duration_assignments IHttp (fh_Durations h) http_names
     | None => []
     end
  ++ match fc_Telemetry f with
     | Some t => opt_assignment (SetText TTelemetryMode) (ft_Mode t) ++ opt_assignment (SetText TTelemetryEndpoint) (ft_Endpoint t)
     | None => []
     end
  ++ match fc_Database f with
     | Some d => opt_assignment (SetText TURL) (fd_URL d) ++ opt_assignment (SetInt IMaxConnections) (fd_MaxConnections d)
                 ++ opt_assignment (SetInt IMinConnections) (fd_MinConnections d)
                 ++ duration_assignments IDatabase (fd_Durations d) database_names
     | None => []
     end.

(** The last assignment of a setting. *)
Definition last_text (t : text_setting) (l : list assignment) : option string :=
  foldl (fun acc a => match a with SetText t' v => if decide (t = t') then Some v else acc | _ => acc end) None l.
Definition last_int (i : int_setting) (l : list assignment) : option Z :=
  foldl (fun acc a => match a with SetInt i' v => if decide (i = i') then Some v else acc | _ => acc end) None l.
Definition last_dev_auth (l : list assignment) : option bool :=
  foldl (fun acc a => match a with SetDevAuth v => Some v | _ => acc end) None l.

(** ** Lemmas *)

Lemma applyEnvironment_assigns environ c c' :
  applyEnvironment environ c = Ok c' -> c' = foldl assign c (omap env_assignment environ).
Proof.
  revert c. induction environ as [|e environ IH]; intros c; cbn [applyEnvironment]; [by intros [= <-]|].
  cbn [omap list_omap]. unfold env_assignment at 1. destruct (cut_on "=" e) as [[name value] found].
  destruct (_ || _); [apply IH|]. destruct (named env_setters name) as [setter|]; [|done].
  destruct (setter value) as [a|]; [|done]. apply IH.
Qed.

Lemma parse_flags_assigns args c c' rest :
  parse_flags args c = Ok (c', rest) -> c' = foldl assign c (flag_assignments args).
Proof.
  remember (length args) as n eqn:Hn. revert args Hn c. induction (lt_wf n) as [n _ IH]. intros args Hn c.
  destruct args as [|arg args]; cbn [parse_flags flag_assignments]; [by intros [= <- _]|].
  destruct (classify_arg arg) as [| | |name value]; try (by intros [= <- _]).
  destruct (named flags name) as [[boolean setter]|]; [|done]. cbn [length] in Hn.
  destruct value as [v|]; [|destruct boolean; [|destruct args as [|v args]; [done|]]].
  all: destruct (setter _) as [a|]; [|done]; cbn [mbind result_bind]; intros H;
    eapply IH in H; [exact H| |reflexivity]; simpl in *; lia.
Qed.

Lemma assign_opt_assigns {A} (make : A -> assignment) v c : assign_opt make v c = foldl assign c (opt_assignment make v).
Proof. by destruct v. Qed.

Lemma apply_durations_assigns {F} section (make : F -> int_setting) values names c c' :
  apply_durations section make values names c = Ok c' -> c' = foldl assign c (duration_assignments make values names).
Proof.
  revert c. unfold duration_assignments. induction names as [|[name f] names IH]; intros c; cbn [apply_durations];
    [by intros [= <-]|].
  cbn [omap list_omap fst snd]. destruct (values name) as [v|]; cbn [mbind option_bind]; [|apply IH].
  unfold parse_duration. destruct (ParseDuration v); [|done]. cbn [fmap option_fmap option_map]. apply IH.
Qed.

Lemma file_apply_assigns f c c' : file_apply f c = Ok c' -> c' = foldl assign c (file_assignments f).
Proof.
  unfold file_apply, file_assignments. rewrite !foldl_app, <- !assign_opt_assigns. cbv zeta.
  set (c1 := assign_opt SetDevAuth _ _).
  destruct (match fc_HTTP f with Some h => apply_http h c1 | None => Ok c1 end) as [c2|] eqn:E1; [|done].
  cbn [mbind result_bind].
  assert (E2 : c2 = foldl assign c1 match fc_HTTP f with
     | Some h => opt_assignment (SetText TAddress) (fh_Address h) ++ opt_assignment (SetInt IMaxHeaderBytes) (fh_MaxHeaderBytes h)
                 ++ opt_assignment (SetInt IMaxBodyBytes) (fh_MaxBodyBytes h)
                 ++ duration_assignments IHttp (fh_Durations h) http_names
     | None => []
     end).
  { destruct (fc_HTTP f) as [h|]; [|by injection E1]. apply apply_durations_assigns in E1.
    by rewrite !foldl_app, <- !assign_opt_assigns. }
  rewrite <- E2. set (c3 := match fc_Telemetry f with Some t => _ | None => _ end).
  assert (E3 : c3 = foldl assign c2 match fc_Telemetry f with
     | Some t => opt_assignment (SetText TTelemetryMode) (ft_Mode t) ++ opt_assignment (SetText TTelemetryEndpoint) (ft_Endpoint t)
     | None => []
     end).
  { unfold c3. destruct (fc_Telemetry f) as [t|]; [|done]. by rewrite foldl_app, <- !assign_opt_assigns. }
  rewrite <- E3. destruct (fc_Database f) as [d|]; [|by intros [= <-]].
  intros H%apply_durations_assigns. by rewrite !foldl_app, <- !assign_opt_assigns.
Qed.

Lemma text_of_assign t c a :
  text_of t (assign c a) = match a with SetText t' v => if decide (t = t') then v else text_of t c | _ => text_of t c end.
Proof. destruct c as [m [] [] [] d f], a as [t' v|[[]| | | | |[]] v|v], t; try destruct t'; reflexivity. Qed.

Lemma int_of_assign i c a :
  int_of i (assign c a) = match a with SetInt i' v => if decide (i = i') then v else int_of i c | _ => int_of i c end.
Proof.
  destruct c as [m [] [] [] d f], a as [t v|i' v|v].
  - by destruct t, i as [[]| | | | |[]].
  - destruct i as [[]| | | | |[]], i' as [[]| | | | |[]]; reflexivity.
  - by destruct i as [[]| | | | |[]].
Qed.

Lemma dev_auth_assign c a : cfg_DevAuth (assign c a) = match a with SetDevAuth v => v | _ => cfg_DevAuth c end.
Proof. destruct c as [m [] [] [] d f], a as [[] v| |]; reflexivity. Qed.

Lemma foldl_step_ext {A B} (f g : A -> B -> A) l acc : (forall a b, f a b = g a b) -> foldl f acc l = foldl g acc l.
Proof. intros H. revert acc. induction l as [|b l IH]; intros acc; [done|]. simpl. by rewrite H, IH. Qed.

(** Folding assignments leaves the last value of every setting. *)
Section Last.
Context {V : Type} (get : Config -> V) (pick : assignment -> option V).
Context (Hassign : forall c a, get (assign c a) = default (get c) (pick a)).

Lemma get_foldl l c :
  get (foldl assign c l) = default (get c) (foldl (fun acc a => match pick a with Some v => Some v | None => acc end) None l).
Proof.
  rewrite <- (rev_involutive l). induction (rev l) as [|a l' IH]; [done|]. simpl. rewrite !foldl_snoc, Hassign.
  destruct (pick a); [done|]. exact IH.
Qed.
End Last.

Lemma last_text_spec t l c : text_of t (foldl assign c l) = default (text_of t c) (last_text t l).
Proof.
  rewrite (get_foldl (text_of t) (fun a => match a with SetText t' v => if decide (t = t') then Some v else None | _ => None end)).
  - f_equal. apply foldl_step_ext. intros acc a. destruct a; try destruct (decide _); reflexivity.
  - intros c' a. rewrite text_of_assign. destruct a; try destruct (decide _); reflexivity.
Qed.

Lemma last_int_spec i l c : int_of i (foldl assign c l) = default (int_of i c) (last_int i l).
Proof.
  rewrite (get_foldl (int_of i) (fun a => match a with SetInt i' v => if decide (i = i') then Some v else None | _ => None end)).
  - f_equal. apply foldl_step_ext. intros acc a. destruct a; try destruct (decide _); reflexivity.
  - intros c' a. rewrite int_of_assign. destruct a; try destruct (decide _); reflexivity.
Qed.

Lemma last_dev_auth_spec l c : cfg_DevAuth (foldl assign c l) = default (cfg_DevAuth c) (last_dev_auth l).
Proof.
  rewrite (get_foldl cfg_DevAuth (fun a => match a with SetDevAuth v => Some v | _ => None end)).
  - f_equal. apply foldl_step_ext. intros acc a. destruct a; try destruct (decide _); reflexivity.
  - intros c' a. rewrite dev_auth_assign. by destruct a.
Qed.

(** The assignments of the file a command line names. *)
Definition named_file_assignments (files : string -> result string) (fileName : string) : list assignment :=
  if String.eqb fileName "" then []
  else match files fileName with
       | Ok text =>
           match decode_document ["mode"; "http"; "telemetry"; "database"; "dev_auth"]%string true set_file zero_file
                   (if slen text <=? 2 ^ 20 then text else String.substring 0 (Z.to_nat (2 ^ 20)) text) with
           | Some f => file_assignments f
           | None => []
           end
       | Err _ => []
       end ++ [SetText TConfigFile fileName].

Lemma Load_assigns files args environ c : Load files args environ = Ok c ->
  exists fileName, configFileArg args = Ok fileName /\
    c = foldl assign Default (named_file_assignments files fileName ++ omap env_assignment environ ++ flag_assignments args) /\
    Validate c = Ok tt.
Proof.
  unfold Load. destruct (configFileArg args) as [fileName|]; [|done]. cbn [mbind result_bind].
  destruct (if String.eqb fileName "" then Ok Default else _) as [c1|] eqn:E1; [|done]. cbn [mbind result_bind].
  assert (H1 : c1 = foldl assign Default (named_file_assignments files fileName)).
  { revert E1. unfold named_file_assignments, applyFile. destruct (String.eqb fileName ""); [by intros [= <-]|].
    destruct (files fileName) as [text|]; [|done]. destruct (decode_document _ _ _ _ _) as [f|]; [|done].
    destruct (file_apply f Default) as [c0|] eqn:E0; [|done]. cbn [mbind result_bind]. intros [= <-].
    rewrite foldl_app. by apply file_apply_assigns in E0 as <-. }
  destruct (applyEnvironment environ c1) as [c2|] eqn:E2; [|done]. cbn [mbind result_bind].
  apply applyEnvironment_assigns in E2.
  destruct (applyFlags args c2) as [c3|] eqn:E3; [|done]. cbn [mbind result_bind].
  assert (H3 : c3 = foldl assign c2 (flag_assignments args)).
  { revert E3. unfold applyFlags. destruct (parse_flags args c2) as [[c' [|]]|] eqn:Ep; [|done|done]. intros [= <-].
    by apply parse_flags_assigns in Ep. }
  destruct (Validate c3) as [[]|] eqn:Ev; [|done]. intros [= <-].
  exists fileName. split_and!; [done| |done]. by rewrite !foldl_app, <- H1, <- E2.
Qed.

(** ** Properties *)

(** Settings come from the last source that names them.  The value of every
    setting of a loaded configuration is the last one assigned to it in the file the
    command line names, then the environment, then the flags, each read in its order,
    and its default when none of them assigns it; no source touches a setting it does
    not name. *)
Theorem configuration_last_wins (files : string -> result string) (args environ : list string) (c : Config)
    (Hload : Load files args environ = Ok c) :
  exists fileName, configFileArg args = Ok fileName /\
    let l := named_file_assignments files fileName ++ omap env_assignment environ ++ flag_assignments args in
    (forall t, text_of t c = default (text_of t Default) (last_text t l)) /\
    (forall i, int_of i c = default (int_of i Default) (last_int i l)) /\
    cfg_DevAuth c = default (cfg_DevAuth Default) (last_dev_auth l).
Proof.
  destruct (Load_assigns _ _ _ _ Hload) as (fileName & Hf & -> & _). exists fileName. split; [done|]. cbv zeta.
  split_and!; intros; [apply last_text_spec|apply last_int_spec|apply last_dev_auth_spec].
Qed.

(** What [Validate] accepts, the components accept. *)
Lemma validated_accepted c : Validate c = Ok tt ->
  validateHTTPConfig (cfg_HTTP c) = Ok tt /\
  (TrimSpace (db_URL (cfg_Database c)) <> EmptyString -> validatePoolConfig (pool_config (cfg_Database c)) = Ok tt) /\
  NewTransactorWithTimeout (pc_TransactionTimeout (pool_config (cfg_Database c)))
    (pc_ShutdownTimeout (pool_config (cfg_Database c))) = Ok tt /\
  (cfg_Mode c = ModeProduction ->
     cfg_DevAuth c = false /\ TrimSpace (db_URL (cfg_Database c)) <> EmptyString) /\
  (cfg_Mode c = ModeProduction \/ cfg_Mode c = ModeDevelopment) /\
  one_of_str (tel_Mode (cfg_Telemetry c)) ["noop"; "local"; "otlp"] = true /\
  (tel_Mode (cfg_Telemetry c) = "otlp"%string -> TrimSpace (tel_Endpoint (cfg_Telemetry c)) <> EmptyString).
Proof.
  unfold Validate. cbv zeta.
  destruct (negb _ && negb _) eqn:Em; [done|]. destruct (String.eqb (TrimSpace (http_Address _)) "") eqn:Ea; [done|].
  destruct (existsb _ http_durations) eqn:Eh; [done|].
  destruct ((http_MaxHeaderBytes (cfg_HTTP c) <? 1024) || _ || _ || _) eqn:El; [done|].
  destruct (negb (one_of_str _ _)) eqn:Et; [done|]. destruct (String.eqb _ "otlp" && _) eqn:Eo; [done|].
  destruct (String.eqb _ ModeProduction && cfg_DevAuth c) eqn:Ed; [done|].
  destruct ((db_MinConnections (cfg_Database c) <? 0) || _ || _) eqn:Ec; [done|].
  destruct (existsb _ database_durations) eqn:Edb; [done|].
  destruct (String.eqb _ ModeProduction && String.eqb _ "") eqn:Eu; [done|]. intros _.
  destruct c as [mode [ad rh r w id sd mh mb] te [u mx mn lt it hc ct rt st lk ix tx sh] da f].
  cbn [cfg_Mode cfg_HTTP cfg_Telemetry cfg_Database cfg_DevAuth http_Address http_int http_ReadHeaderTimeout http_ReadTimeout
    http_WriteTimeout http_IdleTimeout http_ShutdownTimeout http_MaxHeaderBytes http_MaxBodyBytes db_URL db_MaxConnections
    db_MinConnections database_int existsb http_durations database_durations] in *.
  assert (Hpool : TrimSpace u <> EmptyString ->
    validatePoolConfig (pool_config (mkDatabase u mx mn lt it hc ct rt st lk ix tx sh)) = Ok tt).
  { intros Hu. unfold validatePoolConfig, pool_config.
    cbn [pc_URL pc_MaxConnections pc_MinConnections existsb db_URL db_MaxConnections db_MinConnections].
    rewrite (proj2 (String.eqb_neq _ _) Hu), Ec. exact (f_equal (fun b : bool => if b then _ else _) Edb). }
  split_and!.
  - unfold validateHTTPConfig, maxPublicRequestDuration, maxPublicRequestBytes. change (Z.shiftl 1 20) with (2 ^ 20).
    cbn [http_Address http_ReadHeaderTimeout http_ReadTimeout http_WriteTimeout http_IdleTimeout http_ShutdownTimeout
      http_MaxHeaderBytes http_MaxBodyBytes] in *. rewrite !orb_false_iff in *.
    destruct Eh as (-> & -> & -> & -> & -> & _), El as [[[-> ->] ->] ->]. by rewrite Ea.
  - exact Hpool.
  - unfold NewTransactorWithTimeout. cbn in Edb |- *. rewrite !orb_false_iff in Edb.
    destruct Edb as (_ & _ & _ & _ & _ & _ & _ & _ & -> & -> & _). done.
  - intros ->. cbn in Ed, Eu. split; [done|]. by apply String.eqb_neq.
  - apply andb_false_iff in Em. rewrite !negb_false_iff, !String.eqb_eq in Em. tauto.
  - by apply negb_false_iff in Et.
  - intros Hm. rewrite Hm in Eo. cbn in Eo. by apply String.eqb_neq.
Qed.

(** What the loader accepts, the components accept.  A loaded configuration is
    accepted by the HTTP server, and, whenever it names a database, by the pool and by
    the transactions of the pool; its limits are those the server enforces; and a
    production configuration names a database and never enables development
    authentication. *)
Theorem loaded_config_accepted (files : string -> result string) (args environ : list string) (c : Config)
    (Hload : Load files args environ = Ok c) :
  validateHTTPConfig (cfg_HTTP c) = Ok tt /\
  (TrimSpace (db_URL (cfg_Database c)) <> EmptyString -> validatePoolConfig (pool_config (cfg_Database c)) = Ok tt) /\
  NewTransactorWithTimeout (pc_TransactionTimeout (pool_config (cfg_Database c)))
    (pc_ShutdownTimeout (pool_config (cfg_Database c))) = Ok tt /\
  (cfg_Mode c = ModeProduction ->
     cfg_DevAuth c = false /\ validatePoolConfig (pool_config (cfg_Database c)) = Ok tt) /\
  (cfg_Mode c = ModeProduction \/ cfg_Mode c = ModeDevelopment).
Proof.
  destruct (Load_assigns _ _ _ _ Hload) as (_ & _ & _ & Hv).
  destruct (validated_accepted c Hv) as (? & Hpool & ? & Hprod & ? & _). split_and!; try done.
  intros [? ?]%Hprod. auto.
Qed.

(** The text of a configuration does not depend on the database URL it hides. *)
Lemma config_text_redacts c u v : u <> EmptyString -> v <> EmptyString ->
  Config_String (assign c (SetText TURL u)) = Config_String (assign c (SetText TURL v)).
Proof. destruct c as [m [] [] [] d f]. destruct u, v; done. Qed.

(** ** Witnesses and examples *)

Definition ex_file : string :=
  quoted "{'mode':'production','http':{'address':':9000','write_timeout':'20s'},'database':{'url':'postgres://file'}}".
Definition ex_files (name : string) : result string :=
  if String.eqb name "a.json" then Ok ex_file else Err (ErrNew "file does not exist").
Definition ex_args : list string := ["--config"; "a.json"; "-http-address=:9001"; "--dev-auth=false"]%string.
Definition ex_environ : list string :=
  ["HOME=/root"; "TPTG_DATABASE_URL=postgres://env"; "TPTG_HTTP_ADDRESS=:9002"; "TPTG_DATABASE_STATEMENT_TIMEOUT=500us"]%string.
Definition ex_config : Config := Eval vm_compute in default Default (match Load ex_files ex_args ex_environ with Ok c => Some c | _ => None end).

Lemma configuration_last_wins_witness :
  Load ex_files ex_args ex_environ = Ok ex_config /\ text_of TAddress ex_config = ":9001"%string /\
  text_of TURL ex_config = "postgres://env"%string /\ int_of (IHttp Write) ex_config = 20 * Second /\
  exists fileName, configFileArg ex_args = Ok fileName /\
    text_of TMode ex_config = default (text_of TMode Default)
      (last_text TMode (named_file_assignments ex_files fileName ++ omap env_assignment ex_environ ++ flag_assignments ex_args)).
Proof.
  assert (H : Load ex_files ex_args ex_environ = Ok ex_config) by (vm_compute; reflexivity).
  split_and!; [exact H|reflexivity..|].
  destruct (configuration_last_wins ex_files ex_args ex_environ ex_config H) as (fileName & Hf & Ht & _).
  exists fileName. split; [exact Hf|apply Ht].
Defined.

Lemma loaded_config_accepted_witness :
  Load ex_files ex_args ex_environ = Ok ex_config /\ cfg_Mode ex_config = ModeProduction /\
  validatePoolConfig (pool_config (cfg_Database ex_config)) = Ok tt.
Proof.
  assert (H : Load ex_files ex_args ex_environ = Ok ex_config) by (vm_compute; reflexivity).
  split_and!; [exact H|reflexivity|].
  apply (loaded_config_accepted ex_files ex_args ex_environ ex_config H). reflexivity.
Defined.

(** A positive timeout below a millisecond becomes the session parameter zero, which
    PostgreSQL takes as no timeout at all. *)
Example short_timeout_disabled :
  db_StatementTimeout (cfg_Database ex_config) = 500000 /\
  runtime_params (pool_config (cfg_Database ex_config)) =
    [("statement_timeout", "0"); ("lock_timeout", "2000"); ("idle_in_transaction_session_timeout", "15000")]%string.
Proof. vm_compute. split; reflexivity. Qed.

(** With the flag given twice the first file is read and the second one is reported;
    an argument of another flag is taken for the flag as well. *)
Example repeated_config_flag :
  cfg_ConfigFile <$> Load ex_files ["--config"; "a.json"; "--config"; "b.json"]%string [] = Ok "b.json"%string /\
  http_Address <$> (cfg_HTTP <$> Load ex_files ["--http-address"; "--config=a.json"]%string []) = Ok "--config=a.json"%string.
Proof. vm_compute. split; reflexivity. Qed.
