(* ===== verification/Providers.v ===== *)
(** * What a credential provider promises to the cache

    [ports.CredentialProvider] as a class: an operation and what its result owes the
    binding it was resolved for.  The theorems about the provider cache are proved for
    every instance; [KubernetesProvider] and [DevelopmentProvider] are the instances of
    the repository.  The file also holds what both use of [path/filepath]. *)
From Stdlib Require Import Ascii String.
From S2P Require Import Prelude GoStd Regex Json Primitives ToolCatalog GoText Ports CredentialBinding CredentialCache.

(** ** File paths *)

(** [filepath.IsAbs] on Unix *)
Definition IsAbs (path : string) : bool := has_prefix path "/".

(** One element of the path on the stack of kept elements, the last one first. *)
Definition clean_step (rooted : bool) (kept : list string) (element : string) : list string :=
  if String.eqb element "" || String.eqb element "." then kept
  else if String.eqb element ".." then
    match kept with
    | top :: rest => if String.eqb top ".." then element :: kept else rest
    | [] => if rooted then [] else [element]
    end
  else element :: kept.

(** [filepath.Clean] on Unix *)
Definition Clean (path : string) : string :=
  if String.eqb path "" then "."%string else
  let rooted := IsAbs path in
  let text := join "/" (rev (foldl (clean_step rooted) [] (split_on "/" path))) in
  if rooted then "/" +:+ text else if String.eqb text "" then "."%string else text.

(** ** The interface *)

(** One call of [Resolve]: whether the caller's context is cancelled, and the two
    readings of the clock it makes, its own and that of the new capability. *)
Record resolution := mkResolution { res_cancelled : bool; res_now : Z; res_end : Z }.

(** The capability is a new one that belongs to the binding, lives when it is handed
    over, and not longer than the binding allows. *)
Definition honours (d : CredentialBindingDefinition) (call : resolution) (c : Capability) : Prop :=
  NewCapability (metadata c) (secret c) (res_end call) = Ok c /\ released c = false /\ md_Kind (metadata c) = Capability_kind (Provider d) /\
  md_ProviderRef (metadata c) = ProviderRef (Provider d) /\
  md_RevocationEpoch (metadata c) = bind_RevocationEpoch d /\
  md_Audiences (metadata c) = Audiences (Provider d) /\ md_Resources (metadata c) = prov_Resources (Provider d) /\
  md_Scopes (metadata c) = Scopes (Provider d) /\ res_end call < md_ExpiresAt (metadata c) /\
  (0 < MaximumTTL (Cache d) -> md_ExpiresAt (metadata c) <= res_now call + MaximumTTL (Cache d)).

Class CredentialProvider (P : Type) := {
  provider_Resolve : P -> resolution -> CredentialBinding -> CredentialProviderContext -> result Capability;
  provider_honours : forall p call binding governed c,
    provider_Resolve p call binding governed = Ok c -> honours (Definition_ binding) call c;
}.

(** ** Lemmas *)

(** No element of a cleaned absolute path leads elsewhere. *)
Definition plain_element (s : string) : Prop := s <> EmptyString /\ s <> "."%string /\ s <> ".."%string.

Lemma clean_step_plain kept element : Forall plain_element kept -> Forall plain_element (clean_step true kept element).
Proof.
  unfold clean_step. intros H. destruct (_ || _) eqn:E; [done|]. rewrite orb_false_iff, !String.eqb_neq in E.
  destruct (String.eqb_spec element "..") as [->|Hne].
  - destruct H as [|top rest Ht Hr]; [done|]. destruct Ht as (? & ? & ?). by rewrite (proj2 (String.eqb_neq _ _)).
  - constructor; [|done]. unfold plain_element. tauto.
Qed.

Lemma clean_elements_plain elements : Forall plain_element (foldl (clean_step true) [] elements).
Proof.
  assert (H : forall kept, Forall plain_element kept -> Forall plain_element (foldl (clean_step true) kept elements)).
  { induction elements as [|e l IH]; intros kept Hk; [done|]. by apply IH, clean_step_plain. }
  by apply H.
Qed.

(** A path that is absolute and clean names its file from the root, without [..]. *)
Lemma clean_absolute path : IsAbs path = true -> Clean path = path ->
  exists elements, path = "/" +:+ join "/" elements /\ Forall plain_element elements.
Proof.
  intros Ha Hc. unfold Clean in Hc. destruct (String.eqb_spec path "") as [->|_]; [done|]. rewrite Ha in Hc.
  eexists. split; [symmetry; exact Hc|]. apply Forall_rev, clean_elements_plain.
Qed.

Lemma new_capability_ok md material now c : NewCapability md material now = Ok c ->
  metadata c = md /\ secret c = material /\ released c = false /\ 0 < slen material <= Z.shiftl 64 10 /\
  now < md_ExpiresAt md /\ md_IssuedAt md < md_ExpiresAt md.
Proof.
  unfold NewCapability. destruct (_ || _) eqn:E; [done|]. destruct (validateMetadata md now) as [[]|] eqn:Ev; [|done].
  intros [= <-]. rewrite orb_false_iff, Z.eqb_neq, Z.ltb_ge in E. cbn [metadata secret released].
  revert Ev. unfold validateMetadata. destruct (_ && _); [done|]. destruct (_ || _) eqn:El; [done|]. intros _.
  rewrite !orb_false_iff, !negb_false_iff, !Z.ltb_lt in El. unfold slen in *. split_and!; try done; lia || tauto.
Qed.

(** Metadata that was valid stays valid until the capability expires. *)
Lemma validateMetadata_later md now later : validateMetadata md now = Ok tt -> later < md_ExpiresAt md ->
  validateMetadata md later = Ok tt.
Proof.
  intros Hv Hl. rewrite <- Hv. unfold validateMetadata in *. destruct (_ && _); [done|].
  assert (E : now < md_ExpiresAt md).
  { destruct (_ || _) eqn:E in Hv; [done|]. rewrite !orb_false_iff, !negb_false_iff, !Z.ltb_lt in E. tauto. }
  by rewrite (proj2 (Z.ltb_lt _ _) E), (proj2 (Z.ltb_lt _ _) Hl).
Qed.

Lemma clone_new c now later : NewCapability (metadata c) (secret c) now = Ok c -> later < md_ExpiresAt (metadata c) ->
  cloneCapability (Some c) later = Ok c.
Proof.
  intros Hn Hl. destruct (new_capability_ok _ _ _ _ Hn) as (_ & _ & Hrel & _). unfold cloneCapability, UseSecret.
  rewrite Hrel, (proj2 (Z.ltb_lt _ _) Hl). cbn [negb]. revert Hn. unfold NewCapability.
  destruct ((slen (secret c) =? 0) || _); [done|]. destruct (validateMetadata (metadata c) now) as [[]|] eqn:Ev; [|done].
  by rewrite (validateMetadata_later _ _ _ Ev Hl).
Qed.

(** What the caller gets at the end, whatever happened in between: a live copy of what
    was stored, or an error; the cache stays in a reachable state. *)
Lemma resolve_return_sound config st key location now : reachable config st ->
  let '(st', r) := resolve_return st key location now in
  reachable config st' /\
  forall c, r = Ok c -> st' = st /\ released c = false /\ now < md_ExpiresAt (metadata c) /\
    exists stored, heap st !! location = Some stored /\ metadata c = metadata stored /\ secret c = secret stored.
Proof.
  intros Hr. unfold resolve_return. destruct (cloneCapability _ now) as [c|] eqn:E.
  - split; [done|]. intros c' [= <-]. revert E. unfold cloneCapability, UseSecret.
    destruct (heap st !! location) as [stored|]; [|done]. destruct (released stored); [done|].
    destruct (now <? md_ExpiresAt (metadata stored)) eqn:El; [|done]. cbn [negb].
    destruct (NewCapability _ _ _) as [clone|] eqn:En; [|done]. intros [= <-].
    destruct (new_capability_ok _ _ _ _ En) as (Hm & Hs & Hrel & _ & Hlt & _). rewrite Hm, Hs. eauto 10.
  - split; [|done]. eapply reach_step; [done|apply step_remove].
Qed.

(** ** A load through the cache *)

(** What the cache subtracts from the lifetime of a capability. *)
Definition cache_skew (config : CacheConfig) (d : CredentialBindingDefinition) : Z :=
  if cfg_ExpirySkew config <? ExpirySkew (Cache d) then ExpirySkew (Cache d) else cfg_ExpirySkew config.

Lemma prepare_honoured c0 config d governed call now location c :
  NewProviderCache c0 = Ok config -> honours d call c ->
  (now + cache_skew config d < md_ExpiresAt (metadata c) ->
     is_ok (prepareEntry config (Some c) None d governed now location) = true) /\
  (md_ExpiresAt (metadata c) <= now + cache_skew config d ->
     prepareEntry config (Some c) None d governed now location
     = Err (ErrNew "credential provider capability cannot be cached safely")).
Proof.
  intros (_ & Hskew)%new_cache_ok (_ & _ & Hk & Hp & Hr & Ha & Hs & Hsc & _). unfold prepareEntry, cache_skew.
  rewrite Hk, Hp, Hr, Ha, Hs, Hsc, !String.eqb_refl, !bool_decide_true by done. cbn [negb orb].
  set (ttl := if _ : bool then MaximumTTL _ else _). set (skew := if _ : bool then ExpirySkew _ else _).
  assert (0 < ttl).
  { subst ttl. destruct ((0 <? MaximumTTL (Cache d)) && _) eqn:E; [|lia]. apply andb_true_iff in E as [E _]. lia. }
  destruct (now + ttl <? md_ExpiresAt (metadata c) - skew) eqn:E1; [apply Z.ltb_lt in E1|apply Z.ltb_ge in E1].
  - rewrite (proj2 (Z.ltb_lt now (now + ttl))) by lia. split; [done|lia].
  - destruct (now <? md_ExpiresAt (metadata c) - skew) eqn:E2; [apply Z.ltb_lt in E2|apply Z.ltb_ge in E2];
      split; done || lia.
Qed.

Section Load.
Context {P : Type} `{CredentialProvider P}.

(** C31: whatever provider is plugged into the cache, a load is served or leaves nothing
    behind.  In every reachable state of a configured cache, when a provider resolved a
    capability for a pending binding, the capability passes the checks of the cache on
    its metadata; if it lives longer than the expiry skew, and the cache is open and the
    provider's epoch unchanged, then this very capability lives at a location of its own,
    stored under the key of the binding, and the caller gets a copy of it at any time
    before it expires; otherwise the caller gets an error, and the capability is
    released. *)
Theorem provider_load_served (p : P) (call : resolution) (binding : CredentialBinding)
    (governed : CredentialProviderContext) (epoch : string) (c0 config : CacheConfig) (st : cacheState) (now : Z)
    (c : Capability)
    (Hconfig : NewProviderCache c0 = Ok config) (Hreach : reachable config st)
    (Hpending : credentialCacheKey (Definition_ binding) governed epoch ∈ inflight st)
    (Hgo : go_values (Definition_ binding) governed epoch)
    (Hload : provider_Resolve p call binding governed = Ok c) :
  let d := Definition_ binding in
  let '(st', r) := resolve_finish config st d governed epoch now (Some c) None in
  let served := (now + cache_skew config d <? md_ExpiresAt (metadata c)) && negb (closed st)
                && String.eqb (ProviderEpoch st (ProviderType (Provider d))) epoch in
  reachable config st' /\
  if served then
    r = Ok (fresh_location (heap st)) /\ heap st' !! fresh_location (heap st) = Some c /\ released c = false /\
    (exists e, entries st' !! credentialCacheKey d governed epoch = Some e /\ source e = fresh_location (heap st)) /\
    (forall later, later < md_ExpiresAt (metadata c) ->
       resolve_return st' (credentialCacheKey d governed epoch) (fresh_location (heap st)) later = (st', Ok c))
  else
    (exists err, r = Err err) /\ heap st' !! fresh_location (heap st) = Some (Release c) /\ entries st' = entries st.
Proof.
  pose proof (provider_honours p call binding governed c Hload) as Hh. intros d. fold d in Hh.
  assert (Hlive : forall c', Some c = Some c' -> released c' = false) by (intros ? [= <-]; apply Hh).
  destruct (new_cache_ok _ _ Hconfig) as [Hmax [Hskew _]].
  pose proof (resolve_finish_spec config Hmax Hskew st d governed epoch now (Some c) None
    (reachable_inv _ _ _ Hconfig Hreach) Hpending Hgo Hlive) as Hspec.
  pose proof (reach_step config st _ Hreach (step_finish config st d governed epoch now (Some c) None Hpending Hgo Hlive)) as Hr.
  destruct (prepare_honoured c0 config d governed call now (fresh_location (heap st)) c Hconfig Hh) as [Hok Herr].
  destruct (resolve_finish config st d governed epoch now (Some c) None) as [st' r] eqn:Ef. cbn [fst] in Hr.
  split; [done|]. unfold resolve_finish in Ef. destruct (_ <? md_ExpiresAt (metadata c)) eqn:Elt.
  - apply Z.ltb_lt, Hok in Elt. destruct (prepareEntry _ _ _ _ _ _ _) as [e|]; [|done]. cbn [andb].
    destruct (negb (closed st) && _); injection Ef as <- <-.
    + destruct Hspec as (_ & _ & Hs). destruct (Hs _ eq_refl) as (e' & c' & ? & ? & [= <-] & ? & _).
      split_and!; eauto. intros later Hlater. unfold resolve_return.
      match goal with H : heap _ !! _ = Some c |- _ => rewrite H end.
      by rewrite (clone_new c _ _ (proj1 Hh) Hlater).
    + split_and!; [eauto|cbn [heap]; by rewrite alter_release_insert, lookup_insert_eq|done].
  - cbn [andb]. rewrite Herr in Ef by (apply Z.ltb_ge; done). injection Ef as <- <-.
    split_and!; [eauto|cbn [heap]; by rewrite alter_release_insert, lookup_insert_eq|done].
Qed.

(** A binding whose lifetime bound does not exceed the skew of the cache can never be
    resolved through it, although it is valid. *)
Lemma short_lifetime_never_served (p : P) (call : resolution) (binding : CredentialBinding)
    (governed : CredentialProviderContext) (c0 config : CacheConfig) (now : Z) (location : nat) (c : Capability) :
  NewProviderCache c0 = Ok config -> provider_Resolve p call binding governed = Ok c -> res_now call <= now ->
  0 < MaximumTTL (Cache (Definition_ binding)) <= cfg_ExpirySkew config ->
  prepareEntry config (Some c) None (Definition_ binding) governed now location
  = Err (ErrNew "credential provider capability cannot be cached safely").
Proof.
  intros Hc Hl Hle Hs. pose proof (provider_honours _ _ _ _ _ Hl) as Hh.
  eapply prepare_honoured; [done..|]. destruct Hh as (_ & _ & _ & _ & _ & _ & _ & _ & _ & Hb).
  unfold cache_skew. destruct (_ <? _) eqn:E; [apply Z.ltb_lt in E|]; lia.
Qed.
End Load.
