(* ===== verification/KubernetesProvider.v ===== *)
(** * Projected service-account tokens

    [internal/adapters/credentials/kubernetes/provider.go]: a credential is the token
    kubelet projects into an allowlisted file.  The provider checks its claims (kubelet
    and the API server vouch for the signature) and hands it over as a capability.  The
    file system is an argument; erasing buffers does not change the values handed
    over. *)
From Stdlib Require Import Ascii String.
From stdpp Require Import sorting.
From S2P Require Import Prelude GoStd Regex Json JsonParse Primitives ToolCatalog GoText Ports JsonStruct GoTime Http Oidc Config CredentialBinding CredentialCache Providers.

Definition maximumTokenBytes : Z := Z.shiftl 64 10.

Record KubernetesConfig := mkKubernetesConfig {
  k_Mode : string;
  k_AllowedTokenPaths : list string;
  k_TrustedIssuers : list string;
  k_ReadFile : option (string -> result string);
  k_MaximumTokenLifetime : Z;
  k_ClockSkew : Z;
}.

Record KubernetesProvider := mkKubernetesProvider {
  allowedPaths : gset string;
  trustedIssuers : gset string;
  readFile : string -> result string;
  maximumLifetime : Z;
  clockSkew : Z;
}.

Definition validAbsolutePath (path : string) : bool :=
  negb (String.eqb path "") && (slen path <=? 4096) && IsAbs path && String.eqb (Clean path) path
  && negb (contains_any path NUL_CR_LF).

Definition safeText (value : string) (maximum : Z) : bool :=
  negb (String.eqb value "") && (slen value <=? maximum) && String.eqb (TrimSpace value) value
  && negb (contains_any value NUL_CR_LF).

(** [io.ReadAll] of a reader limited to one byte more than the bound *)
Definition readBoundedFile (files : string -> result string) (maximum : Z) (path : string) : result string :=
  contents ← files path; Ok (String.substring 0 (Z.to_nat (maximum + 1)) contents).

(** The loops of [New] over the two allowlists. *)
Fixpoint allowlist (valid : string -> bool) (invalid duplicate : string) (values : list string) (seen : gset string)
    : result (gset string) :=
  match values with
  | [] => Ok seen
  | value :: values =>
      if negb (valid value) then Err (ErrNew invalid)
      else if bool_decide (value ∈ seen) then Err (ErrNew duplicate)
      else allowlist valid invalid duplicate values ({[ value ]} ∪ seen)
  end.

Definition NewKubernetes (files : string -> result string) (config : KubernetesConfig) : result KubernetesProvider :=
  if negb (String.eqb (k_Mode config) ModeProduction) && negb (String.eqb (k_Mode config) ModeDevelopment) then
    Err (ErrNew "kubernetes projected-token provider mode is invalid")
  else if (llen (k_AllowedTokenPaths config) =? 0) || (llen (k_TrustedIssuers config) =? 0) then
    Err (ErrNew "kubernetes projected-token provider configuration is incomplete")
  else
    let lifetime := if k_MaximumTokenLifetime config =? 0 then Hour else k_MaximumTokenLifetime config in
    if (lifetime <=? 0) || (24 * Hour <? lifetime) || (k_ClockSkew config <? 0) || (5 * Minute <? k_ClockSkew config) then
      Err (ErrNew "kubernetes projected-token provider lifetime policy is invalid")
    else
      paths ← allowlist validAbsolutePath "kubernetes projected-token path allowlist is invalid"
                "kubernetes projected-token path allowlist contains duplicates" (k_AllowedTokenPaths config) ∅;
      issuers ← allowlist (fun issuer => safeText issuer 512) "kubernetes projected-token issuer allowlist is invalid"
                "kubernetes projected-token issuer allowlist contains duplicates" (k_TrustedIssuers config) ∅;
      Ok (mkKubernetesProvider paths issuers (default (readBoundedFile files maximumTokenBytes) (k_ReadFile config))
            lifetime (k_ClockSkew config)).

(** ** Claims *)

Record tokenClaims := mkTokenClaims { tc_issuer : string; tc_audiences : list string; tc_issuedAt : Z; tc_expiresAt : Z }.

Definition invalid_claims : goerror := ErrNew "kubernetes projected credential claims are invalid".

(** The order of [sort.Strings] *)
Definition text_not_after (a b : string) : Prop := str_ltb b a = false.
#[global] Instance text_not_after_dec : RelDecision text_not_after.
Proof. intros a b. unfold text_not_after. apply _. Defined.

Definition text_item (v : jvalue) : option string := match v with JString s => Some s | _ => None end.

Fixpoint check_audiences (previous : option string) (audiences : list string) : bool :=
  match audiences with
  | [] => true
  | audience :: audiences =>
      safeText audience 512 && negb (bool_decide (previous = Some audience)) && check_audiences (Some audience) audiences
  end.

Definition claimAudiences (value : option jvalue) : result (list string) :=
  match (match value with
         | Some (JString typed) => Some [typed]
         | Some (JArray typed) => mapM text_item typed
         | _ => None
         end) with
  | None => Err invalid_claims
  | Some audiences =>
      if (llen audiences =? 0) || (32 <? llen audiences) then Err invalid_claims else
      let audiences := merge_sort text_not_after audiences in
      if check_audiences None audiences then Ok audiences else Err invalid_claims
  end.

Definition claimDate (value : option jvalue) : result Z :=
  match value with
  | Some (JNumber number) =>
      match ParseIntN 64 number with
      | Some seconds => if seconds <? 0 then Err invalid_claims else Ok (time_Unix seconds)
      | None => Err invalid_claims
      end
  | _ => Err invalid_claims
  end.

Definition parseClaims (token : string) : result tokenClaims :=
  match split_on "." token with
  | [a; b; c] =>
      if (slen a =? 0) || (slen b =? 0) || (slen c =? 0) then
        Err (ErrNew "kubernetes projected credential format is invalid")
      else
      match b64_decode b with
      | None => Err invalid_claims
      | Some payload =>
          if (slen payload =? 0) || (maximumTokenBytes <? slen payload) then Err invalid_claims else
          match decode_claims payload with
          | None => Err invalid_claims
          | Some values =>
              match claim values "iss" with
              | Some (JString issuer) =>
                  if negb (safeText issuer 512) then Err invalid_claims else
                  audiences ← claimAudiences (claim values "aud");
                  issuedAt ← claimDate (claim values "iat");
                  match claimDate (claim values "exp") with
                  | Ok expiresAt =>
                      if negb (issuedAt <? expiresAt) then Err invalid_claims
                      else Ok (mkTokenClaims issuer audiences issuedAt expiresAt)
                  | Err _ => Err invalid_claims
                  end
              | _ => Err invalid_claims
              end
          end
      end
  | _ => Err (ErrNew "kubernetes projected credential format is invalid")
  end.

Definition containsAll (actual expected : list string) : bool :=
  forallb (fun value => bool_decide (value ∈ actual)) expected && (0 <? llen expected).

(** ** Resolution *)

Definition projected_path (d : CredentialBindingDefinition) : option string := cut_prefix "projected:" (ProviderRef (Provider d)).

Definition projected_expiry (d : CredentialBindingDefinition) (claims : tokenClaims) (now : Z) : Z :=
  if (0 <? MaximumTTL (Cache d)) && (now + MaximumTTL (Cache d) <? tc_expiresAt claims)
  then now + MaximumTTL (Cache d) else tc_expiresAt claims.

Definition KubernetesResolve (provider : KubernetesProvider) (call : resolution) (binding : CredentialBinding)
    (governed : CredentialProviderContext) : result Capability :=
  if res_cancelled call then Err (ErrNew "kubernetes projected credential resolution was cancelled") else
  let d := Definition_ binding in
  if negb (bind_Enabled d) || negb (String.eqb (ProviderType (Provider d)) "kubernetes_projected")
     || negb (String.eqb (Capability_kind (Provider d)) CapabilityAPIToken) then
    Err (ErrNew "kubernetes projected credential binding is invalid")
  else if negb (String.eqb (dlg_Mode (Delegation d)) DelegationNone) || negb (safeText (ctx_Subject governed) 512)
          || negb (safeText (ctx_RunID governed) 512) then
    Err (ErrNew "kubernetes projected credential subject policy is invalid")
  else
  match projected_path d with
  | None => Err (ErrNew "kubernetes projected credential reference is invalid")
  | Some path =>
      if negb (validAbsolutePath path) then Err (ErrNew "kubernetes projected credential reference is invalid")
      else if negb (bool_decide (path ∈ allowedPaths provider)) then
        Err (ErrNew "kubernetes projected credential path is not allowed")
      else
      match readFile provider path with
      | Err _ => Err (ErrNew "kubernetes projected credential is unavailable")
      | Ok token =>
          if (slen token =? 0) || (maximumTokenBytes <? slen token) then
            Err (ErrNew "kubernetes projected credential is unavailable")
          else
          claims ← parseClaims token;
          if negb (bool_decide (tc_issuer claims ∈ trustedIssuers provider)) then
            Err (ErrNew "kubernetes projected credential issuer is not trusted")
          else if negb (containsAll (tc_audiences claims) (Audiences (Provider d))) then
            Err (ErrNew "kubernetes projected credential audience does not match binding")
          else
          let now := res_now call in
          if (now + clockSkew provider <? tc_issuedAt claims) || negb (now <? tc_expiresAt claims)
             || (maximumLifetime provider <? time_Sub (tc_expiresAt claims) (tc_issuedAt claims)) then
            Err (ErrNew "kubernetes projected credential lifetime is invalid")
          else
          match NewCapability (mkMetadata CapabilityAPIToken (ProviderRef (Provider d)) (tc_issuer claims)
                  (Audiences (Provider d)) (prov_Resources (Provider d)) (Scopes (Provider d))
                  (tc_issuedAt claims) (projected_expiry d claims now) "" "" (bind_RevocationEpoch d)) token (res_end call) with
          | Ok capability => Ok capability
          | Err _ => Err (ErrNew "kubernetes projected credential capability is invalid")
          end
      end
  end.

(** ** Lemmas *)

Lemma allowlist_ok valid invalid duplicate values seen allowed :
  allowlist valid invalid duplicate values seen = Ok allowed ->
  Forall (fun v => valid v = true) values /\ forall v, v ∈ allowed <-> v ∈ seen \/ v ∈ values.
Proof.
  revert seen. induction values as [|value values IH]; intros seen; cbn [allowlist].
  { intros [= <-]. split; [done|]. set_solver. }
  destruct (valid value) eqn:Ev; cbn [negb]; [|done]. destruct (bool_decide (value ∈ seen)); [done|].
  intros [? Hall]%IH. split; [by constructor|]. intros v. rewrite Hall. set_solver.
Qed.

Lemma allowlist_members valid invalid duplicate values allowed v :
  allowlist valid invalid duplicate values ∅ = Ok allowed -> v ∈ allowed -> v ∈ values /\ valid v = true.
Proof.
  intros [Hv Hall]%allowlist_ok [?|Hin]%Hall; [set_solver|]. split; [done|].
  by apply (proj1 (list.Forall_forall _ _) Hv).
Qed.

(** What an accepted token had to show, and what is handed over for it. *)
Record accepted (provider : KubernetesProvider) (call : resolution) (d : CredentialBindingDefinition)
    (path token : string) (claims : tokenClaims) (c : Capability) : Prop := {
  acc_binding : bind_Enabled d = true /\ ProviderType (Provider d) = "kubernetes_projected"%string /\
    Capability_kind (Provider d) = CapabilityAPIToken /\ dlg_Mode (Delegation d) = DelegationNone;
  acc_path : ProviderRef (Provider d) = "projected:" +:+ path /\ path ∈ allowedPaths provider /\
    IsAbs path = true /\ Clean path = path;
  acc_token : readFile provider path = Ok token /\ 0 < slen token <= maximumTokenBytes /\ parseClaims token = Ok claims;
  acc_trusted : tc_issuer claims ∈ trustedIssuers provider;
  acc_audiences : Audiences (Provider d) <> [] /\ Forall (fun a => a ∈ tc_audiences claims) (Audiences (Provider d));
  acc_window : tc_issuedAt claims <= res_now call + clockSkew provider /\ res_now call < tc_expiresAt claims /\
    time_Sub (tc_expiresAt claims) (tc_issuedAt claims) <= maximumLifetime provider;
  acc_capability : NewCapability (mkMetadata CapabilityAPIToken (ProviderRef (Provider d)) (tc_issuer claims)
    (Audiences (Provider d)) (prov_Resources (Provider d)) (Scopes (Provider d)) (tc_issuedAt claims)
    (projected_expiry d claims (res_now call)) "" "" (bind_RevocationEpoch d)) token (res_end call) = Ok c;
}.

Lemma KubernetesResolve_ok provider call binding governed c :
  KubernetesResolve provider call binding governed = Ok c ->
  exists path token claims, accepted provider call (Definition_ binding) path token claims c.
Proof.
  unfold KubernetesResolve. destruct (res_cancelled call); [done|]. set (d := Definition_ binding).
  destruct (negb (bind_Enabled d) || _ || _) eqn:Eb; [done|].
  destruct (negb (String.eqb (dlg_Mode _) _) || _ || _) eqn:Es; [done|].
  destruct (projected_path d) as [path|] eqn:Ep; [|done]. destruct (validAbsolutePath path) eqn:Ev; [|done].
  destruct (bool_decide (path ∈ _)) eqn:Ea; [|done]. cbn [negb].
  destruct (readFile provider path) as [token|] eqn:Er; [|done]. destruct ((slen token =? 0) || _) eqn:El; [done|].
  destruct (parseClaims token) as [claims|] eqn:Ec; [|done]. cbn [mbind result_bind].
  destruct (bool_decide (tc_issuer claims ∈ _)) eqn:Ei; [|done]. destruct (containsAll _ _) eqn:Eu; [|done]. cbn [negb].
  destruct ((_ <? tc_issuedAt claims) || _ || _) eqn:Ew; [done|]. destruct (NewCapability _ _ _) as [c'|] eqn:En; [|done]. intros [= <-].
  exists path, token, claims. unfold containsAll in Eu. unfold validAbsolutePath in Ev.
  rewrite !orb_false_iff, !negb_false_iff, !String.eqb_eq in Eb. rewrite !orb_false_iff, !negb_false_iff, String.eqb_eq in Es.
  rewrite !andb_true_iff, !String.eqb_eq in Ev. rewrite orb_false_iff, Z.eqb_neq, Z.ltb_ge in El.
  rewrite !orb_false_iff, negb_false_iff, !Z.ltb_ge, Z.ltb_lt in Ew. rewrite andb_true_iff, Z.ltb_lt in Eu.
  constructor; [tauto| |..|done].
  - split_and!; try tauto; [by apply cut_prefix_split|by apply bool_decide_eq_true in Ea].
  - unfold slen in *. split_and!; [done|lia|lia|done].
  - by apply bool_decide_eq_true in Ei.
  - split; [intros E; rewrite E in Eu; by destruct Eu|]. destruct Eu as [Eu _]. apply list.Forall_forall. intros a Ha.
    rewrite forallb_forall in Eu. apply list_elem_of_In, Eu, bool_decide_eq_true in Ha. done.
  - tauto.
Qed.

Lemma projected_expiry_bound d claims now : projected_expiry d claims now <= tc_expiresAt claims /\
  (0 < MaximumTTL (Cache d) -> projected_expiry d claims now <= now + MaximumTTL (Cache d)).
Proof.
  unfold projected_expiry. destruct (_ && _) eqn:E; [rewrite andb_true_iff, !Z.ltb_lt in E|]; [lia|].
  rewrite andb_false_iff, !Z.ltb_ge in E. lia.
Qed.

Lemma kubernetes_honours provider call binding governed c :
  KubernetesResolve provider call binding governed = Ok c -> honours (Definition_ binding) call c.
Proof.
  intros (path & token & claims & A)%KubernetesResolve_ok. destruct (new_capability_ok _ _ _ _ (acc_capability _ _ _ _ _ _ _ A))
    as (E & Es & Hr & _ & Hl & _). unfold honours. rewrite E, Es. pose proof (acc_capability _ _ _ _ _ _ _ A). cbn.
  destruct (acc_binding _ _ _ _ _ _ _ A) as (_ & _ & Hk & _).
  split_and!; try done. intros Ht. by apply projected_expiry_bound.
Qed.

#[global] Instance kubernetes_provider : CredentialProvider KubernetesProvider := {
  provider_Resolve := KubernetesResolve;
  provider_honours := kubernetes_honours;
}.

(** ** Properties *)

(** C32: a projected credential is the token of an allowlisted file that speaks for the
    binding.  When a configured provider resolves a capability, the binding is enabled
    and asks, without delegation, for a projected API token; its secret is the content of
    a file the configuration lists, named from the root without [.] or [..]; the token's
    issuer is a configured one, its audiences include all those of the binding (at least
    one), it is not from the future beyond the skew, not expired, and was issued for at
    most the configured lifetime of at most a day; and the capability expires no later
    than the token and the binding's bound. *)
Theorem projected_credential_sound (files : string -> result string) (config : KubernetesConfig)
    (provider : KubernetesProvider) (call : resolution) (binding : CredentialBinding)
    (governed : CredentialProviderContext) (c : Capability)
    (Hnew : NewKubernetes files config = Ok provider)
    (Hok : KubernetesResolve provider call binding governed = Ok c) :
  let d := Definition_ binding in
  bind_Enabled d = true /\ Capability_kind (Provider d) = CapabilityAPIToken /\ dlg_Mode (Delegation d) = DelegationNone /\
  exists path token claims elements,
    ProviderRef (Provider d) = "projected:" +:+ path /\ path ∈ k_AllowedTokenPaths config /\
    path = "/" +:+ join "/" elements /\ Forall plain_element elements /\
    default (readBoundedFile files maximumTokenBytes) (k_ReadFile config) path = Ok token /\
    secret c = token /\ slen token <= maximumTokenBytes /\ parseClaims token = Ok claims /\
    tc_issuer claims ∈ k_TrustedIssuers config /\
    Audiences (Provider d) <> [] /\ Forall (fun a => a ∈ tc_audiences claims) (Audiences (Provider d)) /\
    tc_issuedAt claims <= res_now call + k_ClockSkew config /\ res_now call < tc_expiresAt claims /\
    tc_expiresAt claims - tc_issuedAt claims <= 24 * Hour /\
    res_end call < md_ExpiresAt (metadata c) <= tc_expiresAt claims /\
    (0 < MaximumTTL (Cache d) -> md_ExpiresAt (metadata c) <= res_now call + MaximumTTL (Cache d)).
Proof.
  intros d. destruct (KubernetesResolve_ok _ _ _ _ _ Hok) as (path & token & claims & A). fold d in A.
  destruct (new_capability_ok _ _ _ _ (acc_capability _ _ _ _ _ _ _ A)) as (Em & Es & _ & _ & Hend & _).
  destruct (acc_binding _ _ _ _ _ _ _ A) as (? & _ & ? & ?). destruct (acc_path _ _ _ _ _ _ _ A) as (? & Hin & Habs & Hcl).
  destruct (clean_absolute path Habs Hcl) as (elements & ? & ?). destruct (acc_token _ _ _ _ _ _ _ A) as (Hread & ? & ?).
  pose proof (acc_trusted _ _ _ _ _ _ _ A) as Htr. destruct (acc_audiences _ _ _ _ _ _ _ A) as [? ?].
  destruct (acc_window _ _ _ _ _ _ _ A) as (? & ? & Hl). destruct (projected_expiry_bound d claims (res_now call)) as [? ?].
  revert Hnew. unfold NewKubernetes. destruct (_ && _); [done|]. destruct (_ || _); [done|].
  destruct (_ || _) eqn:El; [done|]. destruct (allowlist _ _ _ (k_AllowedTokenPaths _) _) as [paths|] eqn:Ep; [|done].
  cbn [mbind result_bind]. destruct (allowlist _ _ _ (k_TrustedIssuers _) _) as [issuers|] eqn:Ei; [|done].
  cbn [mbind result_bind]. intros [= <-]. cbn [allowedPaths trustedIssuers readFile maximumLifetime clockSkew] in *.
  rewrite !orb_false_iff, !Z.ltb_ge in El. destruct (allowlist_members _ _ _ _ _ _ Ep Hin) as [? _].
  destruct (allowlist_members _ _ _ _ _ _ Ei Htr) as [? _]. rewrite Em. cbn [md_ExpiresAt].
  split_and!; [done..|]. exists path, token, claims, elements. split_and!; try done; try lia.
  unfold time_Sub in Hl. change max_int64 with 9223372036854775807 in Hl. change Hour with 3600000000000 in *. lia.
Qed.

(** ** Witnesses *)

Definition ex_claims_text : string :=
  quoted "{'iss':'https://k8s.example','aud':['api','tg'],'iat':1700000000,'exp':1700003600}".
Definition ex_token : string := "e30." +:+ b64_encode ex_claims_text +:+ ".c2ln".
Definition ex_token_path : string := "/var/run/secrets/tokens/api".
Definition ex_token_files (path : string) : result string :=
  if String.eqb path ex_token_path then Ok ex_token else Err (ErrNew "file does not exist").
Definition ex_kubernetes : KubernetesConfig :=
  mkKubernetesConfig ModeProduction [ex_token_path] ["https://k8s.example"%string] None 0 Minute.
Definition ex_kubernetes_provider : KubernetesProvider :=
  mkKubernetesProvider {[ ex_token_path ]} {[ "https://k8s.example"%string ]}
    (readBoundedFile ex_token_files maximumTokenBytes) Hour Minute.
Definition ex_uuid (b : Z) : UUID := str_of (repeat (byte b) 16).
Definition ex_projected_binding : CredentialBinding :=
  mkCredentialBinding (mkBindingDef (ex_uuid 1) (ex_uuid 2) (ex_uuid 3)
    [mkSelector "github.issue.create" (mkSemVer "1.2.0" 1 2 0 []) "github.app"]
    (mkProvider "kubernetes_projected" ("projected:" +:+ ex_token_path) CapabilityAPIToken ["api"%string] [] [])
    (mkDelegation DelegationNone "") (mkCachePolicy (10 * Minute) 0) "" [] true).
Definition ex_governed : CredentialProviderContext := mkProviderContext "user" "run".
Definition ex_resolution : resolution :=
  mkResolution false (unix_epoch + 1700000060 * Second) (unix_epoch + 1700000060 * Second).
Definition ex_projected : Capability :=
  mkCapability (mkMetadata CapabilityAPIToken ("projected:" +:+ ex_token_path) "https://k8s.example" ["api"%string] [] []
    (unix_epoch + 1700000000 * Second) (unix_epoch + 1700000660 * Second) "" "" "") ex_token false.

Lemma projected_credential_sound_witness :
  NewKubernetes ex_token_files ex_kubernetes = Ok ex_kubernetes_provider /\
  KubernetesResolve ex_kubernetes_provider ex_resolution ex_projected_binding ex_governed = Ok ex_projected /\
  exists path, ProviderRef (Provider (Definition_ ex_projected_binding)) = "projected:" +:+ path /\
    path ∈ k_AllowedTokenPaths ex_kubernetes.
Proof.
  assert (Hn : NewKubernetes ex_token_files ex_kubernetes = Ok ex_kubernetes_provider) by reflexivity.
  assert (Hr : KubernetesResolve ex_kubernetes_provider ex_resolution ex_projected_binding ex_governed = Ok ex_projected)
    by (vm_compute; reflexivity).
  split; [exact Hn|]. split; [exact Hr|].
  destruct (projected_credential_sound ex_token_files ex_kubernetes ex_kubernetes_provider ex_resolution
    ex_projected_binding ex_governed ex_projected Hn Hr) as (_ & _ & _ & path & _ & _ & _ & Hp & Hin & _).
  exists path. split; [exact Hp|exact Hin].
Defined.

(** The load of a projected credential is served by a cache that waits for it. *)
Definition ex_cache : CacheConfig := mkCacheConfig 10 Hour Minute.
Definition ex_waiting : cacheState := (resolve_begin empty_cache ex_projected_binding ex_governed (res_now ex_resolution)).1.

Lemma provider_load_served_witness :
  let '(st', r) := resolve_finish ex_cache ex_waiting (Definition_ ex_projected_binding) ex_governed ""
                     (res_end ex_resolution) (Some ex_projected) None in
  reachable ex_cache st' /\ r = Ok (fresh_location (heap ex_waiting)).
Proof.
  assert (Hin : credentialCacheKey (Definition_ ex_projected_binding) ex_governed "" ∈ inflight ex_waiting)
    by (apply in_set_decided; vm_compute; reflexivity).
  assert (Hgo : go_values (Definition_ ex_projected_binding) ex_governed "")
    by (split_and!; try reflexivity; repeat constructor).
  assert (Hr : provider_Resolve ex_kubernetes_provider ex_resolution ex_projected_binding ex_governed = Ok ex_projected)
    by (vm_compute; reflexivity).
  pose proof (provider_load_served ex_kubernetes_provider ex_resolution ex_projected_binding ex_governed "" ex_cache ex_cache
    ex_waiting (res_end ex_resolution) ex_projected eq_refl
    (reach_step _ _ _ (reach_init _) (step_begin _ _ _ _ _)) Hin Hgo Hr) as H. cbv zeta in H.
  assert (Hs : (res_end ex_resolution + cache_skew ex_cache (Definition_ ex_projected_binding)
                <? md_ExpiresAt (metadata ex_projected)) && negb (closed ex_waiting)
               && String.eqb (ProviderEpoch ex_waiting (ProviderType (Provider (Definition_ ex_projected_binding)))) "" = true)
    by (vm_compute; reflexivity).
  rewrite Hs in H. destruct (resolve_finish _ _ _ _ _ _ _ _) as [st' r]. destruct H as (Hreach & Hrr & _).
  split; [exact Hreach|exact Hrr].
Defined.
