(* ===== verification/DevelopmentProvider.v ===== *)
(** * Development credentials

    [internal/adapters/credentials/development/provider.go]: credentials from the
    environment or from a file, refused outside development mode.  The environment and
    the file system are arguments. *)
From Stdlib Require Import Ascii String.
From S2P Require Import Prelude GoStd Regex Json Primitives ToolCatalog GoText Ports Http Config CredentialBinding CredentialCache Providers.

Definition maximumSecretBytes : Z := Z.shiftl 64 10.

(** At most [n] repetitions. *)
Fixpoint RUpTo (n : nat) (r : regex) : regex :=
  match n with O => REps | S n => ROpt (RSeq r (RUpTo n r)) end.

Definition environmentName : regex :=
  RSeq (RClass is_upper) (RUpTo 127 (one_of [is_upper; is_digit; Ascii.eqb "_"])).

Record DevelopmentConfig := mkDevelopmentConfig {
  d_Mode : string;
  d_LookupEnv : option (string -> option string);
  d_ReadFile : option (string -> result string);
  d_DefaultTTL : Z;
}.

Record DevelopmentProvider := mkDevelopmentProvider {
  lookupEnv : string -> option string;
  dev_readFile : string -> result string;
  defaultTTL : Z;
}.

Definition readBoundedSecret (files : string -> result string) (path : string) : result string :=
  contents ← files path; Ok (String.substring 0 (Z.to_nat (maximumSecretBytes + 1)) contents).

Definition NewDevelopment (environment : string -> option string) (files : string -> result string)
    (config : DevelopmentConfig) : result DevelopmentProvider :=
  if negb (String.eqb (d_Mode config) ModeDevelopment) then
    Err (ErrNew "development credential provider is forbidden outside development mode")
  else
    let ttl := if d_DefaultTTL config =? 0 then 5 * Minute else d_DefaultTTL config in
    if (ttl <=? 0) || (24 * Hour <? ttl) then Err (ErrNew "development credential provider TTL is invalid")
    else Ok (mkDevelopmentProvider (default environment (d_LookupEnv config))
               (default (readBoundedSecret files) (d_ReadFile config)) ttl).

Definition validGovernedValue (value : string) : bool :=
  negb (String.eqb value "") && (slen value <=? 512) && String.eqb (TrimSpace value) value
  && negb (contains_any value NUL_CR_LF).

Definition NUL : string := String (byte 0) EmptyString.

Definition load (provider : DevelopmentProvider) (reference : string) : result string :=
  match cut_prefix "env:" reference with
  | Some name =>
      if negb (matches environmentName name) then
        Err (ErrNew "development credential environment reference is invalid")
      else
      match lookupEnv provider name with
      | None => Err (ErrNew "development credential environment value is unavailable")
      | Some value =>
          if String.eqb value "" || (maximumSecretBytes <? slen value) then
            Err (ErrNew "development credential environment value is unavailable")
          else Ok value
      end
  | None =>
      match cut_prefix "file:" reference with
      | Some path =>
          if (4096 <? slen path) || negb (IsAbs path) || negb (String.eqb (Clean path) path)
             || contains_any path NUL then
            Err (ErrNew "development credential file reference is invalid")
          else
          match dev_readFile provider path with
          | Err _ => Err (ErrNew "development credential file value is unavailable")
          | Ok value =>
              if (slen value =? 0) || (maximumSecretBytes <? slen value) then
                Err (ErrNew "development credential file value is unavailable")
              else Ok value
          end
      | None => Err (ErrNew "development credential source is invalid")
      end
  end.

Definition development_ttl (provider : DevelopmentProvider) (d : CredentialBindingDefinition) : Z :=
  if (0 <? MaximumTTL (Cache d)) && (MaximumTTL (Cache d) <? defaultTTL provider) then MaximumTTL (Cache d)
  else defaultTTL provider.

Definition DevelopmentResolve (provider : DevelopmentProvider) (call : resolution) (binding : CredentialBinding)
    (governed : CredentialProviderContext) : result Capability :=
  if res_cancelled call then Err (ErrNew "development credential resolution was cancelled") else
  let d := Definition_ binding in
  if negb (bind_Enabled d) || negb (String.eqb (ProviderType (Provider d)) "development") then
    Err (ErrNew "development credential binding is invalid")
  else if negb (String.eqb (dlg_Mode (Delegation d)) DelegationNone) || negb (validGovernedValue (ctx_Subject governed))
          || negb (validGovernedValue (ctx_RunID governed)) then
    Err (ErrNew "development credential subject policy is invalid")
  else
  material ← load provider (ProviderRef (Provider d));
  let now := res_now call in
  match NewCapability (mkMetadata (Capability_kind (Provider d)) (ProviderRef (Provider d)) ""
          (Audiences (Provider d)) (prov_Resources (Provider d)) (Scopes (Provider d))
          now (now + development_ttl provider d) "" "" (bind_RevocationEpoch d)) material (res_end call) with
  | Ok capability => Ok capability
  | Err _ => Err (ErrNew "development credential capability is invalid")
  end.

(** ** Lemmas *)

Lemma DevelopmentResolve_ok provider call binding governed c :
  DevelopmentResolve provider call binding governed = Ok c ->
  let d := Definition_ binding in
  bind_Enabled d = true /\ ProviderType (Provider d) = "development"%string /\ dlg_Mode (Delegation d) = DelegationNone /\
  exists material, load provider (ProviderRef (Provider d)) = Ok material /\
    NewCapability (mkMetadata (Capability_kind (Provider d)) (ProviderRef (Provider d)) ""
      (Audiences (Provider d)) (prov_Resources (Provider d)) (Scopes (Provider d)) (res_now call)
      (res_now call + development_ttl provider d) "" "" (bind_RevocationEpoch d)) material (res_end call) = Ok c.
Proof.
  unfold DevelopmentResolve. destruct (res_cancelled call); [done|]. set (d := Definition_ binding).
  destruct (negb (bind_Enabled d) || _) eqn:Eb; [done|]. destruct (negb (String.eqb (dlg_Mode _) _) || _ || _) eqn:Es; [done|].
  destruct (load _ _) as [material|] eqn:El; [|done]. cbn [mbind result_bind].
  destruct (NewCapability _ _ _) as [c'|] eqn:En; [|done]. intros [= <-]. cbv zeta.
  rewrite !orb_false_iff, !negb_false_iff, String.eqb_eq in Eb. rewrite !orb_false_iff, !negb_false_iff, String.eqb_eq in Es.
  split_and!; try tauto. eauto.
Qed.

Lemma development_honours provider call binding governed c :
  DevelopmentResolve provider call binding governed = Ok c -> honours (Definition_ binding) call c.
Proof.
  intros (_ & _ & _ & material & _ & Hn)%DevelopmentResolve_ok.
  destruct (new_capability_ok _ _ _ _ Hn) as (E & Es & Hr & _ & Hl & _).
  unfold honours. rewrite E, Es. cbn. split_and!; try done. unfold development_ttl. intros Ht.
  destruct (_ && _) eqn:Ea; [lia|]. rewrite andb_false_iff, !Z.ltb_ge in Ea. lia.
Qed.

#[global] Instance development_provider : CredentialProvider DevelopmentProvider := {
  provider_Resolve := DevelopmentResolve;
  provider_honours := development_honours;
}.

(** Where the secret of a reference comes from. *)
Definition source_of (provider : DevelopmentProvider) (reference material : string) : Prop :=
  (exists name, reference = "env:" +:+ name /\ matches environmentName name = true /\ lookupEnv provider name = Some material)
  \/ (exists path elements, reference = "file:" +:+ path /\ path = "/" +:+ join "/" elements /\
       Forall plain_element elements /\ dev_readFile provider path = Ok material).

Lemma load_ok provider reference material : load provider reference = Ok material ->
  source_of provider reference material /\ 0 < slen material <= maximumSecretBytes.
Proof.
  unfold load, source_of. destruct (cut_prefix "env:" reference) as [name|] eqn:E1.
  - destruct (matches environmentName name) eqn:Em; [|done]. destruct (lookupEnv provider name) as [v|] eqn:Ev; [|done].
    cbn [negb]. destruct (_ || _) eqn:El; [done|]. intros [= <-]. rewrite orb_false_iff, String.eqb_neq, Z.ltb_ge in El.
    split; [left; exists name; split_and!; try done; by apply cut_prefix_split|]. split; [|lia]. destruct v; [tauto|done].
  - destruct (cut_prefix "file:" reference) as [path|] eqn:E2; [|done]. destruct ((4096 <? slen path) || _ || _ || _) eqn:Ep; [done|].
    destruct (dev_readFile provider path) as [v|] eqn:Ev; [|done]. destruct ((slen v =? 0) || _) eqn:El; [done|]. intros [= <-].
    rewrite !orb_false_iff, !negb_false_iff, String.eqb_eq in Ep. rewrite orb_false_iff, Z.eqb_neq, Z.ltb_ge in El.
    destruct (clean_absolute path) as (elements & ? & ?); [tauto..|]. unfold slen in *. split; [|lia].
    right. exists path, elements. split_and!; try done. by apply cut_prefix_split.
Qed.

(** ** Properties *)

(** Development credentials exist only in development.  A configuration the loader
    accepts for production cannot construct the provider at all; in development, every
    capability it resolves belongs to an enabled binding of its own type without
    delegation, its secret is the value of the environment variable or of the file,
    named from the root without [.] or [..], that the binding refers to, and it lives no
    longer than a day and than the binding's bound. *)
Theorem development_credentials_confined (files : string -> result string) (args environ : list string) (c : Config)
    (Hload : Load files args environ = Ok c) (config : DevelopmentConfig) (environment : string -> option string)
    (Hmode : d_Mode config = cfg_Mode c) :
  (cfg_Mode c = ModeProduction -> exists err, NewDevelopment environment files config = Err err) /\
  (forall provider call binding governed capability,
     NewDevelopment environment files config = Ok provider ->
     DevelopmentResolve provider call binding governed = Ok capability ->
     let d := Definition_ binding in
     cfg_Mode c = ModeDevelopment /\ bind_Enabled d = true /\ ProviderType (Provider d) = "development"%string /\
     dlg_Mode (Delegation d) = DelegationNone /\ source_of provider (ProviderRef (Provider d)) (secret capability) /\
     res_end call < md_ExpiresAt (metadata capability) <= res_now call + 24 * Hour /\
     (0 < MaximumTTL (Cache d) -> md_ExpiresAt (metadata capability) <= res_now call + MaximumTTL (Cache d))).
Proof.
  split.
  - intros Hp. unfold NewDevelopment. rewrite Hmode, Hp. cbn. eauto.
  - intros provider call binding governed capability Hnew Hok d.
    pose proof (development_honours _ _ _ _ _ Hok) as (_ & _ & _ & _ & _ & _ & _ & _ & Hend & Httl).
    destruct (DevelopmentResolve_ok _ _ _ _ _ Hok) as (? & ? & ? & material & Hl & Hc).
    destruct (new_capability_ok _ _ _ _ Hc) as (Em & Es & _). apply load_ok in Hl as [Hs _].
    revert Hnew. unfold NewDevelopment. destruct (String.eqb_spec (d_Mode config) ModeDevelopment) as [Hd|]; [|done].
    cbn [negb]. destruct (_ || _) eqn:El; [done|]. intros [= <-]. rewrite orb_false_iff, Z.leb_gt, Z.ltb_ge in El.
    rewrite Es, <- Hmode. split_and!; try done. rewrite Em. cbn [md_ExpiresAt]. unfold development_ttl. cbn [defaultTTL].
    destruct (_ && _) eqn:Ea; [rewrite andb_true_iff, !Z.ltb_lt in Ea|]; lia.
Qed.

(** ** Witnesses *)

Definition ex_environment (name : string) : option string :=
  if String.eqb name "API_TOKEN" then Some "s3cret"%string else None.
Definition ex_no_files (path : string) : result string := Err (ErrNew "file does not exist").
Definition ex_development : DevelopmentConfig := mkDevelopmentConfig ModeDevelopment None None 0.
Definition ex_development_provider : DevelopmentProvider :=
  mkDevelopmentProvider ex_environment (readBoundedSecret ex_no_files) (5 * Minute).
Definition ex_development_binding : CredentialBinding :=
  mkCredentialBinding (mkBindingDef (sample_id "b") (sample_id "t") (sample_id "c") []
    (mkProvider "development" "env:API_TOKEN" CapabilityAPIToken [] [] [])
    (mkDelegation DelegationNone "") (mkCachePolicy 0 0) "" [] true).
Definition ex_development_capability : Capability :=
  mkCapability (mkMetadata CapabilityAPIToken "env:API_TOKEN" "" [] [] [] Hour (Hour + 5 * Minute) "" "" "") "s3cret" false.

Lemma development_credentials_confined_witness :
  Load ex_no_files [] [] = Ok Default /\
  DevelopmentResolve ex_development_provider (mkResolution false Hour Hour) ex_development_binding
    (mkProviderContext "user" "run") = Ok ex_development_capability /\
  source_of ex_development_provider "env:API_TOKEN" "s3cret".
Proof.
  assert (Hl : Load ex_no_files [] [] = Ok Default) by (vm_compute; reflexivity).
  assert (Hr : DevelopmentResolve ex_development_provider (mkResolution false Hour Hour) ex_development_binding
    (mkProviderContext "user" "run") = Ok ex_development_capability) by (vm_compute; reflexivity).
  split; [exact Hl|]. split; [exact Hr|].
  exact (proj1 (proj2 (proj2 (proj2 (proj2 (proj2 (development_credentials_confined ex_no_files [] [] Default Hl ex_development ex_environment
    eq_refl) ex_development_provider (mkResolution false Hour Hour) ex_development_binding (mkProviderContext "user" "run")
    ex_development_capability eq_refl Hr)))))).
Defined.
