(* ===== verification/MockConnector.v ===== *)
(** * The mock connector

    [internal/adapters/connectors/mock/mock.go]: a connector whose answers are
    configured, with a record of its writes that reconciliation consults.  [Execute]
    holds the lock twice, before and after its delay, so an execution is two steps and
    concurrent executions interleave ([run]); the context and the timer decide together
    whether an execution is abandoned between them. *)
From Stdlib Require Import Ascii String.
From S2P Require Import Prelude GoStd Regex Json JsonParse Primitives ToolCatalog Ports ToolCalls.

Definition Read : string := "read".
Definition Write : string := "write".

Record Outcome := mkOutcome { out_Classification : string; out_Result : string; out_TransportError : bool; out_Applied : bool }.
Record Operation := mkOperation {
  op_Kind : string; op_Delay : Z; op_Outcomes : list Outcome; op_Reconciliation : string }.

(** [ports.ConnectorReconciliationRequest] and [ports.ConnectorReconciliationResult] *)
Record ConnectorReconciliationRequest := mkReconciliationRequest {
  rec_InvocationID : string; rec_Tool : ToolVersionDefinition; rec_Evidence : string }.
Record ConnectorReconciliationResult := mkReconciliationResult {
  rec_Outcome : string; rec_Result : string; rec_ResultEvidence : string }.

Record record := mkRecord { rcd_operation : string; rcd_result : string; rcd_applied : bool }.
Record MockConnector := mkMock { operations : gmap string Operation; calls : gmap string Z; records : gmap string record }.

Definition TransportError (operation : string) : goerror := ErrNew ("mock connector transport error for " +:+ operation).

Definition validClassification (value : string) : bool :=
  one_of_str value ["confirmed_success"; "definitely_rejected"; "not_sent"; "transient_safe"; "unknown"; "cancelled_pre_send"].
Definition validReconciliation (value : string) : bool :=
  one_of_str value ["confirmed_success"; "confirmed_not_applied"; "still_unknown"; "unsafe_to_retry"].

Definition valid_outcome (outcome : Outcome) : bool :=
  validClassification (out_Classification outcome)
  && ((slen (out_Result outcome) =? 0) || json_Valid (out_Result outcome)).

(** The body of the loop of [New]. *)
Definition check_operation (name : string) (operation : Operation) : result unit :=
  if String.eqb name "" || (negb (String.eqb (op_Kind operation) Read) && negb (String.eqb (op_Kind operation) Write))
     || (op_Delay operation <? 0) || (llen (op_Outcomes operation) =? 0) then
    Err (ErrNew ("invalid mock connector operation " +:+ name))
  else if negb (String.eqb (op_Reconciliation operation) "") && negb (validReconciliation (op_Reconciliation operation)) then
    Err (ErrNew ("invalid mock reconciliation outcome for " +:+ name))
  else if negb (forallb valid_outcome (op_Outcomes operation)) then Err (ErrNew ("invalid mock outcome for " +:+ name))
  else Ok tt.

Fixpoint check_operations (l : list (string * Operation)) : result unit :=
  match l with [] => Ok tt | (name, operation) :: l => _ ← check_operation name operation; check_operations l end.

Definition New (config : gmap string Operation) : result MockConnector :=
  if Z.of_nat (size config) =? 0 then Err (ErrNew "mock connector operations are required")
  else _ ← check_operations (map_to_list config); Ok (mkMock config ∅ ∅).

(** A missing key of a Go map reads as zero. *)
Definition Calls (connector : MockConnector) (operation : string) : Z := default 0 (calls connector !! operation).

Section Executions.
Context {Lease : Type}.

(** The first critical section: the operation and the outcome of this call. *)
Definition execute_begin (connector : MockConnector) (request : @ConnectorRequest Lease)
    : MockConnector * result (Operation * Outcome) :=
  let tool := Connector (creq_Tool request) in
  if String.eqb (creq_InvocationID request) "" || negb (String.eqb (ConnectorType tool) "mock")
     || negb (json_Valid (creq_CanonicalArguments request)) then
    (connector, Err (ErrNew "invalid mock connector request"))
  else
  match operations connector !! ToolCatalog.Operation tool with
  | None => (connector, Err (ErrNew "unknown mock connector operation"))
  | Some operation =>
      let index := Calls connector (ToolCatalog.Operation tool) in
      let connector := mkMock (operations connector) (<[ToolCatalog.Operation tool := index + 1]> (calls connector)) (records connector) in
      let index := if llen (op_Outcomes operation) <=? index then llen (op_Outcomes operation) - 1 else index in
      match op_Outcomes operation !! Z.to_nat index with
      | Some outcome => (connector, Ok (operation, outcome))
      | None => (connector, Err (ErrNew "index out of range"))
      end
  end.

(** The second one.  [abandoned]: the context ended before the timer of the delay. *)
Definition execute_finish (connector : MockConnector) (invocationID operationName : string) (operation : Operation)
    (outcome : Outcome) (abandoned : bool) : MockConnector * result ConnectorResult :=
  if (0 <? op_Delay operation) && abandoned then (connector, Err (ErrNew "context canceled")) else
  let connector :=
    if String.eqb (op_Kind operation) Write then
      mkMock (operations connector) (calls connector)
        (<[invocationID := mkRecord operationName (out_Result outcome)
             (out_Applied outcome || String.eqb (out_Classification outcome) "confirmed_success")]> (records connector))
    else connector in
  if out_TransportError outcome then (connector, Err (TransportError operationName))
  else (connector, Ok (mkConnectorResult (out_Classification outcome) (out_Result outcome) (mkEvidence "" "" "" ""))).

Definition json_bool (b : bool) : string := if b then "true"%string else "false"%string.

Definition Reconcile (connector : MockConnector) (cancelled : bool) (request : ConnectorReconciliationRequest)
    : result ConnectorReconciliationResult :=
  if cancelled then Err (ErrNew "context canceled") else
  let tool := Connector (rec_Tool request) in
  if String.eqb (rec_InvocationID request) "" || negb (String.eqb (ConnectorType tool) "mock")
     || (negb (slen (rec_Evidence request) =? 0) && negb (json_Valid (rec_Evidence request))) then
    Err (ErrNew "invalid mock reconciliation request")
  else
  let recorded := records connector !! rec_InvocationID request in
  let evidence := json_object [("applied"%string, json_bool (match recorded with Some r => rcd_applied r | None => false end));
                               ("mock_operation"%string, json_string (ToolCatalog.Operation tool));
                               ("recorded"%string, json_bool (is_some recorded))] in
  match operations connector !! ToolCatalog.Operation tool with
  | None => Err (ErrNew "mock operation is not reconcilable")
  | Some operation =>
      if negb (String.eqb (op_Kind operation) Write) || String.eqb (op_Reconciliation operation) ""
         || match recorded with Some r => negb (String.eqb (rcd_operation r) (ToolCatalog.Operation tool)) | None => false end then
        Err (ErrNew "mock operation is not reconcilable")
      else if String.eqb (op_Reconciliation operation) "confirmed_success" then
        match recorded with
        | Some r =>
            if rcd_applied r then Ok (mkReconciliationResult "confirmed_success" (rcd_result r) evidence)
            else Ok (mkReconciliationResult "confirmed_not_applied" "" evidence)
        | None => Ok (mkReconciliationResult "confirmed_not_applied" "" evidence)
        end
      else Ok (mkReconciliationResult (op_Reconciliation operation) "" evidence)
  end.

(** ** Interleaved executions *)

(** An execution between its two critical sections. *)
Record pending := mkPending { pd_invocation : string; pd_name : string; pd_operation : Operation; pd_outcome : Outcome }.

(** What happened: a call was given an outcome; a write reached the provider. *)
Inductive event := Began (operation : string) (outcome : Outcome) | Wrote (invocation operation : string) (outcome : Outcome).

Inductive run (config : gmap string Operation) : list event -> gmap nat pending -> MockConnector -> Prop :=
| run_new connector : New config = Ok connector -> run config [] ∅ connector
| run_refused events running connector request e :
    run config events running connector -> (execute_begin connector request).2 = Err e ->
    run config events running (execute_begin connector request).1
| run_begin events running connector request id operation outcome :
    run config events running connector -> running !! id = None ->
    (execute_begin connector request).2 = Ok (operation, outcome) ->
    run config (events ++ [Began (ToolCatalog.Operation (Connector (creq_Tool request))) outcome])
      (<[id := mkPending (creq_InvocationID request) (ToolCatalog.Operation (Connector (creq_Tool request))) operation outcome]> running)
      (execute_begin connector request).1
| run_finish events running connector id p abandoned :
    run config events running connector -> running !! id = Some p ->
    run config
      (events ++ if String.eqb (op_Kind (pd_operation p)) Write && negb ((0 <? op_Delay (pd_operation p)) && abandoned)
                 then [Wrote (pd_invocation p) (pd_name p) (pd_outcome p)] else [])
      (delete id running)
      (execute_finish connector (pd_invocation p) (pd_name p) (pd_operation p) (pd_outcome p) abandoned).1.
End Executions.

(** The last write of an invocation. *)
Definition last_write (invocation : string) (events : list event) : option (string * Outcome) :=
  foldl (fun last e => match e with
                       | Wrote i name outcome => if String.eqb i invocation then Some (name, outcome) else last
                       | Began _ _ => last end) None events.
(** The outcomes the calls of an operation were given, in order. *)
Definition outcomes_of (name : string) (events : list event) : list Outcome :=
  omap (fun e => match e with Began n outcome => if String.eqb n name then Some outcome else None | Wrote _ _ _ => None end) events.

Definition applied (outcome : Outcome) : bool := out_Applied outcome || String.eqb (out_Classification outcome) "confirmed_success".

(** ** Lemmas *)

Lemma check_operations_ok l : check_operations l = Ok tt -> Forall (fun kv => check_operation kv.1 kv.2 = Ok tt) l.
Proof.
  induction l as [|[name operation] l IH]; [done|]. cbn [check_operations].
  destruct (check_operation name operation) as [[]|] eqn:E; [|done]. cbn. auto.
Qed.

Lemma New_ok config connector : New config = Ok connector ->
  connector = mkMock config ∅ ∅ /\ forall name operation, config !! name = Some operation ->
  op_Outcomes operation <> [] /\ Forall (fun o => validClassification (out_Classification o) = true) (op_Outcomes operation) /\
  (op_Reconciliation operation = EmptyString \/ validReconciliation (op_Reconciliation operation) = true).
Proof.
  unfold New. destruct (_ =? 0); [done|]. destruct (check_operations _) as [[]|] eqn:E; [|done]. intros [= <-].
  split; [done|]. intros name operation Hl. apply elem_of_map_to_list in Hl.
  apply check_operations_ok in E. apply (proj1 (list.Forall_forall _ _) E) in Hl. cbn [fst snd] in Hl. revert Hl.
  unfold check_operation. destruct (String.eqb name "" || _ || _ || _) eqn:E1; [done|].
  destruct (negb (String.eqb (op_Reconciliation _) _) && _) eqn:E2; [done|].
  destruct (forallb valid_outcome _) eqn:E3; [|done]. intros _. rewrite !orb_false_iff in E1.
  rewrite andb_false_iff, !negb_false_iff, String.eqb_eq in E2. split_and!.
  - intros En. rewrite En in E1. by destruct E1 as [_ ?].
  - apply list.Forall_forall. intros o Ho%list_elem_of_In. rewrite forallb_forall in E3. apply E3 in Ho. unfold valid_outcome in Ho.
    by apply andb_true_iff in Ho as [? _].
  - done.
Qed.

(** Every state of a run is explained by the events so far. *)
Record explained (config : gmap string Operation) (events : list event) (running : gmap nat pending)
    (connector : MockConnector) : Prop := {
  ex_operations : operations connector = config;
  ex_running : forall id p, running !! id = Some p ->
    config !! pd_name p = Some (pd_operation p) /\ pd_outcome p ∈ op_Outcomes (pd_operation p);
  ex_records : forall i, records connector !! i =
    (fun '(name, outcome) => mkRecord name (out_Result outcome) (applied outcome)) <$> last_write i events;
  ex_calls : forall name, Calls connector name = llen (outcomes_of name events);
  ex_outcomes : forall name operation k outcome, config !! name = Some operation ->
    outcomes_of name events !! k = Some outcome ->
    op_Outcomes operation !! Nat.min k (length (op_Outcomes operation) - 1) = Some outcome;
}.

Lemma last_write_app i events e : last_write i (events ++ [e]) =
  match e with Wrote i' name outcome => if String.eqb i' i then Some (name, outcome) else last_write i events | Began _ _ => last_write i events end.
Proof. unfold last_write. by rewrite foldl_app. Qed.
Lemma outcomes_of_app name events e : outcomes_of name (events ++ [e]) = outcomes_of name events ++
  match e with Began n outcome => if String.eqb n name then [outcome] else [] | Wrote _ _ _ => [] end.
Proof. unfold outcomes_of. rewrite omap_app. destruct e as [n o|]; [|done]. cbn. by destruct (String.eqb n name). Qed.

Section Explained.
Context {Lease : Type} (config : gmap string Operation).

Lemma begin_ok (connector : MockConnector) (request : @ConnectorRequest Lease) operation outcome :
  (execute_begin connector request).2 = Ok (operation, outcome) ->
  let name := ToolCatalog.Operation (Connector (creq_Tool request)) in
  operations connector !! name = Some operation /\
  op_Outcomes operation !! Z.to_nat (if llen (op_Outcomes operation) <=? Calls connector name
                                     then llen (op_Outcomes operation) - 1 else Calls connector name) = Some outcome /\
  (execute_begin connector request).1
  = mkMock (operations connector) (<[name := Calls connector name + 1]> (calls connector)) (records connector).
Proof.
  unfold execute_begin. destruct (_ || _); [done|]. cbv zeta.
  destruct (operations connector !! _) as [op|]; [|done]. destruct (op_Outcomes op !! _) as [o|] eqn:Eo; [|done].
  intros [= -> ->]. done.
Qed.

(** A refused call leaves no trace: an operation always has an outcome to give. *)
Lemma begin_refused (connector : MockConnector) (request : @ConnectorRequest Lease) e :
  (forall name operation, operations connector !! name = Some operation -> op_Outcomes operation <> []) ->
  (forall name, 0 <= Calls connector name) ->
  (execute_begin connector request).2 = Err e -> (execute_begin connector request).1 = connector.
Proof.
  intros Hne Hc. unfold execute_begin. destruct (_ || _); [done|]. cbv zeta.
  destruct (operations connector !! _) as [op|] eqn:Eop; [|done].
  destruct (op_Outcomes op !! _) as [o|] eqn:Eo; [done|]. exfalso. apply Hne in Eop.
  apply lookup_ge_None in Eo. specialize (Hc (ToolCatalog.Operation (Connector (creq_Tool request)))).
  assert (0 < length (op_Outcomes op))%nat by (destruct (op_Outcomes op); [done|cbn; lia]). revert Eo. unfold llen in *.
  destruct (_ <=? _) eqn:El; [|apply Z.leb_gt in El]; lia.
Qed.

(** A call that begins is given the outcome its number calls for. *)
Lemma begin_explained events running (connector : MockConnector) (request : @ConnectorRequest Lease) id operation outcome :
  explained config events running connector ->
  (forall name operation, config !! name = Some operation -> op_Outcomes operation <> []) ->
  (execute_begin connector request).2 = Ok (operation, outcome) ->
  let name := ToolCatalog.Operation (Connector (creq_Tool request)) in
  explained config (events ++ [Began name outcome])
    (<[id := mkPending (creq_InvocationID request) name operation outcome]> running) (execute_begin connector request).1.
Proof.
  intros [Ho Hr Hrec Hc Hout] Hne Hok. destruct (begin_ok _ _ _ _ Hok) as (Hop & Hlook & ->). cbv zeta.
  set (name := ToolCatalog.Operation _) in *. rewrite Ho in *. constructor; cbn [operations calls records].
  - done.
  - intros id' p. rewrite lookup_insert_Some. intros [[<- <-]|[_ Hp]]; [|by apply Hr in Hp]. cbn.
    split; [done|]. by apply list_elem_of_lookup_2 in Hlook.
  - intros i. rewrite last_write_app. apply Hrec.
  - intros n. rewrite outcomes_of_app. unfold Calls in *. cbn [calls]. destruct (String.eqb_spec name n) as [<-|Hn].
    + rewrite lookup_insert_eq. cbn. rewrite Hc. unfold llen. rewrite length_app. cbn. lia.
    + rewrite lookup_insert_ne, app_nil_r by done. apply Hc.
  - intros n op k o Hcfg. rewrite outcomes_of_app. destruct (String.eqb_spec name n) as [<-|Hn]; [|rewrite app_nil_r; by apply Hout].
    rewrite lookup_app_Some. intros [Hk|[Hge Hk]]; [by apply (Hout name)|].
    apply list_lookup_singleton_Some in Hk as [Hk <-]. rewrite Hop in Hcfg. injection Hcfg as <-. rewrite <- Hlook. f_equal.
    rewrite Hc. unfold llen. apply Hne in Hop.
    assert (0 < length (op_Outcomes operation))%nat by (destruct (op_Outcomes operation); [done|cbn; lia]).
    destruct (Z.leb_spec (Z.of_nat (length (op_Outcomes operation))) (Z.of_nat (length (outcomes_of name events)))); lia.
Qed.

(** A write that happens is the one its invocation's record holds. *)
Lemma wrote_explained events running (connector : MockConnector) invocation name outcome :
  explained config events running connector ->
  explained config (events ++ [Wrote invocation name outcome]) running
    (mkMock (operations connector) (calls connector)
       (<[invocation := mkRecord name (out_Result outcome) (applied outcome)]> (records connector))).
Proof.
  intros [Ho Hr Hrec Hc Hout]. constructor; cbn [operations calls records]; [done|done| |..].
  - intros i. rewrite last_write_app. destruct (String.eqb_spec invocation i) as [<-|Hi].
    + by rewrite lookup_insert_eq.
    + by rewrite lookup_insert_ne.
  - intros n. rewrite outcomes_of_app, app_nil_r. apply Hc.
  - intros n op k o. rewrite outcomes_of_app, app_nil_r. apply Hout.
Qed.

(** A call that ends takes its promise along. *)
Lemma ended_explained events running connector id :
  explained config events running connector -> explained config events (delete id running) connector.
Proof. intros [Ho Hr Hrec Hc Hout]. constructor; [done| |done..]. intros id' p' [_ Hp]%lookup_delete_Some. by apply Hr in Hp. Qed.

Lemma run_explained events running connector : run (Lease := Lease) config events running connector ->
  explained config events running connector /\
  (forall name operation, config !! name = Some operation -> op_Outcomes operation <> []).
Proof.
  induction 1 as [connector Hnew|events running connector request e Hrun [IH Hne] He
                 |events running connector request id operation outcome Hrun [IH Hne] Hid Hok
                 |events running connector id p abandoned Hrun [IH Hne] Hid].
  - apply New_ok in Hnew as [-> Hall]. split; [|intros name op Hop; by apply Hall in Hop as [? _]].
    constructor; cbn; try done; intros; by rewrite ?lookup_empty in *.
  - rewrite (begin_refused _ _ e); [by split| | |done]; destruct IH as [Ho _ _ Hc _]; [by rewrite Ho|].
    intros name. rewrite Hc. unfold llen. lia.
  - split; [|done]. by apply begin_explained.
  - split; [|done]. apply (ended_explained _ _ _ id) in IH. unfold execute_finish.
    destruct (String.eqb (op_Kind (pd_operation p)) Write) eqn:Ek, ((0 <? op_Delay (pd_operation p)) && abandoned) eqn:Ea;
      cbn [andb negb]; rewrite ?app_nil_r; try exact IH;
      destruct (out_TransportError _); first [exact IH|by apply wrote_explained].
Qed.
End Explained.

(** ** Properties *)

(** Reconciliation tells what the writes did.  Whatever executions interleave, the
    outcomes the calls of an operation are given are the configured ones in order, the
    last one repeated; all have a public state in the service.  A reconciliation the
    connector answers is about a write operation that declares one; when it declares
    success, the answer is success, with the result of the last write of this invocation,
    if that write was applied, and not applied otherwise; any other declaration is the
    answer itself. *)
Theorem mock_reconciles_writes {Lease : Type} (config : gmap string Operation) (events : list event)
    (running : gmap nat pending) (connector : MockConnector) (request : ConnectorReconciliationRequest)
    (answer : ConnectorReconciliationResult)
    (Hrun : run (Lease := Lease) config events running connector)
    (Hanswer : Reconcile connector false request = Ok answer) :
  let name := ToolCatalog.Operation (Connector (rec_Tool request)) in
  (forall n operation k outcome, config !! n = Some operation -> outcomes_of n events !! k = Some outcome ->
     op_Outcomes operation !! Nat.min k (length (op_Outcomes operation) - 1) = Some outcome) /\
  exists operation, config !! name = Some operation /\ op_Kind operation = Write /\
    (op_Reconciliation operation <> "confirmed_success"%string -> rec_Outcome answer = op_Reconciliation operation) /\
    (op_Reconciliation operation = "confirmed_success"%string ->
       match last_write (rec_InvocationID request) events with
       | Some (written, outcome) =>
           written = name /\
           if applied outcome then rec_Outcome answer = "confirmed_success"%string /\ rec_Result answer = out_Result outcome
           else rec_Outcome answer = "confirmed_not_applied"%string
       | None => rec_Outcome answer = "confirmed_not_applied"%string
       end).
Proof.
  intros name. destruct (run_explained config events running connector Hrun) as [[Ho Hr Hrec Hc Hout] _].
  split; [exact Hout|]. revert Hanswer. unfold Reconcile. destruct (_ || _); [done|]. cbv zeta. fold name. rewrite Hrec, Ho.
  destruct (config !! name) as [operation|]; [|done]. destruct (negb (String.eqb (op_Kind operation) Write) || _ || _) eqn:Ek; [done|].
  rewrite !orb_false_iff, negb_false_iff, String.eqb_eq in Ek. destruct Ek as [[Hkind _] Hname].
  intros Ha. exists operation. split_and!; [done|done|..].
  - intros Hne. rewrite (proj2 (String.eqb_neq _ _) Hne) in Ha. by injection Ha as <-.
  - intros Hs. rewrite Hs, String.eqb_refl in Ha. destruct (last_write _ events) as [[written outcome]|];
      cbn [fmap option_fmap option_map rcd_operation rcd_applied rcd_result] in Ha, Hname.
    + apply negb_false_iff, String.eqb_eq in Hname. split; [done|]. by destruct (applied outcome); injection Ha as <-.
    + by injection Ha as <-.
Qed.

(** Every outcome a configured connector can give has a public state in the service. *)
Lemma mock_classified config connector name operation outcome :
  New config = Ok connector -> config !! name = Some operation -> outcome ∈ op_Outcomes operation ->
  is_some (connectorState (out_Classification outcome)) = true.
Proof.
  intros [_ Hall]%New_ok Hop Ho. apply Hall in Hop as (_ & Hv & _). apply (proj1 (list.Forall_forall _ _) Hv) in Ho.
  revert Ho. unfold validClassification, connectorState, one_of_str. cbn [existsb].
  repeat match goal with |- context [String.eqb ?c ?s] => destruct (String.eqb c s); cbn [orb]; try done end.
Qed.

(** ** Witness: an unknown write that was applied *)

Definition ex_mock : gmap string Operation :=
  {[ "pay"%string := mkOperation Write 0 [mkOutcome "unknown" "{}" false true] "confirmed_success" ]}.
Definition ex_mock_tool : ToolVersionDefinition :=
  mkDefinition "mock.pay" (mkSemVer "1.0.0" 1 0 0 []) RiskBoundedWrite true RetryNonRetryable ApprovalPolicy false
    (mkDescription "t" "d" "r") "{}" "{}" "jcs-v1" (mkBinding "mock" "pay" "default") "mock.key" ""
    (mkProjection [] 0 0) (mkMetering "tool.calls" "1" MeterAtAttempt MeterPerLogicalInvocation)
    (ToolCatalog.mkLimits 65536 65536 (10 * Second) 10 3).
Definition ex_mock_grant : AuthorizationDecision :=
  mkDecision "d" "r" "x" "p" "1" AuthorizationAllow [ReasonAllowed] 1 1 9 0 "c"
    (mkConstraints [] [] [] ∅ 0 0) (mkApproval false "") "e".
Definition ex_mock_request : @ConnectorRequest unit := mkConnectorRequest "i-1" ex_mock_tool "{}" "{}" ex_mock_grant tt.
Definition ex_mock_outcome : Outcome := mkOutcome "unknown" "{}" false true.
Definition ex_mock_operation : Operation := mkOperation Write 0 [ex_mock_outcome] "confirmed_success".
Definition ex_mock_written : MockConnector :=
  (execute_finish (execute_begin (mkMock ex_mock ∅ ∅) ex_mock_request).1 "i-1" "pay" ex_mock_operation ex_mock_outcome false).1.

Lemma ex_mock_run : run (Lease := unit) ex_mock [Began "pay" ex_mock_outcome; Wrote "i-1" "pay" ex_mock_outcome]
  (delete 0%nat {[ 0%nat := mkPending "i-1" "pay" ex_mock_operation ex_mock_outcome ]}) ex_mock_written.
Proof.
  exact (run_finish ex_mock _ _ _ 0%nat (mkPending "i-1" "pay" ex_mock_operation ex_mock_outcome) false
    (run_begin ex_mock [] ∅ (mkMock ex_mock ∅ ∅) ex_mock_request 0%nat ex_mock_operation ex_mock_outcome
       (run_new ex_mock _ eq_refl) eq_refl eq_refl) eq_refl).
Qed.

Lemma mock_reconciles_writes_witness : exists answer,
  Reconcile ex_mock_written false (mkReconciliationRequest "i-1" ex_mock_tool "") = Ok answer /\
  rec_Outcome answer = "confirmed_success"%string /\ rec_Result answer = "{}"%string.
Proof.
  eexists. assert (Ha : Reconcile ex_mock_written false (mkReconciliationRequest "i-1" ex_mock_tool "") = Ok _)
    by (vm_compute; reflexivity).
  split; [exact Ha|].
  destruct (mock_reconciles_writes ex_mock _ _ _ _ _ ex_mock_run Ha) as (_ & operation & Hop & _ & _ & H).
  assert (E : Some ex_mock_operation = Some operation) by exact Hop. injection E as <-.
  exact (proj2 (H eq_refl)).
Defined.
