(* ===== verification/Logging.v ===== *)
(** * Structured logging with redaction

    [internal/telemetry/logging.go].  What a log attribute holds is a graph of Go
    values: pointers, maps and slices refer to shared cells, which may be cyclic.  The
    graph is the [store]; the redaction walks it the way the code does with [reflect],
    with fuel for its recursion, and builds the value the sink receives.  Values are
    those [slog.Value.Resolve] returns; map keys are given as [fmt.Sprint] renders
    them. *)
From Stdlib Require Import Ascii String.
From S2P Require Import Prelude GoStd Regex Json Primitives ToolCatalog GoText.

Definition AttrEvent : string := "event.name".
Definition AttrRequestID : string := "request.id".
Definition AttrTraceID : string := "trace.id".
Definition Redacted : string := "[REDACTED]".

Definition lower_digit : regex := one_of [is_lower; is_digit].
Definition eventNamePattern : regex :=
  RSeq (RClass is_lower) (RSeq (RStar lower_digit)
    (RPlus (RSeq (RChar ".") (RSeq (RClass is_lower) (RStar (one_of [is_lower; is_digit; Ascii.eqb "_"])))))).

(** ** Values as [reflect] sees them *)

(** A value of a kind the code does not look into, as its rendering. *)
Record leaf := mkLeaf { leaf_interfaceable : bool; leaf_text : string }.

(** [GPtr], [GMap] and [GSlice] refer to cells of the store, [None] is nil.  A field has
    its name, its [json] tag and whether it is exported. *)
Inductive gvalue :=
| GInvalid
| GInterface (elem : gvalue)
| GPtr (target : option nat)
| GMap (cell : option nat)
| GStruct (fields : list (string * string * bool * gvalue))
| GSlice (cell : option nat)
| GArray (elems : list gvalue)
| GOther (l : leaf).

(** Two pointers may have one address, as a struct and its first field do. *)
Record store := mkStore {
  pointees : gmap nat gvalue;
  addresses : nat -> nat;
  maps : gmap nat (list (string * gvalue));
  slices : gmap nat (list gvalue);
}.

(** What is handed to the sink.  [RMap] lists the writes to a fresh map. *)
Inductive rvalue :=
| RNil
| RText (s : string)
| RLeaf (l : leaf)
| RMap (writes : list (string * rvalue))
| RSlice (elems : list rvalue).

(** ** Sensitive names *)

Fixpoint replace_separators (s : string) : string :=
  match s with
  | EmptyString => EmptyString
  | String c s => String (if Ascii.eqb c "-" || Ascii.eqb c "." then "_"%char else c) (replace_separators s)
  end.

Definition sensitive_fragments : list string :=
  ["authorization"; "password"; "passwd"; "secret"; "token"; "api_key"; "cookie"; "credential"; "private_key"]%string.
Definition sensitiveKey (key : string) : bool :=
  existsb (str_contains (ToLower (replace_separators key))) sensitive_fragments.

(** The name of a field in the output. *)
Definition field_name (name tag : string) : string :=
  let first := (cut_on "," tag).1.1 in if String.eqb first "" then name else first.

(** ** Redaction *)

Section Redact.
Context (st : store).

Definition map_cell (cell : option nat) : list (string * gvalue) :=
  match cell with Some m => default [] (maps st !! m) | None => [] end.
Definition slice_cell (cell : option nat) : list gvalue :=
  match cell with Some s => default [] (slices st !! s) | None => [] end.

(** The fields that are written, with their names. *)
Fixpoint visible_fields (fields : list (string * string * bool * gvalue)) : list (string * gvalue) :=
  match fields with
  | [] => []
  | (name, tag, exported, value) :: fields =>
      if negb exported || String.eqb (field_name name tag) "-" then visible_fields fields
      else (field_name name tag, value) :: visible_fields fields
  end.

(** One entry of a map or struct: a sensitive name hides its value. *)
Definition redact_entry (visit : gvalue -> option rvalue) (kv : string * gvalue) : option (string * rvalue) :=
  if sensitiveKey kv.1 then Some (kv.1, RText Redacted) else visit kv.2 ≫= fun r => Some (kv.1, r).

(** The body of [redactReflect], with its recursive calls as [visit]. *)
Definition redact_step (visit : gset nat -> gvalue -> option rvalue) (seen : gset nat) (value : gvalue) : option rvalue :=
  match value with
  | GInvalid => Some RNil
  | GInterface elem => visit seen elem
  | GPtr None => Some RNil
  | GPtr (Some target) =>
      let pointer := addresses st target in
      if bool_decide (pointer ∈ seen) then Some (RText "[CYCLE]")
      else visit ({[ pointer ]} ∪ seen) (default GInvalid (pointees st !! target))
  | GMap cell => mapM (redact_entry (visit seen)) (map_cell cell) ≫= fun writes => Some (RMap writes)
  | GStruct fields => mapM (redact_entry (visit seen)) (visible_fields fields) ≫= fun writes => Some (RMap writes)
  | GSlice cell => mapM (visit seen) (slice_cell cell) ≫= fun elems => Some (RSlice elems)
  | GArray elems => mapM (visit seen) elems ≫= fun elems => Some (RSlice elems)
  | GOther l => Some (if leaf_interfaceable l then RLeaf l else RText "[UNAVAILABLE]")
  end.

Fixpoint redactReflect (fuel : nat) : gset nat -> gvalue -> option rvalue :=
  match fuel with O => fun _ _ => None | S fuel => redact_step (redactReflect fuel) end.

Definition redactAny (fuel : nat) (input : gvalue) : option rvalue := redactReflect fuel ∅ input.
End Redact.

(** ** Attributes and the handler *)

(** [slog.Attr] by the kind of its value: a group, any Go value, or a plain value. *)
Inductive attr := mkAttr (key : string) (value : attr_value)
with attr_value := VGroup (attrs : list attr) | VAny (v : gvalue) | VPlain (l : leaf).

(** The attribute a sink receives. *)
Inductive clean_attr := mkClean (key : string) (value : clean_value)
with clean_value := CGroup (attrs : list clean_attr) | CAny (r : rvalue) | CPlain (l : leaf).

Fixpoint redactAttr (st : store) (fuel : nat) (a : attr) : option clean_attr :=
  let '(mkAttr key value) := a in
  if sensitiveKey key then Some (mkClean key (CPlain (mkLeaf true Redacted))) else
  match value with
  | VGroup attrs => mapM (redactAttr st fuel) attrs ≫= fun clean => Some (mkClean key (CGroup clean))
  | VAny v => redactAny st fuel v ≫= fun r => Some (mkClean key (CAny r))
  | VPlain l => Some (mkClean key (CPlain l))
  end.

(** [slog.Record] and the sink behind the handler *)
Record log_record := mkLogRecord { lr_Message : string; lr_Attrs : list attr }.

Section Handler.
Context {S : Type} (next_Handle : S -> string -> list clean_attr -> S) (next_WithAttrs : S -> list clean_attr -> S)
  (next_WithGroup : S -> string -> S).

Definition Handle (st : store) (fuel : nat) (next : S) (r : log_record) : option S :=
  mapM (redactAttr st fuel) (lr_Attrs r) ≫= fun clean => Some (next_Handle next (lr_Message r) clean).
Definition WithAttrs (st : store) (fuel : nat) (next : S) (attrs : list attr) : option S :=
  mapM (redactAttr st fuel) attrs ≫= fun clean => Some (next_WithAttrs next clean).
Definition WithGroup (next : S) (name : string) : S := next_WithGroup next name.
End Handler.

(** ** Events *)

Definition bounded (value : string) (limit : Z) : string :=
  if slen value <=? limit then value else String.substring 0 (Z.to_nat limit) value.

(** The two correlation values of a context. *)
Definition WithCorrelation (requestID traceID : string) : string * string := (bounded requestID 128, bounded traceID 64).

Definition plain_text (s : string) : attr_value := VPlain (mkLeaf true s).
Definition LogEvent (correlation : string * string) (event : string) (attrs : list attr) : result log_record :=
  if negb (matches eventNamePattern event) then Err (ErrNew "invalid event name") else
  let '(requestID, traceID) := correlation in
  Ok (mkLogRecord event
    ([mkAttr AttrEvent (plain_text event)]
     ++ (if String.eqb requestID "" then [] else [mkAttr AttrRequestID (plain_text requestID)])
     ++ (if String.eqb traceID "" then [] else [mkAttr AttrTraceID (plain_text traceID)]) ++ attrs)).

(** ** What redaction may look at *)

(** [scrub] removes what must never reach a sink: whatever is stored under a sensitive
    name, and fields that are not exported. *)
Definition hidden_field (name tag : string) (exported : bool) : bool :=
  negb exported || String.eqb (field_name name tag) "-" || sensitiveKey (field_name name tag).

Fixpoint scrub (v : gvalue) : gvalue :=
  match v with
  | GInterface elem => GInterface (scrub elem)
  | GStruct fields =>
      GStruct (map (fun '(name, tag, exported, value) =>
        (name, tag, exported, if hidden_field name tag exported then GInvalid else scrub value)) fields)
  | GArray elems => GArray (map scrub elems)
  | v => v
  end.
Definition scrub_entry (kv : string * gvalue) : string * gvalue :=
  (kv.1, if sensitiveKey kv.1 then GInvalid else scrub kv.2).
Definition scrub_store (st : store) : store :=
  mkStore (scrub <$> pointees st) (addresses st) (map scrub_entry <$> maps st) (map scrub <$> slices st).
Fixpoint scrub_attr (a : attr) : attr :=
  let '(mkAttr key value) := a in
  mkAttr key (if sensitiveKey key then plain_text "" else
    match value with VGroup attrs => VGroup (map scrub_attr attrs) | VAny v => VAny (scrub v) | v => v end).

(** How a logger is derived from another one ([slog.Logger.With] and [WithGroup]), each
    time with the Go values there are at the time, and what it then logs. *)
Inductive derivation := DWithAttrs (st : store) (attrs : list attr) | DWithGroup (name : string).

Section Derive.
Context {S : Type} (next_Handle : S -> string -> list clean_attr -> S) (next_WithAttrs : S -> list clean_attr -> S)
  (next_WithGroup : S -> string -> S) (fuel : nat).

Fixpoint derive (next : S) (ds : list derivation) : option S :=
  match ds with
  | [] => Some next
  | DWithAttrs st attrs :: ds => WithAttrs next_WithAttrs st fuel next attrs ≫= fun next => derive next ds
  | DWithGroup name :: ds => derive (WithGroup next_WithGroup next name) ds
  end.
Definition logged (next : S) (ds : list derivation) (st : store) (r : log_record) : option S :=
  derive next ds ≫= fun next => Handle next_Handle st fuel next r.
End Derive.

Definition same_but_secrets (d d' : derivation) : Prop :=
  match d, d' with
  | DWithAttrs st attrs, DWithAttrs st' attrs' =>
      scrub_store st = scrub_store st' /\ map scrub_attr attrs = map scrub_attr attrs'
  | DWithGroup name, DWithGroup name' => name = name'
  | _, _ => False
  end.

(** ** Lemmas *)

Lemma mapM_map_ext {A B} (f f' : A -> option B) (g : A -> A) l : (forall a, f a = f' (g a)) -> mapM f l = mapM f' (map g l).
Proof. intros H. induction l as [|a l IH]; [done|]. cbn. by rewrite H, IH. Qed.

Lemma visible_scrubbed fields :
  visible_fields (map (fun '(name, tag, exported, value) =>
    (name, tag, exported, if hidden_field name tag exported then GInvalid else scrub value)) fields)
  = map scrub_entry (visible_fields fields).
Proof.
  induction fields as [|[[[name tag] exported] value] fields IH]; [done|].
  cbn [map visible_fields]. rewrite IH. unfold hidden_field.
  destruct (negb exported || String.eqb (field_name name tag) "-"); [done|].
  cbn [orb map]. unfold scrub_entry at 2. cbn [fst snd]. by destruct (sensitiveKey (field_name name tag)).
Qed.

Lemma redact_scrubbed st fuel : forall seen v,
  redactReflect st fuel seen v = redactReflect (scrub_store st) fuel seen (scrub v).
Proof.
  induction fuel as [|fuel IH]; intros seen v; [done|]. cbn [redactReflect].
  assert (He : forall kv, redact_entry (redactReflect st fuel seen) kv
                          = redact_entry (redactReflect (scrub_store st) fuel seen) (scrub_entry kv)).
  { intros [k v']. unfold redact_entry, scrub_entry. cbn [fst snd]. destruct (sensitiveKey k); [done|]. by rewrite IH. }
  destruct v as [|elem|[target|]|[cell|]|fields|[cell|]|elems|l]; cbn [redact_step scrub]; try done.
  - cbv zeta. cbn [scrub_store addresses pointees]. destruct (bool_decide _); [done|].
    rewrite IH, lookup_fmap. by destruct (pointees st !! target).
  - f_equal. unfold map_cell. cbn [maps scrub_store]. rewrite lookup_fmap. destruct (maps st !! cell) as [l|]; [|done].
    cbn. by apply mapM_map_ext.
  - rewrite visible_scrubbed. f_equal. by apply mapM_map_ext.
  - f_equal. unfold slice_cell. cbn [slices scrub_store]. rewrite lookup_fmap. destruct (slices st !! cell) as [l|]; [|done].
    cbn. by apply mapM_map_ext.
  - f_equal. by apply mapM_map_ext.
Qed.

Lemma attr_scrubbed st fuel : forall a, redactAttr st fuel a = redactAttr (scrub_store st) fuel (scrub_attr a).
Proof.
  fix IH 1. intros [key value]. cbn [redactAttr scrub_attr]. destruct (sensitiveKey key); [done|].
  destruct value as [attrs|v|l]; [|unfold redactAny; by rewrite redact_scrubbed|done].
  assert (E : mapM (redactAttr st fuel) attrs = mapM (redactAttr (scrub_store st) fuel) (map scrub_attr attrs));
    [|by rewrite E].
  induction attrs as [|a attrs IHl]; [done|]. cbn. by rewrite IH, IHl.
Qed.

Definition attr_key (a : attr) : string := let '(mkAttr key _) := a in key.

Lemma redactAttr_key st fuel a c : redactAttr st fuel a = Some c ->
  exists v, c = mkClean (attr_key a) v /\ (sensitiveKey (attr_key a) = true -> v = CPlain (mkLeaf true Redacted)).
Proof.
  destruct a as [key value]. cbn [redactAttr attr_key]. destruct (sensitiveKey key); [intros [= <-]; eauto|].
  destruct value as [attrs|v|l]; [destruct (mapM _ _)|destruct (redactAny _ _ _)|]; cbn; try done; intros [= <-]; by eexists.
Qed.

(** What the sink receives of attributes. *)
Definition marked (a : attr) (c : clean_attr) : Prop :=
  exists v, c = mkClean (attr_key a) v /\ (sensitiveKey (attr_key a) = true -> v = CPlain (mkLeaf true Redacted)).

Lemma attrs_marked st fuel attrs clean : mapM (redactAttr st fuel) attrs = Some clean -> Forall2 marked attrs clean.
Proof. intros Hc%mapM_Some. eapply list.Forall2_impl; [exact Hc|]. intros a c. apply redactAttr_key. Qed.

Lemma attrs_scrubbed st st' fuel attrs attrs' : scrub_store st = scrub_store st' ->
  map scrub_attr attrs = map scrub_attr attrs' -> mapM (redactAttr st fuel) attrs = mapM (redactAttr st' fuel) attrs'.
Proof.
  intros Hs Ha. rewrite (mapM_map_ext _ _ _ attrs (attr_scrubbed st fuel)), Hs, Ha.
  by rewrite <- (mapM_map_ext _ _ _ attrs' (attr_scrubbed st' fuel)).
Qed.

Lemma derive_scrubbed {S : Type} (next_WithAttrs : S -> list clean_attr -> S) (next_WithGroup : S -> string -> S) fuel ds ds' :
  Forall2 same_but_secrets ds ds' -> forall next,
  derive next_WithAttrs next_WithGroup fuel next ds = derive next_WithAttrs next_WithGroup fuel next ds'.
Proof.
  induction 1 as [|d d' ds ds' Hd _ IH]; intros next; [done|].
  destruct d as [st attrs|name], d' as [st' attrs'|name']; cbn [same_but_secrets derive] in *; try done.
  - destruct Hd as [Hs Ha]. unfold WithAttrs. rewrite (attrs_scrubbed _ _ fuel _ _ Hs Ha).
    destruct (mapM _ _); cbn; [apply IH|done].
  - subst. apply IH.
Qed.

(** ** Termination *)

Lemma mapM_some_mono {A B} (f g : A -> option B) l r :
  (forall a b, f a = Some b -> g a = Some b) -> mapM f l = Some r -> mapM g l = Some r.
Proof.
  intros H. revert r. induction l as [|a l IH]; intros r; [done|]. cbn.
  destruct (f a) as [b|] eqn:Ea; [|done]. cbn. rewrite (H _ _ Ea). cbn.
  destruct (mapM f l) as [bs|]; [|done]. cbn. by rewrite (IH bs).
Qed.

Lemma mapM_total {A B} (f : A -> option B) l : Forall (fun a => is_some (f a) = true) l -> is_some (mapM f l) = true.
Proof.
  induction 1 as [|a l Ha _ IH]; [done|]. cbn. destruct (f a); [|done]. cbn. by destruct (mapM f l).
Qed.

(** More fuel does not change a result. *)
Lemma redact_step_mono st visit visit' seen v r :
  (forall s v r, visit s v = Some r -> visit' s v = Some r) ->
  redact_step st visit seen v = Some r -> redact_step st visit' seen v = Some r.
Proof.
  intros H. assert (He : forall kv e, redact_entry (visit seen) kv = Some e -> redact_entry (visit' seen) kv = Some e).
  { intros [k v'] e. unfold redact_entry. cbn [fst snd]. destruct (sensitiveKey k); [done|].
    destruct (visit seen v') as [r'|] eqn:E; [|done]. by rewrite (H _ _ _ E). }
  destruct v as [|elem|[target|]|cell|fields|cell|elems|l]; cbn [redact_step]; try done.
  - apply H.
  - cbv zeta. destruct (bool_decide _); [done|]. apply H.
  - destruct (mapM _ (map_cell st cell)) as [w|] eqn:E; [|done]. intros [= <-]. by rewrite (mapM_some_mono _ _ _ _ He E).
  - destruct (mapM _ (visible_fields fields)) as [w|] eqn:E; [|done]. intros [= <-]. by rewrite (mapM_some_mono _ _ _ _ He E).
  - destruct (mapM _ (slice_cell st cell)) as [w|] eqn:E; [|done]. intros [= <-]. by rewrite (mapM_some_mono _ _ _ _ (H seen) E).
  - destruct (mapM _ elems) as [w|] eqn:E; [|done]. intros [= <-]. by rewrite (mapM_some_mono _ _ _ _ (H seen) E).
Qed.

Lemma redact_more_fuel st fuel fuel' : (fuel <= fuel')%nat -> forall seen v r,
  redactReflect st fuel seen v = Some r -> redactReflect st fuel' seen v = Some r.
Proof.
  revert fuel'. induction fuel as [|fuel IH]; intros fuel' Hle seen v r; [done|].
  destruct fuel' as [|fuel']; [lia|]. cbn [redactReflect]. apply redact_step_mono. intros s v' r'. apply IH. lia.
Qed.

(** How deep a value nests before it reaches a pointer, when maps and slices nest at
    most as deep as [rm] and [rs] say. *)
Section Depth.
Context (rm rs : nat -> nat).
Fixpoint depth (v : gvalue) : nat :=
  match v with
  | GInvalid | GPtr _ | GMap None | GSlice None | GOther _ => 0
  | GInterface elem => S (depth elem)
  | GMap (Some cell) => S (rm cell)
  | GSlice (Some cell) => S (rs cell)
  | GStruct fields => S (foldr (fun f n => Nat.max (depth f.2) n) 0%nat fields)
  | GArray elems => S (foldr (fun e n => Nat.max (depth e) n) 0%nat elems)
  end.
End Depth.

(** Maps and slices do not contain themselves, except through pointers. *)
Definition nested (st : store) (rm rs : nat -> nat) : Prop :=
  (forall m l, maps st !! m = Some l -> Forall (fun kv => (depth rm rs kv.2 <= rm m)%nat) l) /\
  (forall s l, slices st !! s = Some l -> Forall (fun e => (depth rm rs e <= rs s)%nat) l).

Definition deepest (rm rs : nat -> nat) (st : store) : nat :=
  foldr (fun kv n => Nat.max (depth rm rs kv.2) n) 0%nat (map_to_list (pointees st)).
(** The addresses a pointer can have. *)
Definition known (st : store) : gset nat := list_to_set (map (fun kv => addresses st kv.1) (map_to_list (pointees st))).

Lemma foldr_max_le {A} (f : A -> nat) l a : a ∈ l -> (f a <= foldr (fun a n => Nat.max (f a) n) 0 l)%nat.
Proof.
  induction l as [|b l IH]; intros Hin; [by apply not_elem_of_nil in Hin|]. cbn.
  apply elem_of_cons in Hin as [->|Hin]; [lia|]. apply IH in Hin. lia.
Qed.

Lemma visible_depth rm rs fields : Forall (fun kv => (depth rm rs kv.2 < depth rm rs (GStruct fields))%nat) (visible_fields fields).
Proof.
  apply list.Forall_forall. intros [name v] Hin. cbn [snd]. enough (exists f, f ∈ fields /\ f.2 = v) as (f & Hf & <-).
  { cbn [depth]. apply Nat.lt_succ_r, (foldr_max_le (fun f : _ * gvalue => depth rm rs f.2)), Hf. }
  induction fields as [|[[[n t] e] v'] fields IH]; [by apply not_elem_of_nil in Hin|]. cbn [visible_fields] in Hin.
  destruct (negb e || _); [|apply elem_of_cons in Hin as [[= -> ->]|Hin]].
  - destruct (IH Hin) as (f & ? & ?). exists f. split; [by right|done].
  - eexists. split; [left|done].
  - destruct (IH Hin) as (f & ? & ?). exists f. split; [by right|done].
Qed.

Section Terminates.
Context (st : store) (rm rs : nat -> nat) (Hnested : nested st rm rs).

Lemma entry_total visit l : Forall (fun kv : string * gvalue => is_some (visit kv.2) = true) l ->
  is_some (mapM (redact_entry visit) l ≫= fun writes => Some (RMap writes)) = true.
Proof.
  intros H. assert (Hm : is_some (mapM (redact_entry visit) l) = true); [|by destruct (mapM _ _)].
  apply mapM_total. eapply list.Forall_impl; [exact H|]. intros [k v]. unfold redact_entry. cbn [fst snd].
  destruct (sensitiveKey k); [done|]. by destruct (visit v).
Qed.

Lemma elems_total visit l : Forall (fun v : gvalue => is_some (visit v) = true) l ->
  is_some (mapM visit l ≫= fun elems => Some (RSlice elems)) = true.
Proof. intros Hm%mapM_total. by destruct (mapM visit l). Qed.

(** The fuel: each pointer on the path is entered once. *)
Lemma redact_total fuel : forall k seen v, (size (known st ∖ seen) <= k)%nat ->
  (depth rm rs v + k * (deepest rm rs st + 2) + 1 < fuel)%nat -> is_some (redactReflect st fuel seen v) = true.
Proof.
  induction fuel as [|fuel IH]; intros k seen v Hk Hf; [lia|]. cbn [redactReflect]. destruct Hnested as [Hm Hs].
  assert (Hbelow : forall v', (depth rm rs v' < depth rm rs v)%nat -> is_some (redactReflect st fuel seen v') = true).
  { intros v' Hlt. apply (IH k); [done|lia]. }
  destruct v as [|elem|[target|]|[cell|]|fields|[cell|]|elems|l]; cbn [redact_step]; try done.
  - apply Hbelow. cbn. lia.
  - cbv zeta. destruct (bool_decide _) eqn:Es; [done|]. apply bool_decide_eq_false in Es.
    destruct (pointees st !! target) as [v|] eqn:Ev; cycle 1.
    { destruct fuel; [lia|done]. }
    assert (Hin : addresses st target ∈ known st).
    { unfold known. apply elem_of_list_to_set, list_elem_of_In, in_map_iff. exists (target, v). split; [done|].
      by apply list_elem_of_In, elem_of_map_to_list. }
    assert (Hd : (depth rm rs v <= deepest rm rs st)%nat).
    { apply (foldr_max_le (fun kv : nat * gvalue => depth rm rs kv.2) _ (target, v)). by apply elem_of_map_to_list. }
    assert (Hsz : (size (known st ∖ ({[addresses st target]} ∪ seen)) < size (known st ∖ seen))%nat)
      by (apply subset_size; set_solver).
    destruct k as [|k]; [lia|]. change (default GInvalid (Some v)) with v. cbn [depth] in Hf.
    rewrite Nat.mul_succ_l in Hf. apply (IH k); lia.
  - apply entry_total. unfold map_cell. destruct (maps st !! cell) as [l|] eqn:El; [|done]. cbn [default].
    eapply list.Forall_impl; [exact (Hm _ _ El)|]. intros kv Hle. apply Hbelow. cbn beta in Hle. cbn [depth]. lia.
  - apply entry_total. eapply list.Forall_impl; [apply (visible_depth rm rs)|]. intros kv. apply Hbelow.
  - apply elems_total. unfold slice_cell. destruct (slices st !! cell) as [l|] eqn:El; [|done]. cbn [default].
    eapply list.Forall_impl; [exact (Hs _ _ El)|]. intros e Hle. apply Hbelow. cbn beta in Hle. cbn [depth]. lia.
  - apply elems_total, list.Forall_forall. intros e He. apply Hbelow. cbn [depth].
    apply Nat.lt_succ_r, (foldr_max_le (depth rm rs)), He.
Qed.
End Terminates.

(** ** Properties *)

(** C19: secrets do not reach the logs.  However a logger is derived, by [WithAttrs] and
    [WithGroup] in any order, and whatever it then logs, what the sink ends up with does not
    depend on what is stored under a sensitive attribute name, map key or field name, at any
    depth and through any pointer, map, slice, struct or group value, nor on fields
    that are not exported.  Both operations hand the sink every attribute under its own
    name, and one with a sensitive name as the redaction mark.  A name is sensitive when
    it contains one of nine fragments, whatever its case and separators.  (The name given to
    [WithGroup] is not one of these names: it hides nothing, see [group_name_hides_nothing].) *)
Theorem logs_hide_secrets {S : Type} (next_Handle : S -> string -> list clean_attr -> S)
    (next_WithAttrs : S -> list clean_attr -> S) (next_WithGroup : S -> string -> S) (next : S)
    (ds ds' : list derivation) (st st' : store) (fuel : nat) (r r' : log_record)
    (Hderived : Forall2 same_but_secrets ds ds')
    (Hstore : scrub_store st = scrub_store st') (Hmessage : lr_Message r = lr_Message r')
    (Hattrs : map scrub_attr (lr_Attrs r) = map scrub_attr (lr_Attrs r')) :
  logged next_Handle next_WithAttrs next_WithGroup fuel next ds st r =
    logged next_Handle next_WithAttrs next_WithGroup fuel next ds' st' r' /\
  (forall result, Handle next_Handle st fuel next r = Some result ->
     exists clean, result = next_Handle next (lr_Message r) clean /\ Forall2 marked (lr_Attrs r) clean) /\
  (forall attrs result, WithAttrs next_WithAttrs st fuel next attrs = Some result ->
     exists clean, result = next_WithAttrs next clean /\ Forall2 marked attrs clean) /\
  (forall key fragment,
     fragment ∈ ["authorization"; "password"; "passwd"; "secret"; "token"; "api_key"; "cookie"; "credential"; "private_key"]%string ->
     str_contains (ToLower (replace_separators key)) fragment = true -> sensitiveKey key = true).
Proof.
  split_and!.
  - unfold logged, Handle. rewrite (derive_scrubbed _ _ _ _ _ Hderived), (attrs_scrubbed _ _ fuel _ _ Hstore Hattrs).
    by rewrite Hmessage.
  - unfold Handle. intros result. destruct (mapM _ _) as [clean|] eqn:E; [|done]. intros [= <-]. exists clean.
    split; [done|]. by eapply attrs_marked.
  - unfold WithAttrs. intros attrs result. destruct (mapM _ _) as [clean|] eqn:E; [|done]. intros [= <-]. exists clean.
    split; [done|]. by eapply attrs_marked.
  - intros key fragment Hin Hc. unfold sensitiveKey. apply existsb_exists. exists fragment. by rewrite <- list_elem_of_In.
Qed.

(** Redaction ends.  When maps and slices contain themselves at most through
    pointers, whatever cycles pointers form, the redaction of a value has a result, which
    no amount of further steps changes. *)
Theorem redaction_terminates (st : store) (rm rs : nat -> nat) (v : gvalue) (Hnested : nested st rm rs) :
  exists r, forall fuel,
    (depth rm rs v + size (known st) * (deepest rm rs st + 2) + 1 < fuel)%nat -> redactAny st fuel v = Some r.
Proof.
  set (bound := (depth rm rs v + size (known st) * (deepest rm rs st + 2) + 1)%nat).
  assert (H : is_some (redactReflect st (S bound) ∅ v) = true).
  { apply (redact_total st rm rs Hnested _ (size (known st))); [|lia].
    assert (E : known st ∖ ∅ = known st) by set_solver. by rewrite E. }
  destruct (redactReflect st (S bound) ∅ v) as [r|] eqn:E; [|done]. exists r. intros fuel Hf.
  exact (redact_more_fuel st (S bound) fuel ltac:(lia) _ _ _ E).
Qed.

(** A map that contains itself is walked forever: only pointers are tracked. *)
Definition cyclic_map : store := mkStore ∅ (fun n => n) {[ 0%nat := [("self"%string, GInterface (GMap (Some 0%nat)))] ]} ∅.
Lemma cyclic_map_diverges fuel : redactAny cyclic_map fuel (GMap (Some 0%nat)) = None.
Proof.
  unfold redactAny. generalize (∅ : gset nat) as seen.
  assert (H : forall n seen, redactReflect cyclic_map n seen (GMap (Some 0%nat)) = None /\
                             redactReflect cyclic_map n seen (GInterface (GMap (Some 0%nat))) = None).
  { induction n as [|n IH]; intros seen; [done|]. destruct (IH seen) as [H1 H2]. split; [|exact H1].
    cbn [redactReflect redact_step]. change (map_cell cyclic_map (Some 0%nat)) with [("self"%string, GInterface (GMap (Some 0%nat)))].
    cbn. unfold redact_entry. cbn [fst snd]. by rewrite H2. }
  intros seen. apply H.
Qed.

(** The values a context correlates by are bounded. *)
Lemma correlation_bounded requestID traceID :
  slen (WithCorrelation requestID traceID).1 <= 128 /\ slen (WithCorrelation requestID traceID).2 <= 64.
Proof.
  assert (H : forall s n, 0 <= n -> slen (bounded s n) <= n).
  { intros s n Hn. unfold bounded. destruct (slen s <=? n) eqn:E; [by apply Z.leb_le|]. apply Z.leb_gt in E.
    unfold slen in *. assert (length_sub : forall m s, (String.length (String.substring 0 m s) <= m)%nat).
    { induction m as [|m IH]; intros [|c t]; cbn; try lia. specialize (IH t). lia. }
    specialize (length_sub (Z.to_nat n) s). lia. }
  split; apply H; lia.
Qed.

(** ** Witnesses *)

(** Two requests that differ in a password inside a cyclic structure. *)
Definition ex_log_store (password : string) : store :=
  mkStore {[ 0%nat := GStruct [("User"%string, "user,omitempty"%string, true, GOther (mkLeaf true "ann"));
                               ("Password"%string, ""%string, true, GOther (mkLeaf true password));
                               ("Self"%string, ""%string, true, GPtr (Some 0%nat))] ]} (fun n => n) ∅ ∅.
Definition ex_log (token : string) : log_record :=
  mkLogRecord "login" [mkAttr "request" (VAny (GPtr (Some 0%nat))); mkAttr "Access-Token" (plain_text token)].
Definition ex_sink (seen : list (string * list clean_attr)) (message : string) (attrs : list clean_attr) := (message, attrs) :: seen.

Definition ex_bind (seen : list (string * list clean_attr)) (attrs : list clean_attr) := (EmptyString, attrs) :: seen.
Definition ex_group (seen : list (string * list clean_attr)) (name : string) := (name, []) :: seen.
Definition ex_derivation (secret : string) : list derivation :=
  [DWithGroup "session"; DWithAttrs (ex_log_store secret) [mkAttr "cookie" (plain_text secret)]].

Lemma logs_hide_secrets_witness :
  logged ex_sink ex_bind ex_group 9 [] (ex_derivation "a") (ex_log_store "hunter2") (ex_log "abc")
  = logged ex_sink ex_bind ex_group 9 [] (ex_derivation "b") (ex_log_store "12345") (ex_log "xyz") /\
  logged ex_sink ex_bind ex_group 9 [] (ex_derivation "a") (ex_log_store "hunter2") (ex_log "abc")
  = Some [("login"%string,
      [mkClean "request" (CAny (RMap [("user"%string, RLeaf (mkLeaf true "ann")); ("Password"%string, RText Redacted);
                                      ("Self"%string, RText "[CYCLE]")]));
       mkClean "Access-Token" (CPlain (mkLeaf true Redacted))]);
      (""%string, [mkClean "cookie" (CPlain (mkLeaf true Redacted))]); ("session"%string, [])].
Proof.
  split; [|vm_compute; reflexivity].
  refine (proj1 (logs_hide_secrets ex_sink ex_bind ex_group [] (ex_derivation "a") (ex_derivation "b") (ex_log_store "hunter2")
    (ex_log_store "12345") 9 (ex_log "abc") (ex_log "xyz") _ _ eq_refl _)); [|vm_compute; reflexivity|vm_compute; reflexivity].
  repeat constructor; vm_compute; reflexivity.
Defined.

(** A group opened with a sensitive name does not hide the attributes logged in it. *)
Example group_name_hides_nothing :
  logged ex_sink ex_bind ex_group 9 [] [DWithGroup "credentials"] (ex_log_store "")
    (mkLogRecord "login" [mkAttr "value" (plain_text "hunter2")])
  = Some [("login"%string, [mkClean "value" (CPlain (mkLeaf true "hunter2"))]); ("credentials"%string, [])].
Proof. vm_compute. reflexivity. Qed.

Lemma redaction_terminates_witness : exists r, forall fuel, (4 < fuel)%nat ->
  redactAny (ex_log_store "hunter2") fuel (GPtr (Some 0%nat)) = Some r.
Proof.
  assert (Hn : nested (ex_log_store "hunter2") (fun _ => 0%nat) (fun _ => 0%nat)) by (split; intros ? ? [=]).
  destruct (redaction_terminates (ex_log_store "hunter2") (fun _ => 0%nat) (fun _ => 0%nat) (GPtr (Some 0%nat)) Hn) as [r H].
  exists r. intros fuel Hf. apply H. vm_compute in Hf |- *. exact Hf.
Defined.
