(* ===== verification/ControlStore.v ===== *)
(** * Control evidence, results and usage

    The remaining writes of [internal/adapters/postgres/repositories.go]: attempts,
    guardrail evaluations, action approvals, execution results and trusted usage, with
    the constraints and triggers of [migrations/sql].  The store extends the tables of
    [Database] by those of these records; [credential_keys] is the unique key of
    credential bindings that results refer to.  Whether a text is a number PostgreSQL
    accepts, and whether that is negative, is the parameter [numeric_in]. *)
From Stdlib Require Import Ascii String.
From S2P Require Import Prelude GoStd Regex Sha256 Json JsonParse Primitives ToolCatalog Ports Database Attempts Outbox Ledger.

(** ** Rows *)

Record GREvaluation := mkEvaluation {
  gre_Phase : string; gre_ContentDigest : string; gre_TransformedContentDigest : string;
  gre_Decision : string; gre_PolicyRef : string; gre_SafeMetadata : string; gre_CreatedAt : Z }.

Record ActionApproval := mkActionApproval {
  apr_ApprovalRef : string; apr_BindingDigest : string; apr_ArgumentDigest : string; apr_ResourceDigest : string;
  apr_DecisionID : string; apr_Status : string; apr_IssuedAt : Z; apr_ExpiresAt : Z;
  apr_ConsumedAt : option Z; apr_Checkpoint : option string }.

Record ExecutionResult := mkExecutionResult {
  exr_AttemptNo : option Z; exr_Fence : option Z; exr_Connector : option string; exr_Credential : option string;
  exr_ResultDigest : string; exr_SafeResult : string; exr_Classification : string; exr_ResultRef : option string;
  exr_DataClassification : string; exr_CreatedAt : Z }.

Record UsageEvent := mkUsage {
  use_InvocationID : string; use_AccountingKey : string; use_Dimension : string; use_Quantity : string; use_Unit : string;
  use_Attributes : string; use_OccurredAt : Z; use_RecordedAt : Z }.

Record control_store := mkControl {
  base : database;
  credential_keys : gset (string * string * string);
  gr_evaluations : gmap (string * string * string) GREvaluation;
  action_approvals : gmap (string * string * string) ActionApproval;
  results : gmap (string * string) ExecutionResult;
  usage_events : gmap (string * string) UsageEvent;
}.

(** [nilIfEmpty]: an empty value is stored as NULL. *)
Definition nilIfEmpty (value : string) : option string := if slen value =? 0 then None else Some value.
Definition null_or (p : string -> bool) (value : option string) : bool := match value with Some v => p v | None => true end.
Definition digest_bytes (value : string) : bool := slen value =? 32.

Section Store.
Context (numeric_in : string -> option bool).

(** ** Statements *)

Definition with_base (s : control_store) (db : database) : control_store :=
  mkControl db (credential_keys s) (gr_evaluations s) (action_approvals s) (results s) (usage_events s).

(** [AttemptRepository.Create] *)
Definition Attempts_Create (tenant invocation : string) (v : Attempt) (s : control_store) : result control_store :=
  in_repository "create invocation attempt" (attempt_insert tenant invocation v (base s)) ≫= fun db => Ok (with_base s db).

Definition evaluation_check (id : string) (v : GREvaluation) : bool :=
  negb (String.eqb id "") && one_of_str (gre_Phase v) ["pre_tool"; "post_tool"] && digest_bytes (gre_ContentDigest v)
  && null_or digest_bytes (nilIfEmpty (gre_TransformedContentDigest v))
  && one_of_str (gre_Decision v) ["allow"; "block"; "transform"] && negb (String.eqb (gre_PolicyRef v) "")
  && unmarshals_raw_object (gre_SafeMetadata v)
  && Bool.eqb (String.eqb (gre_Decision v) "transform") (is_some (nilIfEmpty (gre_TransformedContentDigest v))).

(** [DecisionRepository.RecordGuardrail] *)
Definition RecordGuardrail (tenant invocation id : string) (v : GREvaluation) (s : control_store) : result control_store :=
  let key := (tenant, invocation, id) in
  in_repository "record guardrail evaluation" (
    if negb (evaluation_check id v) then Err (constraint_violation "gr_evaluations_check")
    else if is_some (gr_evaluations s !! key) then Err (constraint_violation "gr_evaluations_pkey")
    else if negb (is_some (invocations (base s) !! (tenant, invocation))) then
      Err (constraint_violation "gr_evaluations_tenant_id_invocation_id_fkey")
    else Ok (mkControl (base s) (credential_keys s) (<[key := v]> (gr_evaluations s)) (action_approvals s) (results s)
               (usage_events s))).

Definition approval_check (id : string) (v : ActionApproval) : bool :=
  negb (String.eqb id "") && negb (String.eqb (apr_ApprovalRef v) "") && digest_bytes (apr_BindingDigest v)
  && digest_bytes (apr_ArgumentDigest v) && digest_bytes (apr_ResourceDigest v)
  && one_of_str (apr_Status v) ["requested"; "approved"; "denied"; "expired"; "revoked"; "consumed"]
  && (apr_IssuedAt v <? apr_ExpiresAt v)
  && (match apr_ConsumedAt v with
      | Some t => String.eqb (apr_Status v) "consumed" && (apr_IssuedAt v <=? t)
      | None => negb (String.eqb (apr_Status v) "consumed")
      end)
  && null_or (fun checkpoint => negb (String.eqb checkpoint "")) (apr_Checkpoint v).

Definition same_approval (tenant id : string) (kv : string * string * string * ActionApproval) : bool :=
  String.eqb kv.1.1.1 tenant && String.eqb kv.1.2 id.

(** [ApprovalRepository.Create] *)
Definition Approvals_Create (tenant invocation id : string) (v : ActionApproval) (s : control_store) : result control_store :=
  let key := (tenant, invocation, id) in
  in_repository "create action approval" (
    if negb (approval_check id v) then Err (constraint_violation "action_approvals_check")
    else if is_some (action_approvals s !! key) then Err (constraint_violation "action_approvals_pkey")
    else if existsb (same_approval tenant id) (map_to_list (action_approvals s)) then
      Err (constraint_violation "action_approvals_tenant_id_approval_id_key")
    else if negb (is_some (invocations (base s) !! (tenant, invocation))) then
      Err (constraint_violation "action_approvals_tenant_id_invocation_id_fkey")
    else if negb (is_some (authorization_decisions (base s) !! (tenant, invocation, apr_DecisionID v))) then
      Err (constraint_violation "action_approvals_authorization_decision_id_fkey")
    else Ok (mkControl (base s) (credential_keys s) (gr_evaluations s) (<[key := v]> (action_approvals s)) (results s)
               (usage_events s))).

Definition result_check (v : ExecutionResult) : bool :=
  null_or digest_bytes (nilIfEmpty (exr_ResultDigest v))
  && null_or unmarshals_raw_object (nilIfEmpty (exr_SafeResult v))
  && one_of_str (exr_Classification v) ["confirmed_success"; "confirmed_failure"; "blocked"; "ambiguous"]
  && one_of_str (exr_DataClassification v) ["C0"; "C1"; "C2"]
  && Bool.eqb (is_some (exr_AttemptNo v)) (is_some (exr_Fence v))
  && Bool.eqb (is_some (exr_Connector v)) (is_some (exr_Credential v))
  && (negb (String.eqb (exr_Classification v) "confirmed_success") || is_some (nilIfEmpty (exr_ResultDigest v))).

(** The composite foreign keys hold when a column is NULL. *)
Definition attempt_known (tenant invocation : string) (v : ExecutionResult) (db : database) : bool :=
  match exr_AttemptNo v, exr_Fence v with
  | Some no, Some fence =>
      existsb (fun a => (att_No a =? no) && (att_Fence a =? fence)) (attempts_of tenant invocation db)
  | _, _ => true
  end.
Definition credential_known (tenant : string) (v : ExecutionResult) (s : control_store) : bool :=
  match exr_Credential v, exr_Connector v with
  | Some credential, Some connector => bool_decide ((tenant, credential, connector) ∈ credential_keys s)
  | _, _ => true
  end.

(** [results] and the [execution_results] of the base, which [GetToolCallView] reads, are
    two views of one table. *)
Definition set_results (db : database) t :=
  mkDatabase (tool_versions db) (invocations db) (idempotency_records db) (invocation_attempts db)
    (authorization_decisions db) (audit_events db) (outbox_messages db) t.

(** [ResultRepository.Create] *)
Definition Results_Create (tenant invocation : string) (v : ExecutionResult) (s : control_store) : result control_store :=
  let key := (tenant, invocation) in
  in_repository "create execution result" (
    if negb (result_check v) then Err (constraint_violation "execution_results_check")
    else if is_some (results s !! key) || is_some (execution_results (base s) !! key) then
      Err (constraint_violation "execution_results_pkey")
    else if negb (is_some (invocations (base s) !! key)) then
      Err (constraint_violation "execution_results_tenant_id_invocation_id_fkey")
    else if negb (attempt_known tenant invocation v (base s)) then
      Err (constraint_violation "execution_results_attempt_no_fence_fkey")
    else if negb (credential_known tenant v s) then Err (constraint_violation "execution_results_credential_binding_id_fkey")
    else Ok (mkControl
      (set_results (base s) (<[key := mkResultRow (nilIfEmpty (exr_SafeResult v)) (exr_Classification v)]> (execution_results (base s))))
      (credential_keys s) (gr_evaluations s) (action_approvals s) (<[key := v]> (results s)) (usage_events s))).

Definition usage_check (v : UsageEvent) : bool :=
  negb (String.eqb (use_AccountingKey v) "") && negb (String.eqb (use_Dimension v) "") && negb (String.eqb (use_Unit v) "")
  && unmarshals_raw_object (use_Attributes v) && (use_OccurredAt v <=? use_RecordedAt v).

Definition same_charge (tenant : string) (v : UsageEvent) (kv : string * string * UsageEvent) : bool :=
  String.eqb kv.1.1 tenant && String.eqb (use_AccountingKey kv.2) (use_AccountingKey v)
  && String.eqb (use_Dimension kv.2) (use_Dimension v).

(** [UsageRepository.Record] *)
Definition Usage_Record (tenant event : string) (v : UsageEvent) (s : control_store) : result control_store :=
  let key := (tenant, event) in
  in_repository "record trusted usage" (
    match numeric_in (use_Quantity v) with
    | None => Err (ErrNew "invalid input syntax for type numeric")
    | Some negative =>
        if negative || negb (usage_check v) then Err (constraint_violation "trusted_usage_events_check")
        else if is_some (usage_events s !! key) then Err (constraint_violation "trusted_usage_events_pkey")
        else if existsb (same_charge tenant v) (map_to_list (usage_events s)) then
          Err (constraint_violation "trusted_usage_events_tenant_id_accounting_key_dimension_key")
        else if negb (is_some (invocations (base s) !! (tenant, use_InvocationID v))) then
          Err (constraint_violation "trusted_usage_events_tenant_id_invocation_id_fkey")
        else Ok (mkControl (base s) (credential_keys s) (gr_evaluations s) (action_approvals s) (results s)
                   (<[key := v]> (usage_events s)))
    end).

(** ** Histories *)

(** Every write of the repositories. *)
Inductive write (s s' : control_store) : Prop :=
| write_invocation tenant v db : Invocations_Create tenant v (base s) = Ok db -> s' = with_base s db -> write s s'
| write_decision tenant invocation id v db :
    Decisions_RecordAuthorization tenant invocation id v (base s) = Ok db -> s' = with_base s db -> write s s'
| write_attempt tenant invocation v : Attempts_Create tenant invocation v s = Ok s' -> write s s'
| write_guardrail tenant invocation id v : RecordGuardrail tenant invocation id v s = Ok s' -> write s s'
| write_approval tenant invocation id v : Approvals_Create tenant invocation id v s = Ok s' -> write s s'
| write_result tenant invocation v : Results_Create tenant invocation v s = Ok s' -> write s s'
| write_usage tenant event v : Usage_Record tenant event v s = Ok s' -> write s s'.

Definition empty_control (versions : gset (string * string)) (keys : gset (string * string * string)) : control_store :=
  mkControl (empty_database versions) keys ∅ ∅ ∅ ∅.

Inductive written (versions : gset (string * string)) (keys : gset (string * string * string)) : control_store -> Prop :=
| written_empty : written versions keys (empty_control versions keys)
| written_step s s' : written versions keys s -> write s s' -> written versions keys s'.
End Store.

(** ** What the tables promise *)

(** Rows are only added: every table of the later store extends that of the earlier. *)
Record grows (s s' : control_store) : Prop := {
  gr_keys : credential_keys s' = credential_keys s;
  gr_invocations : invocations (base s) ⊆ invocations (base s');
  gr_decisions : authorization_decisions (base s) ⊆ authorization_decisions (base s');
  gr_attempts : forall tenant invocation, attempts_of tenant invocation (base s) `prefix_of` attempts_of tenant invocation (base s');
  gr_read_back : execution_results (base s) ⊆ execution_results (base s');
  gr_evaluated : gr_evaluations s ⊆ gr_evaluations s';
  gr_approved : action_approvals s ⊆ action_approvals s';
  gr_results : results s ⊆ results s';
  gr_usage : usage_events s ⊆ usage_events s';
}.

Definition known_invocation (s : control_store) (tenant invocation : string) : Prop :=
  is_some (invocations (base s) !! (tenant, invocation)) = true.

(** What holds of each row, given the others. *)
Definition approval_sound (s : control_store) (tenant invocation id : string) (v : ActionApproval) : Prop :=
  known_invocation s tenant invocation /\ approval_check id v = true /\
  is_some (authorization_decisions (base s) !! (tenant, invocation, apr_DecisionID v)) = true.
Definition result_sound (s : control_store) (tenant invocation : string) (v : ExecutionResult) : Prop :=
  known_invocation s tenant invocation /\ result_check v = true /\ attempt_known tenant invocation v (base s) = true /\
  credential_known tenant v s = true /\
  execution_results (base s) !! (tenant, invocation)
  = Some (mkResultRow (nilIfEmpty (exr_SafeResult v)) (exr_Classification v)).
Definition usage_sound (s : control_store) (tenant : string) (v : UsageEvent) : Prop :=
  known_invocation s tenant (use_InvocationID v) /\ usage_check v = true.
Definition evaluation_sound (s : control_store) (tenant invocation id : string) (v : GREvaluation) : Prop :=
  known_invocation s tenant invocation /\ evaluation_check id v = true.

Record evidence (s : control_store) : Prop := {
  ev_approval : forall t i a v, action_approvals s !! (t, i, a) = Some v -> approval_sound s t i a v;
  ev_approval_once : forall t i j a v w, action_approvals s !! (t, i, a) = Some v -> action_approvals s !! (t, j, a) = Some w -> i = j;
  ev_evaluation : forall t i e v, gr_evaluations s !! (t, i, e) = Some v -> evaluation_sound s t i e v;
  ev_result : forall t i v, results s !! (t, i) = Some v -> result_sound s t i v;
  ev_usage : forall t e v, usage_events s !! (t, e) = Some v -> usage_sound s t v;
  ev_charged_once : forall t e f v w, usage_events s !! (t, e) = Some v -> usage_events s !! (t, f) = Some w ->
    use_AccountingKey v = use_AccountingKey w -> use_Dimension v = use_Dimension w -> e = f;
}.

(** ** Lemmas *)

Lemma grows_refl s : grows s s.
Proof. by constructor. Qed.
Lemma grows_trans s1 s2 s3 : grows s1 s2 -> grows s2 s3 -> grows s1 s3.
Proof. intros [] []. constructor; intros; etrans; eauto. Qed.

Lemma in_repository_ok {A} operation (r : result A) a : in_repository operation r = Ok a -> r = Ok a.
Proof. by destruct r. Qed.

Lemma some_lookup {A} (o : option A) : is_some o = true -> exists a, o = Some a.
Proof. destruct o; [eauto|done]. Qed.
Lemma some_mono {K A} `{Countable K} (m m' : gmap K A) k : m ⊆ m' -> is_some (m !! k) = true -> is_some (m' !! k) = true.
Proof. intros Hs [a Ha]%some_lookup. by rewrite (lookup_weaken _ _ _ _ Ha Hs). Qed.

Lemma attempt_known_mono t i v db db' : attempts_of t i db `prefix_of` attempts_of t i db' ->
  attempt_known t i v db = true -> attempt_known t i v db' = true.
Proof.
  intros [l E]. unfold attempt_known. destruct (exr_AttemptNo v), (exr_Fence v); try done.
  rewrite E, existsb_app. intros ->. done.
Qed.

(** A row that is sound stays so. *)
Section Mono.
Context {s s' : control_store} (G : grows s s').
Lemma known_mono t i : known_invocation s t i -> known_invocation s' t i.
Proof. apply some_mono, G. Qed.
Lemma approval_mono t i a v : approval_sound s t i a v -> approval_sound s' t i a v.
Proof. intros (? & ? & ?). split_and!; [by apply known_mono|done|]. eapply some_mono; [apply G|done]. Qed.
Lemma evaluation_mono t i e v : evaluation_sound s t i e v -> evaluation_sound s' t i e v.
Proof. intros [? ?]. split; [by apply known_mono|done]. Qed.
Lemma usage_mono t v : usage_sound s t v -> usage_sound s' t v.
Proof. intros [? ?]. split; [by apply known_mono|done]. Qed.
Lemma result_mono t i v : result_sound s t i v -> result_sound s' t i v.
Proof.
  intros (? & ? & ? & ? & ?). split_and!; [by apply known_mono|done| | |].
  - eapply attempt_known_mono; [apply G|done].
  - unfold credential_known in *. by rewrite (gr_keys _ _ G).
  - eapply lookup_weaken; [done|apply G].
Qed.
End Mono.

(** What each write adds. *)
Lemma guardrail_effect t i e v s s' : RecordGuardrail t i e v s = Ok s' ->
  gr_evaluations s !! (t, i, e) = None /\ evaluation_sound s t i e v /\
  s' = mkControl (base s) (credential_keys s) (<[(t, i, e) := v]> (gr_evaluations s)) (action_approvals s) (results s) (usage_events s).
Proof.
  unfold RecordGuardrail. intros H%in_repository_ok. destruct (evaluation_check e v) eqn:Ec; [|done]. cbn [negb] in H.
  destruct (is_some (gr_evaluations s !! _)) eqn:Ek; [done|]. destruct (is_some (invocations _ !! _)) eqn:Ei; [|done].
  cbn [negb] in H. injection H as <-. split_and!; [by destruct (gr_evaluations s !! _)|by split|done].
Qed.

Lemma approval_effect t i a v s s' : Approvals_Create t i a v s = Ok s' ->
  action_approvals s !! (t, i, a) = None /\ approval_sound s t i a v /\
  (forall j w, action_approvals s !! (t, j, a) <> Some w) /\
  s' = mkControl (base s) (credential_keys s) (gr_evaluations s) (<[(t, i, a) := v]> (action_approvals s)) (results s) (usage_events s).
Proof.
  unfold Approvals_Create. intros H%in_repository_ok. destruct (approval_check a v) eqn:Ec; [|done]. cbn [negb] in H.
  destruct (is_some (action_approvals s !! _)) eqn:Ek; [done|]. destruct (existsb _ _) eqn:Ex; [done|].
  destruct (is_some (invocations _ !! _)) eqn:Ei; [|done]. cbn [negb] in H.
  destruct (is_some (authorization_decisions _ !! _)) eqn:Ed; [|done]. cbn [negb] in H. injection H as <-.
  split_and!; [by destruct (action_approvals s !! _)|by unfold approval_sound| |done].
  intros j w Hj%elem_of_map_to_list%list_elem_of_In. apply not_true_iff_false in Ex. apply Ex, existsb_exists.
  exists ((t, j, a), w). split; [done|]. unfold same_approval. cbn. by rewrite !String.eqb_refl.
Qed.

Lemma result_effect t i v s s' : Results_Create t i v s = Ok s' ->
  results s !! (t, i) = None /\ execution_results (base s) !! (t, i) = None /\ known_invocation s t i /\ result_check v = true /\ attempt_known t i v (base s) = true /\
  credential_known t v s = true /\
  s' = mkControl (set_results (base s) (<[(t, i) := mkResultRow (nilIfEmpty (exr_SafeResult v)) (exr_Classification v)]>
                    (execution_results (base s)))) (credential_keys s) (gr_evaluations s) (action_approvals s)
         (<[(t, i) := v]> (results s)) (usage_events s).
Proof.
  unfold Results_Create. intros H%in_repository_ok. destruct (result_check v) eqn:Ec; [|done]. cbn [negb] in H.
  destruct (is_some (results s !! _) || _) eqn:Ek; [done|]. apply orb_false_iff in Ek as [Ek Ek'].
  destruct (is_some (invocations _ !! _)) eqn:Ei; [|done]. cbn [negb] in H. destruct (attempt_known t i v (base s)) eqn:Ea; [|done]. destruct (credential_known t v s) eqn:Eq; [|done].
  cbn [negb] in H. injection H as <-. split_and!; try done; [by destruct (results s !! _)|by destruct (execution_results _ !! _)].
Qed.

Lemma usage_effect numeric_in t e v s s' : Usage_Record numeric_in t e v s = Ok s' ->
  usage_events s !! (t, e) = None /\ usage_sound s t v /\ numeric_in (use_Quantity v) = Some false /\
  (forall f w, usage_events s !! (t, f) = Some w -> use_AccountingKey w = use_AccountingKey v -> use_Dimension w <> use_Dimension v) /\
  s' = mkControl (base s) (credential_keys s) (gr_evaluations s) (action_approvals s) (results s) (<[(t, e) := v]> (usage_events s)).
Proof.
  unfold Usage_Record. intros H%in_repository_ok. destruct (numeric_in _) as [[]|]; [done| |done]. cbn [orb] in H.
  destruct (usage_check v) eqn:Ec; [|done]. cbn [negb] in H. destruct (is_some (usage_events s !! _)) eqn:Ek; [done|].
  destruct (existsb _ _) eqn:Ex; [done|]. destruct (is_some (invocations _ !! _)) eqn:Ei; [|done].
  cbn [negb] in H. injection H as <-. split_and!; [by destruct (usage_events s !! _)|by split|done| |done].
  intros f w Hf%elem_of_map_to_list%list_elem_of_In Ek' Ed. apply not_true_iff_false in Ex. apply Ex, existsb_exists.
  exists ((t, f), w). split; [done|]. unfold same_charge. cbn. by rewrite Ek', Ed, !String.eqb_refl.
Qed.

Lemma attempt_effect t i v s s' : Attempts_Create t i v s = Ok s' ->
  s' = with_base s (set_attempts (base s) (<[(t, i) := attempts_of t i (base s) ++ [v]]> (invocation_attempts (base s)))).
Proof.
  unfold Attempts_Create. destruct (in_repository _ _) as [db|] eqn:E; [|done]. intros [= <-]. apply in_repository_ok in E.
  unfold attempt_insert in E. do 4 (destruct (_ : bool) in E; [done|]). by injection E as <-.
Qed.

Lemma invocation_effect t v db db' : Invocations_Create t v db = Ok db' ->
  invocations db !! (t, row_ID v) = None /\ db' = set_invocations db (<[(t, row_ID v) := v]> (invocations db)).
Proof.
  unfold Invocations_Create. intros H%in_repository_ok. destruct (negb (invocation_check v)); [done|].
  destruct (is_some _) eqn:Ek; [done|]. destruct (existsb _ _); [done|]. destruct (negb _); [done|]. injection H as <-.
  split; [by destruct (invocations db !! _)|done].
Qed.

Section Invariant.
Context (numeric_in : string -> option bool).

Lemma write_grows s s' : write numeric_in s s' -> grows s s'.
Proof.
  intros [t v db [Hn ->]%invocation_effect ->|t i d v db (Hn & _ & ->)%Decision_effect ->|t i v ->%attempt_effect
         |t i e v (Hn & _ & ->)%guardrail_effect|t i a v (Hn & _ & _ & ->)%approval_effect
         |t i v (Hn & Hb & _ & _ & _ & _ & ->)%result_effect|t e v (Hn & _ & _ & _ & ->)%usage_effect];
    constructor; cbn; try done; try by apply insert_subseteq.
  intros t' i'. unfold attempts_of. cbn. destruct (decide ((t', i') = (t, i))) as [[= -> ->]|Hne].
  - rewrite lookup_insert_eq. cbn. by eexists.
  - by rewrite lookup_insert_ne.
Qed.

(** A write that leaves the control tables alone keeps the evidence. *)
Lemma evidence_base s s' : grows s s' -> gr_evaluations s' = gr_evaluations s -> action_approvals s' = action_approvals s ->
  results s' = results s -> usage_events s' = usage_events s -> evidence s -> evidence s'.
Proof.
  intros G Eg Ea Er Eu [H1 H2 H3 H4 H5 H6]. constructor; rewrite ?Eg, ?Ea, ?Er, ?Eu; try done; intros.
  - by eapply approval_mono; eauto.
  - by eapply evaluation_mono; eauto.
  - by eapply result_mono; eauto.
  - by eapply usage_mono; eauto.
Qed.

Lemma write_evidence s s' : write numeric_in s s' -> evidence s -> evidence s'.
Proof.
  intros Hw E. pose proof (write_grows _ _ Hw) as G. destruct Hw as [t v db H ->|t i d v db H ->|t i v H|t i e v H|t i a v H|t i v H|t e v H].
  - by apply (evidence_base s).
  - by apply (evidence_base s).
  - apply (evidence_base s); try done; by apply attempt_effect in H as ->.
  - destruct E as [H1 H2 H3 H4 H5 H6]. apply guardrail_effect in H as (Hn & Hs & ->). constructor; cbn; try done.
    intros t' i' e' v' [[[= <- <- <-] <-]|[_ ?]]%lookup_insert_Some; [done|by apply H3].
  - destruct E as [H1 H2 H3 H4 H5 H6]. apply approval_effect in H as (Hn & Hs & Hu & ->). constructor; cbn; try done.
    + intros t' i' a' v' [[[= <- <- <-] <-]|[_ ?]]%lookup_insert_Some; [done|by apply H1].
    + intros t' i1 i2 a' v1 v2 [[E1 F1]|[_ L1]]%lookup_insert_Some [[E2 F2]|[_ L2]]%lookup_insert_Some; simplify_eq; try done.
      * by apply Hu in L2.
      * by apply Hu in L1.
      * by apply (H2 t' i1 i2 a' v1 v2).
  - destruct E as [H1 H2 H3 H4 H5 H6]. apply result_effect in H as (Hn & Hb & Hk & Hc & Ha & Hq & ->). constructor; try done.
    intros t' i' v'. cbn [results]. intros [[[= <- <-] <-]|[_ L]]%lookup_insert_Some.
    + unfold result_sound. cbn. by rewrite lookup_insert_eq.
    + apply (result_mono G). by apply H4.
  - destruct E as [H1 H2 H3 H4 H5 H6]. apply usage_effect in H as (Hn & Hs & Hq & Hu & ->). constructor; cbn; try done.
    + intros t' e' v' [[[= <- <-] <-]|[_ ?]]%lookup_insert_Some; [done|by eapply H5].
    + intros t' e1 e2 v1 v2 [[E1 F1]|[_ L1]]%lookup_insert_Some [[E2 F2]|[_ L2]]%lookup_insert_Some Ek Ed; simplify_eq; try done.
      * by destruct (Hu _ _ L2 (eq_sym Ek)).
      * by destruct (Hu _ _ L1 Ek).
      * by apply (H6 t' e1 e2 v1 v2).
Qed.

Lemma written_evidence versions keys s : written numeric_in versions keys s -> evidence s.
Proof.
  induction 1 as [|s s' _ IH Hw]; [|by eapply write_evidence].
  constructor; cbn; intros; by rewrite lookup_empty in *.
Qed.
End Invariant.

(** ** Properties *)

(** C34: the control tables are consistent evidence, and only grow.  After any sequence of
    repository writes (invocations, decisions, attempts, guardrail evaluations,
    approvals, results, usage), every approval names a recorded authorization decision of
    its own invocation, is consumed exactly when it has a consumption time, and its id is
    used for one invocation of the tenant only; a guardrail evaluation has a transformed
    digest exactly when it transformed; a result belongs to a known attempt with that
    fence and a known credential binding when it names them, has a digest when it is a
    success, and is what the tool call view reads; the same usage of an accounting key
    and dimension is charged at most once; and a later write changes or removes none of
    these rows. *)
Theorem control_evidence_sound (numeric_in : string -> option bool) (versions : gset (string * string))
    (keys : gset (string * string * string)) (s s' : control_store)
    (Hs : written numeric_in versions keys s) (Hlater : rtc (write numeric_in) s s') :
  evidence s /\ grows s s' /\
  (forall t i a v, action_approvals s !! (t, i, a) = Some v ->
     (apr_Status v = "consumed"%string <-> is_some (apr_ConsumedAt v) = true) /\ action_approvals s' !! (t, i, a) = Some v) /\
  (forall t i v, results s !! (t, i) = Some v -> exr_Classification v = "confirmed_success"%string ->
     slen (exr_ResultDigest v) = 32 /\ results s' !! (t, i) = Some v).
Proof.
  pose proof (written_evidence _ _ _ _ Hs) as E.
  assert (G : grows s s').
  { clear Hs E. induction Hlater as [|s s1 s' Hw _ IH]; [apply grows_refl|]. eapply grows_trans; [by eapply write_grows|done]. }
  split_and!; [done|done|..].
  - intros t i a v Hv. split; [|by eapply lookup_weaken; [done|apply G]].
    destruct (ev_approval _ E _ _ _ _ Hv) as (_ & Hc & _). unfold approval_check in Hc. rewrite !andb_true_iff in Hc.
    destruct Hc as [[_ Hc] _]. destruct (apr_ConsumedAt v); cbn.
    + apply andb_true_iff in Hc as [Hc%String.eqb_eq _]. done.
    + apply negb_true_iff, String.eqb_neq in Hc. done.
  - intros t i v Hv Hsucc. split; [|by eapply lookup_weaken; [done|apply G]].
    destruct (ev_result _ E _ _ _ Hv) as (_ & Hc & _). unfold result_check in Hc. rewrite !andb_true_iff in Hc.
    destruct Hc as [[[[[[Hd _] _] _] _] _] Hr]. rewrite Hsucc in Hr. cbn in Hr. unfold nilIfEmpty in *.
    destruct (slen (exr_ResultDigest v) =? 0); [done|]. by apply Z.eqb_eq in Hd.
Qed.

(** ** Witness *)

Definition ex_digest32 : string := str_of (replicate 32 "d"%char).
Definition ex_invocation : Invocation :=
  mkRow "i" "run" "call" "tool" "1.0.0" "jcs-v1" ex_digest32 ex_digest32 "{}" RetrySafe "received" 0 None None 1 1.
Definition ex_result_row : ExecutionResult :=
  mkExecutionResult (Some 1) (Some 1) None None ex_digest32 "{}" "confirmed_success" None "C0" 9.
Definition ex_attempt_row : Attempt := mkAttempt 1 1 (Some "w"%string) (Some 2) (Some 5) None None None None None "{}" 2 None.
Definition ex_versions : gset (string * string) := {[ ("tool"%string, "1.0.0"%string) ]}.
Definition ex_invoked : control_store := with_base (empty_control ex_versions ∅)
  (set_invocations (empty_database ex_versions) (<[("t"%string, "i"%string) := ex_invocation]> ∅)).
Definition ex_attempted : control_store := with_base ex_invoked
  (set_attempts (base ex_invoked) (<[("t"%string, "i"%string) := [ex_attempt_row]]> ∅)).
Definition ex_recorded : control_store :=
  mkControl (set_results (base ex_attempted) (<[("t"%string, "i"%string) := mkResultRow (Some "{}"%string) "confirmed_success"]> ∅))
    ∅ ∅ ∅ (<[("t"%string, "i"%string) := ex_result_row]> ∅) ∅.

Lemma control_evidence_sound_witness :
  Results_Create "t" "i" ex_result_row ex_attempted = Ok ex_recorded /\ evidence ex_recorded.
Proof.
  assert (H1 : Invocations_Create "t" ex_invocation (empty_database ex_versions) = Ok (base ex_invoked)) by (vm_compute; reflexivity).
  assert (H2 : Attempts_Create "t" "i" ex_attempt_row ex_invoked = Ok ex_attempted) by (vm_compute; reflexivity).
  assert (H3 : Results_Create "t" "i" ex_result_row ex_attempted = Ok ex_recorded) by (vm_compute; reflexivity).
  split; [exact H3|].
  refine (proj1 (control_evidence_sound (fun _ => Some false) ex_versions ∅ ex_recorded ex_recorded _ (rtc_refl _ _))).
  eapply written_step; [eapply written_step; [eapply written_step; [apply written_empty|]|]|].
  - eapply write_invocation; [exact H1|reflexivity].
  - eapply write_attempt; exact H2.
  - eapply write_result; exact H3.
Defined.
