(* ===== verification/Postgres.v ===== *)
(** * PostgreSQL infrastructure

    [internal/adapters/postgres]: the classification of database errors ([errors.go]),
    the life cycle of a transaction with its rollback ([transaction.go]), and the guard
    that keeps tenant-owned statements within their tenant ([tenant_scope.go]) together
    with the statements of [repositories.go] it is put in front of. *)
From Stdlib Require Import Ascii String.
From S2P Require Import Prelude GoStd Regex Sha256 Json JsonParse Primitives ToolCatalog GoText Ports Database.

(** ** Error classes *)

Definition ErrorNone : string := "none".
Definition ErrorCanceled : string := "canceled".
Definition ErrorDeadline : string := "deadline".
Definition ErrorSerialization : string := "serialization".
Definition ErrorDeadlock : string := "deadlock".
Definition ErrorConnection : string := "connection".
Definition ErrorConstraint : string := "constraint".
Definition ErrorOther : string := "other".

(** An error value by what [errors.Is] and [errors.As] ask of it, with the errors it
    wraps or joins: [context.Canceled], [context.DeadlineExceeded], a [*pgconn.PgError]
    with its code, a [net.Error], an error that says whether it is safe to retry, and
    [pgx.ErrTxClosed]. *)
Inductive dberror := DError (canceled deadline : bool) (code : option string) (network : bool)
  (retry : option bool) (closed : bool) (causes : list dberror).

(** The first node, depth first, that gives an answer. *)
Fixpoint find_first {B} (f : dberror -> option B) (e : dberror) : option B :=
  match f e with
  | Some b => Some b
  | None =>
      (fix go l := match l with
                   | [] => None
                   | e :: l => match find_first f e with Some b => Some b | None => go l end
                   end) (let '(DError _ _ _ _ _ _ causes) := e in causes)
  end.

Definition errors_Is (p : dberror -> bool) (e : dberror) : bool :=
  is_some (find_first (fun n => if p n then Some tt else None) e).
Definition is_canceled (e : dberror) : bool := let '(DError c _ _ _ _ _ _) := e in c.
Definition is_deadline (e : dberror) : bool := let '(DError _ d _ _ _ _ _) := e in d.
Definition pg_code (e : dberror) : option string := let '(DError _ _ code _ _ _ _) := e in code.
Definition is_network (e : dberror) : bool := let '(DError _ _ _ n _ _ _) := e in n.
Definition retry_answer (e : dberror) : option bool := let '(DError _ _ _ _ r _ _) := e in r.

(** [fmt.Errorf] with [%w] and [errors.Join] *)
Definition wrap_error (e : dberror) : dberror := DError false false None false None false [e].
Definition join_errors (a b : dberror) : dberror := DError false false None false None false [a; b].

Definition code_class (code : string) : option string :=
  if String.eqb code "40001" then Some ErrorSerialization
  else if String.eqb code "40P01" then Some ErrorDeadlock
  else if one_of_str code ["57P01"; "57P02"; "57P03"] then Some ErrorConnection
  else if has_prefix code "23" then Some ErrorConstraint
  else if has_prefix code "08" then Some ErrorConnection
  else None.

Definition ClassifyError (err : option dberror) : string :=
  match err with
  | None => ErrorNone
  | Some e =>
      if errors_Is is_canceled e then ErrorCanceled
      else if errors_Is is_deadline e then ErrorDeadline
      else
      match find_first pg_code e ≫= code_class with
      | Some class => class
      | None =>
          if errors_Is is_network e then ErrorConnection
          else if default false (find_first retry_answer e) then ErrorConnection
          else ErrorOther
      end
  end.

Definition IsRetriable (err : option dberror) : bool :=
  one_of_str (ClassifyError err) [ErrorSerialization; ErrorDeadlock; ErrorConnection].

(** ** Transactions *)




(** ** The tenant guard *)

(** An argument of a statement: a Go string or something else. *)
Inductive sql_arg := AText (s : string) | AOther (rendering : string).

Record tenantScopedDB := mkScoped { ts_tenantID : string }.

Definition errUnsafeTenantQuery : goerror :=
  ErrNew "postgres tenant query must reference tenant_id and bind the repository tenant as $1".

Definition safe (db : tenantScopedDB) (sql : string) (arguments : list sql_arg) : bool :=
  if negb (str_contains (ToLower sql) "tenant_id") || negb (str_contains sql "$1") then false else
  match arguments with
  | AText tenantID :: _ => String.eqb tenantID (ts_tenantID db)
  | _ => false
  end.

Section Guard.
Context {Tag Rows Row : Type} (inner_Exec : string -> list sql_arg -> result Tag)
  (inner_Query : string -> list sql_arg -> result Rows) (inner_QueryRow : string -> list sql_arg -> result Row).
Definition Exec (db : tenantScopedDB) (sql : string) (arguments : list sql_arg) : result Tag :=
  if negb (safe db sql arguments) then Err errUnsafeTenantQuery else inner_Exec sql arguments.
Definition Query (db : tenantScopedDB) (sql : string) (arguments : list sql_arg) : result Rows :=
  if negb (safe db sql arguments) then Err errUnsafeTenantQuery else inner_Query sql arguments.
(** With the scan of the row, which reports the refusal. *)
Definition QueryRow (db : tenantScopedDB) (sql : string) (arguments : list sql_arg) : result Row :=
  if negb (safe db sql arguments) then Err errUnsafeTenantQuery else inner_QueryRow sql arguments.
End Guard.

Definition NewTenantRepositories (tenantID : string) : result tenantScopedDB :=
  match ParseUUID tenantID with
  | Err err => Err (ErrWrap "invalid repository tenant ID" err)
  | Ok id => Ok (mkScoped (UUID_String id))
  end.

(** [WithDB]: the repositories of the same tenant on a transaction *)
Definition WithDB (db : tenantScopedDB) : result tenantScopedDB := NewTenantRepositories (ts_tenantID db).

(** ** The statements of the repositories *)

Definition ToolCatalog_GetExposedVersion_query : string :=
  "SELECT v.tool_id, v.version, v.state, v.definition, v.definition_digest, v.published_at
		FROM tenant_tool_exposures e JOIN tool_versions v
		ON v.tool_id = e.tool_id AND v.version = e.version
		WHERE e.tenant_id = $1 AND e.tool_id = $2 AND e.version = $3
		AND e.enabled AND v.state = 'published'".
Definition ToolCatalog_ListExposedForDiscovery_query : string :=
  "SELECT v.tool_id, v.version, v.definition, v.definition_digest
		FROM tenant_tool_exposures e JOIN tool_versions v
		ON v.tool_id = e.tool_id AND v.version = e.version
		WHERE e.tenant_id = $1 AND e.enabled AND v.state = 'published'
		ORDER BY v.tool_id ASC, v.version ASC".
Definition ToolCatalog_SetExposure_query : string :=
  "INSERT INTO tenant_tool_exposures (tenant_id, tool_id, version, enabled, updated_at)
		VALUES ($1, $2, $3, $4, $5) ON CONFLICT (tenant_id, tool_id, version)
		DO UPDATE SET enabled = EXCLUDED.enabled, updated_at = EXCLUDED.updated_at".
Definition ConnectorInstance_Put_query : string :=
  "INSERT INTO connector_instances (tenant_id, connector_instance_id, connector_type,
		destination_config, config_digest, enabled, created_at, updated_at) VALUES ($1,$2,$3,$4,$5,$6,$7,$8)
		ON CONFLICT (tenant_id, connector_instance_id) DO UPDATE SET connector_type=EXCLUDED.connector_type,
		destination_config=EXCLUDED.destination_config, config_digest=EXCLUDED.config_digest,
		enabled=EXCLUDED.enabled, updated_at=EXCLUDED.updated_at".
Definition ConnectorInstance_Get_query : string :=
  "SELECT connector_instance_id, connector_type, destination_config, config_digest,
		enabled, created_at, updated_at FROM connector_instances WHERE tenant_id=$1 AND connector_instance_id=$2".
Definition CredentialBinding_Put_query : string :=
  "INSERT INTO credential_bindings (tenant_id, credential_binding_id, connector_instance_id,
		provider_ref, capability_metadata, enabled, created_at, updated_at) VALUES ($1,$2,$3,$4,$5,$6,$7,$8)
		ON CONFLICT (tenant_id, credential_binding_id) DO UPDATE SET connector_instance_id=EXCLUDED.connector_instance_id,
		provider_ref=EXCLUDED.provider_ref, capability_metadata=EXCLUDED.capability_metadata,
		enabled=EXCLUDED.enabled, updated_at=EXCLUDED.updated_at".
Definition CredentialBinding_Get_query : string :=
  "SELECT credential_binding_id, connector_instance_id, provider_ref, capability_metadata,
		enabled, created_at, updated_at FROM credential_bindings WHERE tenant_id=$1 AND credential_binding_id=$2".
Definition Invocation_Create_query : string :=
  "INSERT INTO invocations (tenant_id, invocation_id, run_id, tool_call_id, tool_id,
		tool_version, argument_profile, argument_digest, resource_projection, resource_digest, retry_class,
		state, state_version, terminal_code, terminal_at, created_at, updated_at)
		VALUES ($1,$2,$3,$4,$5,$6,$7,$8,$9,$10,$11,$12,$13,$14,$15,$16,$17)".
Definition Invocation_Get_query : string :=
  "SELECT invocation_id,run_id,tool_call_id,tool_id,tool_version,argument_profile,
		argument_digest,resource_projection,resource_digest,retry_class,state,state_version,terminal_code,
		terminal_at,created_at,updated_at FROM invocations WHERE tenant_id=$1 AND invocation_id=$2".
Definition Invocation_GetToolCallView_query : string :=
  "SELECT i.tool_call_id,i.tool_id,i.tool_version,i.state,
		CASE WHEN i.state='succeeded' THEN er.safe_result ELSE NULL END,
		i.terminal_code,i.created_at,i.updated_at
		FROM invocations i LEFT JOIN execution_results er
		ON er.tenant_id=i.tenant_id AND er.invocation_id=i.invocation_id
		WHERE i.tenant_id=$1 AND i.run_id=$2 AND i.tool_call_id=$3".
Definition Attempt_Create_query : string :=
  "INSERT INTO invocation_attempts (tenant_id,invocation_id,attempt_no,fence,owner_id,
		claimed_at,lease_expires_at,downstream_request_ref,downstream_result_ref,outcome_classification,
		retry_classification,ambiguity_classification,evidence,started_at,finished_at)
		VALUES ($1,$2,$3,$4,$5,$6,$7,$8,$9,$10,$11,$12,$13,$14,$15)".
Definition Decision_RecordAuthorization_query : string :=
  "INSERT INTO authorization_decisions (tenant_id,invocation_id,decision_id,context_digest,
		argument_digest,resource_digest,outcome,policy_ref,constraints,issued_at,expires_at,recorded_at,revocation_checkpoint)
		VALUES ($1,$2,$3,$4,$5,$6,$7,$8,$9,$10,$11,$12,$13)".
Definition Decision_RecordGuardrail_query : string :=
  "INSERT INTO gr_evaluations (tenant_id,invocation_id,evaluation_id,phase,content_digest,
		transformed_content_digest,decision,policy_ref,safe_metadata,created_at) VALUES ($1,$2,$3,$4,$5,$6,$7,$8,$9,$10)".
Definition Approval_Create_query : string :=
  "INSERT INTO action_approvals (tenant_id,invocation_id,approval_id,approval_ref,binding_digest,
		argument_digest,resource_digest,authorization_decision_id,status,issued_at,expires_at,consumed_at,revocation_checkpoint)
		VALUES ($1,$2,$3,$4,$5,$6,$7,$8,$9,$10,$11,$12,$13)".
Definition Result_Create_query : string :=
  "INSERT INTO execution_results (tenant_id,invocation_id,attempt_no,fence,connector_instance_id,
		credential_binding_id,result_digest,safe_result,classification,downstream_result_ref,data_classification,created_at)
		VALUES ($1,$2,$3,$4,$5,$6,$7,$8,$9,$10,$11,$12)".
Definition Usage_Record_query : string :=
  "INSERT INTO trusted_usage_events (tenant_id,event_id,invocation_id,accounting_key,
		dimension,quantity,unit,attributes,occurred_at,recorded_at) VALUES ($1,$2,$3,$4,$5,$6,$7,$8,$9,$10)".
Definition Audit_Record_query : string :=
  "INSERT INTO audit_events (tenant_id,event_id,invocation_id,event_type,evidence_profile,
		actor_class,actor_ref,outcome,reason_code,correlation,safe_payload,payload_digest,occurred_at,recorded_at)
		VALUES ($1,$2,$3,$4,$5,$6,$7,$8,$9,$10,$11,$12,$13,$14)".
Definition Outbox_Enqueue_query : string :=
  "INSERT INTO outbox_messages (tenant_id,outbox_id,event_id,topic,event_type,safe_payload,
		payload_digest,created_at,available_at) VALUES ($1,$2,$3,$4,$5,$6,$7,$8,$9)".
Definition repository_statements : list string :=
  [ToolCatalog_GetExposedVersion_query;
   ToolCatalog_ListExposedForDiscovery_query;
   ToolCatalog_SetExposure_query;
   ConnectorInstance_Put_query;
   ConnectorInstance_Get_query;
   CredentialBinding_Put_query;
   CredentialBinding_Get_query;
   Invocation_Create_query;
   Invocation_Get_query;
   Invocation_GetToolCallView_query;
   Attempt_Create_query;
   Decision_RecordAuthorization_query;
   Decision_RecordGuardrail_query;
   Approval_Create_query;
   Result_Create_query;
   Usage_Record_query;
   Audit_Record_query;
   Outbox_Enqueue_query].

(** ** Lemmas *)

Lemma find_first_wrap {B} (f : dberror -> option B) e : f (wrap_error e) = None -> find_first f (wrap_error e) = find_first f e.
Proof.
  intros H. change (find_first f (wrap_error e)) with (match f (wrap_error e) with Some b => Some b | None =>
    match find_first f e with Some b => Some b | None => None end end). rewrite H. by destruct (find_first f e).
Qed.

Lemma find_first_join {B} (f : dberror -> option B) a b : f (join_errors a b) = None ->
  find_first f (join_errors a b) = match find_first f a with Some r => Some r | None => find_first f b end.
Proof.
  intros H. change (find_first f (join_errors a b)) with (match f (join_errors a b) with Some r => Some r | None =>
    match find_first f a with Some r => Some r | None => match find_first f b with Some r => Some r | None => None end end end).
  rewrite H. destruct (find_first f a); [done|]. by destruct (find_first f b).
Qed.

(** Wrapping an error keeps its class. *)
Lemma classify_wrap e : ClassifyError (Some (wrap_error e)) = ClassifyError (Some e).
Proof. unfold ClassifyError, errors_Is. by rewrite !find_first_wrap. Qed.

(** So does joining the error of a failed rollback, when the error itself was canceled,
    overdue, or has a code with a class, unless the rollback was canceled or overdue. *)
Lemma classify_join primary rollback class :
  errors_Is is_canceled rollback = false -> errors_Is is_deadline rollback = false ->
  find_first pg_code primary ≫= code_class = Some class ->
  ClassifyError (Some (join_errors primary rollback)) = ClassifyError (Some primary).
Proof.
  unfold ClassifyError, errors_Is. intros Hc Hd Hp. rewrite !find_first_join by done.
  destruct (find_first (fun n => if is_canceled n then Some tt else None) primary); [done|]. rewrite Hc.
  destruct (find_first (fun n => if is_deadline n then Some tt else None) primary); [done|]. rewrite Hd.
  cbn [is_some]. destruct (find_first pg_code primary) as [code|]; [|done]. cbn [mbind option_bind] in *. by rewrite Hp.
Qed.

(** ** Properties *)


(** C36: repositories stay within their tenant.  The scope of a repository is the
    canonical text of the tenant it was constructed for; a statement that reaches the
    database through any of the three operations names the tenant column and binds this
    tenant as its first argument, and a statement that does not is refused whatever the
    database would answer; every statement of the repositories passes; and the
    repositories a transaction is given are those of the same tenant. *)
Theorem tenant_statements_scoped (tenantID : string) (db : tenantScopedDB)
    (Hnew : NewTenantRepositories tenantID = Ok db) :
  (exists id, ParseUUID tenantID = Ok id /\ ts_tenantID db = UUID_String id) /\
  (forall A (inner : string -> list sql_arg -> result A) sql arguments,
     let forwarded := exists rest, arguments = AText (ts_tenantID db) :: rest /\
                        str_contains (ToLower sql) "tenant_id" = true /\ str_contains sql "$1" = true in
     (forwarded -> Exec inner db sql arguments = inner sql arguments /\ Query inner db sql arguments = inner sql arguments /\
                   QueryRow inner db sql arguments = inner sql arguments) /\
     (~ forwarded -> Exec inner db sql arguments = Err errUnsafeTenantQuery /\
                     Query inner db sql arguments = Err errUnsafeTenantQuery /\
                     QueryRow inner db sql arguments = Err errUnsafeTenantQuery)) /\
  Forall (fun sql => forall rest, safe db sql (AText (ts_tenantID db) :: rest) = true) repository_statements /\
  WithDB db = Ok db.
Proof.
  split_and!.
  - revert Hnew. unfold NewTenantRepositories. destruct (ParseUUID tenantID) as [id|]; [|done]. intros [= <-]. eauto.
  - intros A inner sql arguments forwarded.
    assert (Hs : safe db sql arguments = true <-> forwarded).
    { unfold safe, forwarded. destruct (str_contains (ToLower sql) "tenant_id"), (str_contains sql "$1"); cbn [negb orb];
        try (split; [done|naive_solver]). destruct arguments as [|[t|t] rest]; try (split; [done|naive_solver]).
      rewrite String.eqb_eq. naive_solver. }
    unfold Exec, Query, QueryRow. split; intros H.
    + apply Hs in H. by rewrite H.
    + rewrite <- Hs, not_true_iff_false in H. by rewrite H.
  - assert (H : forallb (fun sql => str_contains (ToLower sql) "tenant_id" && str_contains sql "$1") repository_statements = true)
      by (vm_compute; reflexivity).
    apply list.Forall_forall. intros sql Hin%list_elem_of_In rest. rewrite forallb_forall in H. apply H in Hin.
    apply andb_true_iff in Hin as [E1 E2]. unfold safe. rewrite E1, E2. cbn. apply String.eqb_refl.
  - revert Hnew. unfold WithDB, NewTenantRepositories. destruct (ParseUUID tenantID) as [id|] eqn:E; [|done]. intros [= <-].
    cbn [ts_tenantID]. by rewrite (ParseUUID_String id) by (by destruct (ParseUUID_inv _ _ E)).
Qed.

(** ** Witness *)

Lemma tenant_statements_scoped_witness :
  NewTenantRepositories "0190A3F0-0000-7000-8000-000000000001" = Ok (mkScoped "0190a3f0-0000-7000-8000-000000000001") /\
  safe (mkScoped "0190a3f0-0000-7000-8000-000000000001") Invocation_Get_query
    [AText "0190a3f0-0000-7000-8000-000000000001"; AText "i"] = true.
Proof.
  assert (H : NewTenantRepositories "0190A3F0-0000-7000-8000-000000000001" = Ok (mkScoped "0190a3f0-0000-7000-8000-000000000001"))
    by (vm_compute; reflexivity).
  split; [exact H|]. destruct (tenant_statements_scoped _ _ H) as (_ & _ & Hall & _).
  exact (proj1 (List.Forall_forall _ _) Hall Invocation_Get_query ltac:(do 8 right; left; reflexivity) [AText "i"]).
Defined.

