(* ===== verification/Migrations.v ===== *)
(** * The migration artifact

    [internal/adapters/postgres/migrations/runner.go]: before any migration runs,
    [ValidateArtifact] compares the embedded files with the manifest of the release.  The
    file system is the list of the entries of its root; running the migrations is
    goose's. *)
From Stdlib Require Import Ascii String.
From stdpp Require Import sorting pretty.
From S2P Require Import Prelude GoStd Regex Sha256 Json JsonParse Primitives ToolCatalog GoText JsonStruct GoTime.

Definition five_digits : regex :=
  let d := RClass is_digit in RSeq d (RSeq d (RSeq d (RSeq d d))).
Definition migrationName : regex :=
  RSeq five_digits (RSeq (RChar "_") (RSeq (RPlus (one_of [is_lower; is_digit; Ascii.eqb "_"]))
    (RSeq (RChar ".") (RSeq (RChar "s") (RSeq (RChar "q") (RChar "l")))))).

Record manifestEntry := mkManifestEntry { mf_Name : string; mf_SHA256 : string }.
Definition manifest_fields : list string := ["name"; "sha256"]%string.
Definition set_manifest (name : string) (m : member) (e : manifestEntry) : option manifestEntry :=
  if String.eqb name "name" then set_string m (mf_Name e) ≫= fun v => Some (mkManifestEntry v (mf_SHA256 e))
  else set_string m (mf_SHA256 e) ≫= fun v => Some (mkManifestEntry (mf_Name e) v).
Definition decode_entry (v : jvalue) (old : manifestEntry) : option manifestEntry :=
  match v with
  | JObject members => set_members manifest_fields false set_manifest (map (fun kv => mkMember kv.1 kv.2 EmptyString) members) old
  | JNull => Some old
  | _ => None
  end.
(** [json.Unmarshal] into a slice of entries *)
Definition decode_manifest (manifest : string) : option (list manifestEntry) :=
  match json_parse manifest with
  | Some (JArray items) => set_slice decode_entry (mkManifestEntry "" "") items []
  | Some JNull => Some []
  | _ => None
  end.

(** An entry of the root: its name, whether it is a directory, and what reading it gives. *)
Record entry := mkFsEntry { fs_Name : string; fs_IsDir : bool; fs_Contents : result string }.
Definition ReadFile (files : list entry) (name : string) : result string :=
  match List.find (fun e => String.eqb (fs_Name e) name) files with
  | Some e => fs_Contents e
  | None => Err (ErrNew "file does not exist")
  end.

(** The order of [sort.Strings] *)
Definition name_not_after (a b : string) : Prop := str_ltb b a = false.
#[global] Instance name_not_after_dec : RelDecision name_not_after.
Proof. intros a b. unfold name_not_after. apply _. Defined.

Definition is_migration (e : entry) : bool := negb (fs_IsDir e) && matches migrationName (fs_Name e).
Definition migration_names (files : list entry) : list string :=
  merge_sort name_not_after (map fs_Name (List.filter is_migration files)).

(** [%05d] *)
Definition version_text (n : Z) : string := if n <? 100000 then pad 5 n else pretty n.

Fixpoint check_entries (files : list entry) (index : Z) (expected : list manifestEntry) (names : list string) : result unit :=
  match expected, names with
  | want :: expected, name :: names =>
      if negb (String.eqb name (mf_Name want)) then Err (ErrNew "migration differs from the manifest")
      else if negb (matches migrationName (mf_Name want))
              || negb (String.eqb (String.substring 0 5 (mf_Name want)) (version_text (index + 1))) then
        Err (ErrNew "migration is not a contiguous version")
      else
      match ReadFile files (mf_Name want) with
      | Err err => Err (ErrWrap "read migration" err)
      | Ok contents =>
          if negb (String.eqb (hex_encode (sha256 contents)) (mf_SHA256 want)) then
            Err (ErrNew "migration checksum differs from immutable manifest")
          else check_entries files (index + 1) expected names
      end
  | _, _ => Ok tt
  end.

Definition ValidateArtifact (files : result (list entry)) (manifest : string) : result unit :=
  match decode_manifest manifest with
  | None => Err (ErrNew "decode migration manifest")
  | Some expected =>
      if llen expected =? 0 then Err (ErrNew "migration manifest is empty") else
      match files with
      | Err err => Err (ErrWrap "read migration filesystem" err)
      | Ok files =>
          let names := migration_names files in
          if negb (llen names =? llen expected) then Err (ErrNew "migration count does not match manifest count")
          else check_entries files 0 expected names
      end
  end.

(** [newProvider]: a database and a file system are given or not; [locker] and [provider]
    are what the two constructors of the migration library answer. *)
Definition newProvider (db : bool) (files : option (result (list entry))) (manifest : string)
    (locker provider : option goerror) : result unit :=
  if negb db then Err (ErrNew "migration database is required") else
  match files with
  | None => Err (ErrNew "migration filesystem is required")
  | Some files =>
      match ValidateArtifact files manifest with
      | Err err => Err (ErrWrap "validate migration artifact" err)
      | Ok _ =>
          match locker, provider with
          | Some err, _ => Err (ErrWrap "create postgres migration lock" err)
          | None, Some err => Err (ErrWrap "create postgres migration provider" err)
          | None, None => Ok tt
          end
      end
  end.

(** [Up], given what the provider answers *)
Definition Up (provider : option (option goerror)) : result unit :=
  match provider with
  | None => Err (ErrNew "migration provider is required")
  | Some (Some err) => Err (ErrWrap "apply postgres migrations" err)
  | Some None => Ok tt
  end.

(** ** Lemmas *)

(** What one checked migration has. *)
Definition matches_entry (files : list entry) (index : Z) (want : manifestEntry) : Prop :=
  matches migrationName (mf_Name want) = true /\ String.substring 0 5 (mf_Name want) = version_text (index + 1) /\
  exists contents, ReadFile files (mf_Name want) = Ok contents /\ hex_encode (sha256 contents) = mf_SHA256 want.

Lemma check_entries_ok files expected : forall index names, length names = length expected ->
  check_entries files index expected names = Ok tt ->
  names = map mf_Name expected /\ forall k want, expected !! k = Some want -> matches_entry files (index + Z.of_nat k) want.
Proof.
  induction expected as [|want expected IH]; intros index [|name names] Hlen; try done.
  cbn [check_entries]. destruct (String.eqb_spec name (mf_Name want)) as [->|]; [|done]. cbn [negb].
  destruct (negb (matches _ _) || _) eqn:Em; [done|]. destruct (ReadFile files _) as [contents|] eqn:Er; [|done].
  destruct (String.eqb_spec (hex_encode (sha256 contents)) (mf_SHA256 want)) as [Eh|]; [|done]. cbn [negb].
  rewrite orb_false_iff, !negb_false_iff, String.eqb_eq in Em. intros H. cbn in Hlen.
  destruct (IH (index + 1) names ltac:(lia) H) as [-> Hall]. split; [done|]. intros [|k] w; cbn.
  - intros [= <-]. rewrite Z.add_0_r. split_and!; [tauto..|eauto].
  - intros Hk%Hall. by replace (index + Z.of_nat (S k)) with (index + 1 + Z.of_nat k) by lia.
Qed.

Lemma ValidateArtifact_ok files manifest : ValidateArtifact files manifest = Ok tt ->
  exists l expected, files = Ok l /\ decode_manifest manifest = Some expected /\ expected <> [] /\
    migration_names l = map mf_Name expected /\
    forall k want, expected !! k = Some want -> matches_entry l (Z.of_nat k) want.
Proof.
  unfold ValidateArtifact. destruct (decode_manifest manifest) as [expected|]; [|done].
  destruct (llen expected =? 0) eqn:E0; [done|]. destruct files as [l|]; [|done]. cbv zeta.
  destruct (llen (migration_names l) =? llen expected) eqn:El; [|done]. cbn [negb].
  apply Z.eqb_eq in El. unfold llen in El. intros H.
  destruct (check_entries_ok l expected 0 (migration_names l) ltac:(lia) H) as [Hn Hall].
  exists l, expected. split_and!; try done. by intros ->.
Qed.

(** A provider exists only for a validated artifact, whatever the library answers. *)
Lemma provider_validated db files manifest locker provider : newProvider db files manifest locker provider = Ok tt ->
  db = true /\ exists l, files = Some (Ok l) /\ ValidateArtifact (Ok l) manifest = Ok tt.
Proof.
  unfold newProvider. destruct db; [|done]. destruct files as [files|]; [|done].
  destruct (ValidateArtifact files manifest) as [[]|] eqn:E; [|done]. intros _.
  destruct (ValidateArtifact_ok _ _ E) as (l & _ & -> & _). eauto.
Qed.

(** ** Properties *)

(** A manifest pins the migrations of a release.  Two file systems that pass
    validation against one manifest hold the same migrations under the same names, in
    the order of their versions 1, 2, 3, and so on, and no others; and each migration has
    the same bytes in both, or two different texts with the same SHA-256 are
    exhibited. *)
Theorem migration_artifact_pinned (files files' : list entry) (manifest : string)
    (Hvalid : ValidateArtifact (Ok files) manifest = Ok tt) (Hvalid' : ValidateArtifact (Ok files') manifest = Ok tt) :
  migration_names files = migration_names files' /\ migration_names files <> [] /\
  (forall k name, migration_names files !! k = Some name ->
     matches migrationName name = true /\ String.substring 0 5 name = version_text (Z.of_nat k + 1) /\
     exists contents contents', ReadFile files name = Ok contents /\ ReadFile files' name = Ok contents' /\
       (contents = contents' \/ (contents <> contents' /\ sha256 contents = sha256 contents'))).
Proof.
  destruct (ValidateArtifact_ok _ _ Hvalid) as (l & expected & [= <-] & Hd & Hne & Hn & Hall).
  destruct (ValidateArtifact_ok _ _ Hvalid') as (l' & expected' & [= <-] & Hd' & _ & Hn' & Hall').
  rewrite Hd in Hd'. injection Hd' as <-. rewrite Hn, Hn'. split_and!; [done|by destruct expected|].
  intros k name Hk. rewrite list_lookup_fmap in Hk. destruct (expected !! k) as [want|] eqn:Ew; [|done]. injection Hk as <-.
  destruct (Hall k want Ew) as (? & ? & contents & Hr & Hs). destruct (Hall' k want Ew) as (_ & _ & contents' & Hr' & Hs').
  split_and!; [done..|]. exists contents, contents'. split_and!; [done..|].
  destruct (decide (contents = contents')) as [|Hdiff]; [by left|]. right. split; [done|]. apply hex_encode_inj. congruence.
Qed.

(** ** Witness *)

Definition ex_migrations : list entry :=
  [mkFsEntry "00001_init.sql" false (Ok EmptyString); mkFsEntry "README.md" false (Err (ErrNew "unread"))].
Definition ex_manifest : string :=
  quoted "[{'name':'00001_init.sql','sha256':'e3b0c44298fc1c149afbf4c8996fb92427ae41e4649b934ca495991b7852b855'}]".

Lemma migration_artifact_pinned_witness :
  ValidateArtifact (Ok ex_migrations) ex_manifest = Ok tt /\
  matches migrationName "00001_init.sql" = true /\ migration_names ex_migrations = ["00001_init.sql"%string].
Proof.
  assert (H : ValidateArtifact (Ok ex_migrations) ex_manifest = Ok tt) by (vm_compute; reflexivity).
  destruct (migration_artifact_pinned ex_migrations ex_migrations ex_manifest H H) as (_ & _ & Hall).
  assert (Hn : migration_names ex_migrations = ["00001_init.sql"%string]) by (vm_compute; reflexivity).
  split; [exact H|]. split; [|exact Hn]. apply (Hall 0%nat). rewrite Hn. reflexivity.
Defined.
