(* ===== verification/Server.v ===== *)
(** * The server: middleware, telemetry labels and shutdown

    The outer middleware of [internal/adapters/http/server.go] around the handlers of
    [HttpCalls] and [Http], and the label functions and [Shutdown] of
    [internal/telemetry/bootstrap.go].  A handler may panic, after it wrote nothing or
    part of a response.  The one field of a request object that handlers write is the
    pattern the router matched; middleware that calls [WithContext] hands on a copy of
    the object, so what is written there is not seen outside. *)
From Stdlib Require Import Ascii String.
From stdpp Require Import pretty.
From S2P Require Import Prelude GoStd Regex Json JsonParse Primitives ToolCatalog GoText Http Logging.

(** ** Labels *)

Definition maxAttributeValueBytes : Z := 256.
Definition BoundedAttributeValue (value : string) : string :=
  if slen value <=? maxAttributeValueBytes then value else String.substring 0 (Z.to_nat maxAttributeValueBytes) value.

Definition StableRoute (route : string) : string :=
  if String.eqb route "" || (128 <? slen route) || contains_any route "?#" then "unknown" else route.

Definition StatusClass (status : Z) : string :=
  if (status <? 100) || (599 <? status) then "unknown"%string else pretty (Z.quot status 100) +:+ "xx".

Definition known_methods : list string := ["GET"; "POST"; "PUT"; "PATCH"; "DELETE"; "OPTIONS"; "HEAD"]%string.
(** [ObserveRequest]: the labels of the counter *)
Definition ObserveRequest (method route : string) (status : Z) : string * string * string :=
  let method := ToUpper method in
  (if one_of_str method known_methods then method else "OTHER"%string, StableRoute route, StatusClass status).

(** [Observability.Shutdown] runs its function once and keeps what it returned. *)
Definition Shutdown (done : option (result unit)) (shutdown : result unit) : option (result unit) * result unit :=
  match done with Some r => (done, r) | None => (Some shutdown, shutdown) end.

(** ** Handlers *)

(** How a handler ends: with a response, or with a panic after writing a part of one,
    with the length its header declared, if any. *)
Inductive served := Done (r : Response) | Panicked (sent : option (Response * option Z)).

(** A request object: the request, the correlation of its context and its deadline. *)
Record hctx := mkHctx { hc_Request : Request; hc_Correlation : string * string; hc_Timeout : option Z }.

(** A handler answers and leaves a pattern in the request object it was given. *)
Definition handler : Type := hctx -> served * string.

(** A call with a copy of the object: its own keeps its pattern, which is empty. *)
Definition with_copy (next : handler) (r : hctx) : served * string := ((next r).1, EmptyString).

Definition requestDeadline (timeout : Z) (next : handler) : handler :=
  fun r => with_copy next (mkHctx (hc_Request r) (hc_Correlation r) (Some timeout)).

(** [bodyLimit] changes the object it was given and passes it on. *)
Definition limit_body (limit : Z) (next : handler) : handler :=
  fun r => next (mkHctx (bodyLimit limit (hc_Request r)) (hc_Correlation r) (hc_Timeout r)).

(** [publicRequestLimits] around a handler that may panic: the permits before and after. *)
Definition publicRequestLimits (maxBodyBytes maxConcurrent : Z) (correlation : string) (next : handler) (permits : Z) (r : hctx)
    : Z * (served * string) :=
  let '(taken, e) := public_enter maxConcurrent permits (hc_Request r) in
  let problem code := (Done (writePublicProblem correlation (rq_Path (hc_Request r)) code), EmptyString) in
  let outcome :=
    match e with
    | Exempt => next r
    | Full => problem CodeRateLimited
    | Permit =>
        if maxBodyBytes <? rq_ContentLength (hc_Request r) then problem CodeInvalidArguments
        else if (String.eqb (rq_Method (hc_Request r)) "GET" || String.eqb (rq_Method (hc_Request r)) "HEAD")
                && (0 <? rq_ContentLength (hc_Request r)) then problem CodeInvalidArguments
        else next r
    end in
  (public_leave taken e, outcome).

(** What the middleware reports. *)
Inductive report := Observed (labels : string * string * string) | Logged (r : log_record).

Definition completed (correlation : string * string) (method route : string) (status : Z) : list report :=
  match LogEvent correlation "http.request_completed"
          [mkAttr "http.method" (plain_text method); mkAttr "http.route" (plain_text (StableRoute route));
           mkAttr "http.status_class" (plain_text (StatusClass status))] with
  | Ok r => [Logged r]
  | Err _ => []
  end.

(** [statusWriter]: what a handler writes, and the status it is remembered with.  Only
    the first status reaches the connection; the last one is remembered. *)
Inductive written := WroteHeader (status : Z) | WroteBody (text : string).
Definition statusWriter_write (status : Z) (w : written) : Z :=
  match w with WroteHeader status => status | WroteBody _ => if status =? 0 then 200 else status end.
Definition tracked_status (writes : list written) : Z :=
  let status := foldl statusWriter_write 0 writes in if status =? 0 then 200 else status.
Definition sent_status (writes : list written) : Z :=
  match writes with WroteHeader status :: _ => status | _ => 200 end.

(** [accessTelemetry], for a handler that writes its status once (see
    [status_tracked]): 200 when it wrote none. *)
Definition accessTelemetry (next : handler) (r : hctx) : list report * served :=
  let '(outcome, pattern) := next r in
  match outcome with
  | Panicked sent => ([], Panicked sent)
  | Done response =>
      let route := if String.eqb pattern "" then "unknown"%string else pattern in
      let method := rq_Method (hc_Request r) in
      (Observed (ObserveRequest method route (rs_Status response))
         :: completed (hc_Correlation r) method route (rs_Status response), outcome)
  end.

(** [traceContext]; [traceID] is what the propagator extracts. *)
Definition traceContext (traceID : string) (r : hctx) : hctx :=
  let traceID := if String.eqb traceID "00000000000000000000000000000000" then EmptyString else traceID in
  mkHctx (hc_Request r) (WithCorrelation (hc_Correlation r).1 traceID) (hc_Timeout r).

(** [recoverPanics]: the problem is written after what the handler had sent, where the
    declared length leaves room for it; a write past that length is refused whole. *)
Definition recoverPanics (correlation path : string) (outcome : served) (panic_type : string) : list report * Response :=
  match outcome with
  | Done r => ([], r)
  | Panicked sent =>
      let problem := writePublicProblem correlation path CodeInternal in
      ((match LogEvent (EmptyString, EmptyString) "http.panic_recovered" [mkAttr "panic.type" (plain_text panic_type)] with
        | Ok r => [Logged r] | Err _ => [] end),
       match sent with
       | None => problem
       | Some (r, declared) =>
           let body := rs_Body r +:+ rs_Body problem in
           let refused := match declared with Some length => length <? slen body | None => false end in
           mkResponse (rs_Status r) (rs_ContentType r) (rs_NoStore r) (if refused then rs_Body r else body)
       end)
  end.

(** What a caller gets: the request ID on the response and the response. *)
Record reply := mkReply { rp_RequestID : string; rp_Response : Response; rp_Reports : list report; rp_Permits : Z; rp_Reached : bool }.

(** The handler [New] builds, on one request. *)
Definition serve_request (config : HTTPConfig) (mux : string -> handler) (generate : result UUID) (traceID panic_type : string)
    (permits : Z) (request : Request) : reply :=
  match requestID (value_of (rq_Header request) "X-Request-Id") generate with
  | Err _ => mkReply "" (writePublicProblem "" (rq_Path request) CodeInternal) [] permits false
  | Ok id =>
      let r := traceContext traceID (mkHctx request (WithCorrelation id "") None) in
      let limits := publicRequestLimits (http_MaxBodyBytes config) maxConcurrentPublicRequests id (mux id) permits in
      let inner := requestDeadline (http_WriteTimeout config)
                     (limit_body (http_MaxBodyBytes config) (fun r => (limits r).2)) in
      let '(reports, outcome) := accessTelemetry inner r in
      let '(panics, response) := recoverPanics id (rq_Path request) outcome panic_type in
      mkReply id response (reports ++ panics) (limits r).1 true
  end.

(** [New]: what the constructor refuses; [None] stands for an absent component. *)
Definition New (logger observability : option unit) (adminApplication adminAuthenticator : option unit) (config : HTTPConfig)
    : result HTTPConfig :=
  if negb (is_some logger) then Err (ErrNew "HTTP logger is required")
  else if negb (is_some observability) then Err (ErrNew "HTTP observability is required")
  else
  _ ← validateHTTPConfig config;
  if is_some adminApplication && negb (is_some adminAuthenticator) then
    Err (ErrNew "admin authenticator is required when the admin application is configured")
  else Ok config.

(** ** Running *)

Definition ErrServerClosed : goerror := ErrNew "http: Server closed".
Definition is_closed_error (e : goerror) : bool :=
  match e with ErrNew message => String.eqb message "http: Server closed" | _ => false end.

(** Which of the two channels is ready first, with what the calls return. *)
Inductive run_event := ServeReturned (err : option goerror) | Cancelled (shutdown serve : option goerror).
Definition Run (event : run_event) : option goerror :=
  match event with
  | ServeReturned (Some err) => if is_closed_error err then None else Some err
  | ServeReturned None => None
  | Cancelled (Some err) _ => Some (ErrWrap "shutdown HTTP server" err)
  | Cancelled None (Some err) => if is_closed_error err then None else Some err
  | Cancelled None None => None
  end.

(** ** Lemmas *)

(** What the limits and the router make of a request, seen from outside. *)
Definition handled (config : HTTPConfig) (mux : string -> handler) (id traceID : string) (permits : Z) (request : Request) : served :=
  let r := traceContext traceID (mkHctx request (WithCorrelation id "") None) in
  (publicRequestLimits (http_MaxBodyBytes config) maxConcurrentPublicRequests id (mux id) permits
     (mkHctx (bodyLimit (http_MaxBodyBytes config) request) (hc_Correlation r) (Some (http_WriteTimeout config)))).2.1.

Lemma limits_permits maxBody maxConcurrent id next permits r :
  (publicRequestLimits maxBody maxConcurrent id next permits r).1 = permits.
Proof.
  unfold publicRequestLimits. destruct (public_enter maxConcurrent permits (hc_Request r)) as [taken e] eqn:E. cbn [fst].
  revert E. unfold public_enter. destruct (negb _); [intros [= <- <-]; done|]. destruct (_ <? _); intros [= <- <-]; cbn; lia.
Qed.

Lemma StatusClass_bounded status : StatusClass status ∈ ["1xx"; "2xx"; "3xx"; "4xx"; "5xx"; "unknown"]%string.
Proof.
  unfold StatusClass. destruct ((status <? 100) || _) eqn:E; [set_solver|]. rewrite orb_false_iff, !Z.ltb_ge in E.
  assert (Hq : Z.quot status 100 = 1 \/ Z.quot status 100 = 2 \/ Z.quot status 100 = 3 \/ Z.quot status 100 = 4 \/ Z.quot status 100 = 5).
  { pose proof (Z.quot_le_mono 100 status 100 ltac:(lia) ltac:(lia)). pose proof (Z.quot_le_mono status 599 100 ltac:(lia) ltac:(lia)).
    change (Z.quot 100 100) with 1 in *. change (Z.quot 599 100) with 5 in *. lia. }
  destruct Hq as [->|[->|[->|[->| ->]]]]; vm_compute; set_solver.
Qed.

Lemma completed_one correlation method route status : exists r, completed correlation method route status = [Logged r].
Proof.
  unfold completed, LogEvent. assert (E : matches eventNamePattern "http.request_completed" = true) by (vm_compute; reflexivity).
  rewrite E. destruct correlation. eauto.
Qed.

(** The remembered status is the one that was sent when no other is written after it;
    the response writers of the service write the status, then the body. *)
Lemma status_tracked first rest : (forall status, first = WroteHeader status -> status <> 0) ->
  Forall (fun w => match w with WroteBody _ => True | _ => False end) rest ->
  tracked_status (first :: rest) = sent_status (first :: rest).
Proof.
  intros Hfirst Hrest. unfold tracked_status. cbn [foldl].
  assert (Hkeep : forall status, status <> 0 -> foldl statusWriter_write status rest = status).
  { clear Hfirst. induction Hrest as [|w rest Hw _ IH]; intros status Hs; [done|]. destruct w; [done|]. cbn [foldl statusWriter_write].
    rewrite (proj2 (Z.eqb_neq status 0) Hs). by apply IH. }
  destruct first as [status|text]; cbn [statusWriter_write sent_status].
  - rewrite Hkeep by (by apply Hfirst). by rewrite (proj2 (Z.eqb_neq _ _) (Hfirst _ eq_refl)).
  - rewrite Hkeep by done. done.
Qed.

(** A problem document does not fit behind a complete body. *)
Lemma problem_overflows id path code body : (slen body <? slen (body +:+ rs_Body (writePublicProblem id path code))) = true.
Proof.
  apply Z.ltb_lt. rewrite slen_append. enough (0 < slen (rs_Body (writePublicProblem id path code))) by lia.
  unfold writePublicProblem, writePublicProblemAt. destruct (public_problem code); unfold WriteProblem; cbn [rs_Body];
    rewrite slen_append; match goal with |- 0 < slen ?t + _ => pose proof (slen_nonneg t) end; change (slen newline) with 1; lia.
Qed.
Lemma mkResponse_eta r : mkResponse (rs_Status r) (rs_ContentType r) (rs_NoStore r) (rs_Body r) = r.
Proof. by destruct r. Qed.

(** ** Properties *)

(** C18: a request is contained.  Whatever the handlers behind the limits do, one request
    gives back the permit it took, and is answered: without a request ID nothing runs and
    the answer is the internal problem; otherwise the ID is on the answer.  A handler
    that panics before it wrote anything is answered with the internal problem, which
    says nothing of the panic; a response in progress keeps its status, and one that
    was complete under its declared length is unchanged.  A request that
    is answered without a panic is observed once, with a method of a fixed list and a
    status class of six; the route it is observed under is always [unknown], because the
    router writes the pattern into a copy of the request. *)
Theorem request_contained (config : HTTPConfig) (mux : string -> handler) (generate : result UUID) (traceID panic_type : string)
    (permits : Z) (request : Request) :
  let reply := serve_request config mux generate traceID panic_type permits request in
  rp_Permits reply = permits /\
  match requestID (value_of (rq_Header request) "X-Request-Id") generate with
  | Err _ => rp_Reached reply = false /\ rp_Response reply = writePublicProblem "" (rq_Path request) CodeInternal
  | Ok id =>
      rp_RequestID reply = id /\
      match handled config mux id traceID permits request with
      | Done r =>
          rp_Response reply = r /\ exists method class log, rp_Reports reply = [Observed (method, "unknown"%string, class); Logged log] /\
            (method = "OTHER"%string \/ method ∈ known_methods) /\ class ∈ ["1xx"; "2xx"; "3xx"; "4xx"; "5xx"; "unknown"]%string
      | Panicked None => rp_Response reply = writePublicProblem id (rq_Path request) CodeInternal /\
          forall labels, Observed labels ∉ rp_Reports reply
      | Panicked (Some (sent, declared)) =>
          rs_Status (rp_Response reply) = rs_Status sent /\
          (declared = Some (slen (rs_Body sent)) -> rp_Response reply = sent)
      end
  end.
Proof.
  intros reply. subst reply. unfold serve_request.
  destruct (requestID _ generate) as [id|e]; [|done]. cbv zeta.
  unfold accessTelemetry, requestDeadline, limit_body, with_copy. cbn [fst hc_Request hc_Correlation hc_Timeout].
  fold (handled config mux id traceID permits request).
  change ((publicRequestLimits (http_MaxBodyBytes config) maxConcurrentPublicRequests id (mux id) permits
    (mkHctx (bodyLimit (http_MaxBodyBytes config) (hc_Request (traceContext traceID (mkHctx request (WithCorrelation id "") None))))
       (hc_Correlation (traceContext traceID (mkHctx request (WithCorrelation id "") None))) (Some (http_WriteTimeout config)))).2.1)
    with (handled config mux id traceID permits request).
  destruct (handled config mux id traceID permits request) as [r|[[sent declared]|]]; cbn [recoverPanics];
    cbn [rp_Permits rp_RequestID rp_Response rp_Reports]; rewrite limits_permits; split; try done; split; try done.
  - split; [done|]. rewrite app_nil_r. change (String.eqb "" "") with true. cbv iota.
    destruct (completed_one (hc_Correlation (traceContext traceID (mkHctx request (WithCorrelation id "") None)))
      (rq_Method (hc_Request (traceContext traceID (mkHctx request (WithCorrelation id "") None)))) "unknown" (rs_Status r)) as [log ->].
    unfold ObserveRequest. cbv zeta. eexists _, _, log. split; [reflexivity|]. split; [|apply StatusClass_bounded].
    destruct (one_of_str (ToUpper _) known_methods) eqn:E; [right|by left].
    unfold one_of_str in E. apply existsb_exists in E as (m & Hin & ->%String.eqb_eq). by apply list_elem_of_In.
  - split; [done|]. intros ->. by rewrite problem_overflows, mkResponse_eta.
  - split; [done|]. intros labels. destruct (LogEvent _ _ _); set_solver.
Qed.

(** The names under which the gateway logs are event names. *)
Example logged_event_names : forallb (matches eventNamePattern)
  ["service.started"; "service.stopped"; "http.panic_recovered"; "http.request_completed"]%string = true.
Proof. vm_compute. reflexivity. Qed.

(** Shutting down twice reports what the first time did. *)
Lemma shutdown_once r1 r2 : (Shutdown (Shutdown None r1).1 r2).2 = r1.
Proof. done. Qed.

(** A run ends without an error exactly when the server was closed in order. *)
Lemma run_clean event : Run event = None <->
  match event with
  | ServeReturned err => match err with Some e => is_closed_error e = true | None => True end
  | Cancelled shutdown serve => shutdown = None /\ match serve with Some e => is_closed_error e = true | None => True end
  end.
Proof. destruct event as [[e|]|[e|] [e'|]]; cbn; try (destruct (is_closed_error _)); naive_solver. Qed.

(** What [New] accepts, the configured limits hold for. *)
Lemma new_bounds logger observability application authenticator config config' :
  New logger observability application authenticator config = Ok config' ->
  config' = config /\ 0 < http_WriteTimeout config <= maxPublicRequestDuration /\ 1 <= http_MaxBodyBytes config <= maxPublicRequestBytes /\
  (is_some application = true -> is_some authenticator = true).
Proof.
  unfold New. destruct (negb (is_some logger)); [done|]. destruct (negb (is_some observability)); [done|].
  destruct (validateHTTPConfig config) as [[]|] eqn:Ev; [|done]. cbn [mbind result_bind].
  destruct (is_some application) eqn:Ea, (is_some authenticator) eqn:Eb; cbn [andb negb]; intros [= <-];
    unfold validateHTTPConfig in Ev; destruct (_ || _) eqn:E in Ev; try done;
    rewrite !orb_false_iff, !Z.leb_gt, !Z.ltb_ge in E; split_and!; done || lia.
Qed.
