(* ===== verification/Startup.v ===== *)
(** * Start-up and shutdown of the service

    [run] of [cmd/thinkpixeltg/main.go]: configuration, telemetry, database pool, server
    and listener, acquired in this order and given back by deferred calls in the opposite
    one; with [Bootstrap] and [traceProvider] ([internal/telemetry/bootstrap.go]) and
    [Open], [Ready] and [Shutdown] of the pool ([internal/adapters/postgres/pool.go]).
    What the collectors registry, the trace exporters, the driver and the network answer
    are arguments.  What the process does to the outside is its trace. *)
From Stdlib Require Import Ascii String.
From S2P Require Import Prelude GoStd Regex Json JsonParse Primitives ToolCatalog GoText Http JsonStruct Logging Config Database Postgres Server.

(** ** Telemetry *)

Definition TraceNoop : string := "noop".
Definition TraceLocal : string := "local".
Definition TraceOTLP : string := "otlp".

Record BootstrapConfig := mkBootstrap {
  bs_ServiceName : string; bs_ServiceVersion : string; bs_TraceMode : string; bs_OTLPEndpoint : string;
  bs_OTLPInsecure : bool; bs_LocalWriter : bool (* whether a writer is given *);
}.

(** The exporter a trace mode asks for; without a writer spans are discarded. *)
Inductive exporter := Stdout (discarded : bool) | OTLP (endpoint : string) (insecure : bool).
Inductive tracer := NoopTracer | SDKTracer (e : exporter) (attributes : list (string * string)).

Record Observability := mkObservability { ob_Registered : list string; ob_Tracer : tracer }.

(** A collector: its name and labels, and how an error to register it is introduced. *)
Record collector := mkCollector { col_Name : string; col_Labels : list string; col_Error : string }.
Definition http_collectors : list collector :=
  [mkCollector "thinkpixeltg_http_requests_total" ["method"; "route"; "status_class"] "register request metric";
   mkCollector "thinkpixeltg_http_request_duration_seconds" ["method"; "route"] "register duration metric";
   mkCollector "thinkpixeltg_downstream_http_requests_total" ["operation"; "method"; "outcome"; "status_class"]
     "register downstream request metric";
   mkCollector "thinkpixeltg_downstream_http_request_duration_seconds" ["operation"; "method"; "outcome"]
     "register downstream duration metric"]%string.
Definition query_collectors : list collector :=
  [mkCollector "thinkpixeltg_postgres_queries_total" ["operation"; "error_class"] "";
   mkCollector "thinkpixeltg_postgres_query_duration_seconds" ["operation"] ""]%string.
Definition pool_gauges : list collector :=
  [mkCollector "thinkpixeltg_postgres_connections_acquired" [] ""; mkCollector "thinkpixeltg_postgres_connections_idle" [] "";
   mkCollector "thinkpixeltg_postgres_connections_total" [] ""]%string.
Definition outbox_collectors : list collector :=
  [mkCollector "thinkpixeltg_outbox_claims_total" [] "register outbox metric";
   mkCollector "thinkpixeltg_outbox_results_total" ["result"] "register outbox metric";
   mkCollector "thinkpixeltg_outbox_publish_duration_seconds" [] "register outbox metric";
   mkCollector "thinkpixeltg_outbox_lag_seconds" [] "register outbox metric"]%string.

(** The settings [Open] gives to the driver *)
Record pgx_config := mkPgx {
  pgx_URL : string; pgx_MaxConns : Z; pgx_MinConns : Z; pgx_MaxConnLifetime : Z; pgx_MaxConnIdleTime : Z;
  pgx_HealthCheckPeriod : Z; pgx_ConnectTimeout : Z; pgx_RuntimeParams : list (string * string);
}.
Record Pool := mkPool { pool_readinessTimeout : Z; pool_transactionTimeout : Z; pool_shutdownTimeout : Z }.

(** What the process does.  [PoolClosed] and [TelemetryStopped] are the closing and the
    shutdown as they are begun: neither is waited for beyond its timeout. *)
Inductive action :=
  | SignalsCaught | SignalsReleased
  | ExporterCreated (e : exporter) | ExporterStopped (e : exporter)
  | TelemetryStarted (t : tracer) | TelemetryStopped (timeout : Z)
  | PoolCreated (c : pgx_config) | PoolClosed
  | Listening (address : string) | Served (readiness_of_pool : bool) | ListenerClosed
  | LoggedEvent (r : log_record).

(** How a call ends: a panic is not an error. *)
Inductive outcome (A : Type) := Gave (a : A) | Gave_up (e : goerror) | Panics.
Arguments Gave {A} _.
Arguments Gave_up {A} _.
Arguments Panics {A}.

Section Startup.
  Context (register : list string -> string -> option goerror) (create_exporter : exporter -> option goerror)
    (merge_resource : list (string * string) -> option goerror) (ParseConfig : string -> option goerror)
    (NewWithConfig : pgx_config -> option goerror) (Ping : Z -> option goerror) (Listen : string -> option goerror).

(** [registry.Register] on each collector in turn; the first error ends it. *)
Fixpoint register_all (registered : list string) (l : list collector) : result (list string) :=
  match l with
  | [] => Ok registered
  | c :: l =>
      match register registered (col_Name c) with
      | Some err => Err (ErrWrap (col_Error c) err)
      | None => register_all (col_Name c :: registered) l
      end
  end.

(** [traceProvider] with the exporter it created on the way, which nothing gives back
    when the resource cannot be made. *)
Definition traceProvider (cfg : BootstrapConfig) : list action * result tracer :=
  let mode := if String.eqb (bs_TraceMode cfg) "" then TraceNoop else bs_TraceMode cfg in
  if String.eqb mode TraceNoop then ([], Ok NoopTracer) else
  match (if String.eqb mode TraceLocal then Ok (Stdout (negb (bs_LocalWriter cfg)))
         else if String.eqb mode TraceOTLP then
           if String.eqb (TrimSpace (bs_OTLPEndpoint cfg)) "" then Err (ErrNew "OTLP endpoint is required")
           else Ok (OTLP (bs_OTLPEndpoint cfg) (bs_OTLPInsecure cfg))
         else Err (ErrNew "unsupported trace mode")) with
  | Err err => ([], Err err)
  | Ok exporter =>
      match create_exporter exporter with
      | Some err => ([], Err (ErrWrap "create trace exporter" err))
      | None =>
          let attributes := [("service.name", BoundedAttributeValue (bs_ServiceName cfg));
                             ("service.version", BoundedAttributeValue (bs_ServiceVersion cfg))]%string in
          ([ExporterCreated exporter],
           match merge_resource attributes with
           | Some err => Err (ErrWrap "create telemetry resource" err)
           | None => Ok (SDKTracer exporter attributes)
           end)
      end
  end.

Definition Bootstrap (cfg : BootstrapConfig) : list action * result Observability :=
  if String.eqb (TrimSpace (bs_ServiceName cfg)) "" then ([], Err (ErrNew "telemetry service name is required"))
  else match register_all [] http_collectors with
       | Err err => ([], Err err)
       | Ok registered =>
           let '(created, provider) := traceProvider cfg in
           (created, provider ≫= fun provider => Ok (mkObservability registered provider))
       end.

(** [Observability.Shutdown]: the shutdown of a tracer provider stops its exporter. *)
Definition stop_telemetry (t : tracer) (timeout : Z) : list action :=
  TelemetryStopped timeout :: match t with SDKTracer e _ => [ExporterStopped e] | NoopTracer => [] end.

(** ** The pool *)

Definition Ready (pool : Pool) : result unit :=
  match Ping (pool_readinessTimeout pool) with
  | Some err => Err (ErrWrap "PostgreSQL readiness" err)
  | None => Ok tt
  end.

(** [newDatabaseMetrics] and [registerPool] register with [MustRegister], which panics. *)
Definition must_register (registered : list string) (l : list collector) : option (list string) :=
  match register_all registered l with Ok r => Some r | Err _ => None end.

(** [newOutboxMetrics]: without a registry nothing is registered. *)
Definition newOutboxMetrics (registerer : option (list string)) : result (option (list string)) :=
  match registerer with
  | Some registered => Some <$> register_all registered outbox_collectors
  | None => Ok None
  end.

Definition pool_settings (cfg : PoolConfig) : pgx_config :=
  mkPgx (pc_URL cfg) (pc_MaxConnections cfg) (pc_MinConnections cfg) (pc_MaxConnectionLifetime cfg)
    (pc_MaxConnectionIdleTime cfg) (pc_HealthCheckPeriod cfg) (pc_ConnectTimeout cfg) (runtime_params cfg).

(** [Open] with what it did on the way; a pool that is not ready is closed. *)
Definition Open (registered : list string) (cfg : PoolConfig) : list action * outcome Pool :=
  match validatePoolConfig cfg with
  | Err err => ([], Gave_up err)
  | Ok _ =>
  match ParseConfig (pc_URL cfg) with
  | Some err => ([], Gave_up (ErrWrap "parse PostgreSQL pool configuration" err))
  | None =>
  match must_register registered query_collectors with
  | None => ([], Panics)
  | Some registered =>
  match NewWithConfig (pool_settings cfg) with
  | Some err => ([], Gave_up (ErrWrap "create PostgreSQL pool" err))
  | None =>
      let pool := mkPool (pc_ReadinessTimeout cfg) (pc_TransactionTimeout cfg) (pc_ShutdownTimeout cfg) in
      let created := [PoolCreated (pool_settings cfg)] in
      match must_register registered pool_gauges with
      | None => (created, Panics)
      | Some _ =>
          match Ready pool with
          | Err err => (created ++ [PoolClosed], Gave_up (ErrWrap "initialize PostgreSQL pool" err))
          | Ok _ => (created, Gave pool)
          end
      end
  end end end end.

(** [Pool.Shutdown]: the pool is closed; whether that ends before the caller's deadline
    decides the answer. *)
Definition Pool_Shutdown (in_time : bool) : list action * result unit :=
  ([PoolClosed], if in_time then Ok tt else Err (ErrWrap "shutdown PostgreSQL pool" (ErrNew "context deadline exceeded"))).

(** ** The process *)

Definition bootstrap_config (version : string) (c : Config) : BootstrapConfig :=
  mkBootstrap "thinkpixeltg" version (tel_Mode (cfg_Telemetry c)) (tel_Endpoint (cfg_Telemetry c)) false false.

Definition logged (event : string) (attrs : list (string * string)) : list action :=
  match LogEvent (EmptyString, EmptyString) event (map (fun kv => mkAttr kv.1 (plain_text kv.2)) attrs) with
  | Ok r => [LoggedEvent r]
  | Err _ => []
  end.

(** What [server.Run] leaves of the listener, whichever way it ends: [http.Server.Serve] closes
    its listener when it returns, and [http.Server.Shutdown] closes the listeners before it
    waits for requests, also when this then takes too long. *)
Definition run_closes (event : run_event) : list action :=
  match event with ServeReturned _ => [ListenerClosed] | Cancelled _ _ => [ListenerClosed] end.

(** From the server on: what happens and how it ends. *)
Definition serve (version commit : string) (c : Config) (event : run_event) (readiness_of_pool : bool)
    : list action * outcome unit :=
  match New (Some tt) (Some tt) None None (cfg_HTTP c) with
  | Err err => ([], Gave_up (ErrWrap "HTTP server" err))
  | Ok _ =>
  match Listen (http_Address (cfg_HTTP c)) with
  | Some err => ([], Gave_up (ErrWrap "listen" err))
  | None =>
      let started := logged "service.started" [("service.version", version); ("service.commit", commit);
                       ("http.address", http_Address (cfg_HTTP c))]%string in
      let ran := [Listening (http_Address (cfg_HTTP c))] ++ started ++ [Served readiness_of_pool] ++ run_closes event in
      match Run event with
      | Some err => (ran, Gave_up err)
      | None => (ran ++ logged "service.stopped" [], Gave tt)
      end
  end end.

(** Where the pool is opened, its deferred shutdown runs when the rest has ended. *)
Definition with_database (c : Config) (registered : list string) (in_time : bool)
    (rest : bool -> list action * outcome unit) : list action * outcome unit :=
  if String.eqb (db_URL (cfg_Database c)) "" then rest false
  else match Open registered (pool_config (cfg_Database c)) with
       | (before, Gave_up err) => (before, Gave_up (ErrWrap "database" err))
       | (before, Panics) => (before, Panics)
       | (before, Gave _) =>
           let '(during, r) := rest true in
           (before ++ during ++ (Pool_Shutdown in_time).1, r)
       end.

Definition run (files : string -> result string) (args environ : list string) (version commit : string)
    (in_time : bool) (event : run_event) : list action * outcome unit :=
  match Load files args environ with
  | Err err => ([], Gave_up (ErrWrap "configuration" err))
  | Ok c =>
      match Bootstrap (bootstrap_config version c) with
      | (created, Err err) => (SignalsCaught :: created ++ [SignalsReleased], Gave_up (ErrWrap "telemetry" err))
      | (created, Ok observability) =>
          let '(during, r) := with_database c (ob_Registered observability) in_time (serve version commit c event) in
          (SignalsCaught :: created ++ TelemetryStarted (ob_Tracer observability) :: during
             ++ stop_telemetry (ob_Tracer observability) (http_ShutdownTimeout (cfg_HTTP c)) ++ [SignalsReleased], r)
      end
  end.

(** [healthcheck]: the exit status, given the status of the answer, if any *)
Definition healthcheck (status : option Z) : Z :=
  match status with Some status => if status =? 200 then 0 else 1 | None => 1 end.

(** [main]: the exit status; a panic ends the process with status 2. *)
Definition main (files : string -> result string) (args environ : list string) (version commit : string)
    (in_time : bool) (event : run_event) (health : string -> option Z) : Z :=
  match args with
  | [command; url] =>
      if String.eqb command "healthcheck" then healthcheck (health url)
      else match (run files args environ version commit in_time event).2 with Gave _ => 0 | Gave_up _ => 1 | Panics => 2 end
  | _ => match (run files args environ version commit in_time event).2 with Gave _ => 0 | Gave_up _ => 1 | Panics => 2 end
  end.

End Startup.

(** ** Query labels *)

(** [TraceQueryStart] keeps the operation, [TraceQueryEnd] counts it with the class of
    the error when metrics are registered. *)
Definition TraceQueryStart (sql : string) : string := queryOperation sql.
Definition TraceQueryEnd (metrics : bool) (state : option string) (err : option dberror) : option (string * string) :=
  if negb metrics then None
  else match state with Some operation => Some (operation, ClassifyError err) | None => None end.

(** ** Lemmas *)

Inductive resource := RSignals | RExporter | RTelemetry | RPool | RListener.
#[export] Instance resource_eq_dec : EqDecision resource.
Proof. solve_decision. Defined.

Definition acquires (a : action) : option resource :=
  match a with
  | SignalsCaught => Some RSignals | ExporterCreated _ => Some RExporter | TelemetryStarted _ => Some RTelemetry
  | PoolCreated _ => Some RPool | Listening _ => Some RListener | _ => None
  end.
Definition releases (a : action) : option resource :=
  match a with
  | SignalsReleased => Some RSignals | ExporterStopped _ => Some RExporter | TelemetryStopped _ => Some RTelemetry
  | PoolClosed => Some RPool | ListenerClosed => Some RListener | _ => None
  end.
(** What is still held after a trace that gives back the latest acquired first. *)
Fixpoint held (open : list resource) (trace : list action) : option (list resource) :=
  match trace with
  | [] => Some open
  | a :: trace =>
      match acquires a, releases a, open with
      | Some r, _, _ => held (r :: open) trace
      | None, Some r, r' :: open => if decide (r = r') then held open trace else None
      | None, Some _, [] => None
      | None, None, _ => held open trace
      end
  end.

Lemma held_app open l1 l2 : held open (l1 ++ l2) = held open l1 ≫= fun open => held open l2.
Proof.
  revert open. induction l1 as [|a l1 IH]; intros open; cbn; [done|].
  destruct (acquires a); [apply IH|]. destruct (releases a); [|apply IH]. destruct open; [done|]. by case_decide; [apply IH|].
Qed.

Lemma logged_cases event attrs : exists r, logged event attrs = [] \/ logged event attrs = [LoggedEvent r].
Proof. unfold logged. destruct (LogEvent _ _ _) as [r|]; [exists r|exists (mkLogRecord "" [])]; auto. Qed.

Section Fresh.
  Context (register : list string -> string -> option goerror)
    (Hfresh : forall l name, name ∉ l -> register l name = None).

Lemma register_all_fresh l : forall registered, NoDup (map col_Name l) -> (forall x, x ∈ map col_Name l -> x ∉ registered) ->
  register_all register registered l = Ok (rev (map col_Name l) ++ registered).
Proof using Hfresh.
  induction l as [|c l IH]; intros registered Hnd Hdis; [done|]. cbn in *. apply list.NoDup_cons in Hnd as [Hc Hnd].
  rewrite Hfresh by (apply Hdis; set_solver). rewrite IH; [by rewrite <- app_assoc|done|]. set_solver.
Qed.

Lemma register_all_distinct l registered : bool_decide (NoDup (map col_Name l ++ registered)) = true ->
  register_all register registered l = Ok (rev (map col_Name l) ++ registered).
Proof using Hfresh. intros (Hnd & Hdis & _)%bool_decide_eq_true_1%list.NoDup_app. by apply register_all_fresh. Qed.

(** The service and the publisher can share a registry: no two collectors of the
    program have one name. *)
Lemma metrics_coexist registered : must_register register (rev (map col_Name http_collectors)) (query_collectors ++ pool_gauges)
    = Some registered ->
  exists all, newOutboxMetrics register (Some registered) = Ok (Some all) /\ length all = 13%nat.
Proof using Hfresh.
  unfold must_register. rewrite register_all_distinct by (vm_compute; reflexivity). intros [= <-].
  unfold newOutboxMetrics. rewrite register_all_distinct by (vm_compute; reflexivity). by eexists.
Qed.

Lemma Bootstrap_registers exporters resources cfg created ob :
  Bootstrap register exporters resources cfg = (created, Ok ob) ->
  ob_Registered ob = rev (map col_Name http_collectors) /\
  (ob_Tracer ob = NoopTracer /\ created = [] \/
   exists e a, ob_Tracer ob = SDKTracer e a /\ created = [ExporterCreated e]).
Proof using Hfresh.
  unfold Bootstrap. destruct (String.eqb _ ""); [done|]. rewrite register_all_distinct by (vm_compute; reflexivity).
  unfold traceProvider. cbv zeta. destruct (String.eqb _ TraceNoop).
  { cbn [mbind result_bind]. intros [= <- <-]. split; [done|]. by left. }
  destruct (if String.eqb _ TraceLocal then _ else _) as [e|]; [|done]. destruct (exporters e); [done|].
  destruct (resources _); [done|]. cbn [mbind result_bind]. intros [= <- <-]. split; [done|]. right. eauto.
Qed.

(** A failed start of the telemetry leaves nothing, or an exporter without a resource. *)
Lemma Bootstrap_fails exporters resources cfg created err :
  Bootstrap register exporters resources cfg = (created, Err err) ->
  created = [] \/ exists e a, created = [ExporterCreated e] /\ exporters e = None /\ resources a <> None.
Proof using Hfresh.
  unfold Bootstrap. destruct (String.eqb _ ""); [intros [= <- _]; by left|].
  rewrite register_all_distinct by (vm_compute; reflexivity).
  unfold traceProvider. cbv zeta. destruct (String.eqb _ TraceNoop); [done|].
  destruct (if String.eqb _ TraceLocal then _ else _) as [e|]; [|intros [= <- _]; by left].
  destruct (exporters e) eqn:Ee; [intros [= <- _]; by left|].
  match goal with |- context [resources ?a] => destruct (resources a) eqn:Ea end; [|done].
  intros [= <- _]. right. eexists e, _. split_and!; [done|done|]. by rewrite Ea.
Qed.

(** A validated trace mode is supported; only the exporter or the resource can fail. *)
Lemma Bootstrap_loaded exporters resources version c :
  one_of_str (tel_Mode (cfg_Telemetry c)) ["noop"; "local"; "otlp"] = true ->
  (tel_Mode (cfg_Telemetry c) = "otlp"%string -> TrimSpace (tel_Endpoint (cfg_Telemetry c)) <> EmptyString) ->
  (forall e, exporters e = None) -> (forall a, resources a = None) ->
  exists created ob, Bootstrap register exporters resources (bootstrap_config version c) = (created, Ok ob).
Proof using Hfresh.
  intros Hmode Hotlp He Hr. unfold Bootstrap. change (String.eqb (TrimSpace (bs_ServiceName (bootstrap_config version c))) "") with false.
  cbv iota. rewrite (register_all_fresh http_collectors []);
    [|apply NoDup_ListNoDup; repeat constructor; vm_compute; naive_solver|set_solver].
  unfold traceProvider, bootstrap_config. cbn [bs_TraceMode bs_OTLPEndpoint bs_OTLPInsecure bs_LocalWriter].
  unfold one_of_str in Hmode. apply existsb_exists in Hmode as (m & Hin & Em%String.eqb_eq). rewrite Em in *.
  destruct Hin as [<-|[<-|[<-|[]]]]; cbn -[TrimSpace]; [eauto| |].
  - rewrite He, Hr. cbn. eauto.
  - rewrite (proj2 (String.eqb_neq _ _) (Hotlp eq_refl)). cbn. rewrite He, Hr. cbn. eauto.
Qed.

(** The collectors of the pool are not those of the server, so nothing panics. *)
Lemma pool_collectors_fresh :
  exists registered, must_register register (rev (map col_Name http_collectors)) query_collectors = Some registered /\
    exists registered', must_register register registered pool_gauges = Some registered'.
Proof using Hfresh.
  unfold must_register. eexists. rewrite (register_all_fresh query_collectors); [split; [reflexivity|]| |].
  - eexists. rewrite (register_all_fresh pool_gauges); [reflexivity| |].
    + apply NoDup_ListNoDup. repeat constructor; vm_compute; naive_solver.
    + vm_compute. set_solver.
  - apply NoDup_ListNoDup. repeat constructor; vm_compute; naive_solver.
  - vm_compute. set_solver.
Qed.

Lemma Open_cases parse create ping cfg :
  let '(before, o) := Open register parse create ping (rev (map col_Name http_collectors)) cfg in
  match o with
  | Gave _ => before = [PoolCreated (pool_settings cfg)] /\ ping (pc_ReadinessTimeout cfg) = None
  | Gave_up _ => (before = [] \/ before = [PoolCreated (pool_settings cfg); PoolClosed]) /\
      (validatePoolConfig cfg = Ok tt -> parse (pc_URL cfg) = None -> create (pool_settings cfg) = None ->
       ping (pc_ReadinessTimeout cfg) <> None)
  | Panics => False
  end.
Proof using Hfresh.
  destruct pool_collectors_fresh as (registered & E1 & registered' & E2). unfold Open.
  destruct (validatePoolConfig cfg) as [[]|]; [|naive_solver]. destruct (parse _); [naive_solver|]. rewrite E1.
  destruct (create _); [naive_solver|]. rewrite E2. unfold Ready. cbn [pool_readinessTimeout].
  destruct (ping _); naive_solver.
Qed.
End Fresh.

(** From the server on everything that is acquired is given back, and the server runs
    unless it refuses the settings or cannot listen. *)
Lemma serve_cases listen version commit c event b :
  let '(during, r) := serve listen version commit c event b in
  (forall open, held open during = Some open) /\ r <> Panics /\
  ((forall b', Served b' ∉ during) /\ r <> Gave tt /\
     (validateHTTPConfig (cfg_HTTP c) = Ok tt -> listen (http_Address (cfg_HTTP c)) <> None) \/
   (forall b', Served b' ∈ during <-> b' = b) /\ r = match Run event with None => Gave tt | Some err => Gave_up err end).
Proof.
  unfold serve, New. cbn [is_some negb andb mbind result_bind].
  destruct (validateHTTPConfig (cfg_HTTP c)) as [[]|]; cbn [mbind result_bind]; [|split_and!; [done..|left; set_solver]].
  destruct (listen _) eqn:El; [split_and!; [done..|left; set_solver]|].
  destruct (logged_cases "service.stopped" []) as [r2 [E2|E2]];
    match goal with |- context [logged "service.started" ?a] => destruct (logged_cases "service.started" a) as [r1 [E1|E1]] end;
    rewrite E1, E2; destruct event; destruct (Run _); (split_and!; [done..|right; split; [set_solver|done]]).
Qed.

(** The database around the server. *)
Lemma with_database_cases register parse create ping listen version commit c event in_time :
  (forall l name, name ∉ l -> register l name = None) ->
  let d := cfg_Database c in
  let '(during, r) := with_database register parse create ping c (rev (map col_Name http_collectors)) in_time
                        (serve listen version commit c event) in
  (forall open, held open during = Some open) /\ r <> Panics /\
  (forall b, Served b ∈ during -> b = negb (String.eqb (db_URL d) "") /\ (b = true -> ping (db_ReadinessTimeout d) = None)) /\
  (r = Gave tt -> Run event = None /\ exists b, Served b ∈ during) /\
  (validateHTTPConfig (cfg_HTTP c) = Ok tt -> db_URL d = EmptyString \/ validatePoolConfig (pool_config d) = Ok tt ->
   parse (db_URL d) = None -> create (pool_settings (pool_config d)) = None -> ping (db_ReadinessTimeout d) = None ->
   listen (http_Address (cfg_HTTP c)) = None ->
   (exists b, Served b ∈ during) /\ r = match Run event with None => Gave tt | Some err => Gave_up err end).
Proof.
  intros Hfresh d. unfold with_database. fold d. destruct (String.eqb_spec (db_URL d) "") as [Eu|Eu].
  - pose proof (serve_cases listen version commit c event false) as H. destruct (serve _ _ _ _ _ false) as [during r].
    cbn [negb]. destruct H as (Hheld & Hr & [(Hno & Hgave & Hl)|[Hserved ->]]).
    + split_and!; [done..|by intros b ?%Hno|done|naive_solver].
    + split_and!; [done..|by intros b ->%Hserved|destruct (Run event); [done|naive_solver]|].
      intros. split; [exists false; by apply Hserved|done].
  - pose proof (Open_cases register Hfresh parse create ping (pool_config d)) as Ho.
    destruct (Open _ _ _ _ _ _) as [before [pool|err|]]; [| |done].
    + destruct Ho as [-> Hping]. change (pc_ReadinessTimeout (pool_config d)) with (db_ReadinessTimeout d) in Hping.
      pose proof (serve_cases listen version commit c event true) as H. destruct (serve _ _ _ _ _ true) as [during r].
      destruct H as (Hheld & Hr & H). cbn [Pool_Shutdown fst negb app].
      assert (Hmem : forall b, Served b ∈ PoolCreated (pool_settings (pool_config d)) :: during ++ [PoolClosed] <-> Served b ∈ during).
      { set_solver. }
      setoid_rewrite Hmem. split; [|split; [done|]].
      { intros open. cbn. by rewrite held_app, Hheld. }
      destruct H as [(Hno & Hgave & Hl)|[Hserved ->]].
      * split_and!; [by intros b ?%Hno|done|naive_solver].
      * split_and!; [by intros b ->%Hserved|destruct (Run event); [done|naive_solver]|].
        intros. split; [exists true; by apply Hserved|done].
    + destruct Ho as [Hb Hwhy]. split_and!.
      * intros open. by destruct Hb as [-> | ->].
      * done.
      * intros b Hin. exfalso. destruct Hb as [-> | ->]; set_solver.
      * done.
      * intros _ [?|Hv] Hp Hc Hping _; [done|]. by destruct (Hwhy Hv Hp Hc).
Qed.

(** ** Properties *)

(** C22: the service starts and stops in order.  Whatever the outside answers, every
    resource the process acquires (signals, trace exporter, telemetry, pool, listener) is
    given back, the latest acquired first, on every path but one: when the telemetry
    resource cannot be made, the exporter created for it is left.  Nothing panics when
    the registry accepts new names; a server runs only with the readiness of the pool when
    a database is configured, after the pool answered, so always in production; the
    process succeeds only when the server ran and was closed in order; and when nothing
    outside fails, a configuration the loader accepts, whose database URL is empty or not
    blank, is refused by no part of the program: the server runs and its end is the end
    of the process.  (A blank URL is accepted in development and refused by the pool, see
    [blank_url_refused].) *)
Theorem service_lifecycle (register : list string -> string -> option goerror) (create_exporter : exporter -> option goerror)
    (merge_resource : list (string * string) -> option goerror) (ParseConfig : string -> option goerror)
    (NewWithConfig : pgx_config -> option goerror) (Ping : Z -> option goerror) (Listen : string -> option goerror)
    (files : string -> result string) (args environ : list string) (version commit : string) (in_time : bool)
    (event : run_event) (c : Config)
    (Hregister : forall l name, name ∉ l -> register l name = None)
    (Hload : Load files args environ = Ok c) :
  let d := cfg_Database c in
  let '(trace, r) := run register create_exporter merge_resource ParseConfig NewWithConfig Ping Listen
                       files args environ version commit in_time event in
  (held [] trace = Some [] \/
   exists e attributes err, create_exporter e = None /\ merge_resource attributes <> None /\
     trace = [SignalsCaught; ExporterCreated e; SignalsReleased] /\ r = Gave_up err) /\
  r <> Panics /\
  (forall b, Served b ∈ trace -> b = negb (String.eqb (db_URL d) "") /\ (b = true -> Ping (db_ReadinessTimeout d) = None)) /\
  (cfg_Mode c = ModeProduction -> Served false ∉ trace) /\
  (r = Gave tt -> Run event = None /\ exists b, Served b ∈ trace) /\
  ((forall e, create_exporter e = None) -> (forall a, merge_resource a = None) -> (forall u, ParseConfig u = None) ->
   (forall s, NewWithConfig s = None) -> (forall t, Ping t = None) -> (forall a, Listen a = None) ->
   db_URL d = EmptyString \/ TrimSpace (db_URL d) <> EmptyString ->
   (exists b, Served b ∈ trace) /\ r = match Run event with None => Gave tt | Some err => Gave_up err end).
Proof.
  intros d. destruct (Load_assigns _ _ _ _ Hload) as (_ & _ & _ & Hv).
  destruct (validated_accepted c Hv) as (Hhttp & Hpool & _ & Hprod & _ & Hmode & Hotlp).
  unfold run. rewrite Hload. destruct (Bootstrap register _ _ _) as [created [ob|err]] eqn:Eb.
  - destruct (Bootstrap_registers register Hregister _ _ _ _ _ Eb) as [-> Htracer].
    pose proof (with_database_cases register ParseConfig NewWithConfig Ping Listen version commit c event in_time Hregister) as H.
    cbv zeta in H. fold d in H. destruct (with_database _ _ _ _ _ _ _ _) as [during r].
    destruct H as (Hheld & Hr & Hserved & Hgave & Hruns).
    assert (Hmem : forall b, Served b ∈ SignalsCaught :: created ++ TelemetryStarted (ob_Tracer ob) :: during
      ++ stop_telemetry (ob_Tracer ob) (http_ShutdownTimeout (cfg_HTTP c)) ++ [SignalsReleased] <-> Served b ∈ during)
      by (destruct Htracer as [[-> ->]|(e & a & -> & ->)]; cbn [stop_telemetry]; set_solver).
    setoid_rewrite Hmem. split_and!; [left|done..| |done|].
    + destruct Htracer as [[-> ->]|(e & a & -> & ->)]; cbn; by rewrite held_app, Hheld.
    + intros Hm [Hb _]%Hserved. destruct (Hprod Hm) as [_ Hu]. fold d in Hu.
      by destruct (String.eqb_spec (db_URL d) "") as [E|]; [rewrite E in Hu|].
    + intros _ _ Hp Hn Hping Hl [Hu|Hu]; apply Hruns; auto.
  - destruct (Bootstrap_fails register Hregister _ _ _ _ _ Eb) as [-> |(e & a & -> & He & Ha)].
    + split_and!; [by left|done|set_solver|set_solver|done|]. intros He Hr _ _ _ _ _. exfalso.
      destruct (Bootstrap_loaded register Hregister _ _ version c Hmode Hotlp He Hr) as (? & ? & E). by rewrite E in Eb.
    + split_and!; [right|done|set_solver|set_solver|done|by intros _ Hr; specialize (Hr a)]. eauto 10.
Qed.

(** The labels of the query metrics come from fixed sets, whatever the statement and the
    error are. *)
Lemma query_labels_bounded metrics sql err labels :
  TraceQueryEnd metrics (Some (TraceQueryStart sql)) err = Some labels ->
  labels.1 ∈ ["select"; "insert"; "update"; "delete"; "begin"; "commit"; "rollback"; "other"]%string /\
  labels.2 ∈ [ErrorNone; ErrorCanceled; ErrorDeadline; ErrorSerialization; ErrorDeadlock; ErrorConnection; ErrorConstraint; ErrorOther].
Proof.
  unfold TraceQueryEnd, TraceQueryStart. destruct (negb metrics); [done|]. intros [= <-]. cbn [fst snd]. split.
  - unfold queryOperation. destruct (Fields sql) as [|field fields]; [set_solver|]. cbv zeta.
    destruct (one_of_str _ _) eqn:E; [|set_solver]. unfold one_of_str in E.
    apply existsb_exists in E as (m & Hin & ->%String.eqb_eq). apply list_elem_of_In. cbn in *. tauto.
  - unfold ClassifyError. destruct err as [e|]; [|set_solver]. destruct (errors_Is is_canceled e); [set_solver|].
    destruct (errors_Is is_deadline e); [set_solver|]. destruct (find_first pg_code e ≫= code_class) as [class|] eqn:E.
    + apply bind_Some in E as (code & _ & Hc). revert Hc. unfold code_class.
      repeat case_match; intros; simplify_eq; set_solver.
    + destruct (errors_Is is_network e); [set_solver|]. destruct (default false _); set_solver.
Qed.

(** ** Witness *)

Definition ex_register (l : list string) (name : string) : option goerror :=
  if decide (name ∈ l) then Some (ErrNew "duplicate metrics collector registration attempted") else None.
Definition ex_run : list action * outcome unit :=
  run ex_register (fun _ => None) (fun _ => None) (fun _ => None) (fun _ => None) (fun _ => None) (fun _ => None)
    ex_files ex_args ex_environ "dev" "unknown" true (Cancelled None (Some ErrServerClosed)).

Lemma service_lifecycle_witness :
  Load ex_files ex_args ex_environ = Ok ex_config /\ held [] ex_run.1 = Some [] /\
  (exists b, Served b ∈ ex_run.1) /\ ex_run.2 = Gave tt.
Proof.
  assert (H : Load ex_files ex_args ex_environ = Ok ex_config) by (vm_compute; reflexivity).
  split; [exact H|].
  assert (Hr : forall l name, name ∉ l -> ex_register l name = None).
  { intros l name Hn. unfold ex_register. destruct (decide (name ∈ l)) as [Hin|]; [destruct (Hn Hin)|reflexivity]. }
  pose proof (service_lifecycle ex_register (fun _ => None) (fun _ => None) (fun _ => None) (fun _ => None) (fun _ => None)
    (fun _ => None) ex_files ex_args ex_environ "dev" "unknown" true (Cancelled None (Some ErrServerClosed)) ex_config Hr H) as T.
  cbv zeta in T. fold ex_run in T. destruct ex_run as [trace r]. cbn [fst snd].
  destruct T as ([Hheld|(e & a & err & _ & Hm & _)] & _ & _ & _ & _ & Hruns); [|destruct (Hm eq_refl)].
  destruct Hruns as [Hs Hend]; [reflexivity..|right; vm_compute; discriminate|].
  split; [exact Hheld|]. split; [exact Hs|]. rewrite Hend. reflexivity.
Defined.

(** A database that does not answer at the start is closed again, and ends the process. *)
Example database_down :
  match run ex_register (fun _ => None) (fun _ => None) (fun _ => None) (fun _ => None) (fun _ => Some (ErrNew "refused"))
          (fun _ => None) ex_files ex_args ex_environ "dev" "unknown" true (Cancelled None None) with
  | ([SignalsCaught; TelemetryStarted _; PoolCreated _; PoolClosed; TelemetryStopped _; SignalsReleased], Gave_up _) => True
  | _ => False
  end.
Proof. vm_compute. exact I. Qed.

(** A database URL of blanks is accepted by the loader in development, and ends the process
    when the pool refuses it. *)
Example blank_url_refused :
  match run ex_register (fun _ => None) (fun _ => None) (fun _ => None) (fun _ => None) (fun _ => None) (fun _ => None)
          ex_files [] ["TPTG_DATABASE_URL= "]%string "dev" "unknown" true (Cancelled None None) with
  | ([SignalsCaught; TelemetryStarted _; TelemetryStopped _; SignalsReleased], Gave_up err) =>
      err = ErrWrap "database" (ErrNew "PostgreSQL URL is required")
  | _ => False
  end.
Proof. vm_compute. reflexivity. Qed.

(** The exporter that is left when the resource cannot be made. *)
Example exporter_left :
  (run ex_register (fun _ => None) (fun _ => Some (ErrNew "conflicting schema")) (fun _ => None) (fun _ => None)
     (fun _ => None) (fun _ => None) ex_files [] ["TPTG_TELEMETRY_MODE=local"]%string "dev" "unknown" true
     (Cancelled None None)).1 = [SignalsCaught; ExporterCreated (Stdout true); SignalsReleased].
Proof. vm_compute. reflexivity. Qed.
