(* ===== verification/Fakes.v ===== *)
(** * The governance fakes

    [internal/adapters/fakes/governance.go]: the local doubles of the authorization and
    guardrail services, and how the authorization client of the gateway gets on with
    them.  [render] is [Time.Format] of the RFC 3339 layout. *)
From Stdlib Require Import Ascii String.
From S2P Require Import Prelude GoStd Regex Sha256 Json JsonParse Primitives ToolCatalog GoText Ports Authorization JsonStruct GoTime Http GoUrl AgClient.

(** What a handler sees of a request, and what it writes. *)
Record fake_request := mkFakeRequest { fq_Method : string; fq_Path : string; fq_ContentType : string; fq_Body : string }.
Record fake_reply := mkFakeReply { fr_Status : Z; fr_ContentType : string; fr_Body : string }.

Definition write (status : Z) (members : list (string * string)) : fake_reply :=
  mkFakeReply status "application/json" (json_object members +:+ newline).

(** The members of an encoded map are in the order of their names. *)
Definition problem (status : Z) (detail : string) : fake_reply :=
  write status [("detail", json_string detail); ("status", json_int status); ("title", json_string "Invalid request");
                ("type", json_string "urn:thinkpixeltg:fake:invalid-request")]%string.

(** [decode]: one document with known members only, from the first megabyte of the body. *)
Definition decode {A} (names : list string) (set : string -> member -> A -> option A) (zero : A) (request : fake_request) : option A :=
  if negb (String.eqb (fq_ContentType request) "application/json") then None else
  let body := fq_Body request in
  fst <$> decode_struct names true set zero
            (if slen body <=? 2 ^ 20 then body else String.substring 0 (Z.to_nat (2 ^ 20)) body).

Record authorizationRequest := mkFakeAuthorization { fa_RequestID : string; fa_ContextDigest : string; fa_Deadline : string }.
Definition set_authorization (name : string) (m : member) (a : authorizationRequest) : option authorizationRequest :=
  let '(mkFakeAuthorization r c d) := a in
  if String.eqb name "request_id" then set_string m r ≫= fun r => Some (mkFakeAuthorization r c d)
  else if String.eqb name "context_digest" then set_string m c ≫= fun c => Some (mkFakeAuthorization r c d)
  else set_string m d ≫= fun d => Some (mkFakeAuthorization r c d).

Record approvalRequest := mkFakeApproval { fp_RequestID : string; fp_BindingDigest : string }.
Definition set_fake_approval (name : string) (m : member) (a : approvalRequest) : option approvalRequest :=
  let '(mkFakeApproval r b) := a in
  if String.eqb name "request_id" then set_string m r ≫= fun r => Some (mkFakeApproval r b)
  else set_string m b ≫= fun b => Some (mkFakeApproval r b).

Record evaluationRequest := mkFakeEvaluation {
  fe_EvaluationID : string; fe_Phase : string; fe_ContentDigest : string; fe_CorrelationID : string }.
Definition set_evaluation (name : string) (m : member) (a : evaluationRequest) : option evaluationRequest :=
  let '(mkFakeEvaluation e p d c) := a in
  if String.eqb name "evaluation_id" then set_string m e ≫= fun e => Some (mkFakeEvaluation e p d c)
  else if String.eqb name "phase" then set_string m p ≫= fun p => Some (mkFakeEvaluation e p d c)
  else if String.eqb name "content_digest" then set_string m d ≫= fun d => Some (mkFakeEvaluation e p d c)
  else set_string m c ≫= fun c => Some (mkFakeEvaluation e p d c).

Section Server.
Context (render : Z -> string) (now : Z).

Definition authorize (request : fake_request) : fake_reply :=
  match decode ["request_id"; "context_digest"; "deadline"]%string set_authorization (mkFakeAuthorization "" "" "") request with
  | Some input =>
      if String.eqb (fa_RequestID input) "" || String.eqb (fa_ContextDigest input) "" then
        problem 400 "malformed authorization request"
      else write 200
        [("approval_requirement", json_string "none"); ("constraints", json_object []);
         ("context_digest", json_string (fa_ContextDigest input));
         ("decision_id", json_string ("fake-decision-" +:+ fa_RequestID input));
         ("evidence_ref", json_string ("fake-ag:" +:+ fa_RequestID input));
         ("expires_at", json_string (render (now + Minute))); ("issued_at", json_string (render now));
         ("not_before", json_string (render now)); ("outcome", json_string "allow");
         ("policy_id", json_string "local-compose"); ("policy_version", json_string "1");
         ("reason_codes", json_array [json_string "allowed"]); ("request_id", json_string (fa_RequestID input));
         ("revocation_checkpoint", json_string "local-1"); ("revocation_epoch", json_int 1)]%string
  | None => problem 400 "malformed authorization request"
  end.

Definition approve (request : fake_request) : fake_reply :=
  match decode ["request_id"; "binding_digest"]%string set_fake_approval (mkFakeApproval "" "") request with
  | Some input =>
      if String.eqb (fp_RequestID input) "" || String.eqb (fp_BindingDigest input) "" then problem 400 "malformed approval request"
      else write 200
        [("approval_id", json_string ("fake-approval-" +:+ fp_RequestID input));
         ("binding_digest", json_string (fp_BindingDigest input));
         ("evidence_ref", json_string ("fake-approval:" +:+ fp_RequestID input)); ("status", json_string "approved")]%string
  | None => problem 400 "malformed approval request"
  end.

Definition evaluate (request : fake_request) : fake_reply :=
  match decode ["evaluation_id"; "phase"; "content_digest"; "correlation_id"]%string set_evaluation
          (mkFakeEvaluation "" "" "" "") request with
  | Some input =>
      if String.eqb (fe_EvaluationID input) "" || String.eqb (fe_ContentDigest input) ""
         || (negb (String.eqb (fe_Phase input) "pre_tool") && negb (String.eqb (fe_Phase input) "post_tool")) then
        problem 400 "malformed evaluation request"
      else write 200
        [("content_digest", json_string (fe_ContentDigest input)); ("correlation_id", json_string (fe_CorrelationID input));
         ("decision", json_string "allow"); ("evaluation_id", json_string (fe_EvaluationID input));
         ("evidence_ref", json_string ("fake-gr:" +:+ fe_EvaluationID input)); ("issued_at", json_string (render now));
         ("policy_id", json_string "local-compose"); ("policy_version", json_string "1");
         ("profile", json_string "mandatory"); ("reason_codes", json_array [json_string "local_allow"])]%string
  | None => problem 400 "malformed evaluation request"
  end.

(** [Handler]: the routes of a kind; [None] is what the router itself answers. *)
Definition Handler (kind : string) : result (fake_request -> option fake_reply) :=
  if negb (String.eqb kind "ag") && negb (String.eqb kind "gr") then Err (ErrNew ("unsupported fake kind " +:+ kind)) else
  Ok (fun request =>
    let post := String.eqb (fq_Method request) "POST" in
    if one_of_str (fq_Method request) ["GET"; "HEAD"] && String.eqb (fq_Path request) "/healthz" then
      Some (write 200 [("kind", json_string kind); ("status", json_string "ok")]%string)
    else if String.eqb kind "ag" then
      if post && String.eqb (fq_Path request) "/v1/authorize" then Some (authorize request)
      else if post && String.eqb (fq_Path request) "/v1/approvals" then Some (approve request)
      else None
    else if post && String.eqb (fq_Path request) "/v1/evaluate" then Some (evaluate request)
    else None).

(** [main] of [cmd/governance-fake]: the exit status for the values of the flags, given
    the status of the answer to a health check, if any, and how listening ended. *)
Definition fake_main (kind address healthcheck : string) (get : string -> option Z)
    (ListenAndServe : string -> (fake_request -> option fake_reply) -> option goerror) : Z :=
  if negb (String.eqb healthcheck "") then
    match get healthcheck with Some status => if status =? 200 then 0 else 1 | None => 1 end
  else
    match Handler kind with
    | Err _ => 2
    | Ok handler => match ListenAndServe address handler with Some _ => 1 | None => 0 end
    end.
End Server.

(** ** The client and the fake *)

Definition header_of (name : string) (headers : list (string * string)) : string :=
  default EmptyString (snd <$> List.find (fun kv => String.eqb kv.1 name) headers).

(** The exchange when the client talks to a handler, which sees [path] of the URL. *)
Definition fake_exchange (handler : fake_request -> option fake_reply) (path : string -> string) (r : ag_request) : result ag_response :=
  match handler (mkFakeRequest (agr_Method r) (path (agr_URL r)) (header_of "Content-Type" (agr_Header r)) (agr_Body r)) with
  | Some reply => Ok (mkAgResponse (fr_Status reply) None (fr_ContentType reply) (fr_Body reply) false)
  | None => Ok (mkAgResponse 404 None "text/plain; charset=utf-8" "404 page not found" false)
  end.

(** The command serves one of its two kinds only. *)
Lemma fake_main_serves render now kind address get listen :
  fake_main render now kind address "" get listen = 2 \/ kind = "ag"%string \/ kind = "gr"%string.
Proof.
  unfold fake_main, Handler. cbn [negb String.eqb]. destruct (String.eqb_spec kind "ag"); [tauto|].
  destruct (String.eqb_spec kind "gr"); [tauto|]. by left.
Qed.

Lemma handler_content_type render now kind handler request reply :
  Handler render now kind = Ok handler -> handler request = Some reply -> fr_ContentType reply = "application/json"%string.
Proof.
  unfold Handler. destruct (_ && _); [done|]. intros [= <-]. unfold authorize, approve, evaluate.
  repeat case_match; intros; simplify_eq; done.
Qed.

(** The fakes and the client do not understand each other.  Whichever fake answers,
    at whatever path, an authorization through the client fails: the fakes answer with a
    plain JSON media type, which the client refuses.  On its own path the authorization
    fake does not even read the request, because it requires that media type of the
    client: every request of the client is answered 400. *)
Theorem fake_never_authorizes (render : Z -> string) (now now' : Z) (kind : string) (handler : fake_request -> option fake_reply)
    (path : string -> string) (client : AuthorizationClient) (input : AuthorizationRequest)
    (Hhandler : Handler render now kind = Ok handler) :
  is_ok (AuthorizeToolInvocation client (fake_exchange handler path) now' input).2 = false /\
  (kind = "ag"%string -> path (endpoint client) = "/v1/authorize"%string -> forall time,
   exists body, fake_exchange handler path (build_request client input time)
                = Ok (mkAgResponse 400 None "application/json" body false)).
Proof.
  split.
  - destruct (AuthorizeToolInvocation client (fake_exchange handler path) now' input) as [sent [decision|]] eqn:E; [|done].
    exfalso. destruct (authorized_ok _ _ _ _ _ _ E) as (text & response & _ & _ & Hex & Hacc).
    unfold fake_exchange in Hex. destruct (handler _) as [reply|] eqn:Eh; injection Hex as <-.
    + apply (handler_content_type render now kind handler) in Eh; [|done]. unfold accept_response in Hacc. cbn [agp_Status agp_ContentType] in Hacc.
      destruct (negb (fr_Status reply =? 200)); [done|]. rewrite Eh in Hacc. done.
    + done.
  - intros -> Hp time. unfold fake_exchange. cbn [agr_Method agr_URL agr_Header agr_Body build_request]. rewrite Hp.
    unfold Handler in Hhandler. cbn in Hhandler. injection Hhandler as <-. unfold authorize, decode. cbn [fq_ContentType].
    eexists. reflexivity.
Qed.

(** Nor could the client read the decision of the fake, were it sent with the media type
    of the protocol. *)
Example fake_decision_unreadable :
  decode_response (2 ^ 20) (mkAgResponse 200 None authorizationMediaType
    (fr_Body (authorize (fun _ => "1970-01-01T00:00:00Z"%string) unix_epoch
       (mkFakeRequest "POST" "/v1/authorize" "application/json" (quoted "{'request_id':'r1','context_digest':'sha256:x'}")))) false)
  = Err (ErrNew "ThinkPixelAG returned malformed authorization data").
Proof. vm_compute. reflexivity. Qed.

Lemma fake_never_authorizes_witness : exists handler,
  Handler (fun _ => "1970-01-01T00:00:00Z"%string) unix_epoch "ag" = Ok handler /\
  is_ok (AuthorizeToolInvocation ex_client (fake_exchange handler (fun _ => "/v1/authorize"%string)) unix_epoch ex_input).2 = false.
Proof.
  eexists. split; [reflexivity|].
  exact (proj1 (fake_never_authorizes (fun _ => "1970-01-01T00:00:00Z"%string) unix_epoch unix_epoch "ag" _ (fun _ => "/v1/authorize"%string)
    ex_client ex_input eq_refl)).
Defined.
