(* ===== verification/OpenApi.v ===== *)
(** * The published contract

    [internal/adapters/http/openapi/openapi.gen.go]: the bindings generated from
    [api/openapi.yaml], as far as the service, its clients and its tests use them: the
    problem document with its own JSON methods, the tool-call document, the parameters
    of the operations with the wrapper that binds them, and the routes.  The handlers of
    the service are written by hand; the theorems relate them to this contract.  How the
    runtime package of the generator binds a parameter is an argument. *)
From Stdlib Require Import Ascii String.
From stdpp Require Import sorting.
From S2P Require Import Prelude GoStd Regex Json JsonParse Primitives ToolCatalog GoText Ports Http CanonicalJson JsonStruct GoTime Cursors HttpDiscovery Projection Schema ToolCalls HttpCalls.

(** ** Problems *)

(** [openapi.Problem]; [Code] is an [any]. *)
Record ProblemDocument := mkProblemDocument {
  doc_Code : jvalue; doc_CorrelationId : string; doc_Detail : option string; doc_Instance : option string;
  doc_Status : Z; doc_Title : string; doc_Type : string; doc_AdditionalProperties : gmap string jvalue;
}.
Definition zero_problem : ProblemDocument := mkProblemDocument JNull "" None None 0 "" "" ∅.

Definition Get (a : ProblemDocument) (fieldName : string) : option jvalue := doc_AdditionalProperties a !! fieldName.
Definition Set_ (a : ProblemDocument) (fieldName : string) (value : jvalue) : ProblemDocument :=
  mkProblemDocument (doc_Code a) (doc_CorrelationId a) (doc_Detail a) (doc_Instance a) (doc_Status a) (doc_Title a)
    (doc_Type a) (<[fieldName := value]> (doc_AdditionalProperties a)).

(** [json.Unmarshal] into a [map[string]json.RawMessage]: of equal names the last
    counts, and [null] is no map. *)
Definition raw_object (b : string) : result (gmap string member) :=
  match read_top b with
  | Some (TObject l, rest) =>
      if String.eqb (skip_ws rest) "" then Ok (foldl (fun object m => <[m_name m := m]> object) ∅ l)
      else Err (ErrNew "invalid character after top-level value")
  | Some (TNull, rest) =>
      if String.eqb (skip_ws rest) "" then Ok ∅ else Err (ErrNew "invalid character after top-level value")
  | Some (TOther _, _) => Err (ErrNew "cannot unmarshal into map")
  | None => Err (ErrNew "invalid JSON")
  end.

(** [if raw, found := object[name]; found]: the field is read from its bytes. *)
Definition read_field {A} (object : gmap string member) (name : string) (set : member -> A -> option A) (old : A) : result A :=
  match object !! name with
  | None => Ok old
  | Some m => match set m old with Some a => Ok a | None => Err (ErrNew ("error reading '" +:+ name +:+ "'")) end
  end.

Definition problem_fields : list string :=
  ["code"; "correlation_id"; "detail"; "instance"; "status"; "title"; "type"]%string.

(** What is left of the object after the deletions, each value as an [any]. *)
Definition additional (object : gmap string member) (old : gmap string jvalue) : result (gmap string jvalue) :=
  let rest := foldr delete object problem_fields in
  if bool_decide (rest = ∅) then Ok old
  else match mapM (fun kv => set_any kv.2 JNull ≫= fun v => Some (kv.1, v)) (map_to_list rest) with
       | Some l => Ok (list_to_map l)
       | None => Err (ErrNew "error unmarshaling field")
       end.

Definition UnmarshalJSON (b : string) (a : ProblemDocument) : result ProblemDocument :=
  object ← raw_object b;
  code ← read_field object "code" set_any (doc_Code a);
  correlation ← read_field object "correlation_id" set_string (doc_CorrelationId a);
  detail ← read_field object "detail" set_string_ptr (doc_Detail a);
  instance ← read_field object "instance" set_string_ptr (doc_Instance a);
  status ← read_field object "status" (set_int 64) (doc_Status a);
  title ← read_field object "title" set_string (doc_Title a);
  type ← read_field object "type" set_string (doc_Type a);
  extra ← additional object (doc_AdditionalProperties a);
  Ok (mkProblemDocument code correlation detail instance status title type extra).

(** The map is written with its names in order; an additional property with the name of
    a field replaces it. *)
Definition problem_object (a : ProblemDocument) : gmap string string :=
  let object : gmap string string :=
    {[ "code"%string := json_Marshal (doc_Code a); "correlation_id"%string := json_string (doc_CorrelationId a);
       "status"%string := json_int (doc_Status a); "title"%string := json_string (doc_Title a);
       "type"%string := json_string (doc_Type a) ]} in
  let object := match doc_Detail a with Some detail => <["detail"%string := json_string detail]> object | None => object end in
  let object := match doc_Instance a with Some instance => <["instance"%string := json_string instance]> object | None => object end in
  (json_Marshal <$> doc_AdditionalProperties a) ∪ object.

Definition MarshalJSON (a : ProblemDocument) : string :=
  json_object (merge_sort member_before (map_to_list (problem_object a))).

(** ** Tool calls *)

(** [openapi.ToolCall]; instants are RFC 3339 strings. *)
Record ToolCallDocument := mkToolCallDocument {
  tcd_ApprovalReference : option string; tcd_CreatedAt : Z; tcd_ErrorCode : option string; tcd_Result : jvalue;
  tcd_State : jvalue; tcd_ToolCallId : string; tcd_ToolId : string; tcd_UpdatedAt : Z; tcd_Version : string;
}.
Definition zero_call : ToolCallDocument := mkToolCallDocument None 0 None JNull JNull "" "" 0 "".
Definition tool_call_fields : list string :=
  ["approval_reference"; "created_at"; "error_code"; "result"; "state"; "tool_call_id"; "tool_id"; "updated_at"; "version"]%string.

Definition set_time (m : member) (old : Z) : option Z :=
  match m_value m with JNull => Some old | JString s => parse_rfc3339 s | _ => None end.

Definition set_tool_call (name : string) (m : member) (d : ToolCallDocument) : option ToolCallDocument :=
  let '(mkToolCallDocument a c e r s i t u v) := d in
  if String.eqb name "approval_reference" then set_string_ptr m a ≫= fun a => Some (mkToolCallDocument a c e r s i t u v)
  else if String.eqb name "created_at" then set_time m c ≫= fun c => Some (mkToolCallDocument a c e r s i t u v)
  else if String.eqb name "error_code" then set_string_ptr m e ≫= fun e => Some (mkToolCallDocument a c e r s i t u v)
  else if String.eqb name "result" then set_any m r ≫= fun r => Some (mkToolCallDocument a c e r s i t u v)
  else if String.eqb name "state" then set_any m s ≫= fun s => Some (mkToolCallDocument a c e r s i t u v)
  else if String.eqb name "tool_call_id" then set_string m i ≫= fun i => Some (mkToolCallDocument a c e r s i t u v)
  else if String.eqb name "tool_id" then set_string m t ≫= fun t => Some (mkToolCallDocument a c e r s i t u v)
  else if String.eqb name "updated_at" then set_time m u ≫= fun u => Some (mkToolCallDocument a c e r s i t u v)
  else set_string m v ≫= fun v => Some (mkToolCallDocument a c e r s i t u v).

Definition decode_tool_call (s : string) : option ToolCallDocument :=
  decode_document tool_call_fields false set_tool_call zero_call s.

(** ** Parameters *)

Inductive param_error :=
  | TooManyValuesForParamError (ParamName : string) (Count : Z)
  | InvalidParamFormatError (ParamName : string) (Err : goerror)
  | RequiredHeaderError (ParamName : string)
  | RequiredParamError (ParamName : string).

(** What the runtime reports: a [*runtime.RequiredParameterError] or another error. *)
Inductive bind_error := BindRequired | BindFailed (err : goerror).

Record ListToolsParams := mkListToolsParams { ltp_Cursor : option string; ltp_Limit : option Z }.

(** [ServerInterface] *)
Record ServerInterface (R : Type) := mkServerInterface {
  si_Live : Request -> R; si_Ready : Request -> R;
  si_SetTenantToolExposure : Request -> string -> R; si_PublishToolVersion : Request -> string -> R;
  si_CreateToolCall : Request -> string -> R; si_GetToolCall : Request -> string -> R;
  si_ListTools : Request -> ListToolsParams -> R; si_GetTool : Request -> string -> string -> R;
}.
Arguments si_Live {R} _ _.
Arguments si_Ready {R} _ _.
Arguments si_SetTenantToolExposure {R} _ _ _.
Arguments si_PublishToolVersion {R} _ _ _.
Arguments si_CreateToolCall {R} _ _ _.
Arguments si_GetToolCall {R} _ _ _.
Arguments si_ListTools {R} _ _ _.
Arguments si_GetTool {R} _ _ _ _.

Section Wrapper.
Context {R : Type} (Handler : ServerInterface R) (HandlerMiddlewares : list ((Request -> R) -> Request -> R))
  (ErrorHandlerFunc : Request -> param_error -> R).
Context (bind_header bind_path : string -> string -> result string)
  (bind_query_string : bool -> string -> gmap string (list string) -> option string + bind_error)
  (bind_query_int : bool -> string -> gmap string (list string) -> option Z + bind_error).

(** The first middleware is the innermost one. *)
Definition with_middlewares (handler : Request -> R) : Request -> R :=
  foldl (fun handler middleware => middleware handler) handler HandlerMiddlewares.

(** The required header parameter of three operations *)
Definition idempotency_param (r : Request) : string + param_error :=
  match rq_Header r !! "Idempotency-Key"%string with
  | Some [value] =>
      match bind_header "Idempotency-Key" value with
      | Ok key => inl key
      | Err err => inr (InvalidParamFormatError "Idempotency-Key" err)
      end
  | Some values => inr (TooManyValuesForParamError "Idempotency-Key" (llen values))
  | None => inr (RequiredHeaderError "Idempotency-Key")
  end.

Definition with_key (operation : Request -> string -> R) (r : Request) : R :=
  match idempotency_param r with
  | inl key => with_middlewares (fun r => operation r key) r
  | inr err => ErrorHandlerFunc r err
  end.

Definition query_error (name : string) (err : bind_error) : param_error :=
  match err with BindRequired => RequiredParamError name | BindFailed err => InvalidParamFormatError name err end.

Definition Live : Request -> R := with_middlewares (si_Live Handler).
Definition Ready : Request -> R := with_middlewares (si_Ready Handler).
Definition SetTenantToolExposure : Request -> R := with_key (si_SetTenantToolExposure Handler).
Definition PublishToolVersion : Request -> R := with_key (si_PublishToolVersion Handler).
Definition CreateToolCall : Request -> R := with_key (si_CreateToolCall Handler).

Definition GetToolCall (path_value : string) (r : Request) : R :=
  match bind_path "tool_call_id" path_value with
  | Err err => ErrorHandlerFunc r (InvalidParamFormatError "tool_call_id" err)
  | Ok toolCallId => with_middlewares (fun r => si_GetToolCall Handler r toolCallId) r
  end.

Definition ListTools (r : Request) : R :=
  match bind_query_string false "cursor" (rq_Query r) with
  | inr err => ErrorHandlerFunc r (query_error "cursor" err)
  | inl cursor =>
      match bind_query_int false "limit" (rq_Query r) with
      | inr err => ErrorHandlerFunc r (query_error "limit" err)
      | inl limit => with_middlewares (fun r => si_ListTools Handler r (mkListToolsParams cursor limit)) r
      end
  end.

Definition GetTool (path_value : string) (r : Request) : R :=
  match bind_path "tool_id" path_value with
  | Err err => ErrorHandlerFunc r (InvalidParamFormatError "tool_id" err)
  | Ok toolId =>
      match bind_query_string true "version" (rq_Query r) with
      | inr err => ErrorHandlerFunc r (query_error "version" err)
      | inl version => with_middlewares (fun r => si_GetTool Handler r toolId (default EmptyString version)) r
      end
  end.

(** ** Routes *)

Inductive operation :=
  | OpListTools | OpGetTool (tool_id : string) | OpCreateToolCall | OpGetToolCall (tool_call_id : string)
  | OpPublishToolVersion | OpSetTenantToolExposure | OpLive | OpReady.

Definition perform (op : operation) : Request -> R :=
  match op with
  | OpListTools => ListTools | OpGetTool id => GetTool id
  | OpCreateToolCall => CreateToolCall | OpGetToolCall id => GetToolCall id
  | OpPublishToolVersion => PublishToolVersion | OpSetTenantToolExposure => SetTenantToolExposure
  | OpLive => Live | OpReady => Ready
  end.
End Wrapper.

(** A pattern of [http.ServeMux]: a path, or a path whose last segment is a wildcard. *)
Inductive pattern := Exactly (path : string) | Under (prefix : string).

Definition path_value (p : pattern) (path : string) : option string :=
  match p with
  | Exactly s => if String.eqb path s then Some EmptyString else None
  | Under prefix =>
      match cut_prefix prefix path with
      | Some id => if String.eqb id "" || contains_byte "/" id then None else Some id
      | None => None
      end
  end.
(** A pattern for GET also matches HEAD. *)
Definition method_matches (registered method : string) : bool :=
  String.eqb registered method || (String.eqb registered "GET" && String.eqb method "HEAD").

(** The patterns [HandlerWithOptions] registers, without a base URL *)
Definition contract_routes : list (string * pattern * (string -> operation)) :=
  [("GET", Exactly "/v1/tools", fun _ => OpListTools); ("GET", Under "/v1/tools/", OpGetTool);
   ("POST", Exactly "/v1/tool-calls", fun _ => OpCreateToolCall); ("GET", Under "/v1/tool-calls/", OpGetToolCall);
   ("POST", Exactly "/v1/admin/tool-versions", fun _ => OpPublishToolVersion);
   ("PUT", Exactly "/v1/admin/tenant-tool-exposures", fun _ => OpSetTenantToolExposure);
   ("GET", Exactly "/livez", fun _ => OpLive); ("GET", Exactly "/readyz", fun _ => OpReady)]%string.

Inductive routed := Operation (op : operation) | NotAllowed | NotFound.

(** No two of the patterns match the same path, so the order does not matter. *)
Definition route (request : Request) : routed :=
  match omap (fun '(m, p, op) => v ← path_value p (rq_Path request); Some (m, op v)) contract_routes with
  | [] => NotFound
  | matching =>
      match List.find (fun mo => method_matches mo.1 (rq_Method request)) matching with
      | Some (_, op) => Operation op
      | None => NotAllowed
      end
  end.

(** [HandlerWithOptions] without a base URL, which is how [Handler] calls it, on a router
    of its own: what the operations, the middlewares and the error handler make of a
    request.  The text of an error of the runtime is an argument. *)
Section Contract.
Context (error_text : goerror -> string).

Definition param_Error (e : param_error) : string :=
  match e with
  | RequiredParamError name => "Query argument " +:+ name +:+ " is required, but not found"
  | RequiredHeaderError name => "Header parameter " +:+ name +:+ " is required, but not found"
  | InvalidParamFormatError name err => "Invalid format for parameter " +:+ name +:+ ": " +:+ error_text err
  | TooManyValuesForParamError name count => "Expected one value for " +:+ name +:+ ", got " +:+ json_int count
  end.

(** [http.Error] *)
Definition bad_parameter (r : Request) (e : param_error) : Response :=
  mkResponse 400 "text/plain; charset=utf-8" false (param_Error e +:+ newline).

Definition HandlerWithOptions (si : ServerInterface Response) (Middlewares : list ((Request -> Response) -> Request -> Response))
    (ErrorHandlerFunc : option (Request -> param_error -> Response)) (bind_header bind_path : string -> string -> result string)
    (bind_query_string : bool -> string -> gmap string (list string) -> option string + bind_error)
    (bind_query_int : bool -> string -> gmap string (list string) -> option Z + bind_error) (request : Request) : Response :=
  match route request with
  | Operation op =>
      perform si Middlewares (default bad_parameter ErrorHandlerFunc) bind_header bind_path bind_query_string bind_query_int
        op request
  | NotAllowed => mux_not_allowed
  | NotFound => mux_not_found
  end.
End Contract.


(** ** Lemmas: routing *)










(** ** Lemmas: documents *)

Definition nonempty (s : string) : option string := if String.eqb s "" then None else Some s.

(** The contract's view of a problem of the service *)
Definition contract_problem (p : Problem) : ProblemDocument :=
  mkProblemDocument (JString (pr_Code p)) (pr_CorrelationID p) (nonempty (pr_Detail p)) (nonempty (pr_Instance p))
    (pr_Status p) (pr_Title p) (pr_Type p) ∅.

Lemma raw_object_encoded fs vs rest : fs <> [] -> skip_ws rest = EmptyString ->
  Forall2 (fun f v => utf8_Valid f.1 = true /\ reads f.2 v) fs vs ->
  raw_object (json_object fs +:+ rest)
  = Ok (foldl (fun object m => <[m_name m := m]> object) ∅ (zip_with (fun f v => mkMember f.1 v f.2) fs vs)).
Proof. intros Hne Hrest Hall. unfold raw_object. rewrite (read_top_encoded_rest fs vs rest Hne Hall), Hrest. done. Qed.

(** A value that [encoding/json] gives back from its own encoding of it: null, booleans,
    UTF-8 strings and the numbers a [float64] is written as, and what is built of them. *)
Definition any_value (v : jvalue) : Prop :=
  reads (json_Marshal v) v /\ numbers_fit v = true /\ with_floats (go_value v) = v.

Lemma any_string text : utf8_Valid text = true -> any_value (JString text).
Proof. intros H. split; [by apply reads_string|done]. Qed.
Lemma any_integer z : float_overflows (json_int z) = false -> json_float (float_of (json_int z)) = json_int z ->
  any_value (JNumber (json_int z)).
Proof. intros Ho Hf. split; [apply reads_int|]. cbn. by rewrite Ho, Hf. Qed.

(** The texts of a document are UTF-8, its status is an [int], its code and its additional
    properties are values that can be read back, and no additional property has the name
    of a field. *)
Definition encodable (d : ProblemDocument) : Prop :=
  any_value (doc_Code d) /\ utf8_Valid (doc_CorrelationId d) = true /\
  utf8_Valid (default EmptyString (doc_Detail d)) = true /\ utf8_Valid (default EmptyString (doc_Instance d)) = true /\
  utf8_Valid (doc_Title d) = true /\ utf8_Valid (doc_Type d) = true /\
  - 2 ^ (64 - 1) <= doc_Status d <= 2 ^ (64 - 1) - 1 /\
  (forall name v, doc_AdditionalProperties d !! name = Some v ->
     utf8_Valid name = true /\ name ∉ problem_fields /\ any_value v).

(** The value of a member, by its name. *)
Definition member_value (d : ProblemDocument) (name : string) : jvalue :=
  if String.eqb name "code" then doc_Code d
  else if String.eqb name "correlation_id" then JString (doc_CorrelationId d)
  else if String.eqb name "detail" then JString (default EmptyString (doc_Detail d))
  else if String.eqb name "instance" then JString (default EmptyString (doc_Instance d))
  else if String.eqb name "status" then JNumber (json_int (doc_Status d))
  else if String.eqb name "title" then JString (doc_Title d)
  else if String.eqb name "type" then JString (doc_Type d)
  else default JNull (doc_AdditionalProperties d !! name).

(** One of the names of the fields. *)
Ltac is_field := apply (bool_decide_unpack _); vm_compute; exact I.

Lemma not_field name : name ∉ problem_fields -> forall field, field ∈ problem_fields -> String.eqb name field = false.
Proof. intros Hn field Hf. apply String.eqb_neq. by intros ->. Qed.

Lemma member_value_extra d name : name ∉ problem_fields -> member_value d name = default JNull (doc_AdditionalProperties d !! name).
Proof.
  intros Hn. unfold member_value. rewrite !(not_field name Hn) by is_field. done.
Qed.

Section Written.
Context (d : ProblemDocument) (He : encodable d).

Lemma extra_none name : name ∈ problem_fields -> doc_AdditionalProperties d !! name = None.
Proof using He.
  intros Hin. destruct (doc_AdditionalProperties d !! name) as [v|] eqn:E; [|done].
  destruct He as (_ & _ & _ & _ & _ & _ & _ & Hx). by destruct (Hx _ _ E) as (_ & Hn & _).
Qed.

(** The texts of the members. *)
Lemma object_texts :
  problem_object d !! "code"%string = Some (json_Marshal (doc_Code d)) /\
  problem_object d !! "correlation_id"%string = Some (json_string (doc_CorrelationId d)) /\
  problem_object d !! "detail"%string = option_map json_string (doc_Detail d) /\
  problem_object d !! "instance"%string = option_map json_string (doc_Instance d) /\
  problem_object d !! "status"%string = Some (json_int (doc_Status d)) /\
  problem_object d !! "title"%string = Some (json_string (doc_Title d)) /\
  problem_object d !! "type"%string = Some (json_string (doc_Type d)) /\
  (forall name, name ∉ problem_fields -> problem_object d !! name = json_Marshal <$> (doc_AdditionalProperties d !! name)).
Proof using He.
  unfold problem_object.
  assert (Hx : forall name (base : gmap string string), name ∈ problem_fields ->
    ((json_Marshal <$> doc_AdditionalProperties d) ∪ base) !! name = base !! name).
  { intros name base Hin. apply lookup_union_r. by rewrite lookup_fmap, (extra_none _ Hin). }
  rewrite !Hx by is_field.
  generalize (json_Marshal (doc_Code d)) (json_int (doc_Status d)) json_string. intros code status text.
  do 7 (split; [destruct (doc_Detail d), (doc_Instance d); vm_compute; reflexivity|]). intros name Hn. rewrite lookup_union_l, lookup_fmap; [done|].
  apply eq_None_not_Some. intros [t Ht]. apply Hn.
  destruct (doc_Detail d), (doc_Instance d);
    repeat (apply lookup_insert_Some in Ht as [[<- _]|[_ Ht]]; [is_field|]);
    apply lookup_singleton_Some in Ht as [<- _]; is_field.
Qed.

Lemma object_reads name text : problem_object d !! name = Some text ->
  utf8_Valid name = true /\ reads text (member_value d name).
Proof using He.
  pose proof He as (Hc & ? & ? & ? & ? & ? & _ & Hx). destruct object_texts as (E1 & E2 & E3 & E4 & E5 & E6 & E7 & E8).
  destruct (decide (name ∈ problem_fields)) as [Hin|Hn].
  - unfold problem_fields in Hin. rewrite !elem_of_cons, elem_of_nil in Hin.
    destruct Hin as [->|[->|[->|[->|[->|[->|[->|[]]]]]]]]; intros Ht; (split; [done|]); unfold member_value;
      cbn [String.eqb Ascii.eqb Bool.eqb].
    + rewrite E1 in Ht. injection Ht as <-. apply Hc.
    + rewrite E2 in Ht. injection Ht as <-. by apply reads_string.
    + rewrite E3 in Ht. destruct (doc_Detail d); [|done]. injection Ht as <-. by apply reads_string.
    + rewrite E4 in Ht. destruct (doc_Instance d); [|done]. injection Ht as <-. by apply reads_string.
    + rewrite E5 in Ht. injection Ht as <-. apply reads_int.
    + rewrite E6 in Ht. injection Ht as <-. by apply reads_string.
    + rewrite E7 in Ht. injection Ht as <-. by apply reads_string.
  - rewrite (E8 _ Hn), (member_value_extra _ _ Hn). destruct (doc_AdditionalProperties d !! name) as [v|] eqn:E; [|done].
    intros [= <-]. destruct (Hx _ _ E) as (? & _ & Ha & _). done.
Qed.

(** What the members of a list with distinct names are in a map. *)
Lemma members_map (l : list member) (acc : gmap string member) : NoDup (map m_name l) ->
  foldl (fun object m => <[m_name m := m]> object) acc l = list_to_map (map (fun m => (m_name m, m)) l) ∪ acc.
Proof.
  revert acc. induction l as [|m l IH]; intros acc Hnd; cbn [map foldl]; [symmetry; apply map_empty_union|].
  cbn [map] in Hnd. apply list.NoDup_cons in Hnd as [Hn Hnd]. rewrite IH by done. cbn [list_to_map foldr].
  rewrite <- insert_union_l. symmetry. apply insert_union_r. apply not_elem_of_list_to_map_1.
  intros Hin. apply Hn. rewrite <- list_fmap_compose in Hin. exact Hin.
Qed.

Lemma raw_object_written fs rest : fs ≡ₚ map_to_list (problem_object d) -> skip_ws rest = EmptyString ->
  exists object, raw_object (json_object fs +:+ rest) = Ok object /\
    forall name, object !! name = mkMember name (member_value d name) <$> problem_object d !! name.
Proof using He.
  intros Hp Hrest.
  assert (Hin : forall f, f ∈ fs <-> problem_object d !! f.1 = Some f.2).
  { intros [n t]. rewrite Hp. apply elem_of_map_to_list. }
  assert (Hnd : NoDup fs.*1) by (rewrite Hp; apply NoDup_fst_map_to_list).
  eexists. split.
  { apply (raw_object_encoded fs (map (fun f => member_value d f.1) fs)); [|done|].
    - intros ->. destruct object_texts as (E & _). apply (Hin ("code"%string, json_Marshal (doc_Code d))) in E.
      by apply elem_of_nil in E.
    - apply Forall2_fmap_r, list.Forall_Forall2_diag, list.Forall_forall. intros [n t] Hf%Hin. by apply object_reads. }
  assert (Hz : zip_with (fun f v => mkMember f.1 v f.2) fs (map (fun f => member_value d f.1) fs)
               = map (fun f => mkMember f.1 (member_value d f.1) f.2) fs).
  { clear. induction fs as [|f fs IH]; [done|]. cbn. by rewrite IH. }
  rewrite Hz, members_map.
  2:{ rewrite map_map. cbn [m_name]. exact Hnd. }
  rewrite map_union_empty, map_map. cbn [m_name]. intros name. apply option_eq. intros m.
  rewrite <- elem_of_list_to_map.
  2:{ rewrite <- list_fmap_compose. exact Hnd. }
  rewrite list_elem_of_fmap, fmap_Some. split.
  - intros ([n t] & [= -> ->] & Hf%Hin). eauto.
  - intros (t & Ht & ->). exists (name, t). split; [done|]. by apply Hin.
Qed.

(** Reading back: the fields, then everything that is left. *)
Lemma additional_written object old :
  (forall name, object !! name = mkMember name (member_value d name) <$> problem_object d !! name) ->
  old = ∅ -> additional object old = Ok (doc_AdditionalProperties d).
Proof using He.
  intros Hobj ->. pose proof He as (_ & _ & _ & _ & _ & _ & _ & Hx). destruct object_texts as (_ & _ & _ & _ & _ & _ & _ & E8).
  unfold additional. set (rest := foldr delete object problem_fields).
  assert (Hrest : forall name, rest !! name =
    (fun v => mkMember name v (json_Marshal v)) <$> doc_AdditionalProperties d !! name).
  { intros name. destruct (decide (name ∈ problem_fields)) as [Hin|Hn].
    - rewrite (extra_none _ Hin). subst rest. unfold problem_fields in *. cbn [foldr].
      rewrite !elem_of_cons, elem_of_nil in Hin.
      destruct Hin as [->|[->|[->|[->|[->|[->|[->|[]]]]]]]]; rewrite ?lookup_delete_ne by done; apply lookup_delete_eq.
    - assert (forall field, field ∈ problem_fields -> field <> name) as Hne by (intros field Hf ->; done).
      subst rest. unfold problem_fields at 1. cbn [foldr]. rewrite !lookup_delete_ne by (apply Hne; is_field).
      rewrite Hobj, (E8 _ Hn), (member_value_extra _ _ Hn). by destruct (doc_AdditionalProperties d !! name). }
  assert (Hval : m_value <$> rest = doc_AdditionalProperties d).
  { apply map_eq. intros name. rewrite lookup_fmap, Hrest. by destruct (doc_AdditionalProperties d !! name). }
  case_bool_decide as Hempty; [by rewrite <- Hval, Hempty, fmap_empty|].
  assert (Hm : mapM (fun kv : string * member => set_any kv.2 JNull ≫= fun v => Some (kv.1, v)) (map_to_list rest)
    = Some (prod_map id m_value <$> map_to_list rest)).
  { apply mapM_Some_2, Forall2_fmap_r, list.Forall_Forall2_diag, list.Forall_forall. intros [name m] Hin%elem_of_map_to_list.
    rewrite Hrest, fmap_Some in Hin. destruct Hin as (v & Hv & ->). destruct (Hx _ _ Hv) as (_ & _ & _ & Hfit & Hfl).
    cbn [fst snd prod_map id m_value]. unfold set_any. cbn [m_value]. by rewrite Hfit, Hfl. }
  rewrite Hm. f_equal. by rewrite list_to_map_fmap, list_to_map_to_list.
Qed.

Lemma written_problem fs rest : fs ≡ₚ map_to_list (problem_object d) -> skip_ws rest = EmptyString ->
  UnmarshalJSON (json_object fs +:+ rest) zero_problem = Ok d.
Proof using He.
  intros Hp Hrest. destruct (raw_object_written fs rest Hp Hrest) as (object & Hraw & Hobj).
  pose proof He as ((_ & Hfit & Hfl) & _ & _ & _ & _ & _ & Hs & _).
  destruct object_texts as (E1 & E2 & E3 & E4 & E5 & E6 & E7 & _).
  unfold UnmarshalJSON, read_field. rewrite Hraw. cbn [mbind result_bind].
  rewrite !Hobj, E1, E2, E3, E4, E5, E6, E7, (additional_written object (doc_AdditionalProperties zero_problem) Hobj eq_refl).
  change (member_value d "code") with (doc_Code d). change (member_value d "correlation_id") with (JString (doc_CorrelationId d)).
  change (member_value d "detail") with (JString (default EmptyString (doc_Detail d))).
  change (member_value d "instance") with (JString (default EmptyString (doc_Instance d))).
  change (member_value d "status") with (JNumber (json_int (doc_Status d))).
  change (member_value d "title") with (JString (doc_Title d)). change (member_value d "type") with (JString (doc_Type d)).
  unfold set_any, set_int, set_string, set_string_ptr. cbn [fmap option_fmap option_map m_value].
  rewrite Hfit, Hfl, (ParseIntN_json_int 64 _ Hs). cbn [mbind result_bind].
  destruct d as [c re de i st ti ty ad]. cbn. by destruct de, i.
Qed.
End Written.

(** The service writes a problem in the order of its struct, the contract in that of the names. *)
Lemma service_problem p rest : encodable (contract_problem p) -> skip_ws rest = EmptyString ->
  UnmarshalJSON (problem_json p +:+ rest) zero_problem = Ok (contract_problem p).
Proof.
  intros He Hrest. unfold problem_json. apply written_problem; [done| |done].
  match goal with |- ?fs ≡ₚ _ => assert (Hnd : NoDup fs.*1); [|assert (E : list_to_map fs = problem_object (contract_problem p))] end.
  - destruct p as [ty ti st de ins co corr]. unfold omit_empty. cbn [pr_Detail pr_Instance].
    destruct (String.eqb de ""), (String.eqb ins ""); apply NoDup_ListNoDup; repeat constructor; cbn; naive_solver.
  - destruct p as [ty ti st de ins co corr]. unfold omit_empty, contract_problem, problem_object, nonempty. cbn -[list_to_map json_string json_int].
    rewrite fmap_empty, map_empty_union. generalize json_string json_int. intros text number.
    destruct (String.eqb de ""), (String.eqb ins ""); vm_compute; reflexivity.
  - rewrite <- E. symmetry. by apply map_to_list_to_map.
Qed.

Lemma contract_roundtrip d : encodable d -> UnmarshalJSON (MarshalJSON d) zero_problem = Ok d.
Proof.
  intros He. unfold MarshalJSON. rewrite <- (append_nil_r (json_object _)). apply written_problem; [done| |done].
  apply merge_sort_Permutation.
Qed.

(** Every public problem is a short ASCII text with an HTTP status. *)
Lemma public_spec code : let '(code', spec) := match public_problem code with
                                               | Some spec => (code, spec)
                                               | None => (CodeInternal, mkSpec 500 "Internal server error")
                                               end in
  utf8_Valid code' = true /\ utf8_Valid ("urn:thinkpixeltg:problem:" +:+ code') = true /\ utf8_Valid (spec_title spec) = true /\
  400 <= spec_status spec <= 599 /\ code' <> EmptyString.
Proof.
  destruct (public_problem code) as [spec|] eqn:E; [|by vm_compute].
  unfold public_problem in E. apply fmap_Some in E as ([k spec'] & Hfind & ->).
  apply List.find_some in Hfind as [Hin <-%String.eqb_eq]. cbn [fst snd].
  assert (Hall : forallb (fun kv => utf8_Valid kv.1 && utf8_Valid ("urn:thinkpixeltg:problem:" +:+ kv.1)
    && utf8_Valid (spec_title kv.2) && (400 <=? spec_status kv.2) && (spec_status kv.2 <=? 599) && negb (String.eqb kv.1 ""))
    publicProblems = true) by (vm_compute; reflexivity).
  rewrite forallb_forall in Hall. specialize (Hall _ Hin). cbn [fst snd] in Hall.
  rewrite !andb_true_iff, negb_true_iff, String.eqb_neq, !Z.leb_le in Hall. tauto.
Qed.

Section Calls.
Context (render_time : Z -> string).

(** The instant is written as an RFC 3339 string. *)
Definition rendered (t : Z) : Prop :=
  exists text, utf8_Valid text = true /\ render_time t = json_string text /\ parse_rfc3339 text = Some t.

Lemma created_decodes r rest :
  let inv := tcres_Invocation r in
  rendered (inv_CreatedAt inv) -> rendered (inv_UpdatedAt inv) -> skip_ws rest = EmptyString ->
  Forall (fun s => utf8_Valid s = true) [tcres_State r; inv_ToolCallID inv; inv_ToolID inv; inv_ToolVersion inv] ->
  decode_tool_call (created_json render_time r +:+ rest)
  = Some (mkToolCallDocument None (inv_CreatedAt inv) None JNull (JString (tcres_State r)) (inv_ToolCallID inv) (inv_ToolID inv)
            (inv_UpdatedAt inv) (inv_ToolVersion inv)).
Proof.
  intros inv (ct & Hct & Ec & Pc) (ut & Hut & Eu & Pu) Hrest Hall.
  repeat (apply list.Forall_cons in Hall as [? Hall]). unfold created_json, decode_tool_call, decode_document, decode_struct. fold inv.
  rewrite Ec, Eu.
  rewrite (read_top_encoded_rest _ [JString ct; JString (tcres_State r); JString (inv_ToolCallID inv); JString (inv_ToolID inv);
    JString ut; JString (inv_ToolVersion inv)]); [|done|repeat constructor; cbn; try done; by apply reads_string].
  cbn -[parse_rfc3339 json_string]. unfold set_time. cbn -[parse_rfc3339 json_string]. rewrite Pc. cbn -[parse_rfc3339 json_string].
  rewrite Pu. cbn -[json_string]. by rewrite Hrest.
Qed.
End Calls.

(** A problem of the service with UTF-8 texts and the status of a response can be read. *)
Lemma contract_encodable p : Forall (fun s => utf8_Valid s = true)
    [pr_Code p; pr_CorrelationID p; pr_Detail p; pr_Instance p; pr_Title p; pr_Type p] -> 0 <= pr_Status p <= 999 ->
  encodable (contract_problem p).
Proof.
  intros Hall Hs. repeat (apply list.Forall_cons in Hall as [? Hall]).
  assert (Hne : forall s, utf8_Valid s = true -> utf8_Valid (default EmptyString (nonempty s)) = true)
    by (intros s Hu; unfold nonempty; by destruct (String.eqb s "")).
  unfold encodable, contract_problem. cbn [doc_Code doc_CorrelationId doc_Detail doc_Instance doc_Status doc_Title doc_Type
    doc_AdditionalProperties]. split_and!; auto using any_string; [lia|lia|]. intros name v. by rewrite lookup_empty.
Qed.

(** What a client reads of a problem that the service writes: this status, code, request ID
    and instance, and nothing else. *)
Definition client_reads (body : string) (status : Z) (code correlation : string) (instance : option string) : Prop :=
  exists d, UnmarshalJSON body zero_problem = Ok d /\ encodable d /\ doc_Status d = status /\ doc_Code d = JString code /\
    doc_CorrelationId d = correlation /\ doc_Instance d = instance /\ doc_Detail d = None /\
    doc_Type d = "urn:thinkpixeltg:problem:" +:+ code /\ forall name, Get d name = None.

(** The document of a problem that is written for a code. *)
Lemma public_document correlation path code instance :
  utf8_Valid correlation = true -> utf8_Valid path = true -> utf8_Valid instance = true ->
  let response := writePublicProblemAt correlation path code instance in
  client_reads (rs_Body response) (rs_Status response) (if is_some (public_problem code) then code else CodeInternal) correlation
    (nonempty (if String.eqb instance "" then path else instance)).
Proof.
  intros Hcorr Hpath Hins. unfold writePublicProblemAt. pose proof (public_spec code) as Hspec.
  replace (if is_some (public_problem code) then code else CodeInternal) with
    (match public_problem code with Some spec => (code, spec) | None => (CodeInternal, mkSpec 500 "Internal server error") end).1
    by (by destruct (public_problem code)).
  destruct (match public_problem code with Some spec => _ | None => _ end) as [code' spec].
  destruct Hspec as (H1 & H2 & H3 & H4 & H5). unfold WriteProblem. cbn [pr_Code pr_Instance pr_Type pr_Title pr_Status pr_Detail fst].
  rewrite (proj2 (String.eqb_neq code' "") H5). cbv zeta. cbn [rs_Body rs_Status].
  set (i := if String.eqb instance "" then path else instance). assert (Hi : utf8_Valid i = true) by (subst i; by destruct (String.eqb _ _)).
  match goal with |- context [problem_json ?q] => exists (contract_problem q); assert (He : encodable (contract_problem q)) end.
  { apply contract_encodable; [|cbn; lia]. repeat (apply list.Forall_cons; split; [done|]). apply list.Forall_nil. done. }
  split; [by apply service_problem|]. split; [exact He|]. split_and!; try done.
Qed.

(** The document of a result that is blocked for its size. *)
Lemma blocked_document correlation : utf8_Valid correlation = true ->
  client_reads (rs_Body (writeBlocked correlation)) 403 CodeResultBlocked correlation None.
Proof.
  intros Hcorr. unfold writeBlocked. cbn [rs_Body].
  match goal with |- context [problem_json ?q] => exists (contract_problem q); assert (He : encodable (contract_problem q)) end.
  { apply contract_encodable; [|cbn; lia]. repeat (apply list.Forall_cons; split; [done|]). apply list.Forall_nil. done. }
  split; [by apply service_problem|]. split; [exact He|]. split_and!; try done.
Qed.

(** ** Lemmas: parameters *)

(** The key the handlers of the service accept is the one the wrapper binds, when the
    runtime leaves a text as it is. *)
Lemma key_bound bind_header request key : (forall name value, bind_header name value = Ok value) ->
  idempotency_key request = Some key -> idempotency_param bind_header request = inl key.
Proof.
  intros Hbind. unfold idempotency_key, idempotency_param, values_of.
  destruct (rq_Header request !! "Idempotency-Key"%string) as [[|value [|]]|]; try done.
  destruct (String.eqb _ "" || _); [done|]. intros [= <-]. by rewrite Hbind.
Qed.

(** ** Properties *)

(** C28: what the service writes, a client of the contract reads.  The body of every public
    problem is decoded by the generated [Problem] to its status, its public code, its
    type, the request ID and the instance, without detail and without additional
    properties, and so is the problem that replaces a result over the response bound;
    the generated encoding of a problem is decoded to the same problem, its additional
    properties included, when its texts are UTF-8, its code and additional properties are
    values that [encoding/json] reads back from its own encoding and none has the name of a
    field; and the answer to a created tool call is decoded by the generated [ToolCall] to
    the identifiers, the state and the instants of the invocation. *)
Theorem answers_follow_contract (render_time : Z -> string) (correlation path code instance : string) (r : ToolCallResult)
    (Hutf8 : Forall (fun s => utf8_Valid s = true) [correlation; path; instance])
    (Hcall : Forall (fun s => utf8_Valid s = true)
       [tcres_State r; inv_ToolCallID (tcres_Invocation r); inv_ToolID (tcres_Invocation r); inv_ToolVersion (tcres_Invocation r)])
    (Hcreated : rendered render_time (inv_CreatedAt (tcres_Invocation r)))
    (Hupdated : rendered render_time (inv_UpdatedAt (tcres_Invocation r))) :
  let response := writePublicProblemAt correlation path code instance in
  client_reads (rs_Body response) (rs_Status response) (if is_some (public_problem code) then code else CodeInternal) correlation
    (nonempty (if String.eqb instance "" then path else instance)) /\
  (forall status contentType noStore encoded, maxPublicResultBytes < slen encoded + 1 ->
     let blocked := writeBoundedJSON correlation status contentType noStore encoded in
     rs_Status blocked = 403 /\ client_reads (rs_Body blocked) 403 "result_blocked" correlation None) /\
  (forall d, encodable d -> UnmarshalJSON (MarshalJSON d) zero_problem = Ok d) /\
  let inv := tcres_Invocation r in
  decode_tool_call (created_json render_time r +:+ newline)
  = Some (mkToolCallDocument None (inv_CreatedAt inv) None JNull (JString (tcres_State r)) (inv_ToolCallID inv) (inv_ToolID inv)
            (inv_UpdatedAt inv) (inv_ToolVersion inv)).
Proof.
  cbv zeta. repeat (apply list.Forall_cons in Hutf8 as [? Hutf8]). split_and!.
  - by apply public_document.
  - intros status contentType noStore encoded Hbig. unfold writeBoundedJSON. rewrite (proj2 (Z.ltb_lt _ _) Hbig).
    split; [done|]. by apply blocked_document.
  - exact contract_roundtrip.
  - by apply created_decodes.
Qed.


(** ** Witness and examples *)

Definition ex_render (t : Z) : string := json_string (default EmptyString (format_rfc3339 t)).
Definition ex_result : ToolCallResult :=
  mkToolCallResult (mkInvocation "inv-1" "run-1" "call-1" "github.pull.get" "1.2.0" Profile "" "" "" "safe" "received"
    unix_epoch (unix_epoch + Second)) "received" false.

Definition ex_problem : ProblemDocument :=
  mkProblemDocument (JString "rate_limited") "req-1" None (Some "/v1/tools"%string) 429 "Rate limit exceeded" "urn:problem"
    {[ "retry_after"%string := JNumber (json_int 60); "hint"%string := JString "later" ]}.

Lemma answers_follow_contract_witness :
  (exists d, UnmarshalJSON (rs_Body (writePublicProblemAt "req-1" "/v1/tools" CodeRateLimited "")) zero_problem = Ok d /\
     doc_Status d = 429) /\
  UnmarshalJSON (MarshalJSON ex_problem) zero_problem = Ok ex_problem /\
  decode_tool_call (created_json ex_render ex_result +:+ newline) <> None.
Proof.
  assert (Ht : forall t, (let text := default EmptyString (format_rfc3339 t) in
    utf8_Valid text && bool_decide (parse_rfc3339 text = Some t)) = true -> rendered ex_render t).
  { intros t Ht. apply andb_true_iff in Ht as [Hu Hp]. exists (default EmptyString (format_rfc3339 t)).
    split; [exact Hu|]. split; [reflexivity|]. apply bool_decide_eq_true in Hp. exact Hp. }
  destruct (answers_follow_contract ex_render "req-1" "/v1/tools" CodeRateLimited "" ex_result) as ((d & Hd & _ & Hs & _) & _ & Hback & Hc).
  - repeat constructor.
  - repeat constructor.
  - apply Ht. vm_compute. reflexivity.
  - apply Ht. vm_compute. reflexivity.
  - split; [exists d; split; [exact Hd|exact Hs]|]. split; [|rewrite Hc; discriminate]. apply Hback. split_and!.
    1: by apply any_string.
    1-5: reflexivity. 1-2: cbn; lia.
    intros name v. cbn [doc_AdditionalProperties ex_problem]. intros [[<- <-]|[_ [<- <-]%lookup_singleton_Some]]%lookup_insert_Some;
      (split; [reflexivity|]; split; [apply (bool_decide_unpack _); vm_compute; exact I|]).
    + apply (any_integer 60); vm_compute; reflexivity.
    + by apply any_string.
Defined.

(** Members outside the contract are kept as additional properties, and written back. *)
Example extensions_kept :
  match UnmarshalJSON (quoted "{'type':'t','title':'x','status':429,'code':'rate_limited','correlation_id':'c','retry_after':1.50}") zero_problem with
  | Ok d => Get d "retry_after" = Some (JNumber "1.5") /\
      MarshalJSON d = quoted "{'code':'rate_limited','correlation_id':'c','retry_after':1.5,'status':429,'title':'x','type':'t'}"
  | Err _ => False
  end.
Proof. vm_compute. split; reflexivity. Qed.

(** A call without a key is refused by the contract with the name of the header. *)
Lemma key_required error_text si middlewares bind_header bind_path bind_query_string bind_query_int request :
  route request = Operation OpCreateToolCall -> rq_Header request !! "Idempotency-Key"%string = None ->
  HandlerWithOptions error_text si middlewares None bind_header bind_path bind_query_string bind_query_int request
  = mkResponse 400 "text/plain; charset=utf-8" false
      ("Header parameter Idempotency-Key is required, but not found" +:+ newline).
Proof.
  intros Hroute Hkey. unfold HandlerWithOptions. rewrite Hroute. cbn [perform]. unfold CreateToolCall, with_key, idempotency_param.
  by rewrite Hkey.
Qed.

(** A status that is not an integer is an error of the document. *)
Example status_refused :
  UnmarshalJSON (quoted "{'status':'429'}") zero_problem = Err (ErrNew "error reading 'status'").
Proof. vm_compute. reflexivity. Qed.

(** Two keys are refused before the handler runs. *)
Example two_keys_refused bind_header :
  idempotency_param bind_header
    (mkRequest "POST" "/v1/tool-calls" "" ∅ {[ "Idempotency-Key"%string := ["a"; "b"]%string ]} 0 (Ok EmptyString))
  = inr (TooManyValuesForParamError "Idempotency-Key" 2).
Proof. reflexivity. Qed.
