(* ===== verification/InvocationState.v ===== *)
(** * The invocation lifecycle (src/internal/invocationstate/state.go)

    The pure, versioned state machine of a logical invocation.  [State] and
    [Actor] are open Go string types: their constants are constructors and
    every other string is [OtherState] / [OtherActor].  [Transition] returns
    the snapshot and the sentinel error, as the Go function does. *)
From S2P Require Import Prelude.

(** ** Data *)

Inductive State :=
| Received | Validated | Authorized | PreToolPassed | WaitingForApproval
| Ready | Executing | RetryWait | Reconciling | Ambiguous | ManualReview
| PostTool | Succeeded | Failed | Denied | Blocked | Cancelled
| OtherState (raw : string).

Inductive Actor :=
| Ingress | Orchestrator | Worker | Reconciler | Operator | AGAdapter | GRAdapter
| OtherActor (raw : string).

#[global] Instance State_eq_dec : EqDecision State.
Proof. solve_decision. Defined.
#[global] Instance Actor_eq_dec : EqDecision Actor.
Proof. solve_decision. Defined.

Inductive TransitionError :=
| ErrInvalidState | ErrInvalidActor | ErrVersionConflict | ErrVersionExhausted
| ErrTerminalImmutable | ErrIllegalTransition | ErrActorForbidden
| ErrApprovalRequired | ErrCurrentFence | ErrResolution.

Record Snapshot := MkSnapshot { SnapState : State; SnapVersion : Z }.

Record Command := MkCommand {
  CmdActor : Actor;
  CmdTarget : State;
  ExpectedVersion : Z;
  ApprovalSatisfied : bool;
  CurrentFence : bool;
  ResolutionRecorded : bool }.

(** ** Operations *)

Definition State_Valid (state : State) : bool :=
  match state with
  | Received | Validated | Authorized | PreToolPassed | WaitingForApproval
  | Ready | Executing | RetryWait | Reconciling | Ambiguous | ManualReview
  | PostTool | Succeeded | Failed | Denied | Blocked | Cancelled => true
  | OtherState _ => false
  end.

Definition Terminal (state : State) : bool :=
  match state with
  | Succeeded | Failed | Denied | Blocked | Cancelled => true
  | _ => false
  end.

Definition Actor_Valid (actor : Actor) : bool :=
  match actor with
  | Ingress | Orchestrator | Worker | Reconciler | Operator | AGAdapter | GRAdapter => true
  | OtherActor _ => false
  end.

Record edge := MkEdge { from : State; to : State }.

#[global] Instance edge_eq_dec : EqDecision edge.
Proof. solve_decision. Defined.

Record rule := MkRule {
  actors : list Actor;
  approval : bool;
  fence : bool;
  resolution : bool }.

Definition allow (acts : list Actor) : rule := MkRule acts false false false.
Definition withApproval (value : rule) : rule :=
  MkRule (actors value) true (fence value) (resolution value).
Definition withFence (value : rule) : rule :=
  MkRule (actors value) (approval value) true (resolution value).
Definition withResolution (value : rule) : rule :=
  MkRule (actors value) (approval value) (fence value) true.

(** The map literal [rules], in the order of the source. *)
Definition rules : list (edge * rule) := [
  (MkEdge Received Validated, allow [Ingress; Orchestrator]);
  (MkEdge Received Failed, allow [Ingress; Orchestrator]);
  (MkEdge Received Cancelled, allow [Ingress; Orchestrator]);
  (MkEdge Validated Authorized, allow [Orchestrator]);
  (MkEdge Validated Failed, allow [Ingress; Orchestrator]);
  (MkEdge Validated Denied, allow [Orchestrator]);
  (MkEdge Validated Cancelled, allow [Ingress; Orchestrator]);
  (MkEdge Authorized PreToolPassed, allow [Orchestrator]);
  (MkEdge Authorized Validated, allow [Orchestrator]);
  (MkEdge Authorized Failed, allow [Orchestrator]);
  (MkEdge Authorized Blocked, allow [Orchestrator]);
  (MkEdge Authorized Cancelled, allow [Ingress; Orchestrator]);
  (MkEdge PreToolPassed WaitingForApproval, allow [Orchestrator]);
  (MkEdge PreToolPassed Ready, allow [Orchestrator]);
  (MkEdge PreToolPassed Validated, allow [Orchestrator]);
  (MkEdge PreToolPassed Failed, allow [Orchestrator]);
  (MkEdge PreToolPassed Blocked, allow [Orchestrator]);
  (MkEdge PreToolPassed Cancelled, allow [Ingress; Orchestrator]);
  (MkEdge WaitingForApproval Ready, withApproval (allow [Orchestrator]));
  (MkEdge WaitingForApproval Validated, allow [Orchestrator]);
  (MkEdge WaitingForApproval Failed, allow [Orchestrator]);
  (MkEdge WaitingForApproval Blocked, allow [Orchestrator]);
  (MkEdge WaitingForApproval Cancelled, allow [Ingress; Orchestrator]);
  (MkEdge Ready Executing, withFence (allow [Worker]));
  (MkEdge Ready Failed, allow [Orchestrator]);
  (MkEdge Ready Cancelled, allow [Ingress; Orchestrator]);
  (MkEdge Executing PostTool, withFence (allow [Worker]));
  (MkEdge Executing RetryWait, withFence (allow [Worker]));
  (MkEdge Executing Ambiguous, withFence (allow [Worker]));
  (MkEdge Executing Failed, withFence (allow [Worker]));
  (MkEdge RetryWait Executing, withFence (allow [Worker]));
  (MkEdge RetryWait Failed, allow [Orchestrator]);
  (MkEdge RetryWait Cancelled, allow [Orchestrator]);
  (MkEdge Ambiguous Reconciling, withFence (allow [Reconciler]));
  (MkEdge Ambiguous ManualReview, allow [Orchestrator; Reconciler]);
  (MkEdge Reconciling PostTool, withFence (allow [Reconciler]));
  (MkEdge Reconciling RetryWait, withFence (allow [Reconciler]));
  (MkEdge Reconciling ManualReview, withFence (allow [Reconciler]));
  (MkEdge Reconciling Failed, withFence (allow [Reconciler]));
  (MkEdge Reconciling Cancelled, withFence (allow [Reconciler]));
  (MkEdge ManualReview PostTool, withResolution (allow [Operator]));
  (MkEdge ManualReview RetryWait, withResolution (allow [Operator]));
  (MkEdge ManualReview Failed, withResolution (allow [Operator]));
  (MkEdge ManualReview Cancelled, withResolution (allow [Operator]));
  (MkEdge PostTool Succeeded, allow [Orchestrator]);
  (MkEdge PostTool Failed, allow [Orchestrator]);
  (MkEdge PostTool Blocked, allow [Orchestrator]) ].

(** Go's map index [rules[e]]: the value and whether the key is present. *)
Fixpoint lookup_rule (e : edge) (rs : list (edge * rule)) : option rule :=
  match rs with
  | [] => None
  | (e', r) :: rs' => if bool_decide (e = e') then Some r else lookup_rule e rs'
  end.

Definition Transition (current : Snapshot) (command : Command)
  : Snapshot * option TransitionError :=
  if negb (State_Valid (SnapState current)) || negb (State_Valid (CmdTarget command))
     || (SnapVersion current <? 0)
  then (current, Some ErrInvalidState)
  else if negb (Actor_Valid (CmdActor command)) then (current, Some ErrInvalidActor)
  else if negb (ExpectedVersion command =? SnapVersion current)
  then (current, Some ErrVersionConflict)
  else if Terminal (SnapState current) then (current, Some ErrTerminalImmutable)
  else if SnapVersion current =? max_int64 then (current, Some ErrVersionExhausted)
  else match lookup_rule (MkEdge (SnapState current) (CmdTarget command)) rules with
  | None => (current, Some ErrIllegalTransition)
  | Some r =>
    if negb (bool_decide (CmdActor command ∈ actors r)) then (current, Some ErrActorForbidden)
    else if approval r && negb (ApprovalSatisfied command)
    then (current, Some ErrApprovalRequired)
    else if fence r && negb (CurrentFence command) then (current, Some ErrCurrentFence)
    else if resolution r && negb (ResolutionRecorded command)
    then (current, Some ErrResolution)
    else (MkSnapshot (CmdTarget command) (wrap_int64 (SnapVersion current + 1)), None)
  end.

(** ** Specification: the lifecycle as a step relation *)

(** One accepted transition. *)
Definition step (s : Snapshot) (c : Command) (s' : Snapshot) : Prop :=
  Transition s c = (s', None).

(** A history: the commands accepted and the states entered, oldest first. *)
Inductive history : Snapshot -> list Command -> list State -> Snapshot -> Prop :=
| history_nil s : history s [] [] s
| history_snoc s cs visited s1 c s2 :
    history s cs visited s1 -> step s1 c s2 ->
    history s (cs ++ [c]) (visited ++ [SnapState s2]) s2.

(** The control stages a state certifies: entering it requires the earlier
    stages to have been entered, in this order. *)
Definition stages (state : State) : list State :=
  match state with
  | Validated => [Validated]
  | Authorized => [Validated; Authorized]
  | PreToolPassed => [Validated; Authorized; PreToolPassed]
  | WaitingForApproval => [Validated; Authorized; PreToolPassed; WaitingForApproval]
  | Ready => [Validated; Authorized; PreToolPassed; Ready]
  | Executing => [Validated; Authorized; PreToolPassed; Ready; Executing]
  | RetryWait | Ambiguous | Reconciling | ManualReview =>
      [Validated; Authorized; PreToolPassed; Ready; Executing]
  | PostTool => [Validated; Authorized; PreToolPassed; Ready; Executing; PostTool]
  | Succeeded =>
      [Validated; Authorized; PreToolPassed; Ready; Executing; PostTool; Succeeded]
  | _ => []
  end.

(** Executable subsequence test. *)
Fixpoint subseqb (xs ys : list State) : bool :=
  match xs, ys with
  | [], _ => true
  | _ :: _, [] => false
  | x :: xs', y :: ys' =>
      if bool_decide (x = y) then subseqb xs' ys' else subseqb (x :: xs') ys'
  end.

(** ** Lemmas *)

Lemma subseqb_sublist xs ys : subseqb xs ys = true -> xs `sublist_of` ys.
Proof.
  revert xs; induction ys as [|y ys IH]; intros [|x xs]; simpl; intros H;
    try (done || apply sublist_nil_l).
  case_bool_decide; subst; [by apply sublist_skip, IH | by apply sublist_cons, IH].
Qed.

Lemma lookup_rule_elem e r rs : lookup_rule e rs = Some r -> (e, r) ∈ rs.
Proof.
  induction rs as [|[e' r'] rs IH]; simpl; [done|].
  case_bool_decide; intros; simplify_eq; [left | right; auto].
Qed.

(** Every fact about an edge of the table is a check over the finite table. *)
Lemma rules_forall (P : edge -> rule -> bool) e r :
  forallb (fun er => P er.1 er.2) rules = true ->
  lookup_rule e rules = Some r -> P e r = true.
Proof.
  intros Hall Hl%lookup_rule_elem.
  rewrite forallb_forall in Hall. apply (Hall (e, r)). by apply list_elem_of_In.
Qed.

Lemma Transition_None_inv s c s' :
  step s c s' ->
  exists r, lookup_rule (MkEdge (SnapState s) (CmdTarget c)) rules = Some r /\
    State_Valid (SnapState s) = true /\ State_Valid (CmdTarget c) = true /\
    Actor_Valid (CmdActor c) = true /\ ExpectedVersion c = SnapVersion s /\
    Terminal (SnapState s) = false /\ 0 <= SnapVersion s /\ SnapVersion s <> max_int64 /\
    CmdActor c ∈ actors r /\
    (approval r = true -> ApprovalSatisfied c = true) /\
    (fence r = true -> CurrentFence c = true) /\
    (resolution r = true -> ResolutionRecorded c = true) /\
    s' = MkSnapshot (CmdTarget c) (wrap_int64 (SnapVersion s + 1)).
Proof.
  unfold step, Transition. intros H. branches. to_prop. destruct_and?.
  eexists; split_and!; try done; try lia.
  all: intros Hr; rewrite Hr in *; naive_solver.
Qed.

(** The edge taken by an accepted command, for checks over the table. *)
Lemma step_edge s c s' :
  step s c s' ->
  exists r, lookup_rule (MkEdge (SnapState s) (SnapState s')) rules = Some r /\
    CmdActor c ∈ actors r /\ CmdTarget c = SnapState s' /\
    (fence r = true -> CurrentFence c = true) /\
    (resolution r = true -> ResolutionRecorded c = true).
Proof. intros (r & ?)%Transition_None_inv. exists r. naive_solver. Qed.

(** When a command is accepted. *)
Lemma step_intro st a t w ap f r ru :
  0 <= w < max_int64 -> State_Valid st = true -> State_Valid t = true ->
  Terminal st = false -> Actor_Valid a = true ->
  lookup_rule (MkEdge st t) rules = Some ru -> a ∈ actors ru ->
  (approval ru = true -> ap = true) -> (fence ru = true -> f = true) ->
  (resolution ru = true -> r = true) ->
  step (MkSnapshot st w) (MkCommand a t w ap f r) (MkSnapshot t (w + 1)).
Proof.
  intros Hw H1 H2 H3 H4 H5 H6 H7 H8 H9.
  unfold step, Transition; cbn -[max_int64 lookup_rule]. rewrite H1, H2, H3, H4, H5, Z.eqb_refl.
  assert (w <? 0 = false) as -> by lia.
  assert (w =? max_int64 = false) as -> by lia. cbn -[wrap_int64].
  rewrite bool_decide_true by done. cbn -[wrap_int64].
  rewrite wrap_int64_id by (unfold is_int64, min_int64, max_int64 in *; lia).
  destruct (approval ru), (fence ru), (resolution ru);
    rewrite ?H7, ?H8, ?H9 by done; reflexivity.
Qed.

Lemma step_version s c s' :
  is_int64 (SnapVersion s) -> step s c s' -> SnapVersion s' = SnapVersion s + 1.
Proof.
  intros Hs (r & Hstep)%Transition_None_inv. destruct_and!. subst s'. simpl.
  unfold is_int64, min_int64, max_int64 in *. apply wrap_int64_id.
  unfold is_int64, min_int64, max_int64. lia.
Qed.

Lemma stages_step s c s' :
  step s c s' -> stages (SnapState s') `sublist_of` stages (SnapState s) ++ [SnapState s'].
Proof.
  intros (r & Hl & _)%step_edge. apply subseqb_sublist.
  apply (rules_forall
    (fun e _ => subseqb (stages (to e)) (stages (from e) ++ [to e])) _ _ eq_refl Hl).
Qed.

Lemma history_stages s cs visited s' :
  history s cs visited s' -> SnapState s = Received ->
  stages (SnapState s') `sublist_of` visited.
Proof.
  intros Hh Hs. induction Hh as [s|s cs visited s1 c s2 Hh IH Hstep].
  - rewrite Hs. apply sublist_nil_l.
  - etrans; [by eapply stages_step|]. apply sublist_app; auto.
Qed.

Lemma history_length s cs visited s' :
  history s cs visited s' -> length visited = length cs.
Proof. induction 1; [done|]. rewrite !length_app; simpl; lia. Qed.

Lemma history_range s cs visited s' :
  history s cs visited s' -> is_int64 (SnapVersion s) -> is_int64 (SnapVersion s').
Proof.
  induction 1 as [|s cs visited s1 c s2 _ _ Hstep]; [done|intros _].
  apply Transition_None_inv in Hstep as (r & ?). destruct_and!. subst.
  apply wrap_int64_range.
Qed.

(** An accepted command, as an executable test: used to build histories. *)
Lemma history_step s cs visited s1 c s2 :
  history s cs visited s1 -> Transition s1 c = (s2, None) ->
  history s (cs ++ [c]) (visited ++ [SnapState s2]) s2.
Proof. intros. by econstructor. Qed.

(** Replaying commands: the executable counterpart of [history]. *)
Fixpoint replay (s : Snapshot) (cs : list Command) : option (list State * Snapshot) :=
  match cs with
  | [] => Some ([], s)
  | c :: cs' =>
    match Transition s c with
    | (s1, None) =>
      match replay s1 cs' with
      | Some (visited, s') => Some (SnapState s1 :: visited, s')
      | None => None
      end
    | _ => None
    end
  end.

Lemma history_cons s c s1 cs visited s' :
  step s c s1 -> history s1 cs visited s' ->
  history s (c :: cs) (SnapState s1 :: visited) s'.
Proof.
  intros Hstep Hh. induction Hh as [s1|s1 cs visited s2 c' s3 _ IH Hs].
  - apply (history_snoc s [] [] s c s1); [constructor | done].
  - apply (history_snoc s (c :: cs) (SnapState s1 :: visited) s2 c' s3); auto.
Qed.

Lemma replay_history s cs visited s' :
  replay s cs = Some (visited, s') -> history s cs visited s'.
Proof.
  revert s visited. induction cs as [|c cs IH]; intros s visited; simpl.
  - intros; simplify_eq. constructor.
  - intros H. destruct (Transition s c) as [s1 [|]] eqn:E; [done|].
    destruct (replay s1 cs) as [[vs s2]|] eqn:E2; simplify_eq.
    eapply history_cons; eauto.
Qed.

(** The same for a fact that holds of the edges satisfying a condition. *)
Lemma rules_implb (P Q : edge -> rule -> bool) e r :
  forallb (fun er => implb (P er.1 er.2) (Q er.1 er.2)) rules = true ->
  lookup_rule e rules = Some r -> P e r = true -> Q e r = true.
Proof.
  intros Hall Hl HP. pose proof (rules_forall (fun e r => implb (P e r) (Q e r)) _ _ Hall Hl) as H.
  simpl in H. by rewrite HP in H.
Qed.

(** States entered after an ambiguous outcome without a retry. *)
Definition settled : list State :=
  [Ambiguous; Reconciling; ManualReview; PostTool; Succeeded; Failed; Blocked; Cancelled].

Lemma history_resolved s cs visited s' :
  history s cs visited s' -> SnapState s = Ambiguous ->
  (Reconciling ∈ visited \/ ManualReview ∈ visited) \/ SnapState s' = Ambiguous.
Proof.
  intros Hh Hs. induction Hh as [|s cs visited s1 c s2 _ IH Hstep]; [by right|].
  destruct (IH Hs) as [[?|?]|Ha]; [rewrite !elem_of_app; tauto..|].
  apply step_edge in Hstep as (r & Hl & _).
  pose proof (rules_implb (fun e _ => bool_decide (from e = Ambiguous))
    (fun e _ => bool_decide (to e ∈ [Reconciling; ManualReview])) _ _ eq_refl Hl
    (bool_decide_eq_true_2 _ Ha)) as Hc%bool_decide_eq_true.
  left. cbn [to] in Hc. rewrite !elem_of_app, !list_elem_of_singleton.
  apply elem_of_cons in Hc as [?|?%list_elem_of_singleton]; auto.
Qed.

Lemma history_settled s cs visited s' :
  history s cs visited s' -> SnapState s = Ambiguous ->
  RetryWait ∈ visited \/ SnapState s' ∈ settled.
Proof.
  intros Hh Hs. induction Hh as [|s cs visited s1 c s2 _ IH Hstep].
  { right. rewrite Hs. apply list_elem_of_here. }
  destruct (IH Hs) as [?|Hin]; [left; apply elem_of_app; auto|].
  apply step_edge in Hstep as (r & Hl & _).
  pose proof (rules_implb (fun e _ => bool_decide (from e ∈ settled))
    (fun e _ => bool_decide (to e ∈ RetryWait :: settled)) _ _ eq_refl Hl
    (bool_decide_eq_true_2 _ Hin)) as Hc%bool_decide_eq_true.
  cbn [to] in Hc. rewrite elem_of_app, list_elem_of_singleton.
  apply elem_of_cons in Hc as [?|?]; auto.
Qed.

Lemma history_fenced s cs visited s' :
  history s cs visited s' ->
  Forall (fun c => CmdTarget c = Executing ->
    CmdActor c = Worker /\ CurrentFence c = true) cs.
Proof.
  induction 1 as [|s cs visited s1 c s2 _ IH Hstep]; [constructor|].
  apply Forall_app_2; [done|]. constructor; [|constructor]. intros Ht.
  apply step_edge in Hstep as (r & Hl & Ha & Htgt & Hf & _).
  rewrite <- Htgt, Ht in Hl.
  pose proof (rules_implb (fun e _ => bool_decide (to e = Executing))
    (fun _ r => bool_decide (actors r = [Worker]) && fence r) _ _ eq_refl Hl eq_refl) as Hc.
  apply andb_true_iff in Hc as [Hw%bool_decide_eq_true Hfe].
  rewrite Hw in Ha. apply list_elem_of_singleton in Ha. auto.
Qed.

(** ** Properties *)

(** C2: An invocation that entered [Executing] was validated, authorized,
    passed the pre-tool guardrail and was made ready before, in this order;
    one that [Succeeded] also executed and passed post-tool processing.  No
    sequence of commands by any actors can skip a control. *)
Theorem execution_requires_controls s cs visited s' :
  history s cs visited s' -> SnapState s = Received ->
  (SnapState s' = Executing ->
     [Validated; Authorized; PreToolPassed; Ready; Executing] `sublist_of` visited) /\
  (SnapState s' = Succeeded ->
     [Validated; Authorized; PreToolPassed; Ready; Executing; PostTool; Succeeded]
       `sublist_of` visited).
Proof.
  intros Hh Hs. pose proof (history_stages _ _ _ _ Hh Hs) as H.
  split; intros Ht; rewrite Ht in H; exact H.
Qed.

(** A successful life of an invocation: the commands of its ten transitions. *)
Definition life : list Command := [
  MkCommand Ingress Validated 0 false false false;
  MkCommand Orchestrator Authorized 1 false false false;
  MkCommand Orchestrator PreToolPassed 2 false false false;
  MkCommand Orchestrator WaitingForApproval 3 false false false;
  MkCommand Orchestrator Ready 4 true false false;
  MkCommand Worker Executing 5 false true false;
  MkCommand Worker Ambiguous 6 false true false;
  MkCommand Reconciler Reconciling 7 false true false;
  MkCommand Reconciler PostTool 8 false true false;
  MkCommand Orchestrator Succeeded 9 false false false ].

Lemma execution_requires_controls_witness :
  [Validated; Authorized; PreToolPassed; Ready; Executing; PostTool; Succeeded] `sublist_of`
  [Validated; Authorized; PreToolPassed; WaitingForApproval; Ready; Executing; Ambiguous;
   Reconciling; PostTool; Succeeded].
Proof.
  apply (execution_requires_controls (MkSnapshot Received 0) life _ (MkSnapshot Succeeded 10)).
  - apply replay_history. vm_compute. reflexivity.
  - reflexivity.
  - reflexivity.
Defined.

(** Optimistic concurrency: once a command is accepted, every other
    well-formed command that expected the version it was accepted at is
    refused as a version conflict and leaves the snapshot unchanged. *)
Theorem stale_command_rejected s c s' c' :
  is_int64 (SnapVersion s) -> step s c s' ->
  State_Valid (CmdTarget c') = true -> Actor_Valid (CmdActor c') = true ->
  ExpectedVersion c' = SnapVersion s ->
  Transition s' c' = (s', Some ErrVersionConflict).
Proof.
  intros Hr Hstep Ht Ha He.
  pose proof (step_version _ _ _ Hr Hstep) as Hv.
  apply Transition_None_inv in Hstep as (r & Hstep). destruct_and!.
  unfold Transition. rewrite Ht, Ha, He, Hv.
  assert (State_Valid (SnapState s') = true) as -> by (subst s'; done).
  assert (SnapVersion s + 1 <? 0 = false) as -> by lia.
  by assert (SnapVersion s =? SnapVersion s + 1 = false) as -> by lia.
Qed.

Lemma stale_command_rejected_witness :
  Transition (MkSnapshot Validated 1) (MkCommand Ingress Cancelled 0 false false false)
  = (MkSnapshot Validated 1, Some ErrVersionConflict).
Proof.
  apply (stale_command_rejected (MkSnapshot Received 0)
    (MkCommand Ingress Validated 0 false false false)); try reflexivity.
  unfold is_int64, min_int64, max_int64. simpl. lia.
Defined.

(** The version of a snapshot counts exactly the accepted transitions and
    never leaves the [int64] range: the increment cannot wrap around. *)
Theorem history_version s cs visited s' :
  history s cs visited s' -> is_int64 (SnapVersion s) ->
  SnapVersion s' = SnapVersion s + Z.of_nat (length cs) /\
  is_int64 (SnapVersion s') /\ length visited = length cs.
Proof.
  intros Hh Hs. split_and!; eauto using history_range, history_length.
  induction Hh as [s|s cs visited s1 c s2 Hh IH Hstep]; [simpl; lia|].
  rewrite (step_version _ _ _ (history_range _ _ _ _ Hh Hs) Hstep), IH by done.
  rewrite length_app; simpl; lia.
Qed.

Lemma history_version_witness :
  SnapVersion (MkSnapshot Succeeded 10) = 0 + Z.of_nat (length life) /\
  is_int64 10 /\ length (SnapState <$> [MkSnapshot Validated 1]) = 1%nat.
Proof.
  assert (H : history (MkSnapshot Received 0) life
    [Validated; Authorized; PreToolPassed; WaitingForApproval; Ready; Executing; Ambiguous;
     Reconciling; PostTool; Succeeded] (MkSnapshot Succeeded 10))
    by (apply replay_history; vm_compute; reflexivity).
  destruct (history_version _ _ _ _ H) as (H1 & H2 & _).
  { unfold is_int64, min_int64, max_int64. simpl. lia. }
  exact (conj H1 (conj H2 eq_refl)).
Defined.

(** Terminal states are absorbing: no command of any actor is accepted
    there, and a refused command, in any state, returns the snapshot as it was. *)
Theorem terminal_absorbing s c :
  (Terminal (SnapState s) = true -> exists e, Transition s c = (s, Some e)) /\
  (forall s' e, Transition s c = (s', Some e) -> s' = s).
Proof.
  split; unfold Transition; [intros Ht; rewrite Ht; repeat case_match; eauto|].
  intros s' e H. branches; done.
Qed.

(** Every live invocation can still be brought to an end: from each valid
    state with versions left, some sequence of commands reaches a terminal state. *)
Theorem live_state_can_finish state v :
  State_Valid state = true -> 0 <= v <= max_int64 - 3 ->
  exists cs visited s', history (MkSnapshot state v) cs visited s' /\
    Terminal (SnapState s') = true.
Proof.
  intros Hv Hr.
  destruct (Terminal state) eqn:Ht; [by eexists [], [], _; split; [constructor|]|].
  destruct (decide (state = Ambiguous)) as [->|Ha].
  - eexists _, _, (MkSnapshot Failed (v + 1 + 1)). split; [|done].
    eapply history_cons; [|eapply history_cons; [|constructor]].
    + apply (step_intro Ambiguous Orchestrator ManualReview v false false false
        (allow [Orchestrator; Reconciler])); try done; [lia|apply list_elem_of_here].
    + apply (step_intro ManualReview Operator Failed (v + 1) false false true
        (withResolution (allow [Operator]))); try done; [lia|apply list_elem_of_here].
  - assert (exists a ru, Actor_Valid a = true /\
      lookup_rule (MkEdge state Failed) rules = Some ru /\ a ∈ actors ru)
      as (a & ru & Hav & Hru & Hin).
    { destruct state; try done;
        (eexists _, _; split_and!; [|reflexivity|apply list_elem_of_here]; done). }
    eexists _, _, (MkSnapshot Failed (v + 1)). split; [|done].
    eapply history_cons; [|constructor].
    apply (step_intro state a Failed v true true true ru); done || lia.
Qed.

Lemma live_state_can_finish_witness :
  exists cs visited s', history (MkSnapshot Ambiguous 6) cs visited s' /\
    Terminal (SnapState s') = true.
Proof. apply live_state_can_finish; [reflexivity|]. unfold max_int64. lia. Defined.

(** No blind retry: after an ambiguous outcome the invocation is executed
    again only through a fenced reconciliation or a recorded manual resolution,
    and every entry into [Executing] is a worker's with a current fence. *)
Theorem no_blind_retry s cs visited s' :
  history s cs visited s' -> SnapState s = Ambiguous -> SnapState s' = Executing ->
  (Reconciling ∈ visited \/ ManualReview ∈ visited) /\ RetryWait ∈ visited /\
  Forall (fun c => CmdTarget c = Executing ->
    CmdActor c = Worker /\ CurrentFence c = true) cs.
Proof.
  intros Hh Hs Ht. split_and!; [| |by eapply history_fenced].
  - destruct (history_resolved _ _ _ _ Hh Hs); [done|congruence].
  - destruct (history_settled _ _ _ _ Hh Hs) as [|Hin]; [done|].
    rewrite Ht in Hin. by apply (bool_decide_eq_true_2 (Executing ∈ settled)) in Hin.
Qed.

(** The ambiguous invocation of [life] that is reconciled, retried and executed. *)
Lemma no_blind_retry_witness :
  (Reconciling ∈ [Reconciling; RetryWait; Executing] \/
   ManualReview ∈ [Reconciling; RetryWait; Executing]) /\
  RetryWait ∈ [Reconciling; RetryWait; Executing].
Proof.
  destruct (no_blind_retry (MkSnapshot Ambiguous 7)
    [MkCommand Reconciler Reconciling 7 false true false;
     MkCommand Reconciler RetryWait 8 false true false;
     MkCommand Worker Executing 9 false true false]
    [Reconciling; RetryWait; Executing] (MkSnapshot Executing 10)) as (H1 & H2 & _);
    [apply replay_history; vm_compute; reflexivity | reflexivity | reflexivity |].
  exact (conj H1 H2).
Defined.
